(** * Subsurface profile engine: a shallow embedding of [core/profile.c]

    The development follows the pipeline of [create_plot_info_new]:
    the event-name registry, the entry densifier
    ([populate_plot_entries]), the gas-pressure reconstruction
    ([setup_gas_sensor_pressure]), the closed-circuit oxygen voting
    ([calculate_ccr_po2]), the consumption estimator ([fill_sac],
    [sac_between]) and the decompression solver
    ([calculate_deco_information], [calculate_ndl_tts]).

    Conventions.
    - A C [int] is a [Z]; the embedding covers the executions in which no
      signed overflow occurs (overflow is undefined in C).  C's [/] on
      [int] truncates toward zero and is written [Z.quot].
    - A C array is a [list]; [a[i] = v] is stdpp's [<[i:=v]> a] and reading
      is [a !! i].  An index outside the array is undefined in C; the
      list update leaves the list unchanged there.
    - A [double] whose value matters is an exact rational ([Q]).
    - Helpers that [profile.c] calls but that live in other translation
      units are section variables, or are modelled from the written
      specification where a statement is about their result. *)

From Stdlib Require Import ZArith List String Ascii Bool Lia QArith Qround Lqa.
From stdpp Require Import base list sorting.

Import ListNotations.
Local Open Scope Z_scope.

(** ** C arithmetic helpers *)

Module CInt.

(** [ROUND_UP(x, y)] from [profile.c]. *)
Definition ROUND_UP (x y : Z) : Z := Z.quot (x + y - 1) y * y.

(** [DIV_UP(x, y)] from [profile.c]. *)
Definition DIV_UP (x y : Z) : Z := Z.quot (x + y - 1) y.

(** The usual [MIN] and [MAX] macros. *)
Definition MIN (a b : Z) : Z := if a <? b then a else b.
Definition MAX (a b : Z) : Z := if a >? b then a else b.

Definition INT_MAX : Z := 2147483647.

(** The integer nearest to [n / d], a tie going to the even neighbour: what
    [lrint] makes of the quotient in the default rounding mode. *)
Definition round_div (n d : Z) : Z :=
  let q := n / d in
  let r := n mod d in
  if 2 * Z.abs r <? Z.abs d then q
  else if 2 * Z.abs r >? Z.abs d then q + 1
  else if Z.even q then q else q + 1.

Lemma MIN_spec a b : MIN a b = Z.min a b.
Proof. unfold MIN. destruct (Z.ltb_spec a b); lia. Qed.

Lemma MAX_spec a b : MAX a b = Z.max a b.
Proof. unfold MAX. destruct (Z.gtb_spec a b); lia. Qed.

Lemma round_div_nearest (n d : Z) :
  d <> 0 -> 2 * Z.abs (d * round_div n d - n) <= Z.abs d.
Proof.
  intros Hd. unfold round_div.
  pose proof (Z.div_mod n d Hd) as Hdm.
  assert (Hr : 0 <= n mod d < d \/ d < n mod d <= 0).
  { destruct (Z.lt_trichotomy d 0) as [Hneg|[H0|Hpos]]; [right|lia|left].
    - apply Z.mod_neg_bound. exact Hneg.
    - apply Z.mod_pos_bound. exact Hpos. }
  set (q := n / d) in *. set (r := n mod d) in *.
  destruct (Z.ltb_spec (2 * Z.abs r) (Z.abs d)); [lia|].
  destruct (Z.gtb_spec (2 * Z.abs r) (Z.abs d)); [lia|].
  destruct (Z.even q); lia.
Qed.

Lemma round_div_nonneg (n d : Z) : 0 <= n -> 0 < d -> 0 <= round_div n d.
Proof.
  intros Hn Hd. unfold round_div.
  pose proof (Z.div_pos n d Hn Hd) as Hq.
  repeat match goal with |- context [if ?b then _ else _] => destruct b end; lia.
Qed.

End CInt.

(** ** The event-name registry ([remember_event]) *)

Module EventNames.

(** [struct ev_select]: a remembered event name and whether it is shown. *)
Record ev_select : Type := mk_ev_select {
  ev_name : string;
  plot_ev : bool
}.

(** The three globals [ev_namelist], [evn_allocated], [evn_used].  The list
    holds the [evn_used] slots in use, so [evn_used] is its length. *)
Record registry : Type := mk_registry {
  ev_namelist : list ev_select;
  evn_allocated : nat
}.

Definition evn_used (r : registry) : nat := List.length (ev_namelist r).

(** [strlen]. *)
Definition strlen (s : string) : nat := String.length s.

(** [strncmp s1 s2 n]: compares at most [n] characters; the result is the
    difference of the first two characters that differ, and zero when
    none does.  The end of a string plays the role of the NUL byte. *)
Fixpoint strncmp (s1 s2 : string) (n : nat) : Z :=
  match n with
  | O => 0
  | S n' =>
    match s1, s2 with
    | EmptyString, EmptyString => 0
    | EmptyString, String c2 _ => 0 - Z.of_nat (nat_of_ascii c2)
    | String c1 _, EmptyString => Z.of_nat (nat_of_ascii c1)
    | String c1 t1, String c2 t2 =>
      if Ascii.eqb c1 c2 then strncmp t1 t2 n'
      else Z.of_nat (nat_of_ascii c1) - Z.of_nat (nat_of_ascii c2)
    end
  end.

(** The [while (i < evn_used)] scan: [true] when some registered name
    compares equal to [eventname] on its first [len] characters. *)
Fixpoint already_known (eventname : string) (len : nat) (l : list ev_select) : bool :=
  match l with
  | [] => false
  | e :: l' =>
    if strncmp eventname (ev_name e) len =? 0 then true
    else already_known eventname len l'
  end.

(** [remember_event].  [eventname = None] is the null pointer.
    [realloc_ok] is the outcome of [realloc] should the array have to grow;
    when it fails the function bails out with [ev_namelist] lost, which is
    the result [None].  The result of [strdup], which the code stores
    unchecked, is taken to be the copy of the name. *)
Definition remember_event (realloc_ok : bool) (eventname : option string)
    (r : registry) : option registry :=
  match eventname with
  | None => Some r
  | Some name =>
    let len := strlen name in
    if Nat.eqb len 0 then Some r
    else if already_known name len (ev_namelist r) then Some r
    else
      let grown :=
        if Nat.eqb (evn_used r) (evn_allocated r)
        then (if realloc_ok then Some (evn_allocated r + 10)%nat else None)
        else Some (evn_allocated r) in
      match grown with
      | None => None
      | Some allocated =>
        Some {| ev_namelist := ev_namelist r ++ [ {| ev_name := name; plot_ev := true |} ];
                evn_allocated := allocated |}
      end
  end.

(** [clear_events]. *)
Definition clear_events (r : registry) : registry :=
  {| ev_namelist := []; evn_allocated := evn_allocated r |}.

(** A name is a prefix of a registered one. *)
Definition prefix_of_registered (name : string) (l : list ev_select) : Prop :=
  Exists (fun e => String.prefix name (ev_name e) = true) l.

(** The spare slot the append needs is there, or [realloc] provides it. *)
Definition room (realloc_ok : bool) (r : registry) : Prop :=
  evn_used r <> evn_allocated r \/ realloc_ok = true.

Fixpoint count_name (name : string) (l : list ev_select) : nat :=
  match l with
  | [] => O
  | e :: l' => ((if String.eqb name (ev_name e) then 1 else 0) + count_name name l')%nat
  end.

(** A C string holds no NUL byte before its end. *)
Fixpoint nul_free (s : string) : bool :=
  match s with
  | EmptyString => true
  | String c t => negb (Ascii.eqb c zero) && nul_free t
  end.

Lemma ascii_code_diff (c1 c2 : ascii) :
  Ascii.eqb c1 c2 = false ->
  Z.of_nat (nat_of_ascii c1) - Z.of_nat (nat_of_ascii c2) <> 0.
Proof.
  intros Hne Hz.
  assert (Heq : nat_of_ascii c1 = nat_of_ascii c2) by lia.
  apply (f_equal ascii_of_nat) in Heq.
  rewrite !ascii_nat_embedding in Heq.
  apply Ascii.eqb_neq in Hne. contradiction.
Qed.

Lemma strncmp_prefix (s1 s2 : string) :
  nul_free s1 = true ->
  (strncmp s1 s2 (String.length s1) = 0 <-> String.prefix s1 s2 = true).
Proof.
  revert s2. induction s1 as [|c1 t1 IH]; intros s2 Hnf; cbn [strncmp String.length String.prefix].
  - split; [intros _|reflexivity]. destruct s2; reflexivity.
  - simpl in Hnf. apply andb_prop in Hnf as [Hc Ht].
    destruct s2 as [|c2 t2].
    + split; [|discriminate]. intros H. exfalso.
      apply (ascii_code_diff c1 zero).
      * destruct (Ascii.eqb c1 zero); [discriminate|reflexivity].
      * replace (Z.of_nat (nat_of_ascii zero)) with 0 by reflexivity.
        rewrite Z.sub_0_r. exact H.
    + simpl (String.prefix _ _).
      destruct (Ascii.eqb_spec c1 c2) as [->|Hne].
      * destruct (ascii_dec c2 c2) as [_|Hn]; [|contradiction]. apply IH, Ht.
      * destruct (ascii_dec c1 c2) as [He|_]; [contradiction|].
        split; [|discriminate]. intros H. exfalso.
        apply (ascii_code_diff c1 c2); [|exact H].
        apply Ascii.eqb_neq, Hne.
Qed.

Lemma already_known_iff (name : string) (l : list ev_select) :
  nul_free name = true ->
  (already_known name (strlen name) l = true <-> prefix_of_registered name l).
Proof.
  intros Hnf. unfold prefix_of_registered, strlen.
  induction l as [|e l IH]; simpl.
  - split; [discriminate|]. intros H. inversion H.
  - destruct (Z.eqb_spec (strncmp name (ev_name e) (String.length name)) 0) as [Hz|Hz].
    + split; [|reflexivity]. intros _. apply Exists_cons_hd.
      apply strncmp_prefix; assumption.
    + rewrite IH. split.
      * intros H. apply Exists_cons_tl, H.
      * intros H. inversion H as [? ? Hp|? ? Hp]; subst; [|exact Hp].
        exfalso. apply Hz. apply strncmp_prefix; assumption.
Qed.

Lemma prefix_refl (s : string) : String.prefix s s = true.
Proof.
  induction s as [|c t IH]; simpl; [reflexivity|].
  destruct (ascii_dec c c); [exact IH|contradiction].
Qed.

Lemma count_name_fresh (name : string) (l : list ev_select) :
  ~ prefix_of_registered name l -> count_name name l = O.
Proof.
  unfold prefix_of_registered. induction l as [|e l IH]; simpl; intros Hn; [reflexivity|].
  destruct (String.eqb_spec name (ev_name e)) as [He|_].
  - exfalso. apply Hn, Exists_cons_hd. rewrite <- He. apply prefix_refl.
  - simpl. apply IH. intros H. apply Hn, Exists_cons_tl, H.
Qed.

Lemma count_name_app (name : string) (l1 l2 : list ev_select) :
  count_name name (l1 ++ l2) = (count_name name l1 + count_name name l2)%nat.
Proof. induction l1 as [|e l1 IH]; simpl; [reflexivity|]. rewrite IH. lia. Qed.

(** C10, as the code has it.  [remember_event] leaves the registry as it is
    when the name is null, empty, or a prefix of a name already registered
    (the scan compares only the first [strlen eventname] characters).
    Otherwise, when a slot is free or [realloc] provides one, it appends
    the name once, shown by default: the new registry is the old one
    followed by that one entry, and it then holds the name exactly once.
    When the array is full and [realloc] fails, it bails out and nothing is
    appended. *)
Theorem remember_event_spec (realloc_ok : bool) (eventname : option string) (r : registry) :
  (forall name, eventname = Some name -> nul_free name = true) ->
  ((eventname = None \/ eventname = Some EmptyString \/
    (exists name, eventname = Some name /\ prefix_of_registered name (ev_namelist r))) ->
   remember_event realloc_ok eventname r = Some r) /\
  (forall name, eventname = Some name -> name <> EmptyString ->
   ~ prefix_of_registered name (ev_namelist r) ->
   room realloc_ok r ->
   exists r', remember_event realloc_ok eventname r = Some r' /\
     ev_namelist r' = ev_namelist r ++ [ {| ev_name := name; plot_ev := true |} ] /\
     evn_used r' = S (evn_used r) /\
     count_name name (ev_namelist r') = 1%nat) /\
  (forall name, eventname = Some name -> name <> EmptyString ->
   ~ prefix_of_registered name (ev_namelist r) ->
   ~ room realloc_ok r ->
   remember_event realloc_ok eventname r = None).
Proof.
  intros Hnf. split; [|split].
  - intros [->|[->|[name [-> Hp]]]]; [reflexivity|reflexivity|].
    unfold remember_event.
    destruct (Nat.eqb (strlen name) 0); [reflexivity|].
    apply already_known_iff in Hp; [|apply Hnf; reflexivity].
    rewrite Hp. reflexivity.
  - intros name -> Hne Hfresh Hroom.
    assert (Hk : already_known name (strlen name) (ev_namelist r) = false).
    { destruct (already_known name (strlen name) (ev_namelist r)) eqn:E; [|reflexivity].
      exfalso. apply Hfresh. apply already_known_iff; [apply Hnf; reflexivity|exact E]. }
    assert (Hlen : Nat.eqb (strlen name) 0 = false).
    { destruct name; [contradiction|reflexivity]. }
    unfold remember_event. rewrite Hlen, Hk.
    assert (Hg : exists a,
      (if Nat.eqb (evn_used r) (evn_allocated r)
       then (if realloc_ok then Some (evn_allocated r + 10)%nat else None)
       else Some (evn_allocated r)) = Some a).
    { destruct (Nat.eqb_spec (evn_used r) (evn_allocated r)) as [He|He].
      - destruct Hroom as [Hr| ->]; [contradiction|]. eexists; reflexivity.
      - eexists; reflexivity. }
    destruct Hg as [a ->]. eexists. split; [reflexivity|]. simpl.
    split; [reflexivity|]. split.
    + unfold evn_used. simpl. rewrite List.length_app. simpl. lia.
    + rewrite count_name_app, count_name_fresh by assumption. simpl.
      rewrite String.eqb_refl. reflexivity.
  - intros name -> Hne Hfresh Hroom.
    assert (Hk : already_known name (strlen name) (ev_namelist r) = false).
    { destruct (already_known name (strlen name) (ev_namelist r)) eqn:E; [|reflexivity].
      exfalso. apply Hfresh. apply already_known_iff; [apply Hnf; reflexivity|exact E]. }
    assert (Hlen : Nat.eqb (strlen name) 0 = false).
    { destruct name; [contradiction|reflexivity]. }
    unfold remember_event. rewrite Hlen, Hk.
    destruct (Nat.eqb_spec (evn_used r) (evn_allocated r)) as [He|He].
    + destruct realloc_ok; [|reflexivity]. exfalso. apply Hroom. right. reflexivity.
    + exfalso. apply Hroom. left. exact He.
Qed.

(** The theorem applied to a registry holding "gaschange": "gas" is a
    prefix of it and is not added; "bookmark" is appended; and with the ten
    slots in use and no memory for more, "bookmark" is not. *)
Definition one_name : registry :=
  {| ev_namelist := [ {| ev_name := "gaschange"; plot_ev := true |} ]; evn_allocated := 10 |}.

Definition full_registry : registry :=
  {| ev_namelist := [ {| ev_name := "gaschange"; plot_ev := true |} ]; evn_allocated := 1 |}.

Lemma remember_event_spec_witness :
  remember_event false (Some "gas"%string) one_name = Some one_name /\
  (exists r', remember_event false (Some "bookmark"%string) one_name = Some r' /\
     ev_namelist r' = [ {| ev_name := "gaschange"; plot_ev := true |};
                        {| ev_name := "bookmark"; plot_ev := true |} ]) /\
  remember_event false (Some "bookmark"%string) full_registry = None.
Proof.
  assert (Hnf : forall name, Some "bookmark"%string = Some name -> nul_free name = true).
  { intros name H. injection H as <-. reflexivity. }
  assert (Hfresh : ~ prefix_of_registered "bookmark" (ev_namelist one_name)).
  { intros H. inversion H as [? ? Hp|? ? Hp]; subst; [discriminate|inversion Hp]. }
  split; [|split].
  - apply (remember_event_spec false (Some "gas"%string) one_name).
    + intros name H. injection H as <-. reflexivity.
    + right. right. exists "gas"%string. split; [reflexivity|].
      apply Exists_cons_hd. reflexivity.
  - destruct (remember_event_spec false (Some "bookmark"%string) one_name Hnf)
      as (_ & Happend & _).
    destruct (Happend "bookmark"%string eq_refl) as (r' & Heq & Hlist & _).
    + discriminate.
    + exact Hfresh.
    + left. unfold evn_used. simpl. lia.
    + exists r'. split; [exact Heq|exact Hlist].
  - destruct (remember_event_spec false (Some "bookmark"%string) full_registry Hnf)
      as (_ & _ & Hbail).
    apply (Hbail "bookmark"%string eq_refl).
    + discriminate.
    + exact Hfresh.
    + intros [H|H]; [apply H; reflexivity|discriminate].
Defined.

Definition empty_registry : registry := {| ev_namelist := []; evn_allocated := 0 |}.

(** C10 as stated fails: the very first name to remember finds no slot
    ([evn_used = evn_allocated = 0]); when [realloc] then fails, the name is
    not appended. *)
Lemma remember_event_out_of_memory :
  ~ prefix_of_registered "gaschange" (ev_namelist empty_registry) /\
  ~ exists r', remember_event false (Some "gaschange"%string) empty_registry = Some r'.
Proof.
  split.
  - intros H. inversion H.
  - intros [r' H]. discriminate.
Qed.

End EventNames.

(** ** The data model: samples, events, cylinders and dense entries *)

(** [struct sample]: one raw point recorded by a dive computer. *)
Module sample.
Record t : Type := mk {
  time : Z;                (* time.seconds *)
  stoptime : Z;
  ndl : Z;
  tts : Z;
  rbt : Z;
  depth : Z;               (* depth.mm *)
  stopdepth : Z;
  temperature : Z;         (* temperature.mkelvin *)
  pressure : Z * Z;        (* pressure[0].mbar, pressure[1].mbar *)
  setpoint : Z;
  o2sensor : list Z;       (* o2sensor[0..2].mbar *)
  bearing : Z;
  sensor : nat * nat;      (* sensor[0], sensor[1]: cylinder indices *)
  cns : Z;
  heartbeat : Z;
  sac : Z;                 (* sac.mliter *)
  in_deco : bool
}.
End sample.

(** [struct event]: the list [dc->events] is a Rocq list, [ev->next] its tail. *)
Module event.
Record t : Type := mk {
  time : Z;                (* time.seconds *)
  name : string;
  value : Z;
  gas_index : Z            (* gas.index, negative when not given *)
}.
End event.

(** [cylinder_t], as far as the profile uses it. *)
Module cylinder.
Record t : Type := mk {
  start : Z;               (* start.mbar *)
  end_ : Z                 (* end.mbar *)
}.
End cylinder.

Inductive divemode_t : Type := OC | CCR | PSCR | FREEDIVE | UNDEF_COMP_TYPE.

Definition divemode_eqb (a b : divemode_t) : bool :=
  match a, b with
  | OC, OC | CCR, CCR | PSCR, PSCR | FREEDIVE, FREEDIVE
  | UNDEF_COMP_TYPE, UNDEF_COMP_TYPE => true
  | _, _ => false
  end.

(** [struct divecomputer], as far as the profile uses it. *)
Module divecomputer.
Record t : Type := mk {
  sample : list sample.t;  (* dc->sample[0 .. dc->samples-1] *)
  events : list event.t;
  divemode : divemode_t;
  no_o2sensors : nat
}.
Definition samples (dc : t) : Z := Z.of_nat (List.length (sample dc)).
End divecomputer.

(** [struct plot_data]: one entry of the dense series.  [pressure] holds,
    per cylinder, the pair [(pressure[cyl][SENSOR_PR],
    pressure[cyl][INTERPOLATED_PR])].  Fields that the functions embedded
    below neither read nor write (smoothing, velocity, tissue graphs) are
    left out. *)
Record plot_data : Type := mk_plot_data {
  in_deco : bool;
  sec : Z;
  pressure : list (Z * Z);
  temperature : Z;
  depth : Z;
  ndl : Z;
  tts : Z;
  rbt : Z;
  stoptime : Z;
  stopdepth : Z;
  cns : Z;
  sac : Z;
  running_sum : Z;
  pressures_o2 : Q;
  o2pressure : Z;
  o2sensor : list Z;
  o2setpoint : Z;
  in_deco_calc : bool;
  ndl_calc : Z;
  tts_calc : Z;
  stoptime_calc : Z;
  stopdepth_calc : Z;
  heartbeat : Z;
  bearing : Z
}.

Definition set_in_deco (v : bool) (e : plot_data) : plot_data :=
  let 'mk_plot_data x0 x1 x2 x3 x4 x5 x6 x7 x8 x9 x10 x11 x12 x13 x14 x15 x16 x17 x18 x19 x20 x21 x22 x23 := e in
  mk_plot_data v x1 x2 x3 x4 x5 x6 x7 x8 x9 x10 x11 x12 x13 x14 x15 x16 x17 x18 x19 x20 x21 x22 x23.

Definition set_sec (v : Z) (e : plot_data) : plot_data :=
  let 'mk_plot_data x0 x1 x2 x3 x4 x5 x6 x7 x8 x9 x10 x11 x12 x13 x14 x15 x16 x17 x18 x19 x20 x21 x22 x23 := e in
  mk_plot_data x0 v x2 x3 x4 x5 x6 x7 x8 x9 x10 x11 x12 x13 x14 x15 x16 x17 x18 x19 x20 x21 x22 x23.

Definition set_pressure (v : list (Z * Z)) (e : plot_data) : plot_data :=
  let 'mk_plot_data x0 x1 x2 x3 x4 x5 x6 x7 x8 x9 x10 x11 x12 x13 x14 x15 x16 x17 x18 x19 x20 x21 x22 x23 := e in
  mk_plot_data x0 x1 v x3 x4 x5 x6 x7 x8 x9 x10 x11 x12 x13 x14 x15 x16 x17 x18 x19 x20 x21 x22 x23.

Definition set_temperature (v : Z) (e : plot_data) : plot_data :=
  let 'mk_plot_data x0 x1 x2 x3 x4 x5 x6 x7 x8 x9 x10 x11 x12 x13 x14 x15 x16 x17 x18 x19 x20 x21 x22 x23 := e in
  mk_plot_data x0 x1 x2 v x4 x5 x6 x7 x8 x9 x10 x11 x12 x13 x14 x15 x16 x17 x18 x19 x20 x21 x22 x23.

Definition set_depth (v : Z) (e : plot_data) : plot_data :=
  let 'mk_plot_data x0 x1 x2 x3 x4 x5 x6 x7 x8 x9 x10 x11 x12 x13 x14 x15 x16 x17 x18 x19 x20 x21 x22 x23 := e in
  mk_plot_data x0 x1 x2 x3 v x5 x6 x7 x8 x9 x10 x11 x12 x13 x14 x15 x16 x17 x18 x19 x20 x21 x22 x23.

Definition set_ndl (v : Z) (e : plot_data) : plot_data :=
  let 'mk_plot_data x0 x1 x2 x3 x4 x5 x6 x7 x8 x9 x10 x11 x12 x13 x14 x15 x16 x17 x18 x19 x20 x21 x22 x23 := e in
  mk_plot_data x0 x1 x2 x3 x4 v x6 x7 x8 x9 x10 x11 x12 x13 x14 x15 x16 x17 x18 x19 x20 x21 x22 x23.

Definition set_tts (v : Z) (e : plot_data) : plot_data :=
  let 'mk_plot_data x0 x1 x2 x3 x4 x5 x6 x7 x8 x9 x10 x11 x12 x13 x14 x15 x16 x17 x18 x19 x20 x21 x22 x23 := e in
  mk_plot_data x0 x1 x2 x3 x4 x5 v x7 x8 x9 x10 x11 x12 x13 x14 x15 x16 x17 x18 x19 x20 x21 x22 x23.

Definition set_rbt (v : Z) (e : plot_data) : plot_data :=
  let 'mk_plot_data x0 x1 x2 x3 x4 x5 x6 x7 x8 x9 x10 x11 x12 x13 x14 x15 x16 x17 x18 x19 x20 x21 x22 x23 := e in
  mk_plot_data x0 x1 x2 x3 x4 x5 x6 v x8 x9 x10 x11 x12 x13 x14 x15 x16 x17 x18 x19 x20 x21 x22 x23.

Definition set_stoptime (v : Z) (e : plot_data) : plot_data :=
  let 'mk_plot_data x0 x1 x2 x3 x4 x5 x6 x7 x8 x9 x10 x11 x12 x13 x14 x15 x16 x17 x18 x19 x20 x21 x22 x23 := e in
  mk_plot_data x0 x1 x2 x3 x4 x5 x6 x7 v x9 x10 x11 x12 x13 x14 x15 x16 x17 x18 x19 x20 x21 x22 x23.

Definition set_stopdepth (v : Z) (e : plot_data) : plot_data :=
  let 'mk_plot_data x0 x1 x2 x3 x4 x5 x6 x7 x8 x9 x10 x11 x12 x13 x14 x15 x16 x17 x18 x19 x20 x21 x22 x23 := e in
  mk_plot_data x0 x1 x2 x3 x4 x5 x6 x7 x8 v x10 x11 x12 x13 x14 x15 x16 x17 x18 x19 x20 x21 x22 x23.

Definition set_cns (v : Z) (e : plot_data) : plot_data :=
  let 'mk_plot_data x0 x1 x2 x3 x4 x5 x6 x7 x8 x9 x10 x11 x12 x13 x14 x15 x16 x17 x18 x19 x20 x21 x22 x23 := e in
  mk_plot_data x0 x1 x2 x3 x4 x5 x6 x7 x8 x9 v x11 x12 x13 x14 x15 x16 x17 x18 x19 x20 x21 x22 x23.

Definition set_sac (v : Z) (e : plot_data) : plot_data :=
  let 'mk_plot_data x0 x1 x2 x3 x4 x5 x6 x7 x8 x9 x10 x11 x12 x13 x14 x15 x16 x17 x18 x19 x20 x21 x22 x23 := e in
  mk_plot_data x0 x1 x2 x3 x4 x5 x6 x7 x8 x9 x10 v x12 x13 x14 x15 x16 x17 x18 x19 x20 x21 x22 x23.

Definition set_running_sum (v : Z) (e : plot_data) : plot_data :=
  let 'mk_plot_data x0 x1 x2 x3 x4 x5 x6 x7 x8 x9 x10 x11 x12 x13 x14 x15 x16 x17 x18 x19 x20 x21 x22 x23 := e in
  mk_plot_data x0 x1 x2 x3 x4 x5 x6 x7 x8 x9 x10 x11 v x13 x14 x15 x16 x17 x18 x19 x20 x21 x22 x23.

Definition set_pressures_o2 (v : Q) (e : plot_data) : plot_data :=
  let 'mk_plot_data x0 x1 x2 x3 x4 x5 x6 x7 x8 x9 x10 x11 x12 x13 x14 x15 x16 x17 x18 x19 x20 x21 x22 x23 := e in
  mk_plot_data x0 x1 x2 x3 x4 x5 x6 x7 x8 x9 x10 x11 x12 v x14 x15 x16 x17 x18 x19 x20 x21 x22 x23.

Definition set_o2pressure (v : Z) (e : plot_data) : plot_data :=
  let 'mk_plot_data x0 x1 x2 x3 x4 x5 x6 x7 x8 x9 x10 x11 x12 x13 x14 x15 x16 x17 x18 x19 x20 x21 x22 x23 := e in
  mk_plot_data x0 x1 x2 x3 x4 x5 x6 x7 x8 x9 x10 x11 x12 x13 v x15 x16 x17 x18 x19 x20 x21 x22 x23.

Definition set_o2sensor (v : list Z) (e : plot_data) : plot_data :=
  let 'mk_plot_data x0 x1 x2 x3 x4 x5 x6 x7 x8 x9 x10 x11 x12 x13 x14 x15 x16 x17 x18 x19 x20 x21 x22 x23 := e in
  mk_plot_data x0 x1 x2 x3 x4 x5 x6 x7 x8 x9 x10 x11 x12 x13 x14 v x16 x17 x18 x19 x20 x21 x22 x23.

Definition set_o2setpoint (v : Z) (e : plot_data) : plot_data :=
  let 'mk_plot_data x0 x1 x2 x3 x4 x5 x6 x7 x8 x9 x10 x11 x12 x13 x14 x15 x16 x17 x18 x19 x20 x21 x22 x23 := e in
  mk_plot_data x0 x1 x2 x3 x4 x5 x6 x7 x8 x9 x10 x11 x12 x13 x14 x15 v x17 x18 x19 x20 x21 x22 x23.

Definition set_in_deco_calc (v : bool) (e : plot_data) : plot_data :=
  let 'mk_plot_data x0 x1 x2 x3 x4 x5 x6 x7 x8 x9 x10 x11 x12 x13 x14 x15 x16 x17 x18 x19 x20 x21 x22 x23 := e in
  mk_plot_data x0 x1 x2 x3 x4 x5 x6 x7 x8 x9 x10 x11 x12 x13 x14 x15 x16 v x18 x19 x20 x21 x22 x23.

Definition set_ndl_calc (v : Z) (e : plot_data) : plot_data :=
  let 'mk_plot_data x0 x1 x2 x3 x4 x5 x6 x7 x8 x9 x10 x11 x12 x13 x14 x15 x16 x17 x18 x19 x20 x21 x22 x23 := e in
  mk_plot_data x0 x1 x2 x3 x4 x5 x6 x7 x8 x9 x10 x11 x12 x13 x14 x15 x16 x17 v x19 x20 x21 x22 x23.

Definition set_tts_calc (v : Z) (e : plot_data) : plot_data :=
  let 'mk_plot_data x0 x1 x2 x3 x4 x5 x6 x7 x8 x9 x10 x11 x12 x13 x14 x15 x16 x17 x18 x19 x20 x21 x22 x23 := e in
  mk_plot_data x0 x1 x2 x3 x4 x5 x6 x7 x8 x9 x10 x11 x12 x13 x14 x15 x16 x17 x18 v x20 x21 x22 x23.

Definition set_stoptime_calc (v : Z) (e : plot_data) : plot_data :=
  let 'mk_plot_data x0 x1 x2 x3 x4 x5 x6 x7 x8 x9 x10 x11 x12 x13 x14 x15 x16 x17 x18 x19 x20 x21 x22 x23 := e in
  mk_plot_data x0 x1 x2 x3 x4 x5 x6 x7 x8 x9 x10 x11 x12 x13 x14 x15 x16 x17 x18 x19 v x21 x22 x23.

Definition set_stopdepth_calc (v : Z) (e : plot_data) : plot_data :=
  let 'mk_plot_data x0 x1 x2 x3 x4 x5 x6 x7 x8 x9 x10 x11 x12 x13 x14 x15 x16 x17 x18 x19 x20 x21 x22 x23 := e in
  mk_plot_data x0 x1 x2 x3 x4 x5 x6 x7 x8 x9 x10 x11 x12 x13 x14 x15 x16 x17 x18 x19 x20 v x22 x23.

Definition set_heartbeat (v : Z) (e : plot_data) : plot_data :=
  let 'mk_plot_data x0 x1 x2 x3 x4 x5 x6 x7 x8 x9 x10 x11 x12 x13 x14 x15 x16 x17 x18 x19 x20 x21 x22 x23 := e in
  mk_plot_data x0 x1 x2 x3 x4 x5 x6 x7 x8 x9 x10 x11 x12 x13 x14 x15 x16 x17 x18 x19 x20 x21 v x23.

Definition set_bearing (v : Z) (e : plot_data) : plot_data :=
  let 'mk_plot_data x0 x1 x2 x3 x4 x5 x6 x7 x8 x9 x10 x11 x12 x13 x14 x15 x16 x17 x18 x19 x20 x21 x22 x23 := e in
  mk_plot_data x0 x1 x2 x3 x4 x5 x6 x7 x8 x9 x10 x11 x12 x13 x14 x15 x16 x17 x18 x19 x20 x21 x22 v.

(** [SENSOR_PRESSURE], [INTERPOLATED_PRESSURE] and [GET_PRESSURE]. *)
Definition SENSOR_PRESSURE (e : plot_data) (cyl : nat) : Z :=
  match pressure e !! cyl with Some p => fst p | None => 0 end.

Definition INTERPOLATED_PRESSURE (e : plot_data) (cyl : nat) : Z :=
  match pressure e !! cyl with Some p => snd p | None => 0 end.

Definition GET_PRESSURE (e : plot_data) (cyl : nat) : Z :=
  if SENSOR_PRESSURE e cyl =? 0 then INTERPOLATED_PRESSURE e cyl
  else SENSOR_PRESSURE e cyl.

(** [SENSOR_PRESSURE(entry, cyl) = mbar]. *)
Definition set_SENSOR_PRESSURE (cyl : nat) (mbar : Z) (e : plot_data) : plot_data :=
  set_pressure (alter (fun p => (mbar, snd p)) cyl (pressure e)) e.

(** An entry as [calloc] leaves it, for [ncyl] cylinders. *)
Definition zero_entry (ncyl : nat) : plot_data :=
  {| in_deco := false; sec := 0; pressure := replicate ncyl (0, 0); temperature := 0;
     depth := 0; ndl := 0; tts := 0; rbt := 0; stoptime := 0; stopdepth := 0; cns := 0;
     sac := 0; running_sum := 0; pressures_o2 := 0%Q; o2pressure := 0;
     o2sensor := [0; 0; 0]; o2setpoint := 0; in_deco_calc := false; ndl_calc := 0;
     tts_calc := 0; stoptime_calc := 0; stopdepth_calc := 0; heartbeat := 0; bearing := 0 |}.

(** ** Closed-circuit oxygen voting ([calculate_ccr_po2]) *)

Module CcrPo2.
Import CInt.

(** The locals [np], [sump], [minp], [maxp] of the sensor scan. *)
Record tally : Type := mk_tally { np : Z; sump : Z; minp : Z; maxp : Z }.

Definition tally_init : tally := {| np := 0; sump := 0; minp := 999999; maxp := -999999 |}.

(** One turn of the [for] loop over the sensors: a zero reading is skipped. *)
Definition tally_step (t : tally) (mbar : Z) : tally :=
  if mbar =? 0 then t
  else {| np := np t + 1; sump := sump t + mbar;
          minp := MIN (minp t) mbar; maxp := MAX (maxp t) mbar |}.

(** The scan of [o2sensor[0 .. no_o2sensors-1]]. *)
Definition scan_sensors (entry : plot_data) (no_o2sensors : nat) : tally :=
  fold_left tally_step (take no_o2sensors (o2sensor entry)) tally_init.

(** [calculate_ccr_po2].  The test of the lower difference is the C
    truth value of [2 * minp - sump + maxp], that is, whether it is not
    zero. *)
Definition calculate_ccr_po2 (entry : plot_data) (no_o2sensors : nat) : Z :=
  let t := scan_sensors entry no_o2sensors in
  let diff_limit := 100 in
  match np t with
  | 0 => o2pressure entry
  | 1 => sump t
  | 2 => Z.quot (sump t) 2
  | 3 =>
    if 2 * maxp t - sump t + minp t <? diff_limit then
      if negb (2 * minp t - sump t + maxp t =? 0) then Z.quot (sump t) 3
      else Z.quot (sump t - minp t) 2
    else
      if negb (2 * minp t - sump t + maxp t =? 0) then Z.quot (sump t - maxp t) 2
      else Z.quot (sump t) 3
  | _ => 0
  end.

(** The voting rule in the words of the specification, for three valid
    readings: with [mid] the reading left when both extremes are taken out
    of the sum, the three-way average when [maxp - mid] and [mid - minp] are
    both within 100 mbar, and otherwise the average of the two readings
    left when the extreme that disagrees is discarded.  When both extremes
    disagree no reading has a majority and the average of the three is
    kept. *)
Definition vote_of_three (a b c : Z) : Z :=
  let sum := a + b + c in
  let lo := Z.min a (Z.min b c) in
  let hi := Z.max a (Z.max b c) in
  let mid := sum - lo - hi in
  let upper_ok := hi - mid <? 100 in
  let lower_ok := mid - lo <? 100 in
  if upper_ok && lower_ok then Z.quot sum 3
  else if upper_ok then Z.quot (sum - lo) 2
  else if lower_ok then Z.quot (sum - hi) 2
  else Z.quot sum 3.

(** An entry whose three oxygen sensors read [a], [b], [c]. *)
Definition with_sensors (a b c : Z) (previous : Z) : plot_data :=
  set_o2pressure previous (set_o2sensor [a; b; c] (zero_entry 0)).

(** The readings that count: the non-zero ones among the first
    [no_o2sensors]. *)
Definition valid_readings (entry : plot_data) (no_o2sensors : nat) : list Z :=
  filter (fun m => m <> 0) (take no_o2sensors (o2sensor entry)).

Lemma fold_tally_filter (l : list Z) (t : tally) :
  fold_left tally_step l t = fold_left tally_step (filter (fun m => m <> 0) l) t.
Proof.
  revert t. induction l as [|m l IH]; intros t; [reflexivity|].
  cbn [fold_left]. rewrite filter_cons. destruct (decide (m <> 0)) as [Hm|Hm].
  - cbn [fold_left]. apply IH.
  - assert (m = 0) as -> by lia. unfold tally_step at 2. simpl. apply IH.
Qed.

Lemma scan_valid (entry : plot_data) (n : nat) :
  scan_sensors entry n = fold_left tally_step (valid_readings entry n) tally_init.
Proof. unfold scan_sensors, valid_readings. apply fold_tally_filter. Qed.

Lemma valid_nonzero (entry : plot_data) (n : nat) (m : Z) :
  m ∈ valid_readings entry n -> m <> 0.
Proof. unfold valid_readings. rewrite list_elem_of_filter. tauto. Qed.

Lemma tally_step_valid (t : tally) (m : Z) :
  m <> 0 ->
  tally_step t m = {| np := np t + 1; sump := sump t + m;
                      minp := Z.min (minp t) m; maxp := Z.max (maxp t) m |}.
Proof.
  intros Hm. unfold tally_step. destruct (Z.eqb_spec m 0); [contradiction|].
  rewrite MIN_spec, MAX_spec. reflexivity.
Qed.

(** No valid sensor: the previous value is kept. *)
Lemma ccr_po2_no_sensor (entry : plot_data) (n : nat) :
  valid_readings entry n = [] -> calculate_ccr_po2 entry n = o2pressure entry.
Proof. intros H. unfold calculate_ccr_po2. rewrite scan_valid, H. reflexivity. Qed.

(** One valid sensor: its reading. *)
Lemma ccr_po2_one_sensor (entry : plot_data) (n : nat) (a : Z) :
  valid_readings entry n = [a] -> calculate_ccr_po2 entry n = a.
Proof.
  intros H. assert (Ha : a <> 0) by (apply (valid_nonzero entry n); rewrite H; apply list_elem_of_In; simpl; tauto).
  unfold calculate_ccr_po2. rewrite scan_valid, H. cbn [fold_left].
  rewrite tally_step_valid by assumption. reflexivity.
Qed.

(** Two valid sensors: their average. *)
Lemma ccr_po2_two_sensors (entry : plot_data) (n : nat) (a b : Z) :
  valid_readings entry n = [a; b] -> calculate_ccr_po2 entry n = Z.quot (a + b) 2.
Proof.
  intros H.
  assert (Ha : a <> 0) by (apply (valid_nonzero entry n); rewrite H; apply list_elem_of_In; simpl; tauto).
  assert (Hb : b <> 0) by (apply (valid_nonzero entry n); rewrite H; apply list_elem_of_In; simpl; tauto).
  unfold calculate_ccr_po2. rewrite scan_valid, H. cbn [fold_left].
  rewrite !tally_step_valid by assumption. reflexivity.
Qed.

(** Three valid sensors, readings below the sentinels of the scan: what the
    code returns.  The lower difference [lo - mid] is tested for being
    non-zero, not for being within the tolerance. *)
Lemma ccr_po2_three_sensors (entry : plot_data) (n : nat) (a b c : Z) :
  valid_readings entry n = [a; b; c] ->
  -999999 <= a <= 999999 -> -999999 <= b <= 999999 -> -999999 <= c <= 999999 ->
  let lo := Z.min a (Z.min b c) in
  let hi := Z.max a (Z.max b c) in
  let mid := a + b + c - lo - hi in
  calculate_ccr_po2 entry n =
    if hi - mid <? 100
    then (if mid =? lo then Z.quot (a + b + c - lo) 2 else Z.quot (a + b + c) 3)
    else (if mid =? lo then Z.quot (a + b + c) 3 else Z.quot (a + b + c - hi) 2).
Proof.
  intros H Hra Hrb Hrc lo hi mid.
  assert (Ha : a <> 0) by (apply (valid_nonzero entry n); rewrite H; apply list_elem_of_In; simpl; tauto).
  assert (Hb : b <> 0) by (apply (valid_nonzero entry n); rewrite H; apply list_elem_of_In; simpl; tauto).
  assert (Hc : c <> 0) by (apply (valid_nonzero entry n); rewrite H; apply list_elem_of_In; simpl; tauto).
  unfold calculate_ccr_po2. rewrite scan_valid, H. cbn [fold_left].
  rewrite !tally_step_valid by assumption.
  cbn [np sump minp maxp tally_init]. cbn [Z.add].
  replace (Z.min (Z.min (Z.min 999999 a) b) c) with lo by (unfold lo; lia).
  replace (Z.max (Z.max (Z.max (-999999) a) b) c) with hi by (unfold hi; lia).
  replace (0 + a + b + c) with (a + b + c) by lia.
  replace (2 * hi - (a + b + c) + lo) with (hi - mid) by (unfold mid; lia).
  replace (2 * lo - (a + b + c) + hi) with (lo - mid) by (unfold mid; lia).
  destruct (Z.eqb_spec (lo - mid) 0) as [E|E];
    destruct (Z.eqb_spec mid lo) as [E'|E']; try lia; reflexivity.
Qed.

(** C3. With three valid readings 1000, 1000 and 1050 mbar both differences
    (50 and 0 mbar) are within the 100 mbar tolerance, and the voting rule of
    the specification gives the three-way average 1016; the code returns
    1025, the average of the two readings left after discarding the
    minimum.  With 700, 1000 and 1050 the minimum disagrees by 300 mbar and
    the rule gives 1025; the code returns the three-way average 916. *)
Theorem ccr_po2_vote_diverges :
  valid_readings (with_sensors 1000 1000 1050 0) 3 = [1000; 1000; 1050] /\
  calculate_ccr_po2 (with_sensors 1000 1000 1050 0) 3 = 1025 /\
  vote_of_three 1000 1000 1050 = 1016 /\
  calculate_ccr_po2 (with_sensors 700 1000 1050 0) 3 = 916 /\
  vote_of_three 700 1000 1050 = 1025.
Proof. repeat split; vm_compute; reflexivity. Qed.

End CcrPo2.

(** ** The entry densifier ([populate_plot_entries]) *)

Module Densify.
Import CInt.

(** Modelled from the spec: [interpolate], the helper declared with the dive
    data structures and called by [profile.c] (its body is not part of the
    files at hand).  It is the linear interpolation between [a] and [b] at
    [part] out of [whole], that is [(a * (whole - part) + b * part) / whole],
    as the integer nearest to that value (a tie goes to the even
    neighbour, see [round_div]).  The written specification leaves
    [whole = 0] open; the midpoint stands for it. *)
Definition interpolate (a b part whole : Z) : Z :=
  if whole =? 0 then Z.quot (a + b) 2
  else round_div (a * (whole - part) + b * part) whole.

(** The loop-carried variables of [populate_plot_entries]: the entries
    written so far ([plot_data[0 .. idx-1]], so [idx] is the length), the
    event cursor [ev], and [lasttime], [lastdepth], [lasttemp]. *)
Record walk : Type := mk_walk {
  entries : list plot_data;
  ev : list event.t;
  lasttime : Z;
  lastdepth : Z;
  lasttemp : Z
}.

Definition idx (w : walk) : Z := Z.of_nat (List.length (entries w)).

(** [count_events]. *)
Definition count_events (dc : divecomputer.t) : Z :=
  Z.of_nat (List.length (divecomputer.events dc)).

(** The number of entries [populate_plot_entries] allocates. *)
Definition allocated (dc : divecomputer.t) (maxtime : Z) : Z :=
  divecomputer.samples dc + 6 + Z.quot maxtime 10 + count_events dc.

(** The times of the entries, and of the events still to come. *)
Definition secs (es : list plot_data) : list Z := map sec es.
Definition times (evs : list event.t) : list Z := map event.time evs.

(** Times do not decrease along a list: every element is at most every
    later one. *)
Definition nondecreasing (l : list Z) : Prop := StronglySorted Z.le l.

Section Populate.

(** [MAX_CYLINDERS], a constant of the dive data structures. *)
Variable MAX_CYLINDERS : nat.

(** The interpolation helper, see [interpolate] above. *)
Variable interp : Z -> Z -> Z -> Z -> Z.

(** [entry[-1]] when [entry] is the next free slot. *)
Definition previous (es : list plot_data) : plot_data :=
  default (zero_entry MAX_CYLINDERS) (last es).

(** The macro [INSERT_ENTRY(_time, _depth, _sac)]: the new entry is a copy of
    the previous one with time, depth, running sum, sac, ndl and bearing
    set and the pressures cleared. *)
Definition inserted_entry (prev : plot_data) (_time _depth _sac : Z) : plot_data :=
  let e := set_sec _time prev in
  let e := set_depth _depth e in
  let e := set_running_sum
             (running_sum prev + Z.quot ((_time - sec prev) * (_depth + depth prev)) 2) e in
  let e := set_pressure (replicate MAX_CYLINDERS (0, 0)) e in
  let e := set_sac _sac e in
  let e := set_ndl (-1) e in
  set_bearing (-1) e.

Definition INSERT_ENTRY (es : list plot_data) (_time _depth _sac : Z) : list plot_data :=
  es ++ [inserted_entry (previous es) _time _depth _sac].

(** [while (ev && ev->time.seconds < limit) { INSERT_ENTRY(...); ev = ev->next; }] *)
Fixpoint add_events_before (limit lt ld depth delta sac : Z)
    (evs : list event.t) (es : list plot_data) : list event.t * list plot_data :=
  match evs with
  | [] => ([], es)
  | e :: evs' =>
    if event.time e <? limit then
      add_events_before limit lt ld depth delta sac evs'
        (INSERT_ENTRY es (event.time e) (interp ld depth (event.time e - lt) delta) sac)
    else (evs, es)
  end.

(** [while (ev && ev->time.seconds == t) ev = ev->next;] *)
Fixpoint skip_events_at (t : Z) (evs : list event.t) : list event.t :=
  match evs with
  | [] => []
  | e :: evs' => if event.time e =? t then skip_events_at t evs' else evs
  end.

(** [for (offset = 10; offset < delta; offset += 10)], entered at [offset];
    [fuel] bounds the number of turns. *)
Fixpoint raster_loop (fuel : nat) (offset maxtime lt ld depth delta sac : Z)
    (evs : list event.t) (es : list plot_data) : list event.t * list plot_data :=
  match fuel with
  | O => (evs, es)
  | S fuel' =>
    if offset <? delta then
      if lt + offset >? maxtime then (evs, es)
      else
        let '(evs1, es1) := add_events_before (lt + offset) lt ld depth delta sac evs es in
        let es2 := INSERT_ENTRY es1 (lt + offset) (interp ld depth offset delta) sac in
        let evs2 := skip_events_at (lt + offset) evs1 in
        raster_loop fuel' (offset + 10) maxtime lt ld depth delta sac evs2 es2
    else (evs, es)
  end.

(** The first lines of the sample loop: [delta = time - lasttime], and the
    clamp [if (delta <= 0) { time = lasttime; delta = 1; }].  The result is
    the pair [(time, delta)]. *)
Definition clamp_time (lt time : Z) : Z * Z :=
  let delta := time - lt in
  if delta <=? 0 then (lt, 1) else (time, delta).

Definition reading (l : list Z) (i : nat) : Z := default 0 (l !! i).

(** The entry of a sample, written field by field into a fresh slot. *)
Definition sample_entry (dc : divecomputer.t) (s : sample.t) (time : Z)
    (prev : plot_data) (lasttemp_ : Z) : plot_data :=
  let depth_ := sample.depth s in
  let e := zero_entry MAX_CYLINDERS in
  let e := set_sec time e in
  let e := set_depth depth_ e in
  let e := set_running_sum
             (running_sum prev + Z.quot ((time - sec prev) * (depth_ + depth prev)) 2) e in
  let e := set_stopdepth (sample.stopdepth s) e in
  let e := set_stoptime (sample.stoptime s) e in
  let e := set_ndl (sample.ndl s) e in
  let e := set_tts (sample.tts s) e in
  let e := set_in_deco (sample.in_deco s) e in
  let e := set_cns (sample.cns s) e in
  let e :=
    if divemode_eqb (divecomputer.divemode dc) CCR
       || (divemode_eqb (divecomputer.divemode dc) PSCR
           && negb (Nat.eqb (divecomputer.no_o2sensors dc) 0))
    then
      let e := set_o2setpoint (sample.setpoint s) e in
      let e := set_o2pressure (sample.setpoint s) e in
      set_o2sensor [reading (sample.o2sensor s) 0; reading (sample.o2sensor s) 1;
                    reading (sample.o2sensor s) 2] e
    else set_pressures_o2 (inject_Z (sample.setpoint s) / 1000)%Q e in
  let e := if fst (sample.pressure s) =? 0 then e
           else set_SENSOR_PRESSURE (fst (sample.sensor s)) (fst (sample.pressure s)) e in
  let e := if snd (sample.pressure s) =? 0 then e
           else set_SENSOR_PRESSURE (snd (sample.sensor s)) (snd (sample.pressure s)) e in
  let e := if sample.temperature s =? 0 then set_temperature lasttemp_ e
           else set_temperature (sample.temperature s) e in
  let e := set_heartbeat (sample.heartbeat s) e in
  let e := set_bearing (sample.bearing s) e in
  let e := set_sac (sample.sac s) e in
  if sample.rbt s =? 0 then e else set_rbt (sample.rbt s) e.

(** One turn of [for (i = 0; i < dc->samples; i++)], up to the test for
    leaving the loop. *)
Definition process_sample (maxtime : Z) (dc : divecomputer.t) (w : walk) (s : sample.t) : walk :=
  let '(time, delta) := clamp_time (lasttime w) (sample.time s) in
  let depth_ := sample.depth s in
  let sac_ := sample.sac s in
  let '(evs1, es1) :=
    raster_loop (Z.to_nat delta) 10 maxtime (lasttime w) (lastdepth w) depth_ delta sac_
      (ev w) (entries w) in
  let '(evs2, es2) :=
    add_events_before time (lasttime w) (lastdepth w) depth_ delta sac_ evs1 es1 in
  let e := sample_entry dc s time (previous es2) (lasttemp w) in
  {| entries := es2 ++ [e];
     ev := skip_events_at time evs2;
     lasttime := time;
     lastdepth := depth_;
     lasttemp := if sample.temperature s =? 0 then lasttemp w else sample.temperature s |}.

(** The sample loop with its [if (time > maxtime) break;]. *)
Fixpoint sample_loop (maxtime : Z) (dc : divecomputer.t) (ss : list sample.t) (w : walk) : walk :=
  match ss with
  | [] => w
  | s :: ss' =>
    let w' := process_sample maxtime dc w s in
    if lasttime w' >? maxtime then w' else sample_loop maxtime dc ss' w'
  end.

(** [while (ev)]: the events left after the last sample. *)
Fixpoint remaining_events (evs : list event.t) (lt : Z) (es : list plot_data)
    : Z * list plot_data :=
  match evs with
  | [] => (lt, es)
  | e :: evs' =>
    if event.time e >? lt
    then remaining_events evs' (event.time e) (INSERT_ENTRY es (event.time e) 0 0)
    else remaining_events evs' lt es
  end.

(** The state on entering the sample loop: two leading entries, events at
    time 0 skipped. *)
Definition initial_walk (dc : divecomputer.t) : walk :=
  {| entries := [zero_entry MAX_CYLINDERS; zero_entry MAX_CYLINDERS];
     ev := skip_events_at 0 (divecomputer.events dc);
     lasttime := 0; lastdepth := 0; lasttemp := 0 |}.

(** The two final surface entries. *)
Definition final_entries (lt : Z) : list plot_data :=
  [set_sec (lt + 1) (zero_entry MAX_CYLINDERS); set_sec (lt + 2) (zero_entry MAX_CYLINDERS)].

(** [populate_plot_entries]: [None] when [calloc] fails, otherwise the
    entries [plot_data[0 .. pi->nr - 1]]. *)
Definition populate_plot_entries (calloc_ok : bool) (dc : divecomputer.t) (maxtime : Z)
    : option (list plot_data) :=
  if calloc_ok then
    let w := sample_loop maxtime dc (divecomputer.sample dc) (initial_walk dc) in
    let '(lt, es) := remaining_events (ev w) (lasttime w) (entries w) in
    Some (es ++ final_entries lt)
  else None.

(** *** Shape of the entries that are written *)

Lemma sec_inserted_entry prev t d sc : sec (inserted_entry prev t d sc) = t.
Proof. destruct prev; reflexivity. Qed.

Lemma depth_inserted_entry prev t d sc : depth (inserted_entry prev t d sc) = d.
Proof. destruct prev; reflexivity. Qed.

Lemma sec_sample_entry dc s time prev lt : sec (sample_entry dc s time prev lt) = time.
Proof.
  unfold sample_entry.
  repeat match goal with |- context [if ?b then _ else _] => destruct b end; reflexivity.
Qed.

Lemma depth_sample_entry dc s time prev lt :
  depth (sample_entry dc s time prev lt) = sample.depth s.
Proof.
  unfold sample_entry.
  repeat match goal with |- context [if ?b then _ else _] => destruct b end; reflexivity.
Qed.

Lemma secs_app es1 es2 : secs (es1 ++ es2) = secs es1 ++ secs es2.
Proof. apply map_app. Qed.

Lemma secs_INSERT_ENTRY es t d sc : secs (INSERT_ENTRY es t d sc) = secs es ++ [t].
Proof. unfold INSERT_ENTRY. rewrite secs_app. simpl. rewrite sec_inserted_entry. reflexivity. Qed.

Lemma length_INSERT_ENTRY es t d sc :
  List.length (INSERT_ENTRY es t d sc) = S (List.length es).
Proof. unfold INSERT_ENTRY. rewrite List.length_app. simpl. lia. Qed.

(** *** Order of the entry times *)

Lemma nondecreasing_middle (l1 l2 : list Z) (x : Z) :
  nondecreasing (l1 ++ l2) ->
  Forall (fun y => y <= x) l1 -> Forall (fun z => x <= z) l2 ->
  nondecreasing (l1 ++ x :: l2).
Proof.
  unfold nondecreasing. rewrite !StronglySorted_app, StronglySorted_cons.
  intros (Hx & H1 & H2) Hl Hr. rewrite Forall_forall in Hl, Hr.
  repeat split; try assumption.
  - intros x1 x2 Hx1 Hx2. apply elem_of_cons in Hx2 as [->|Hx2]; [apply Hl, Hx1|].
    apply Hx; assumption.
  - apply Forall_forall. exact Hr.
Qed.

Lemma nondecreasing_drop (l1 l2 : list Z) (x : Z) :
  nondecreasing (l1 ++ x :: l2) -> nondecreasing (l1 ++ l2).
Proof.
  unfold nondecreasing. rewrite !StronglySorted_app, StronglySorted_cons.
  intros (Hx & H1 & _ & H2). repeat split; try assumption.
  intros x1 x2 Hx1 Hx2. apply Hx; [assumption|]. apply elem_of_cons. right. exact Hx2.
Qed.

Lemma nondecreasing_snoc (l : list Z) (x : Z) :
  nondecreasing l -> Forall (fun y => y <= x) l -> nondecreasing (l ++ [x]).
Proof.
  intros Hs Hl. apply nondecreasing_middle; [rewrite app_nil_r; exact Hs|exact Hl|constructor].
Qed.

Lemma nondecreasing_tail_bound (l1 l2 : list Z) (x : Z) :
  nondecreasing (l1 ++ x :: l2) -> Forall (fun z => x <= z) l2.
Proof.
  unfold nondecreasing. rewrite StronglySorted_app, StronglySorted_cons. tauto.
Qed.

Lemma Forall_le_trans (l : list Z) (a b : Z) :
  a <= b -> Forall (fun y => y <= a) l -> Forall (fun y => y <= b) l.
Proof. intros Hab H. eapply Forall_impl; [exact H|]. intros y Hy. simpl in Hy. lia. Qed.

Lemma Forall_ge_trans (l : list Z) (a b : Z) :
  a <= b -> Forall (fun z => b <= z) l -> Forall (fun z => a <= z) l.
Proof. intros Hab H. eapply Forall_impl; [exact H|]. intros y Hy. simpl in Hy. lia. Qed.

Lemma add_events_before_order limit lt ld depth delta sc evs es evs' es' :
  add_events_before limit lt ld depth delta sc evs es = (evs', es') ->
  nondecreasing (secs es ++ times evs) ->
  Forall (fun y => y <= limit) (secs es) ->
  nondecreasing (secs es' ++ times evs') /\
  Forall (fun y => y <= limit) (secs es') /\
  Forall (fun z => limit <= z) (times evs').
Proof.
  revert es. induction evs as [|e evs IH]; intros es Heq Hs Hb; simpl in Heq.
  - injection Heq as <- <-. repeat split; [assumption|assumption|constructor].
  - destruct (Z.ltb_spec (event.time e) limit) as [Hlt|Hge].
    + apply IH in Heq; [exact Heq| |].
      * rewrite secs_INSERT_ENTRY, <- app_assoc. exact Hs.
      * rewrite secs_INSERT_ENTRY. apply Forall_app. split; [exact Hb|].
        constructor; [lia|constructor].
    + injection Heq as <- <-. repeat split; [assumption|assumption|].
      simpl. constructor; [exact Hge|].
      apply nondecreasing_tail_bound in Hs. eapply Forall_ge_trans; [exact Hge|exact Hs].
Qed.

Lemma skip_events_at_order t evs l :
  nondecreasing (l ++ times evs) -> nondecreasing (l ++ times (skip_events_at t evs)).
Proof.
  induction evs as [|e evs IH]; intros Hs; simpl; [exact Hs|].
  destruct (event.time e =? t); [|exact Hs].
  apply IH. simpl in Hs. eapply nondecreasing_drop, Hs.
Qed.

Lemma skip_events_at_bound t b evs :
  Forall (fun z => b <= z) (times evs) -> Forall (fun z => b <= z) (times (skip_events_at t evs)).
Proof.
  induction evs as [|e evs IH]; intros Hs; simpl; [exact Hs|].
  destruct (event.time e =? t); [|exact Hs].
  apply IH. simpl in Hs. apply Forall_cons in Hs. tauto.
Qed.

Lemma raster_loop_order fuel offset maxtime lt ld depth delta sc evs es evs' es' T :
  raster_loop fuel offset maxtime lt ld depth delta sc evs es = (evs', es') ->
  0 <= offset ->
  (forall o, offset <= o < delta -> lt + o <= T) ->
  nondecreasing (secs es ++ times evs) ->
  Forall (fun y => y <= lt + offset) (secs es) ->
  Forall (fun y => y <= T) (secs es) ->
  nondecreasing (secs es' ++ times evs') /\ Forall (fun y => y <= T) (secs es').
Proof.
  revert offset evs es.
  induction fuel as [|fuel IH]; intros offset evs es Heq Hoff HT Hs Hb HbT; simpl in Heq.
  - injection Heq as <- <-. split; assumption.
  - destruct (Z.ltb_spec offset delta) as [Hlt|Hge]; [|injection Heq as <- <-; split; assumption].
    destruct (lt + offset >? maxtime); [injection Heq as <- <-; split; assumption|].
    destruct (add_events_before (lt + offset) lt ld depth delta sc evs es) as [evs1 es1] eqn:E1.
    apply add_events_before_order in E1 as (Hs1 & Hb1 & Hr1); [|assumption|assumption].
    apply IH in Heq; [exact Heq|lia| | | |].
    + intros o Ho. apply HT. lia.
    + rewrite secs_INSERT_ENTRY, <- app_assoc. simpl.
      apply nondecreasing_middle.
      * apply skip_events_at_order, Hs1.
      * exact Hb1.
      * apply skip_events_at_bound, Hr1.
    + rewrite secs_INSERT_ENTRY. apply Forall_app. split.
      * eapply Forall_le_trans; [|exact Hb1]. lia.
      * constructor; [lia|constructor].
    + rewrite secs_INSERT_ENTRY. apply Forall_app. split.
      * assert (HTo : lt + offset <= T) by (apply HT; lia).
        eapply Forall_le_trans; [exact HTo|exact Hb1].
      * constructor; [apply HT; lia|constructor].
Qed.

(** The invariant of the sample loop: entries and pending events together
    are in time order, and the last entry is at [lasttime]. *)
Definition in_order (w : walk) : Prop :=
  nondecreasing (secs (entries w) ++ times (ev w)) /\
  Forall (fun y => y <= lasttime w) (secs (entries w)) /\
  last (secs (entries w)) = Some (lasttime w).

Lemma clamp_time_spec lt time t d :
  clamp_time lt time = (t, d) ->
  lt <= t /\ 1 <= d /\ (time <= lt -> t = lt /\ d = 1) /\ (lt < time -> t = time /\ d = time - lt).
Proof.
  unfold clamp_time. destruct (Z.leb_spec (time - lt) 0); intros Heq; injection Heq as <- <-; lia.
Qed.

Lemma process_sample_order maxtime dc w s :
  in_order w -> in_order (process_sample maxtime dc w s).
Proof.
  intros (Hs & Hb & Hl). unfold process_sample.
  destruct (clamp_time (lasttime w) (sample.time s)) as [time delta] eqn:Ec.
  apply clamp_time_spec in Ec as (Hle & Hd & Hclamp & Hplain).
  destruct (raster_loop _ _ _ _ _ _ _ _ _ _) as [evs1 es1] eqn:E1.
  apply (raster_loop_order _ _ _ _ _ _ _ _ _ _ _ _ time) in E1 as (Hs1 & Hb1);
    [|lia| |assumption| |].
  - destruct (add_events_before _ _ _ _ _ _ _ _) as [evs2 es2] eqn:E2.
    apply add_events_before_order in E2 as (Hs2 & Hb2 & Hr2); [|assumption|assumption].
    unfold in_order. cbn [entries ev lasttime].
    rewrite secs_app. cbn [secs map]. rewrite sec_sample_entry.
    repeat split.
    + rewrite <- app_assoc. simpl. apply nondecreasing_middle.
      * apply skip_events_at_order, Hs2.
      * exact Hb2.
      * apply skip_events_at_bound, Hr2.
    + apply Forall_app. split; [exact Hb2|]. constructor; [lia|constructor].
    + apply last_snoc.
  - intros o Ho. destruct (Z.le_gt_cases (sample.time s) (lasttime w)) as [Hc|Hc].
    + apply Hclamp in Hc. lia.
    + apply Hplain in Hc. lia.
  - eapply Forall_le_trans; [|exact Hb]. lia.
  - eapply Forall_le_trans; [exact Hle|exact Hb].
Qed.

Lemma sample_loop_order maxtime dc ss w :
  in_order w -> in_order (sample_loop maxtime dc ss w).
Proof.
  revert w. induction ss as [|s ss IH]; intros w Hw; simpl; [exact Hw|].
  pose proof (process_sample_order maxtime dc w s Hw) as Hw'.
  destruct (lasttime (process_sample maxtime dc w s) >? maxtime); [exact Hw'|].
  apply IH, Hw'.
Qed.

Lemma remaining_events_order evs lt es lt' es' :
  remaining_events evs lt es = (lt', es') ->
  nondecreasing (secs es) -> Forall (fun y => y <= lt) (secs es) ->
  last (secs es) = Some lt ->
  nondecreasing (secs es') /\ Forall (fun y => y <= lt') (secs es') /\
  last (secs es') = Some lt'.
Proof.
  revert lt es. induction evs as [|e evs IH]; intros lt es Heq Hs Hb Hl; simpl in Heq.
  - injection Heq as <- <-. repeat split; assumption.
  - destruct (Z.gtb_spec (event.time e) lt) as [Hgt|Hle].
    + apply IH in Heq; [exact Heq| | |].
      * rewrite secs_INSERT_ENTRY. apply nondecreasing_snoc; [exact Hs|].
        eapply Forall_le_trans; [|exact Hb]. lia.
      * rewrite secs_INSERT_ENTRY. apply Forall_app. split.
        -- eapply Forall_le_trans; [|exact Hb]. lia.
        -- constructor; [lia|constructor].
      * rewrite secs_INSERT_ENTRY. apply last_snoc.
    + apply IH in Heq; assumption.
Qed.

Lemma initial_walk_order dc :
  nondecreasing (times (divecomputer.events dc)) ->
  Forall (fun z => 0 <= z) (times (divecomputer.events dc)) ->
  in_order (initial_walk dc).
Proof.
  intros Hs Hb. unfold in_order, initial_walk. cbn [entries ev lasttime].
  repeat split.
  - change (secs [zero_entry MAX_CYLINDERS; zero_entry MAX_CYLINDERS]) with ([0] ++ [0]).
    rewrite <- app_assoc. simpl.
    apply (nondecreasing_middle []).
    + apply (nondecreasing_middle []).
      * apply (skip_events_at_order 0 _ []). exact Hs.
      * constructor.
      * apply skip_events_at_bound, Hb.
    + constructor.
    + constructor; [lia|]. apply skip_events_at_bound, Hb.
  - repeat constructor; simpl; lia.
Qed.

(** *** What is added between two samples *)

(** The depth of an entry at time [sec e] lies on the line from
    [(lt, ld)] to [(lt + delta, depth)], as [interp] computes it. *)
Definition on_line (lt ld depth_ delta : Z) (e : plot_data) : Prop :=
  depth e = interp ld depth_ (sec e - lt) delta.

Lemma add_events_before_added limit lt ld depth_ delta sc evs es evs' es' :
  add_events_before limit lt ld depth_ delta sc evs es = (evs', es') ->
  exists added, es' = es ++ added /\ Forall (on_line lt ld depth_ delta) added.
Proof.
  revert es. induction evs as [|e evs IH]; intros es Heq; simpl in Heq.
  - injection Heq as <- <-. exists []. rewrite app_nil_r. split; [reflexivity|constructor].
  - destruct (event.time e <? limit).
    + apply IH in Heq as (added & -> & Hall). unfold INSERT_ENTRY. rewrite <- app_assoc.
      eexists. split; [reflexivity|]. simpl. constructor; [|exact Hall].
      unfold on_line. rewrite sec_inserted_entry, depth_inserted_entry. reflexivity.
    + injection Heq as <- <-. exists []. rewrite app_nil_r. split; [reflexivity|constructor].
Qed.

Lemma raster_loop_added fuel offset maxtime lt ld depth_ delta sc evs es evs' es' :
  raster_loop fuel offset maxtime lt ld depth_ delta sc evs es = (evs', es') ->
  exists added, es' = es ++ added /\ Forall (on_line lt ld depth_ delta) added /\
    (delta <= offset + 10 * Z.of_nat fuel ->
     forall k : nat, offset + 10 * Z.of_nat k < delta ->
       lt + (offset + 10 * Z.of_nat k) <= maxtime ->
       exists e, e ∈ added /\ sec e = lt + (offset + 10 * Z.of_nat k) /\
                 depth e = interp ld depth_ (offset + 10 * Z.of_nat k) delta).
Proof.
  revert offset evs es.
  induction fuel as [|fuel IH]; intros offset evs es Heq; simpl in Heq.
  - injection Heq as <- <-. exists []. rewrite app_nil_r.
    split; [reflexivity|]. split; [constructor|]. intros Hf k Hk. lia.
  - destruct (Z.ltb_spec offset delta) as [Hlt|Hge].
    2:{ injection Heq as <- <-. exists []. rewrite app_nil_r.
        split; [reflexivity|]. split; [constructor|]. intros Hf k Hk. lia. }
    destruct (Z.gtb_spec (lt + offset) maxtime) as [Hbr|Hin].
    { injection Heq as <- <-. exists []. rewrite app_nil_r.
      split; [reflexivity|]. split; [constructor|]. intros Hf k Hk Hm. lia. }
    destruct (add_events_before (lt + offset) lt ld depth_ delta sc evs es) as [evs1 es1] eqn:E1.
    apply add_events_before_added in E1 as (added1 & -> & Hall1).
    apply IH in Heq as (added2 & -> & Hall2 & Hex).
    unfold INSERT_ENTRY. rewrite <- !app_assoc.
    eexists. split; [reflexivity|]. split.
    + apply Forall_app. split; [exact Hall1|]. simpl. constructor; [|exact Hall2].
      unfold on_line. rewrite sec_inserted_entry, depth_inserted_entry.
      f_equal. lia.
    + intros Hf k Hk Hm. destruct k as [|k].
      * eexists. split; [|split].
        -- apply elem_of_app. right. apply elem_of_app. left. apply list_elem_of_singleton.
           reflexivity.
        -- rewrite sec_inserted_entry. lia.
        -- rewrite depth_inserted_entry. f_equal. lia.
      * destruct (Hex ltac:(lia) k ltac:(lia) ltac:(lia)) as (e & He & Hsec & Hdep).
        exists e. split; [|split].
        -- apply elem_of_app. right. apply elem_of_app. right. exact He.
        -- rewrite Hsec. lia.
        -- rewrite Hdep. f_equal. lia.
Qed.

Lemma remaining_events_added evs lt es lt' es' :
  remaining_events evs lt es = (lt', es') -> exists added, es' = es ++ added.
Proof.
  revert lt es. induction evs as [|e evs IH]; intros lt es Heq; simpl in Heq.
  - injection Heq as <- <-. exists []. rewrite app_nil_r. reflexivity.
  - destruct (event.time e >? lt).
    + apply IH in Heq as (added & ->). unfold INSERT_ENTRY. rewrite <- app_assoc.
      eexists. reflexivity.
    + apply IH in Heq. exact Heq.
Qed.

Lemma process_sample_added maxtime dc w s :
  exists added, entries (process_sample maxtime dc w s) = entries w ++ added.
Proof.
  unfold process_sample.
  destruct (clamp_time (lasttime w) (sample.time s)) as [time delta].
  destruct (raster_loop _ _ _ _ _ _ _ _ _ _) as [evs1 es1] eqn:E1.
  apply raster_loop_added in E1 as (a1 & -> & _).
  destruct (add_events_before _ _ _ _ _ _ _ _) as [evs2 es2] eqn:E2.
  apply add_events_before_added in E2 as (a2 & -> & _).
  cbn [entries]. rewrite <- !app_assoc. eexists. reflexivity.
Qed.

Lemma sample_loop_added maxtime dc ss w :
  exists added, entries (sample_loop maxtime dc ss w) = entries w ++ added.
Proof.
  revert w. induction ss as [|s ss IH]; intros w; simpl.
  - exists []. rewrite app_nil_r. reflexivity.
  - destruct (process_sample_added maxtime dc w s) as (a1 & H1).
    destruct (lasttime (process_sample maxtime dc w s) >? maxtime).
    + exists a1. exact H1.
    + destruct (IH (process_sample maxtime dc w s)) as (a2 & H2).
      rewrite H2, H1, <- app_assoc. eexists. reflexivity.
Qed.

(** The series without its two final entries. *)
Definition body (dc : divecomputer.t) (maxtime : Z) : Z * list plot_data :=
  let w := sample_loop maxtime dc (divecomputer.sample dc) (initial_walk dc) in
  remaining_events (ev w) (lasttime w) (entries w).

Lemma populate_plot_entries_body dc maxtime :
  populate_plot_entries true dc maxtime =
  Some (snd (body dc maxtime) ++ final_entries (fst (body dc maxtime))).
Proof.
  unfold populate_plot_entries, body.
  destruct (remaining_events _ _ _) as [lt es]. reflexivity.
Qed.

Lemma body_starts dc maxtime :
  exists added, snd (body dc maxtime) =
    [zero_entry MAX_CYLINDERS; zero_entry MAX_CYLINDERS] ++ added.
Proof.
  unfold body.
  destruct (sample_loop_added maxtime dc (divecomputer.sample dc) (initial_walk dc)) as (a1 & H1).
  destruct (remaining_events _ _ _) as [lt es] eqn:E.
  apply remaining_events_added in E as (a2 & ->). rewrite H1. cbn [snd initial_walk entries].
  rewrite <- app_assoc. eexists. reflexivity.
Qed.

Lemma process_sample_last maxtime dc w s :
  last (secs (entries (process_sample maxtime dc w s)))
  = Some (lasttime (process_sample maxtime dc w s)).
Proof.
  unfold process_sample.
  destruct (clamp_time (lasttime w) (sample.time s)) as [time delta].
  destruct (raster_loop _ _ _ _ _ _ _ _ _ _) as [evs1 es1].
  destruct (add_events_before _ _ _ _ _ _ _ _) as [evs2 es2]. cbn [entries lasttime].
  rewrite secs_app. cbn [secs map]. rewrite sec_sample_entry. apply last_snoc.
Qed.

Lemma sample_loop_last maxtime dc ss w :
  last (secs (entries w)) = Some (lasttime w) ->
  last (secs (entries (sample_loop maxtime dc ss w)))
  = Some (lasttime (sample_loop maxtime dc ss w)).
Proof.
  revert w. induction ss as [|s ss IH]; intros w Hw; simpl; [exact Hw|].
  destruct (lasttime (process_sample maxtime dc w s) >? maxtime).
  - apply process_sample_last.
  - apply IH, process_sample_last.
Qed.

Lemma remaining_events_last evs lt es lt' es' :
  remaining_events evs lt es = (lt', es') ->
  last (secs es) = Some lt -> last (secs es') = Some lt'.
Proof.
  revert lt es. induction evs as [|e evs IH]; intros lt es Heq Hl; simpl in Heq.
  - injection Heq as <- <-. exact Hl.
  - destruct (event.time e >? lt).
    + apply IH in Heq; [exact Heq|]. rewrite secs_INSERT_ENTRY. apply last_snoc.
    + apply IH in Heq; assumption.
Qed.

(** C4, as the code has it.  Every series that [populate_plot_entries]
    produces has at least four entries and ends with two padding entries,
    empty but for their times, one and two seconds after the time of the
    entry before them (the last sample or event).  Its entry times never
    decrease when the events of the dive computer are in time order and
    none is before time 0. *)
Theorem populate_plot_entries_ordered (calloc_ok : bool) (dc : divecomputer.t)
    (maxtime : Z) (es : list plot_data) :
  populate_plot_entries calloc_ok dc maxtime = Some es ->
  (4 <= List.length es)%nat /\
  (exists (real : list plot_data) (lt : Z),
     es = real ++ [set_sec (lt + 1) (zero_entry MAX_CYLINDERS);
                   set_sec (lt + 2) (zero_entry MAX_CYLINDERS)] /\
     last (secs real) = Some lt) /\
  (nondecreasing (times (divecomputer.events dc)) ->
   Forall (fun z => 0 <= z) (times (divecomputer.events dc)) ->
   nondecreasing (secs es)).
Proof.
  intros Heq. destruct calloc_ok; [|discriminate].
  rewrite populate_plot_entries_body in Heq. injection Heq as <-.
  destruct (body_starts dc maxtime) as (added & Hstart).
  unfold body in *.
  destruct (remaining_events _ _ _) as [lt real] eqn:E. cbn [fst snd] in *.
  split; [|split].
  - rewrite Hstart, !List.length_app. simpl. lia.
  - exists real, lt. split; [reflexivity|].
    apply remaining_events_last in E; [exact E|].
    apply sample_loop_last. reflexivity.
  - intros Hs Hb.
    pose proof (sample_loop_order maxtime dc (divecomputer.sample dc) (initial_walk dc)
                  (initial_walk_order dc Hs Hb)) as (Hs1 & Hb1 & Hl1).
    apply remaining_events_order in E as (Hs2 & Hb2 & Hl2);
      [| unfold nondecreasing in *; eapply StronglySorted_app_1_l; exact Hs1 | exact Hb1
       | exact Hl1].
    rewrite secs_app. unfold final_entries. simpl.
    change (secs real ++ [lt + 1; lt + 2]) with (secs real ++ (lt + 1) :: [lt + 2]).
    apply nondecreasing_middle.
    + apply nondecreasing_snoc; [exact Hs2|].
      eapply Forall_le_trans; [|exact Hb2]. lia.
    + eapply Forall_le_trans; [|exact Hb2]. lia.
    + constructor; [lia|constructor].
Qed.

(** *** How many entries are written *)

Lemma add_events_before_count limit lt ld depth_ delta sc evs es evs' es' :
  add_events_before limit lt ld depth_ delta sc evs es = (evs', es') ->
  (List.length es' + List.length evs' = List.length es + List.length evs)%nat.
Proof.
  revert es. induction evs as [|e evs IH]; intros es Heq; simpl in Heq.
  - injection Heq as <- <-. reflexivity.
  - destruct (event.time e <? limit).
    + apply IH in Heq. rewrite length_INSERT_ENTRY in Heq. simpl. lia.
    + injection Heq as <- <-. reflexivity.
Qed.

Lemma skip_events_at_count t evs :
  (List.length (skip_events_at t evs) <= List.length evs)%nat.
Proof.
  induction evs as [|e evs IH]; simpl; [lia|].
  destruct (event.time e =? t); simpl; lia.
Qed.

(** The raster loop adds [r] entries besides the events it places, and
    the last raster point is within [maxtime] and before the sample. *)
Lemma raster_loop_count fuel offset maxtime lt ld depth_ delta sc evs es evs' es' :
  raster_loop fuel offset maxtime lt ld depth_ delta sc evs es = (evs', es') ->
  exists r : Z, 0 <= r /\
    Z.of_nat (List.length es') + Z.of_nat (List.length evs')
      <= Z.of_nat (List.length es) + Z.of_nat (List.length evs) + r /\
    (r = 0 \/ (lt + offset + 10 * (r - 1) <= maxtime /\ offset + 10 * (r - 1) < delta)).
Proof.
  revert offset evs es.
  induction fuel as [|fuel IH]; intros offset evs es Heq; simpl in Heq.
  - injection Heq as <- <-. exists 0. lia.
  - destruct (Z.ltb_spec offset delta) as [Hlt|Hge]; [|injection Heq as <- <-; exists 0; lia].
    destruct (Z.gtb_spec (lt + offset) maxtime) as [Hbr|Hin];
      [injection Heq as <- <-; exists 0; lia|].
    destruct (add_events_before (lt + offset) lt ld depth_ delta sc evs es) as [evs1 es1] eqn:E1.
    apply add_events_before_count in E1.
    apply IH in Heq as (r & Hr & Hcount & Hlast).
    rewrite length_INSERT_ENTRY in Hcount.
    pose proof (skip_events_at_count (lt + offset) evs1) as Hskip.
    exists (r + 1). split; [lia|]. split; [lia|]. right. lia.
Qed.

Lemma clamp_time_cases lt time :
  clamp_time lt time = (lt, 1) /\ time <= lt \/
  clamp_time lt time = (time, time - lt) /\ lt < time.
Proof. unfold clamp_time. destruct (Z.leb_spec (time - lt) 0); [left|right]; split; (reflexivity || lia). Qed.

(** The invariant of the count, with [n] samples still to come: ten times
    the number of raster entries so far is at most the time reached. *)
Definition within (dc : divecomputer.t) (maxtime : Z) (w : walk) (n : Z) : Prop :=
  0 <= lasttime w /\
  10 * (idx w + Z.of_nat (List.length (ev w)) + n - 2
        - count_events dc - divecomputer.samples dc)
    <= Z.min (lasttime w) maxtime.

Lemma process_sample_within maxtime dc w s n :
  within dc maxtime w (n + 1) -> within dc maxtime (process_sample maxtime dc w s) n.
Proof.
  unfold within, idx. intros (Hlt & Hinv). unfold process_sample.
  destruct (clamp_time_cases (lasttime w) (sample.time s)) as [(-> & Hc)|(-> & Hc)].
  - destruct (raster_loop _ _ _ _ _ _ _ _ _ _) as [evs1 es1] eqn:E1.
    apply raster_loop_count in E1 as (r & Hr & Hcount & Hlast).
    destruct (add_events_before _ _ _ _ _ _ _ _) as [evs2 es2] eqn:E2.
    apply add_events_before_count in E2.
    pose proof (skip_events_at_count (lasttime w) evs2) as Hskip.
    cbn [entries ev lasttime]. rewrite List.length_app. simpl. lia.
  - destruct (raster_loop _ _ _ _ _ _ _ _ _ _) as [evs1 es1] eqn:E1.
    apply raster_loop_count in E1 as (r & Hr & Hcount & Hlast).
    destruct (add_events_before _ _ _ _ _ _ _ _) as [evs2 es2] eqn:E2.
    apply add_events_before_count in E2.
    pose proof (skip_events_at_count (sample.time s) evs2) as Hskip.
    cbn [entries ev lasttime]. rewrite List.length_app. simpl. lia.
Qed.

Lemma sample_loop_within maxtime dc ss w :
  within dc maxtime w (Z.of_nat (List.length ss)) ->
  within dc maxtime (sample_loop maxtime dc ss w) 0.
Proof.
  revert w. induction ss as [|s ss IH]; intros w Hw; simpl; [exact Hw|].
  assert (Hw' : within dc maxtime (process_sample maxtime dc w s) (Z.of_nat (List.length ss))).
  { apply process_sample_within. simpl List.length in Hw.
    replace (Z.of_nat (List.length ss) + 1) with (Z.of_nat (S (List.length ss))) by lia.
    exact Hw. }
  destruct (lasttime (process_sample maxtime dc w s) >? maxtime); [|apply IH, Hw'].
  destruct Hw' as (H1 & H2). split; [exact H1|]. lia.
Qed.

Lemma initial_walk_within maxtime dc :
  0 <= maxtime ->
  within dc maxtime (initial_walk dc) (Z.of_nat (List.length (divecomputer.sample dc))).
Proof.
  intros Hm. unfold within, idx, initial_walk, count_events, divecomputer.samples.
  cbn [entries ev lasttime].
  pose proof (skip_events_at_count 0 (divecomputer.events dc)) as Hskip.
  simpl List.length. lia.
Qed.

Lemma remaining_events_count evs lt es lt' es' :
  remaining_events evs lt es = (lt', es') ->
  (List.length es' <= List.length es + List.length evs)%nat.
Proof.
  revert lt es. induction evs as [|e evs IH]; intros lt es Heq; simpl in Heq.
  - injection Heq as <- <-. lia.
  - destruct (event.time e >? lt); apply IH in Heq;
      rewrite ?length_INSERT_ENTRY in Heq; simpl; lia.
Qed.

(** The count for a [maxtime] that is not negative. *)
Lemma populate_plot_entries_count (calloc_ok : bool) (dc : divecomputer.t)
    (maxtime : Z) (es : list plot_data) :
  0 <= maxtime ->
  populate_plot_entries calloc_ok dc maxtime = Some es ->
  Z.of_nat (List.length es) + 2 <= allocated dc maxtime.
Proof.
  intros Hm Heq. destruct calloc_ok; [|discriminate].
  rewrite populate_plot_entries_body in Heq. injection Heq as <-.
  pose proof (sample_loop_within maxtime dc (divecomputer.sample dc) (initial_walk dc)
                (initial_walk_within maxtime dc Hm)) as (Hlt & Hinv).
  unfold body.
  destruct (remaining_events _ _ _) as [lt real] eqn:E. cbn [fst snd].
  apply remaining_events_count in E.
  rewrite List.length_app. unfold final_entries, allocated, idx in *. simpl List.length.
  rewrite Z.quot_div_nonneg by lia.
  pose proof (Z.div_mod maxtime 10 ltac:(lia)) as Hdiv.
  pose proof (Z.mod_pos_bound maxtime 10 ltac:(lia)) as Hmod.
  lia.
Qed.

(** *** A property of every entry written *)

Section Every.

Variable P : plot_data -> Prop.
Hypothesis P_inserted : forall prev t d sc, P (inserted_entry prev t d sc).
Hypothesis P_sample : forall dc s time prev lt, P (sample_entry dc s time prev lt).
Hypothesis P_empty : forall t, P (set_sec t (zero_entry MAX_CYLINDERS)).

Lemma add_events_before_every limit lt ld depth_ delta sc evs es :
  Forall P es -> Forall P (snd (add_events_before limit lt ld depth_ delta sc evs es)).
Proof.
  revert es. induction evs as [|e evs IH]; intros es Hes; simpl; [exact Hes|].
  destruct (event.time e <? limit); [|exact Hes].
  apply IH. unfold INSERT_ENTRY. apply Forall_app. split; [exact Hes|].
  constructor; [apply P_inserted|constructor].
Qed.

Lemma raster_loop_every fuel offset maxtime lt ld depth_ delta sc evs es :
  Forall P es -> Forall P (snd (raster_loop fuel offset maxtime lt ld depth_ delta sc evs es)).
Proof.
  revert offset evs es. induction fuel as [|fuel IH]; intros offset evs es Hes; simpl;
    [exact Hes|].
  destruct (offset <? delta); [|exact Hes].
  destruct (lt + offset >? maxtime); [exact Hes|].
  pose proof (add_events_before_every (lt + offset) lt ld depth_ delta sc evs es Hes) as H1.
  destruct (add_events_before _ _ _ _ _ _ _ _) as [evs1 es1]. cbn [snd] in H1.
  apply IH. unfold INSERT_ENTRY. apply Forall_app. split; [exact H1|].
  constructor; [apply P_inserted|constructor].
Qed.

Lemma process_sample_every maxtime dc w s :
  Forall P (entries w) -> Forall P (entries (process_sample maxtime dc w s)).
Proof.
  intros Hw. unfold process_sample.
  destruct (clamp_time (lasttime w) (sample.time s)) as [time delta].
  pose proof (raster_loop_every (Z.to_nat delta) 10 maxtime (lasttime w) (lastdepth w)
                (sample.depth s) delta (sample.sac s) (ev w) (entries w) Hw) as H1.
  destruct (raster_loop _ _ _ _ _ _ _ _ _ _) as [evs1 es1]. cbn [snd] in H1.
  pose proof (add_events_before_every time (lasttime w) (lastdepth w) (sample.depth s) delta
                (sample.sac s) evs1 es1 H1) as H2.
  destruct (add_events_before _ _ _ _ _ _ _ _) as [evs2 es2]. cbn [snd] in H2.
  cbn [entries]. apply Forall_app. split; [exact H2|].
  constructor; [apply P_sample|constructor].
Qed.

Lemma sample_loop_every maxtime dc ss w :
  Forall P (entries w) -> Forall P (entries (sample_loop maxtime dc ss w)).
Proof.
  revert w. induction ss as [|s ss IH]; intros w Hw; simpl; [exact Hw|].
  pose proof (process_sample_every maxtime dc w s Hw) as Hw'.
  destruct (_ >? maxtime); [exact Hw'|]. apply IH, Hw'.
Qed.

Lemma remaining_events_every evs lt es :
  Forall P es -> Forall P (snd (remaining_events evs lt es)).
Proof.
  revert lt es. induction evs as [|e evs IH]; intros lt es Hes; simpl; [exact Hes|].
  destruct (event.time e >? lt); [|apply IH, Hes].
  apply IH. unfold INSERT_ENTRY. apply Forall_app. split; [exact Hes|].
  constructor; [apply P_inserted|constructor].
Qed.

Lemma populate_plot_entries_every calloc_ok dc maxtime es :
  populate_plot_entries calloc_ok dc maxtime = Some es -> Forall P es.
Proof.
  intros Heq. destruct calloc_ok; [|discriminate].
  rewrite populate_plot_entries_body in Heq. injection Heq as <-.
  unfold body, final_entries.
  pose proof (remaining_events_every
    (ev (sample_loop maxtime dc (divecomputer.sample dc) (initial_walk dc)))
    (lasttime (sample_loop maxtime dc (divecomputer.sample dc) (initial_walk dc)))
    (entries (sample_loop maxtime dc (divecomputer.sample dc) (initial_walk dc)))) as H.
  destruct (remaining_events _ _ _) as [lt real]. cbn [fst snd] in *.
  apply Forall_app. split.
  - apply H, sample_loop_every. unfold initial_walk. cbn [entries].
    assert (Hz : P (zero_entry MAX_CYLINDERS)) by apply (P_empty 0).
    repeat constructor; exact Hz.
  - repeat constructor; apply P_empty.
Qed.

End Every.

End Populate.

(** *** The interpolation divisor *)

Section Divisor.

Variable MAX_CYLINDERS : nat.

(** Two interpolation helpers that agree whenever the divisor is at least 1. *)
Variables interp1 interp2 : Z -> Z -> Z -> Z -> Z.
Hypothesis agree : forall a b part whole, 1 <= whole -> interp1 a b part whole = interp2 a b part whole.

Lemma add_events_before_divisor limit lt ld depth_ delta sc evs es :
  1 <= delta ->
  add_events_before MAX_CYLINDERS interp1 limit lt ld depth_ delta sc evs es =
  add_events_before MAX_CYLINDERS interp2 limit lt ld depth_ delta sc evs es.
Proof.
  intros Hd. revert es. induction evs as [|e evs IH]; intros es; simpl; [reflexivity|].
  destruct (event.time e <? limit); [|reflexivity].
  rewrite agree by exact Hd. apply IH.
Qed.

Lemma raster_loop_divisor fuel offset maxtime lt ld depth_ delta sc evs es :
  1 <= delta ->
  raster_loop MAX_CYLINDERS interp1 fuel offset maxtime lt ld depth_ delta sc evs es =
  raster_loop MAX_CYLINDERS interp2 fuel offset maxtime lt ld depth_ delta sc evs es.
Proof.
  intros Hd. revert offset evs es.
  induction fuel as [|fuel IH]; intros offset evs es; simpl; [reflexivity|].
  destruct (offset <? delta); [|reflexivity].
  destruct (lt + offset >? maxtime); [reflexivity|].
  rewrite add_events_before_divisor by exact Hd.
  destruct (add_events_before _ _ _ _ _ _ _ _ _ _) as [evs1 es1].
  rewrite agree by exact Hd. apply IH.
Qed.

Lemma process_sample_divisor maxtime dc w s :
  process_sample MAX_CYLINDERS interp1 maxtime dc w s =
  process_sample MAX_CYLINDERS interp2 maxtime dc w s.
Proof.
  unfold process_sample.
  destruct (clamp_time (lasttime w) (sample.time s)) as [time delta] eqn:Ec.
  apply clamp_time_spec in Ec as (_ & Hd & _).
  rewrite raster_loop_divisor by exact Hd.
  destruct (raster_loop _ _ _ _ _ _ _ _ _ _ _ _) as [evs1 es1].
  rewrite add_events_before_divisor by exact Hd. reflexivity.
Qed.

Lemma sample_loop_divisor maxtime dc ss w :
  sample_loop MAX_CYLINDERS interp1 maxtime dc ss w =
  sample_loop MAX_CYLINDERS interp2 maxtime dc ss w.
Proof.
  revert w. induction ss as [|s ss IH]; intros w; simpl; [reflexivity|].
  rewrite process_sample_divisor. destruct (_ >? _); [reflexivity|apply IH].
Qed.

Lemma populate_plot_entries_divisor calloc_ok dc maxtime :
  populate_plot_entries MAX_CYLINDERS interp1 calloc_ok dc maxtime =
  populate_plot_entries MAX_CYLINDERS interp2 calloc_ok dc maxtime.
Proof. unfold populate_plot_entries. rewrite sample_loop_divisor. reflexivity. Qed.

End Divisor.

(** What one turn of the sample loop does when the time of the sample is
    not after [lasttime]: no raster entry, the divisor 1, and the entry of
    the sample at [lasttime]. *)
Definition process_sample_clamped (MAX_CYLINDERS : nat) (interp : Z -> Z -> Z -> Z -> Z)
    (dc : divecomputer.t) (w : walk) (s : sample.t) : walk :=
  let '(evs2, es2) :=
    add_events_before MAX_CYLINDERS interp (lasttime w) (lasttime w) (lastdepth w)
      (sample.depth s) 1 (sample.sac s) (ev w) (entries w) in
  {| entries := es2 ++ [sample_entry MAX_CYLINDERS dc s (lasttime w)
                          (previous MAX_CYLINDERS es2) (lasttemp w)];
     ev := skip_events_at (lasttime w) evs2;
     lasttime := lasttime w;
     lastdepth := sample.depth s;
     lasttemp := if sample.temperature s =? 0 then lasttemp w else sample.temperature s |}.

Lemma lasttime_process_sample M interp maxtime dc w s :
  lasttime (process_sample M interp maxtime dc w s) = Z.max (lasttime w) (sample.time s).
Proof.
  unfold process_sample.
  destruct (clamp_time_cases (lasttime w) (sample.time s)) as [(-> & Hc)|(-> & Hc)];
    destruct (raster_loop _ _ _ _ _ _ _ _ _ _ _ _) as [evs1 es1];
    destruct (add_events_before _ _ _ _ _ _ _ _ _ _) as [evs2 es2]; cbn [lasttime]; lia.
Qed.

Lemma lastdepth_process_sample M interp maxtime dc w s :
  lastdepth (process_sample M interp maxtime dc w s) = sample.depth s.
Proof.
  unfold process_sample.
  destruct (clamp_time (lasttime w) (sample.time s)) as [time delta].
  destruct (raster_loop _ _ _ _ _ _ _ _ _ _ _ _) as [evs1 es1].
  destruct (add_events_before _ _ _ _ _ _ _ _ _ _) as [evs2 es2]. reflexivity.
Qed.

Lemma last_entry_process_sample M interp maxtime dc w s :
  exists e, last (entries (process_sample M interp maxtime dc w s)) = Some e /\
            sec e = lasttime (process_sample M interp maxtime dc w s) /\
            depth e = sample.depth s.
Proof.
  unfold process_sample.
  destruct (clamp_time (lasttime w) (sample.time s)) as [time delta].
  destruct (raster_loop _ _ _ _ _ _ _ _ _ _ _ _) as [evs1 es1].
  destruct (add_events_before _ _ _ _ _ _ _ _ _ _) as [evs2 es2]. cbn [entries lasttime].
  eexists. split; [apply last_snoc|]. split; [apply sec_sample_entry|apply depth_sample_entry].
Qed.

Lemma process_sample_not_after M interp maxtime dc w s :
  sample.time s <= lasttime w ->
  process_sample M interp maxtime dc w s = process_sample_clamped M interp dc w s.
Proof.
  intros Hc. unfold process_sample, process_sample_clamped.
  destruct (clamp_time_cases (lasttime w) (sample.time s)) as [(-> & _)|(_ & Hlt)]; [|lia].
  reflexivity.
Qed.

(** The sample loop is not left while the samples stay within [maxtime]:
    it goes on with the samples that follow. *)
Lemma sample_loop_through M interp maxtime dc pre rest w :
  lasttime w <= maxtime ->
  Forall (fun x => sample.time x <= maxtime) pre ->
  sample_loop M interp maxtime dc (pre ++ rest) w
  = sample_loop M interp maxtime dc rest (sample_loop M interp maxtime dc pre w) /\
  lasttime (sample_loop M interp maxtime dc pre w) <= maxtime.
Proof.
  revert w. induction pre as [|x pre IH]; intros w Hw Hall; [split; [reflexivity|exact Hw]|].
  apply Forall_cons in Hall as [Hx Hall]. cbn [app sample_loop].
  assert (Hl : lasttime (process_sample M interp maxtime dc w x) <= maxtime).
  { rewrite lasttime_process_sample. lia. }
  destruct (Z.gtb_spec (lasttime (process_sample M interp maxtime dc w x)) maxtime); [lia|].
  apply IH; assumption.
Qed.

(** The series holds everything the sample loop has written. *)
Lemma populate_plot_entries_extends M interp maxtime dc ss w :
  sample_loop M interp maxtime dc (divecomputer.sample dc) (initial_walk M dc)
  = sample_loop M interp maxtime dc ss w ->
  exists rest, populate_plot_entries M interp true dc maxtime = Some (entries w ++ rest).
Proof.
  intros Hloop. rewrite populate_plot_entries_body. unfold body. rewrite Hloop.
  destruct (sample_loop_added M interp maxtime dc ss w) as (a1 & H1).
  destruct (remaining_events _ _ _ _) as [lt es] eqn:E.
  apply remaining_events_added in E as (a2 & ->). rewrite H1. cbn [fst snd].
  rewrite <- !app_assoc. eexists. reflexivity.
Qed.

(** C8. Samples whose times are identical or decreasing are not rejected:
    [populate_plot_entries] returns a series for every dive computer
    whenever the allocation succeeds.  The duration handed to the
    interpolation is never below 1: the series is the same for any two
    interpolation helpers that agree on divisors of at least 1, so what
    the helper does with a zero divisor is never used.  When a sample [s]
    follows a sample [p] with a time that is identical or earlier, its
    turn of the loop is the clamped one: the duration is 1, no raster
    entry is made, and the entry of [s] is written at the time of the
    entry of [p].  And processing continues: in a dive whose samples up to
    [p] are within [maxtime], the loop goes on from there with the samples
    after [s], and the series returned holds the entries of both. *)
Theorem sample_time_clamped (MAX_CYLINDERS : nat) (interp1 interp2 : Z -> Z -> Z -> Z -> Z)
    (maxtime : Z) (dc : divecomputer.t) (w0 : walk) (p s : sample.t) :
  (forall a b part whole, 1 <= whole -> interp1 a b part whole = interp2 a b part whole) ->
  sample.time s <= sample.time p ->
  let w := process_sample MAX_CYLINDERS interp1 maxtime dc w0 p in
  let w' := process_sample MAX_CYLINDERS interp1 maxtime dc w s in
  (forall dc' maxtime',
     exists es, populate_plot_entries MAX_CYLINDERS interp1 true dc' maxtime' = Some es) /\
  (forall calloc_ok dc' maxtime',
     populate_plot_entries MAX_CYLINDERS interp1 calloc_ok dc' maxtime' =
     populate_plot_entries MAX_CYLINDERS interp2 calloc_ok dc' maxtime') /\
  (forall lt time, 1 <= snd (clamp_time lt time)) /\
  clamp_time (lasttime w) (sample.time s) = (lasttime w, 1) /\
  w' = process_sample_clamped MAX_CYLINDERS interp1 dc w s /\
  lasttime w' = lasttime w /\
  (exists ep es, last (entries w) = Some ep /\ last (entries w') = Some es /\
                 sec es = sec ep /\ depth es = sample.depth s) /\
  (forall pre post,
     0 <= maxtime ->
     divecomputer.sample dc = pre ++ p :: s :: post ->
     Forall (fun x => sample.time x <= maxtime) (pre ++ [p]) ->
     w0 = sample_loop MAX_CYLINDERS interp1 maxtime dc pre (initial_walk MAX_CYLINDERS dc) ->
     sample_loop MAX_CYLINDERS interp1 maxtime dc (divecomputer.sample dc)
       (initial_walk MAX_CYLINDERS dc)
     = sample_loop MAX_CYLINDERS interp1 maxtime dc post w' /\
     exists rest,
       populate_plot_entries MAX_CYLINDERS interp1 true dc maxtime = Some (entries w' ++ rest)).
Proof.
  intros Hagree Hle w w'.
  assert (Hlt : sample.time s <= lasttime w).
  { unfold w. rewrite lasttime_process_sample. lia. }
  assert (Hsame : lasttime w' = lasttime w).
  { unfold w'. rewrite lasttime_process_sample. lia. }
  split; [|split; [|split; [|split; [|split; [|split; [|split]]]]]].
  - intros dc' maxtime'. rewrite populate_plot_entries_body. eexists. reflexivity.
  - intros calloc_ok dc' maxtime'. apply populate_plot_entries_divisor. exact Hagree.
  - intros lt time. destruct (clamp_time lt time) as [t d] eqn:E.
    apply clamp_time_spec in E. simpl. tauto.
  - destruct (clamp_time_cases (lasttime w) (sample.time s)) as [(H & _)|(_ & H)]; [exact H|lia].
  - apply process_sample_not_after. exact Hlt.
  - exact Hsame.
  - destruct (last_entry_process_sample MAX_CYLINDERS interp1 maxtime dc w0 p) as (ep & Hp & Hsp & _).
    destruct (last_entry_process_sample MAX_CYLINDERS interp1 maxtime dc w s) as (es & Hs & Hss & Hds).
    exists ep, es. fold w in Hp, Hsp. fold w' in Hs, Hss.
    split; [exact Hp|]. split; [exact Hs|]. split; [|exact Hds].
    rewrite Hss, Hsp. exact Hsame.
  - intros pre post Hmax Hsamples Hall Hw0.
    apply Forall_app in Hall as [Hpre Hp]. apply Forall_cons in Hp as [Hp _].
    destruct (sample_loop_through MAX_CYLINDERS interp1 maxtime dc pre (p :: s :: post)
                (initial_walk MAX_CYLINDERS dc) Hmax Hpre) as (Hgo & Hl0).
    rewrite <- Hw0 in Hgo, Hl0.
    assert (Hl : lasttime w <= maxtime).
    { unfold w. rewrite lasttime_process_sample. lia. }
    assert (Hloop : sample_loop MAX_CYLINDERS interp1 maxtime dc (divecomputer.sample dc)
                      (initial_walk MAX_CYLINDERS dc)
                    = sample_loop MAX_CYLINDERS interp1 maxtime dc post w').
    { rewrite Hsamples, Hgo. cbn [sample_loop]. fold w.
      destruct (Z.gtb_spec (lasttime w) maxtime); [lia|]. fold w'.
      destruct (Z.gtb_spec (lasttime w') maxtime); [lia|]. reflexivity. }
    split; [exact Hloop|].
    eapply populate_plot_entries_extends. exact Hloop.
Qed.

(** *** Depth of the raster entries *)

Lemma raster_loop_fuel M interp fuel fuel' offset maxtime lt ld depth_ delta sc evs es :
  delta <= offset + 10 * Z.of_nat fuel -> (fuel <= fuel')%nat ->
  raster_loop M interp fuel' offset maxtime lt ld depth_ delta sc evs es =
  raster_loop M interp fuel offset maxtime lt ld depth_ delta sc evs es.
Proof.
  revert fuel' offset evs es.
  induction fuel as [|fuel IH]; intros fuel' offset evs es Hd Hf.
  - destruct fuel' as [|fuel']; [reflexivity|]. simpl.
    destruct (Z.ltb_spec offset delta); [lia|reflexivity].
  - destruct fuel' as [|fuel']; [lia|]. simpl.
    destruct (offset <? delta); [|reflexivity].
    destruct (lt + offset >? maxtime); [reflexivity|].
    destruct (add_events_before _ _ _ _ _ _ _ _ _ _) as [evs1 es1].
    apply IH; lia.
Qed.

Lemma process_sample_between M interp maxtime dc w s :
  let time := fst (clamp_time (lasttime w) (sample.time s)) in
  let delta := snd (clamp_time (lasttime w) (sample.time s)) in
  exists added,
    entries (process_sample M interp maxtime dc w s) =
      entries w ++ added ++
      [sample_entry M dc s time (previous M (entries w ++ added)) (lasttemp w)] /\
    Forall (on_line interp (lasttime w) (lastdepth w) (sample.depth s) delta) added /\
    (forall offset, 0 < offset < delta -> (10 | offset) -> lasttime w + offset <= maxtime ->
       exists e, e ∈ added /\ sec e = lasttime w + offset /\
                 depth e = interp (lastdepth w) (sample.depth s) offset delta).
Proof.
  unfold process_sample.
  destruct (clamp_time (lasttime w) (sample.time s)) as [time delta] eqn:Ec. cbn [fst snd].
  apply clamp_time_spec in Ec as (_ & Hd & _).
  destruct (raster_loop _ _ _ _ _ _ _ _ _ _ _ _) as [evs1 es1] eqn:E1.
  apply raster_loop_added in E1 as (a1 & -> & Hall1 & Hex).
  destruct (add_events_before _ _ _ _ _ _ _ _ _ _) as [evs2 es2] eqn:E2.
  apply add_events_before_added in E2 as (a2 & -> & Hall2).
  exists (a1 ++ a2). cbn [entries]. rewrite <- !app_assoc.
  split; [reflexivity|]. split; [apply Forall_app; split; assumption|].
  intros offset Ho [m Hm] Hmax.
  destruct (Hex ltac:(lia) (Z.to_nat (m - 1)) ltac:(lia) ltac:(lia)) as (e & He & Hsec & Hdep).
  exists e. split; [apply elem_of_app; left; exact He|].
  replace (10 + 10 * Z.of_nat (Z.to_nat (m - 1))) with offset in * by lia.
  split; assumption.
Qed.

(** The interpolated value is the integer nearest to the point on the
    line. *)
Lemma interpolate_nearest (a b part whole : Z) :
  whole <> 0 ->
  2 * Z.abs (whole * interpolate a b part whole - (a * (whole - part) + b * part))
    <= Z.abs whole.
Proof.
  intros Hw. unfold interpolate. destruct (Z.eqb_spec whole 0); [contradiction|].
  apply round_div_nearest. exact Hw.
Qed.

(** It is that point itself when the point has integer coordinates. *)
Lemma interpolate_exact (a b part whole v : Z) :
  whole <> 0 -> a * (whole - part) + b * part = whole * v ->
  interpolate a b part whole = v.
Proof.
  intros Hw Hv. pose proof (interpolate_nearest a b part whole Hw) as Hn.
  rewrite Hv in Hn. rewrite <- Z.mul_sub_distr_l, Z.abs_mul in Hn.
  assert (Hz : Z.abs (interpolate a b part whole - v) = 0) by nia.
  lia.
Qed.

(** C7, as the code has it.  Let the sample [s] follow the sample [p] in
    the loop, let [lt] be the time of the entry of [p] and [delta] the
    duration the loop takes between the two (the time of [s] minus [lt], or
    1 when that is not positive).  Every entry that the turn of [s] adds
    before the entry of [s] lies on the line between the two entries: its
    depth is the linear interpolation of the two depths at its offset from
    [lt] out of [delta].  For every offset that is a multiple of 10
    seconds, short of [delta] and within [maxtime], there is such an entry
    at that offset, and its depth is the integer nearest to the exact point
    of the line.  When [p] was not clamped (its time stamp is not before
    the entry that precedes it) and the time stamps increase, [lt] is the
    time stamp of [p] and [delta] the difference of the two time stamps. *)
Theorem raster_depth_interpolated (MAX_CYLINDERS : nat) (maxtime : Z)
    (dc : divecomputer.t) (w0 : walk) (p s : sample.t) :
  let w := process_sample MAX_CYLINDERS interpolate maxtime dc w0 p in
  let lt := lasttime w in
  let delta := snd (clamp_time lt (sample.time s)) in
  (exists ep, last (entries w) = Some ep /\ sec ep = lt /\ depth ep = sample.depth p) /\
  (lasttime w0 <= sample.time p -> sample.time p < sample.time s ->
     lt = sample.time p /\ delta = sample.time s - sample.time p) /\
  exists added last_entry,
    entries (process_sample MAX_CYLINDERS interpolate maxtime dc w s) =
      entries w ++ added ++ [last_entry] /\
    sec last_entry = Z.max lt (sample.time s) /\ depth last_entry = sample.depth s /\
    Forall (fun e => depth e =
              interpolate (sample.depth p) (sample.depth s) (sec e - lt) delta) added /\
    (forall offset, 0 < offset < delta -> (10 | offset) -> lt + offset <= maxtime ->
       exists e, e ∈ added /\ sec e = lt + offset /\
         depth e = interpolate (sample.depth p) (sample.depth s) offset delta /\
         2 * Z.abs (delta * depth e
                    - (sample.depth p * (delta - offset) + sample.depth s * offset)) <= delta).
Proof.
  intros w lt delta.
  assert (Hld : lastdepth w = sample.depth p).
  { unfold w. apply lastdepth_process_sample. }
  split; [|split].
  - destruct (last_entry_process_sample MAX_CYLINDERS interpolate maxtime dc w0 p)
      as (ep & Hlast & Hsec & Hdep).
    exists ep. split; [exact Hlast|]. split; [exact Hsec|exact Hdep].
  - intros Hp Hs.
    assert (Hlt : lt = sample.time p).
    { unfold lt, w. rewrite lasttime_process_sample. lia. }
    split; [exact Hlt|]. unfold delta. rewrite Hlt.
    destruct (clamp_time_cases (sample.time p) (sample.time s)) as [(_ & Hc)|(-> & _)]; [lia|].
    reflexivity.
  - destruct (process_sample_between MAX_CYLINDERS interpolate maxtime dc w s)
      as (added & Hent & Hall & Hex).
    fold lt in Hent, Hall, Hex. fold delta in Hall, Hex. rewrite Hld in Hall, Hex.
    assert (Hd : 1 <= delta).
    { unfold delta. destruct (clamp_time lt (sample.time s)) as [t d] eqn:E.
      apply clamp_time_spec in E. cbn [snd]. tauto. }
    exists added. eexists. split; [exact Hent|].
    split.
    { rewrite sec_sample_entry.
      destruct (clamp_time_cases lt (sample.time s)) as [(-> & Hc)|(-> & Hc)]; cbn [fst]; lia. }
    split; [apply depth_sample_entry|]. split; [exact Hall|].
    intros offset Ho Hdiv Hmax. destruct (Hex offset Ho Hdiv Hmax) as (e & He & Hsec & Hdep).
    exists e. repeat split; try assumption.
    rewrite Hdep.
    pose proof (interpolate_nearest (sample.depth p) (sample.depth s) offset delta ltac:(lia)).
    lia.
Qed.

(** *** Examples *)

(** A sample and an event with only time and depth set. *)
Definition plain_sample (t d : Z) : sample.t :=
  {| sample.time := t; sample.stoptime := 0; sample.ndl := 0; sample.tts := 0;
     sample.rbt := 0; sample.depth := d; sample.stopdepth := 0; sample.temperature := 0;
     sample.pressure := (0, 0); sample.setpoint := 0; sample.o2sensor := [0; 0; 0];
     sample.bearing := 0; sample.sensor := (0%nat, 0%nat); sample.cns := 0;
     sample.heartbeat := 0; sample.sac := 0; sample.in_deco := false |}.

Definition plain_event (t : Z) : event.t :=
  {| event.time := t; event.name := "bookmark"; event.value := 0; event.gas_index := -1 |}.

(** Two samples 30 seconds apart; one event between them. *)
Definition short_dive : divecomputer.t :=
  {| divecomputer.sample := [plain_sample 0 0; plain_sample 30 3000];
     divecomputer.events := [plain_event 25];
     divecomputer.divemode := OC; divecomputer.no_o2sensors := 0 |}.

(** The same samples with two events that are not in time order. *)
Definition misordered_dive : divecomputer.t :=
  {| divecomputer.sample := [plain_sample 0 0; plain_sample 30 3000];
     divecomputer.events := [plain_event 25; plain_event 5];
     divecomputer.divemode := OC; divecomputer.no_o2sensors := 0 |}.

Example short_dive_series :
  option_map (map (fun e => (sec e, depth e)))
    (populate_plot_entries 2 interpolate true short_dive 30)
  = Some [(0, 0); (0, 0); (0, 0); (10, 1000); (20, 2000); (25, 2500); (30, 3000);
          (31, 0); (32, 0)].
Proof. vm_compute. reflexivity. Qed.

Lemma populate_plot_entries_ordered_witness :
  exists es, populate_plot_entries 2 interpolate true short_dive 30 = Some es /\
    (4 <= List.length es)%nat /\
    (exists (real : list plot_data) (lt : Z),
       es = real ++ [set_sec (lt + 1) (zero_entry 2); set_sec (lt + 2) (zero_entry 2)] /\
       last (secs real) = Some lt) /\
    nondecreasing (secs es).
Proof.
  eexists. split; [reflexivity|].
  destruct (populate_plot_entries_ordered 2 interpolate true short_dive 30 _ eq_refl)
    as (Hlen & Hpad & Hord).
  split; [exact Hlen|]. split; [exact Hpad|].
  apply Hord.
  - unfold nondecreasing. simpl. repeat constructor.
  - simpl. repeat constructor. lia.
Defined.

(** C4 as stated fails: with the events at 25 s and 5 s given in that order,
    the series has an entry at 25 s followed by one at 5 s. *)
Lemma populate_plot_entries_misordered :
  exists es, populate_plot_entries 2 interpolate true misordered_dive 30 = Some es /\
    ~ nondecreasing (secs es).
Proof.
  eexists. split; [reflexivity|].
  assert (Hsecs : secs (snd (body 2 interpolate misordered_dive 30) ++
                        final_entries 2 (fst (body 2 interpolate misordered_dive 30)))
                  = [0; 0; 0; 10; 20; 25] ++ [5; 30; 31; 32]) by (vm_compute; reflexivity).
  intros Hs.
  change (nondecreasing (secs (snd (body 2 interpolate misordered_dive 30) ++
            final_entries 2 (fst (body 2 interpolate misordered_dive 30))))) in Hs.
  rewrite Hsecs in Hs.
  assert (H : 25 <= 5).
  { eapply (StronglySorted_app_1_elem_of Z.le); [exact Hs| |];
      apply list_elem_of_In; simpl; tauto. }
  lia.
Qed.

Lemma raster_depth_interpolated_witness :
  exists e,
    e ∈ entries (process_sample 2 interpolate 30 short_dive
                   (process_sample 2 interpolate 30 short_dive (initial_walk 2 short_dive)
                      (plain_sample 0 0))
                   (plain_sample 30 3000)) /\
    sec e = 20 /\ depth e = 2000.
Proof.
  destruct (raster_depth_interpolated 2 30 short_dive (initial_walk 2 short_dive)
              (plain_sample 0 0) (plain_sample 30 3000))
    as (_ & _ & added & last_entry & Hent & _ & _ & _ & Hex).
  destruct (Hex 20 ltac:(vm_compute; split; reflexivity) ltac:(exists 2; reflexivity)
              ltac:(vm_compute; discriminate)) as (e & He & Hsec & Hdep & _).
  exists e. split; [|split].
  - rewrite Hent. apply elem_of_app. right. apply elem_of_app. left. exact He.
  - exact Hsec.
  - exact Hdep.
Defined.

(** Three samples stamped 100 s, 50 s and 130 s. *)
Definition backstep_dive : divecomputer.t :=
  {| divecomputer.sample := [plain_sample 100 500; plain_sample 50 1000; plain_sample 130 4000];
     divecomputer.events := [];
     divecomputer.divemode := OC; divecomputer.no_o2sensors := 0 |}.

(** C7 as stated fails: the samples stamped 50 s and 130 s follow one
    another with increasing times, but the entry of the first of them is
    written at 100 s, the time of the sample before it.  The raster entries
    at 110 s and 120 s get the depths 2000 and 3000, on the line from
    (100 s, 1000) to (130 s, 4000), while the line between the two samples
    as stamped passes through 3250 and 3625 there. *)
Lemma raster_off_the_line_of_the_stamps :
  option_map (map (fun e => (sec e, depth e)))
    (populate_plot_entries 2 interpolate true backstep_dive 130)
  = Some [(0, 0); (0, 0); (10, 50); (20, 100); (30, 150); (40, 200); (50, 250); (60, 300);
          (70, 350); (80, 400); (90, 450); (100, 500); (100, 1000); (110, 2000);
          (120, 3000); (130, 4000); (131, 0); (132, 0)] /\
  interpolate 1000 4000 (110 - 50) (130 - 50) = 3250 /\
  interpolate 1000 4000 (120 - 50) (130 - 50) = 3625.
Proof. vm_compute. repeat split. Qed.

(** A dive computer whose clock stalls: the second sample is stamped
    earlier than the first. *)
Definition stalled_dive : divecomputer.t :=
  {| divecomputer.sample := [plain_sample 30 3000; plain_sample 20 2500; plain_sample 40 1000];
     divecomputer.events := [plain_event 25];
     divecomputer.divemode := OC; divecomputer.no_o2sensors := 0 |}.

Example stalled_dive_series :
  option_map (map (fun e => (sec e, depth e)))
    (populate_plot_entries 2 interpolate true stalled_dive 40)
  = Some [(0, 0); (0, 0); (10, 1000); (20, 2000); (25, 2500); (30, 3000); (30, 2500);
          (40, 1000); (41, 0); (42, 0)].
Proof. vm_compute. reflexivity. Qed.

Lemma sample_time_clamped_witness :
  let w := process_sample 2 interpolate 40 stalled_dive (initial_walk 2 stalled_dive)
             (plain_sample 30 3000) in
  let w' := process_sample 2 interpolate 40 stalled_dive w (plain_sample 20 2500) in
  clamp_time (lasttime w) 20 = (30, 1) /\ lasttime w' = 30 /\
  map (fun e => (sec e, depth e)) (entries w') =
    [(0, 0); (0, 0); (10, 1000); (20, 2000); (25, 2500); (30, 3000); (30, 2500)] /\
  exists rest,
    populate_plot_entries 2 interpolate true stalled_dive 40 = Some (entries w' ++ rest).
Proof.
  pose proof (sample_time_clamped 2 interpolate interpolate 40 stalled_dive
                (initial_walk 2 stalled_dive) (plain_sample 30 3000) (plain_sample 20 2500)
                ltac:(reflexivity) ltac:(simpl; lia)) as (_ & _ & _ & Hc & _ & Hl & _ & Hgo).
  split; [exact Hc|]. split; [exact Hl|]. split; [vm_compute; reflexivity|].
  apply (Hgo [] [plain_sample 40 1000]).
  - lia.
  - reflexivity.
  - repeat constructor. simpl. lia.
  - reflexivity.
Defined.

End Densify.

(** ** The limit scanner ([calculate_max_limits_new]) and the allocation *)

(** [struct dive], as far as the profile uses it: the dive computers are
    [dc], the one embedded in the dive, followed by the chain of its
    [next] pointers. *)
Module dive.
Record t : Type := mk {
  dc : divecomputer.t;
  next : list divecomputer.t;
  cylinder : list cylinder.t;   (* cylinder[0 .. MAX_CYLINDERS-1] *)
  maxdepth : Z;                 (* maxdepth.mm *)
  mintemp : Z;                  (* mintemp.mkelvin *)
  maxtemp : Z
}.
End dive.

Module Limits.
Import Densify.

(** The extrema of [struct plot_info] that the scanner fills in. *)
Record plot_info : Type := mk_plot_info {
  maxdepth : Z;
  maxtime : Z;
  maxpressure : Z;
  minpressure : Z;
  minhr : Z;
  maxhr : Z;
  mintemp : Z;
  maxtemp : Z
}.

(** The pointer [given_dc]: one of the dive computers of the dive, by its
    position in the chain, or a dive computer outside of it, with the chain
    of its own [next] pointers (empty for the null pointer). *)
Inductive dc_ref : Type :=
| in_dive (i : nat)
| outside (chain : list divecomputer.t).

Section Scan.

(** [SURFACE_THRESHOLD], a constant of the dive data structures. *)
Variable SURFACE_THRESHOLD : Z.

(** The per-cylinder loop over the start pressures. *)
Definition scan_cylinder (pi : plot_info) (c : cylinder.t) : plot_info :=
  let mbar := cylinder.start c in
  let maxp := if mbar >? maxpressure pi then mbar else maxpressure pi in
  let minp := if mbar <? minpressure pi then mbar else minpressure pi in
  {| maxdepth := maxdepth pi; maxtime := maxtime pi; maxpressure := maxp;
     minpressure := minp; minhr := minhr pi; maxhr := maxhr pi;
     mintemp := mintemp pi; maxtemp := maxtemp pi |}.

(** One turn of [while (--i >= 0)] over the samples; the second component
    is [lastdepth]. *)
Definition scan_sample (st : plot_info * Z) (s : sample.t) : plot_info * Z :=
  let '(pi, lastdepth_) := st in
  let depth_ := sample.depth s in
  let pressure_ := fst (sample.pressure s) in
  let temperature_ := sample.temperature s in
  let heartbeat_ := sample.heartbeat s in
  let mintemp' := if (mintemp pi =? 0) && (temperature_ <? mintemp pi)
                  then temperature_ else mintemp pi in
  let maxtemp' := if temperature_ >? maxtemp pi then temperature_ else maxtemp pi in
  let minpressure' := if negb (pressure_ =? 0) && (pressure_ <? minpressure pi)
                      then pressure_ else minpressure pi in
  let maxpressure' := if pressure_ >? maxpressure pi then pressure_ else maxpressure pi in
  let maxhr' := if heartbeat_ >? maxhr pi then heartbeat_ else maxhr pi in
  let minhr' := if negb (heartbeat_ =? 0) && (heartbeat_ <? minhr pi)
                then heartbeat_ else minhr pi in
  let maxdepth' := if depth_ >? maxdepth pi then depth_ else maxdepth pi in
  let maxtime' :=
    if ((depth_ >? SURFACE_THRESHOLD) || (lastdepth_ >? SURFACE_THRESHOLD))
       && (sample.time s >? maxtime pi)
    then sample.time s else maxtime pi in
  ({| maxdepth := maxdepth'; maxtime := maxtime'; maxpressure := maxpressure';
      minpressure := minpressure'; minhr := minhr'; maxhr := maxhr';
      mintemp := mintemp'; maxtemp := maxtemp' |}, depth_).

(** "Make sure we can fit all events". *)
Definition scan_event (pi : plot_info) (e : event.t) : plot_info :=
  {| maxdepth := maxdepth pi;
     maxtime := if event.time e >? maxtime pi then event.time e else maxtime pi;
     maxpressure := maxpressure pi; minpressure := minpressure pi; minhr := minhr pi;
     maxhr := maxhr pi; mintemp := mintemp pi; maxtemp := maxtemp pi |}.

(** One turn of the [do ... while] over the dive computers. *)
Definition scan_dc (pi : plot_info) (dc : divecomputer.t) : plot_info :=
  let pi1 := fst (fold_left scan_sample (divecomputer.sample dc) (pi, 0)) in
  fold_left scan_event (divecomputer.events dc) pi1.

(** The dive computers the loop visits: those of the dive and, when
    [given_dc] is not one of them, [given_dc] and its successors. *)
Definition scanned (d : dive.t) (given_dc : dc_ref) : list divecomputer.t :=
  let chain := dive.dc d :: dive.next d in
  match given_dc with
  | in_dive i => chain
  | outside others => chain ++ others
  end.

(** [calculate_max_limits_new]. *)
Definition calculate_max_limits_new (d : dive.t) (given_dc : dc_ref) : plot_info :=
  let start :=
    {| maxdepth := dive.maxdepth d; maxtime := 0; maxpressure := 0;
       minpressure := CInt.INT_MAX; minhr := CInt.INT_MAX; maxhr := 0;
       mintemp := dive.mintemp d; maxtemp := dive.maxtemp d |} in
  let pi := fold_left scan_cylinder (dive.cylinder d) start in
  let pi := fold_left scan_dc (scanned d given_dc) pi in
  {| maxdepth := maxdepth pi; maxtime := maxtime pi; maxpressure := maxpressure pi;
     minpressure := if minpressure pi >? maxpressure pi then 0 else minpressure pi;
     minhr := if minhr pi >? maxhr pi then maxhr pi else minhr pi;
     maxhr := maxhr pi; mintemp := mintemp pi; maxtemp := maxtemp pi |}.

Lemma fold_left_maxtime {A} (f : plot_info -> A -> plot_info) (l : list A) (pi : plot_info) :
  (forall p a, maxtime p <= maxtime (f p a)) ->
  maxtime pi <= maxtime (fold_left f l pi).
Proof.
  intros Hf. revert pi. induction l as [|a l IH]; intros pi; simpl; [lia|].
  specialize (IH (f pi a)). specialize (Hf pi a). lia.
Qed.

Lemma scan_samples_maxtime (l : list sample.t) (st : plot_info * Z) :
  maxtime (fst st) <= maxtime (fst (fold_left scan_sample l st)).
Proof.
  revert st. induction l as [|s l IH]; intros st; simpl; [lia|].
  specialize (IH (scan_sample st s)).
  assert (maxtime (fst st) <= maxtime (fst (scan_sample st s))); [|lia].
  destruct st as [pi ld]. unfold scan_sample. cbn [fst maxtime].
  destruct (_ && (sample.time s >? maxtime pi)) eqn:E; [|lia].
  apply andb_prop in E as [_ E]. lia.
Qed.

Lemma scan_dc_maxtime (pi : plot_info) (dc : divecomputer.t) :
  maxtime pi <= maxtime (scan_dc pi dc).
Proof.
  unfold scan_dc.
  pose proof (scan_samples_maxtime (divecomputer.sample dc) (pi, 0)) as H1.
  cbn [fst] in H1.
  etransitivity; [exact H1|]. apply fold_left_maxtime.
  intros p e. unfold scan_event. cbn [maxtime].
  destruct (Z.gtb_spec (event.time e) (maxtime p)); lia.
Qed.

(** The time bound that the scanner computes is never negative. *)
Lemma calculate_max_limits_new_maxtime (d : dive.t) (given_dc : dc_ref) :
  0 <= maxtime (calculate_max_limits_new d given_dc).
Proof.
  unfold calculate_max_limits_new. cbn [maxtime].
  etransitivity; [|apply fold_left_maxtime, scan_dc_maxtime].
  etransitivity; [|apply fold_left_maxtime]; [simpl; lia|].
  intros p c. unfold scan_cylinder. cbn [maxtime]. lia.
Qed.

End Scan.

(** C9. With the time bound that [calculate_max_limits_new] computes, the
    number of entries [populate_plot_entries] writes, the final [idx]
    that becomes [pi->nr], is at most the number of entries allocated,
    [dc->samples + 6 + maxtime / 10 + count_events(dc)], for every sample
    and event stream; two of the allocated entries are even left over.
    Every entry is written at an index below the final [idx], hence inside
    the allocation. *)
Theorem populate_plot_entries_within_allocation (SURFACE_THRESHOLD : Z)
    (MAX_CYLINDERS : nat) (interp : Z -> Z -> Z -> Z -> Z)
    (d : dive.t) (given_dc : dc_ref)
    (calloc_ok : bool) (dc : divecomputer.t) (es : list plot_data) :
  let maxtime_ := maxtime (calculate_max_limits_new SURFACE_THRESHOLD d given_dc) in
  populate_plot_entries MAX_CYLINDERS interp calloc_ok dc maxtime_ = Some es ->
  Z.of_nat (List.length es) <= allocated dc maxtime_ /\
  Z.of_nat (List.length es) + 2 <= allocated dc maxtime_.
Proof.
  intros maxtime_ Heq.
  pose proof (populate_plot_entries_count MAX_CYLINDERS interp calloc_ok dc maxtime_ es
                (calculate_max_limits_new_maxtime SURFACE_THRESHOLD d given_dc) Heq).
  lia.
Qed.

(** A dive whose only dive computer is [short_dive], with one cylinder. *)
Definition short_dive_record : dive.t :=
  {| dive.dc := short_dive; dive.next := [];
     dive.cylinder := [ {| cylinder.start := 200000; cylinder.end_ := 50000 |} ];
     dive.maxdepth := 3000; dive.mintemp := 0; dive.maxtemp := 0 |}.

Lemma populate_plot_entries_within_allocation_witness :
  maxtime (calculate_max_limits_new 750 short_dive_record (in_dive 0)) = 30 /\
  exists es,
    populate_plot_entries 2 interpolate true short_dive 30 = Some es /\
    Z.of_nat (List.length es) <= allocated short_dive 30 /\
    Z.of_nat (List.length es) + 2 <= allocated short_dive 30.
Proof.
  split; [vm_compute; reflexivity|].
  eexists. split; [reflexivity|].
  apply (populate_plot_entries_within_allocation 750 2 interpolate short_dive_record
           (in_dive 0) true short_dive).
  reflexivity.
Defined.

End Limits.

(** ** Gas-pressure reconstruction ([setup_gas_sensor_pressure]) *)

Module GasPressure.
Import CInt.

(** [get_next_event_mutable] / [get_next_event]: the first event named
    [name] from [evs] on, that is the list from that event to the end;
    the empty list is the null pointer. *)
Fixpoint get_next_event (evs : list event.t) (name : option string) : list event.t :=
  match name with
  | None => []
  | Some n =>
    if String.eqb n EmptyString then []
    else match evs with
         | [] => []
         | e :: evs' => if String.eqb (event.name e) n then evs else get_next_event evs' name
         end
  end.

(** The arrays [seen], [first], [last] and the variable [prev]. *)
Record usage : Type := mk_usage {
  prev : nat;
  seen : list Z;
  first : list Z;
  last_ : list Z
}.

Definition at_ (l : list Z) (i : nat) : Z := default 0 (l !! i).

(** The body of the loop over the "gaschange" events. *)
Definition gaschange_step (u : usage) (e : event.t) : usage :=
  let cyl := event.gas_index e in
  let sec_ := event.time e in
  if cyl <? 0 then u
  else
    let c := Z.to_nat cyl in
    let last1 := <[c := sec_]> (<[prev u := sec_]> (last_ u)) in
    if at_ (seen u) c =? 0
    then {| prev := c; seen := <[c := 1]> (seen u); first := <[c := sec_]> (first u);
            last_ := last1 |}
    else {| prev := c; seen := seen u; first := first u; last_ := last1 |}.

(** [for (ev = get_next_event(dc->events, "gaschange"); ev != NULL;
         ev = get_next_event(ev->next, "gaschange"))]. *)
Fixpoint gaschange_loop (evs : list event.t) (u : usage) : usage :=
  match evs with
  | [] => u
  | e :: evs' =>
    if String.eqb (event.name e) "gaschange"
    then gaschange_loop evs' (gaschange_step u e)
    else gaschange_loop evs' u
  end.

Lemma gaschange_loop_next (evs : list event.t) (u : usage) :
  gaschange_loop evs u =
  match get_next_event evs (Some "gaschange"%string) with
  | [] => u
  | e :: evs' => gaschange_loop evs' (gaschange_step u e)
  end.
Proof.
  induction evs as [|e evs IH]; [reflexivity|].
  cbn [gaschange_loop get_next_event]. cbn [String.eqb Ascii.eqb].
  destruct (String.eqb (event.name e) "gaschange"); [reflexivity|]. exact IH.
Qed.

(** The index of the entry [add_plot_pressure] stops at: the first one
    with [sec >= time], the last one when there is none. *)
Fixpoint target_index (time : Z) (es : list plot_data) : nat :=
  match es with
  | [] => O
  | e :: es' =>
    if sec e >=? time then O
    else match es' with
         | [] => O
         | _ :: _ => S (target_index time es')
         end
  end.

(** [add_plot_pressure]. *)
Definition add_plot_pressure (es : list plot_data) (time : Z) (cyl : nat) (p : Z)
    : list plot_data :=
  if Z.of_nat (List.length es) <=? 0 then es
  else alter (set_SENSOR_PRESSURE cyl p) (target_index time es) es.

Section Setup.

Variable MAX_CYLINDERS : nat.

(** [explicit_first_cylinder] and [has_gaschange_event], helpers of the
    dive data structures. *)
Variable explicit_first_cylinder : dive.t -> divecomputer.t -> nat.
Variable has_gaschange_event : dive.t -> divecomputer.t -> nat -> bool.

Definition cylinder_at (d : dive.t) (i : nat) : cylinder.t :=
  default {| cylinder.start := 0; cylinder.end_ := 0 |} (dive.cylinder d !! i).

(** The cylinder windows: the state after the event loop and the final
    [last[prev] = INT_MAX]. *)
Definition cylinder_windows (d : dive.t) (dc : divecomputer.t) : usage :=
  let p := explicit_first_cylinder d dc in
  let u0 := {| prev := p;
               seen := <[p := 1]> (replicate MAX_CYLINDERS 0);
               first := replicate MAX_CYLINDERS 0;
               last_ := replicate MAX_CYLINDERS INT_MAX |} in
  let u := gaschange_loop (divecomputer.events dc) u0 in
  {| prev := prev u; seen := seen u; first := first u;
     last_ := <[prev u := INT_MAX]> (last_ u) |}.

(** One turn of the loop that fills in [seen]: "mark cylinders we're not
    interested in as negative". *)
Definition mark_cylinder (d : dive.t) (sn : list Z) (i : nat) : list Z :=
  let c := cylinder_at d i in
  let start := cylinder.start c in
  let end_ := cylinder.end_ c in
  if (start =? 0) || (end_ =? 0) || (start =? end_) then <[i := -1]> sn
  else if negb (at_ sn i =? 0) then sn
  else if existsb (fun secondary => has_gaschange_event d secondary i)
            (dive.dc d :: dive.next d)
       then <[i := -1]> sn
       else sn.

Definition mark_cylinders (d : dive.t) (sn : list Z) : list Z :=
  fold_left (mark_cylinder d) (seq 0 MAX_CYLINDERS) sn.

(** One turn of the loop that writes the pressures. *)
Definition write_cylinder (d : dive.t) (sn fst_ lst : list Z)
    (es : list plot_data) (i : nat) : list plot_data :=
  if at_ sn i >=? 0 then
    let c := cylinder_at d i in
    let es1 := add_plot_pressure es (at_ fst_ i) i (cylinder.start c) in
    add_plot_pressure es1 (at_ lst i) i (cylinder.end_ c)
  else es.

(** [setup_gas_sensor_pressure]: the entries of [pi] after the call.  (The
    closing loop over the other dive computers calls
    [populate_secondary_sensor_data], which does nothing.) *)
Definition setup_gas_sensor_pressure (d : dive.t) (dc : divecomputer.t)
    (es : list plot_data) : list plot_data :=
  let u := cylinder_windows d dc in
  let sn := mark_cylinders d (seen u) in
  fold_left (write_cylinder d sn (first u) (last_ u)) (seq 0 MAX_CYLINDERS) es.

(** The final value of [seen[i]], and the times [first[i]], [last[i]]. *)
Definition interest (d : dive.t) (dc : divecomputer.t) (i : nat) : Z :=
  at_ (mark_cylinders d (seen (cylinder_windows d dc))) i.

Definition first_use (d : dive.t) (dc : divecomputer.t) (i : nat) : Z :=
  at_ (first (cylinder_windows d dc)) i.

Definition last_use (d : dive.t) (dc : divecomputer.t) (i : nat) : Z :=
  at_ (last_ (cylinder_windows d dc)) i.

End Setup.

(** The sensor pressure of cylinder [cyl] at entry [k] of a series. *)
Definition sensor_at (es : list plot_data) (k cyl : nat) : Z :=
  match es !! k with
  | Some e => SENSOR_PRESSURE e cyl
  | None => 0
  end.

(** *** Where [add_plot_pressure] writes *)

Lemma target_index_lt (time : Z) (es : list plot_data) :
  es <> [] -> (target_index time es < List.length es)%nat.
Proof.
  induction es as [|e es IH]; intros Hne; [contradiction|]. simpl.
  destruct (sec e >=? time); [lia|]. destruct es as [|e' es]; [simpl; lia|].
  assert (e' :: es <> []) as Hne' by discriminate. specialize (IH Hne'). simpl in *. lia.
Qed.

(** The entry selected is the first at or after [time], or else the last. *)
Lemma target_index_spec (time : Z) (es : list plot_data) (k : nat) :
  es <> [] -> k = target_index time es ->
  (forall j e, (j < k)%nat -> es !! j = Some e -> sec e < time) /\
  ((exists e, es !! k = Some e /\ time <= sec e) \/
   (S k = List.length es /\ forall e, e ∈ es -> sec e < time)).
Proof.
  revert k. induction es as [|e es IH]; intros k Hne ->; [contradiction|]. simpl.
  destruct (Z.geb_spec (sec e) time) as [Hge|Hlt].
  - split; [intros j e' Hj; lia|]. left. exists e. split; [reflexivity|lia].
  - destruct es as [|e' es].
    + split; [intros j e' Hj; lia|]. right. split; [reflexivity|].
      intros e' He'. apply list_elem_of_singleton in He'. subst. exact Hlt.
    + assert (e' :: es <> []) as Hne' by discriminate.
      destruct (IH _ Hne' eq_refl) as (Hbefore & Hat). split.
      * intros j e0 Hj Hlook. destruct j as [|j]; [injection Hlook as <-; exact Hlt|].
        apply (Hbefore j); [lia|exact Hlook].
      * destruct Hat as [(e0 & Hlook & Hle)|(Hlen & Hall)].
        -- left. exists e0. split; [exact Hlook|exact Hle].
        -- right. split; [simpl in *; lia|].
           intros e0 He0. apply elem_of_cons in He0 as [->|He0]; [exact Hlt|apply Hall, He0].
Qed.

Lemma target_index_secs (time : Z) (es es' : list plot_data) :
  map sec es = map sec es' -> target_index time es = target_index time es'.
Proof.
  revert es'. induction es as [|e es IH]; intros es' Hmap.
  - destruct es'; [reflexivity|discriminate].
  - destruct es' as [|e' es']; [discriminate|]. simpl in Hmap.
    injection Hmap as Hsec Hrest. simpl. rewrite <- Hsec.
    destruct (sec e >=? time); [reflexivity|].
    destruct es as [|e1 es]; destruct es' as [|e1' es']; try discriminate; [reflexivity|].
    f_equal. apply IH. exact Hrest.
Qed.

Lemma sec_set_SENSOR_PRESSURE cyl p e : sec (set_SENSOR_PRESSURE cyl p e) = sec e.
Proof. destruct e; reflexivity. Qed.

Lemma pressure_set_SENSOR_PRESSURE cyl p e :
  pressure (set_SENSOR_PRESSURE cyl p e) = alter (fun q => (p, snd q)) cyl (pressure e).
Proof. destruct e; reflexivity. Qed.

Lemma SENSOR_PRESSURE_set cyl p e j :
  (cyl < List.length (pressure e))%nat ->
  SENSOR_PRESSURE (set_SENSOR_PRESSURE cyl p e) j =
  if decide (j = cyl) then p else SENSOR_PRESSURE e j.
Proof.
  intros Hlen. unfold SENSOR_PRESSURE. rewrite pressure_set_SENSOR_PRESSURE.
  destruct (decide (j = cyl)) as [->|Hne].
  - rewrite list_lookup_alter_eq.
    destruct (lookup_lt_is_Some_2 (pressure e) cyl Hlen) as [q ->]. reflexivity.
  - rewrite list_lookup_alter_ne by congruence. reflexivity.
Qed.

(** All entries carry one pressure pair per cylinder. *)
Definition well_formed (ncyl : nat) (es : list plot_data) : Prop :=
  Forall (fun e => List.length (pressure e) = ncyl) es.

Lemma secs_add_plot_pressure es time cyl p :
  map sec (add_plot_pressure es time cyl p) = map sec es.
Proof.
  unfold add_plot_pressure. destruct (_ <=? 0); [reflexivity|].
  generalize (target_index time es). intros k. revert k.
  induction es as [|e es IH]; intros k; [reflexivity|].
  destruct k as [|k]; simpl.
  - rewrite sec_set_SENSOR_PRESSURE. reflexivity.
  - f_equal. apply IH.
Qed.

Lemma well_formed_add_plot_pressure ncyl es time cyl p :
  well_formed ncyl es -> well_formed ncyl (add_plot_pressure es time cyl p).
Proof.
  unfold well_formed, add_plot_pressure. destruct (_ <=? 0); [tauto|].
  generalize (target_index time es). intros k Hwf. revert k.
  induction Hwf as [|e es He Hes IH]; intros k; [constructor|].
  destruct k as [|k]; simpl; constructor; try assumption.
  - rewrite pressure_set_SENSOR_PRESSURE, length_alter. exact He.
  - apply IH.
Qed.

Lemma add_plot_pressure_nonempty es time cyl p :
  es <> [] -> add_plot_pressure es time cyl p <> [].
Proof.
  intros Hne H. apply (f_equal (map sec)) in H. rewrite secs_add_plot_pressure in H.
  destruct es; [contradiction|discriminate].
Qed.

Lemma sensor_at_add_plot_pressure ncyl es time cyl p k j :
  es <> [] -> well_formed ncyl es -> (cyl < ncyl)%nat ->
  sensor_at (add_plot_pressure es time cyl p) k j =
  if decide (k = target_index time es /\ j = cyl) then p else sensor_at es k j.
Proof.
  intros Hne Hwf Hcyl. unfold add_plot_pressure, sensor_at.
  destruct (Z.leb_spec (Z.of_nat (List.length es)) 0) as [Hz|_].
  { destruct es; [contradiction|simpl in Hz; lia]. }
  destruct (decide (k = target_index time es)) as [->|Hk].
  - rewrite list_lookup_alter_eq.
    destruct (lookup_lt_is_Some_2 es _ (target_index_lt time es Hne)) as [e He].
    rewrite He. simpl.
    assert (Hlen : List.length (pressure e) = ncyl).
    { unfold well_formed in Hwf. rewrite Forall_forall in Hwf. apply Hwf.
      apply list_elem_of_lookup. eexists. exact He. }
    rewrite SENSOR_PRESSURE_set by lia.
    destruct (decide (j = cyl)) as [->|Hj].
    + rewrite decide_True by tauto. reflexivity.
    + rewrite decide_False by tauto. reflexivity.
  - rewrite list_lookup_alter_ne by congruence.
    rewrite decide_False by tauto. reflexivity.
Qed.

(** The series of the densifier is well formed and not empty. *)
Lemma populate_plot_entries_well_formed ncyl interp calloc_ok dc maxtime es :
  Densify.populate_plot_entries ncyl interp calloc_ok dc maxtime = Some es ->
  well_formed ncyl es /\ es <> [].
Proof.
  intros Heq. split.
  - unfold well_formed.
    apply (Densify.populate_plot_entries_every ncyl interp
             (fun e => List.length (pressure e) = ncyl)) with (4 := Heq).
    + intros prev t d sc. destruct prev. cbn. apply length_replicate.
    + intros dc' s time prev lt. unfold Densify.sample_entry.
      repeat match goal with |- context [if ?b then _ else _] => destruct b end;
        cbn [zero_entry set_sec set_depth set_running_sum set_stopdepth set_stoptime set_ndl
             set_tts set_in_deco set_cns set_o2setpoint set_o2pressure set_o2sensor
             set_pressures_o2 set_SENSOR_PRESSURE set_pressure set_temperature set_heartbeat
             set_bearing set_sac set_rbt pressure];
        rewrite ?length_alter, ?length_replicate; reflexivity.
    + intros t. cbn. apply length_replicate.
  - destruct calloc_ok; [|discriminate].
    rewrite Densify.populate_plot_entries_body in Heq. injection Heq as <-.
    unfold Densify.final_entries. intros H. apply app_eq_nil in H as [_ H]. discriminate.
Qed.

(** *** The writing loop *)

(** What the loop leaves for cylinder [j] at entry [k] when it writes for
    [j]: the end pressure at the entry of the last-use time, the start
    pressure at the entry of the first-use time, the old value elsewhere. *)
Definition written (d : dive.t) (fst_ lst : list Z) (es : list plot_data)
    (k j : nat) (old : Z) : Z :=
  if decide (k = target_index (at_ lst j) es) then cylinder.end_ (cylinder_at d j)
  else if decide (k = target_index (at_ fst_ j) es) then cylinder.start (cylinder_at d j)
  else old.

Lemma write_cylinder_secs d sn fst_ lst es i :
  map sec (write_cylinder d sn fst_ lst es i) = map sec es.
Proof.
  unfold write_cylinder. destruct (_ >=? 0); [|reflexivity].
  rewrite !secs_add_plot_pressure. reflexivity.
Qed.

Lemma write_cylinder_well_formed ncyl d sn fst_ lst es i :
  well_formed ncyl es -> well_formed ncyl (write_cylinder d sn fst_ lst es i).
Proof.
  intros Hwf. unfold write_cylinder. destruct (_ >=? 0); [|exact Hwf].
  apply well_formed_add_plot_pressure, well_formed_add_plot_pressure, Hwf.
Qed.

Lemma write_cylinder_nonempty d sn fst_ lst es i :
  es <> [] -> write_cylinder d sn fst_ lst es i <> [].
Proof.
  intros Hne. unfold write_cylinder. destruct (_ >=? 0); [|exact Hne].
  apply add_plot_pressure_nonempty, add_plot_pressure_nonempty, Hne.
Qed.

Lemma written_secs d fst_ lst es es' k j old :
  map sec es = map sec es' -> written d fst_ lst es k j old = written d fst_ lst es' k j old.
Proof.
  intros Hsec. unfold written.
  rewrite !(target_index_secs _ es es') by exact Hsec. reflexivity.
Qed.

Lemma sensor_at_write_cylinder ncyl d sn fst_ lst es i k j :
  es <> [] -> well_formed ncyl es -> (i < ncyl)%nat ->
  sensor_at (write_cylinder d sn fst_ lst es i) k j =
  if decide (j = i /\ 0 <= at_ sn i) then written d fst_ lst es k j (sensor_at es k j)
  else sensor_at es k j.
Proof.
  intros Hne Hwf Hi. unfold write_cylinder, written.
  destruct (Z.geb_spec (at_ sn i) 0) as [Hin|Hout].
  - rewrite (sensor_at_add_plot_pressure ncyl);
      [|apply add_plot_pressure_nonempty, Hne|apply well_formed_add_plot_pressure, Hwf|exact Hi].
    rewrite (target_index_secs _ _ es) by apply secs_add_plot_pressure.
    rewrite (sensor_at_add_plot_pressure ncyl) by assumption.
    repeat case_decide; destruct_and?; simplify_eq; try reflexivity; exfalso; intuition lia.
  - case_decide; [lia|reflexivity].
Qed.

Lemma sensor_at_write_loop ncyl d sn fst_ lst (is_ : list nat) es k j :
  es <> [] -> well_formed ncyl es -> NoDup is_ -> Forall (fun i => (i < ncyl)%nat) is_ ->
  sensor_at (fold_left (write_cylinder d sn fst_ lst) is_ es) k j =
  if decide (j ∈ is_ /\ 0 <= at_ sn j) then written d fst_ lst es k j (sensor_at es k j)
  else sensor_at es k j.
Proof.
  revert es. induction is_ as [|i is_ IH]; intros es Hne Hwf Hnd Hlt.
  - cbn [fold_left]. case_decide as H; [|reflexivity]. destruct H as [H _]. inversion H.
  - apply NoDup_cons in Hnd as [Hni Hnd]. apply Forall_cons in Hlt as [Hi Hlt].
    cbn [fold_left].
    rewrite IH; [|apply write_cylinder_nonempty, Hne
                 |apply (write_cylinder_well_formed ncyl), Hwf|exact Hnd|exact Hlt].
    rewrite (written_secs _ _ _ (write_cylinder d sn fst_ lst es i) es)
      by apply write_cylinder_secs.
    rewrite (sensor_at_write_cylinder ncyl) by assumption. clear IH.
    repeat case_decide; destruct_and?; simplify_eq; try reflexivity; exfalso;
      rewrite ?elem_of_cons in *; intuition (subst; tauto).
Qed.

(** *** The marking loop *)

Lemma at_insert (l : list Z) (i j : nat) (v : Z) :
  at_ (<[i := v]> l) j = if decide (j = i /\ (i < List.length l)%nat) then v else at_ l j.
Proof.
  unfold at_. destruct (decide (j = i)) as [->|Hne].
  - destruct (decide (i < List.length l)%nat) as [Hlt|Hge].
    + rewrite list_lookup_insert_eq by exact Hlt. case_decide; [reflexivity|tauto].
    + rewrite list_insert_ge by lia. case_decide; [tauto|reflexivity].
  - rewrite list_lookup_insert_ne by congruence. case_decide; [tauto|reflexivity].
Qed.

Lemma length_mark_cylinder hge d sn i :
  List.length (mark_cylinder hge d sn i) = List.length sn.
Proof.
  unfold mark_cylinder.
  repeat match goal with |- context [if ?b then _ else _] => destruct b end;
    rewrite ?length_insert; reflexivity.
Qed.

Lemma at_mark_cylinder_other hge d sn i j :
  j <> i -> at_ (mark_cylinder hge d sn i) j = at_ sn j.
Proof.
  intros Hne. unfold mark_cylinder.
  repeat match goal with |- context [if ?b then _ else _] => destruct b end;
    rewrite ?at_insert; try case_decide; try reflexivity; tauto.
Qed.

(** The mark of cylinder [i], from its own earlier mark [v]. *)
Definition mark (hge : dive.t -> divecomputer.t -> nat -> bool) (d : dive.t)
    (i : nat) (v : Z) : Z :=
  let c := cylinder_at d i in
  if (cylinder.start c =? 0) || (cylinder.end_ c =? 0) || (cylinder.start c =? cylinder.end_ c)
  then -1
  else if negb (v =? 0) then v
  else if existsb (fun secondary => hge d secondary i) (dive.dc d :: dive.next d)
       then -1 else v.

Lemma at_mark_cylinder_same hge d sn i :
  (i < List.length sn)%nat -> at_ (mark_cylinder hge d sn i) i = mark hge d i (at_ sn i).
Proof.
  intros Hlt. unfold mark_cylinder, mark.
  repeat match goal with |- context [if ?b then _ else _] => destruct b end;
    rewrite ?at_insert; try case_decide; try reflexivity; tauto.
Qed.

Lemma at_mark_loop hge d (is_ : list nat) sn j :
  NoDup is_ -> Forall (fun i => (i < List.length sn)%nat) is_ ->
  at_ (fold_left (mark_cylinder hge d) is_ sn) j =
  if decide (j ∈ is_) then mark hge d j (at_ sn j) else at_ sn j.
Proof.
  revert sn. induction is_ as [|i is_ IH]; intros sn Hnd Hlt.
  - cbn [fold_left]. case_decide as H; [inversion H|reflexivity].
  - apply NoDup_cons in Hnd as [Hni Hnd]. apply Forall_cons in Hlt as [Hi Hlt].
    cbn [fold_left]. rewrite IH; [|exact Hnd|].
    2:{ eapply Forall_impl; [exact Hlt|]. intros x Hx. simpl.
        rewrite length_mark_cylinder. exact Hx. }
    destruct (decide (j = i)) as [->|Hj].
    + rewrite at_mark_cylinder_same by exact Hi. clear IH.
      repeat case_decide; try reflexivity; exfalso;
        rewrite ?elem_of_cons in *; intuition (subst; tauto).
    + rewrite at_mark_cylinder_other by exact Hj. clear IH.
      repeat case_decide; try reflexivity; exfalso;
        rewrite ?elem_of_cons in *; intuition (subst; tauto).
Qed.

(** *** Which cylinders the event loop has seen *)

(** A "gaschange" event of the dive computer names cylinder [i]. *)
Definition names_cylinder (evs : list event.t) (i : nat) : Prop :=
  exists e, e ∈ evs /\ event.name e = "gaschange"%string /\ event.gas_index e = Z.of_nat i.

Lemma seen_gaschange_step (u : usage) (e : event.t) (n i : nat) :
  List.length (seen u) = n -> (forall j, 0 <= at_ (seen u) j) -> (i < n)%nat ->
  List.length (seen (gaschange_step u e)) = n /\
  (forall j, 0 <= at_ (seen (gaschange_step u e)) j) /\
  (at_ (seen (gaschange_step u e)) i <> 0 <->
   at_ (seen u) i <> 0 \/ event.gas_index e = Z.of_nat i).
Proof.
  intros Hlen Hpos Hi. unfold gaschange_step.
  destruct (Z.ltb_spec (event.gas_index e) 0) as [Hneg|Hge].
  - split; [exact Hlen|]. split; [exact Hpos|]. split; [tauto|]. intros [H|H]; [exact H|lia].
  - destruct (Z.eqb_spec (at_ (seen u) (Z.to_nat (event.gas_index e))) 0) as [Hz|Hnz];
      cbn [seen].
    + split; [rewrite length_insert; exact Hlen|]. split.
      * intros j. rewrite at_insert. case_decide; [lia|apply Hpos].
      * rewrite at_insert. case_decide as Hc.
        -- split; [intros _; right; lia|intros _; lia].
        -- split; [tauto|]. intros [H|H]; [exact H|]. exfalso. apply Hc. lia.
    + split; [exact Hlen|]. split; [exact Hpos|]. split; [tauto|].
      intros [H|H]; [exact H|]. replace i with (Z.to_nat (event.gas_index e)) by lia. exact Hnz.
Qed.

Lemma seen_gaschange_loop (evs : list event.t) (u : usage) (n i : nat) :
  List.length (seen u) = n -> (forall j, 0 <= at_ (seen u) j) -> (i < n)%nat ->
  0 <= at_ (seen (gaschange_loop evs u)) i /\
  List.length (seen (gaschange_loop evs u)) = n /\
  (at_ (seen (gaschange_loop evs u)) i <> 0 <-> at_ (seen u) i <> 0 \/ names_cylinder evs i).
Proof.
  revert u. induction evs as [|e evs IH]; intros u Hlen Hpos Hi; cbn [gaschange_loop].
  - split; [apply Hpos|]. split; [exact Hlen|]. split; [tauto|].
    intros [H|(e & He & _)]; [exact H|inversion He].
  - destruct (String.eqb_spec (event.name e) "gaschange") as [Hname|Hname].
    + destruct (seen_gaschange_step u e n i Hlen Hpos Hi) as (Hlen' & Hpos' & Hiff).
      destruct (IH _ Hlen' Hpos' Hi) as (H0 & H1 & H2).
      split; [exact H0|]. split; [exact H1|]. rewrite H2, Hiff. split.
      * intros [[H|H]|(e' & He' & Hn' & Hg')]; [tauto| |].
        -- right. exists e. split; [apply elem_of_cons; tauto|tauto].
        -- right. exists e'. split; [apply elem_of_cons; tauto|tauto].
      * intros [H|(e' & He' & Hn' & Hg')]; [tauto|].
        apply elem_of_cons in He' as [->|He']; [tauto|].
        right. exists e'. tauto.
    + destruct (IH _ Hlen Hpos Hi) as (H0 & H1 & H2).
      split; [exact H0|]. split; [exact H1|]. rewrite H2. split.
      * intros [H|(e' & He' & Hn' & Hg')]; [tauto|].
        right. exists e'. split; [apply elem_of_cons; tauto|tauto].
      * intros [H|(e' & He' & Hn' & Hg')]; [tauto|].
        apply elem_of_cons in He' as [->|He']; [contradiction|].
        right. exists e'. tauto.
Qed.

Section Facts.

Variable MAX_CYLINDERS : nat.
Variable explicit_first_cylinder : dive.t -> divecomputer.t -> nat.
Variable has_gaschange_event : dive.t -> divecomputer.t -> nat -> bool.

(** The dive computer uses cylinder [i]: it starts on it, or one of its
    "gaschange" events names it. *)
Definition used_here (d : dive.t) (dc : divecomputer.t) (i : nat) : Prop :=
  i = explicit_first_cylinder d dc \/ names_cylinder (divecomputer.events dc) i.

(** Some dive computer of the dive has a gas change to cylinder [i]. *)
Definition used_somewhere (d : dive.t) (i : nat) : Prop :=
  exists secondary, secondary ∈ dive.dc d :: dive.next d /\
                    has_gaschange_event d secondary i = true.

(** [seen[i]] is negative at the end: no pressure is written for [i]. *)
Definition excluded (d : dive.t) (dc : divecomputer.t) (i : nat) : Prop :=
  interest MAX_CYLINDERS explicit_first_cylinder has_gaschange_event d dc i < 0.

(** Entry [k] is the one a write at [time] goes to. *)
Definition selects (time : Z) (es : list plot_data) (k : nat) : Prop :=
  (forall j e, (j < k)%nat -> es !! j = Some e -> sec e < time) /\
  ((exists e, es !! k = Some e /\ time <= sec e) \/
   (S k = List.length es /\ forall e, e ∈ es -> sec e < time)).

Lemma seen_cylinder_windows d dc i :
  (i < MAX_CYLINDERS)%nat ->
  0 <= at_ (seen (cylinder_windows MAX_CYLINDERS explicit_first_cylinder d dc)) i /\
  List.length (seen (cylinder_windows MAX_CYLINDERS explicit_first_cylinder d dc))
    = MAX_CYLINDERS /\
  (at_ (seen (cylinder_windows MAX_CYLINDERS explicit_first_cylinder d dc)) i <> 0
   <-> used_here d dc i).
Proof.
  intros Hi. unfold cylinder_windows. cbn [seen].
  set (u0 := {| prev := _; seen := _; first := _; last_ := _ |}).
  assert (Hlen : List.length (seen u0) = MAX_CYLINDERS).
  { unfold u0. cbn [seen]. rewrite length_insert, length_replicate. reflexivity. }
  assert (Hrep : forall j, at_ (replicate MAX_CYLINDERS 0) j = 0).
  { intros j. unfold at_. destruct (replicate MAX_CYLINDERS 0 !! j) as [x|] eqn:E; [|reflexivity].
    apply lookup_replicate in E as [-> _]. reflexivity. }
  assert (Hpos : forall j, 0 <= at_ (seen u0) j).
  { intros j. unfold u0. cbn [seen]. rewrite at_insert. case_decide; [lia|]. rewrite Hrep. lia. }
  destruct (seen_gaschange_loop (divecomputer.events dc) u0 MAX_CYLINDERS i Hlen Hpos Hi)
    as (H0 & H1 & H2).
  split; [exact H0|]. split; [exact H1|]. rewrite H2. unfold used_here.
  assert (Hinit : at_ (seen u0) i <> 0 <-> i = explicit_first_cylinder d dc).
  { unfold u0. cbn [seen]. rewrite at_insert, length_replicate.
    case_decide as Hc; [split; [tauto|lia]|]. rewrite Hrep. split; [lia|].
    intros ->. exfalso. apply Hc. split; [reflexivity|exact Hi]. }
  rewrite Hinit. reflexivity.
Qed.

Lemma interest_mark d dc i :
  (i < MAX_CYLINDERS)%nat ->
  interest MAX_CYLINDERS explicit_first_cylinder has_gaschange_event d dc i =
  mark has_gaschange_event d i
    (at_ (seen (cylinder_windows MAX_CYLINDERS explicit_first_cylinder d dc)) i).
Proof.
  intros Hi. unfold interest, mark_cylinders.
  destruct (seen_cylinder_windows d dc i Hi) as (_ & Hlen & _).
  rewrite at_mark_loop; [|apply NoDup_seq|].
  - rewrite decide_True; [reflexivity|]. apply elem_of_seq. lia.
  - apply Forall_forall. intros x Hx. apply elem_of_seq in Hx. rewrite Hlen. lia.
Qed.

Lemma excluded_iff d dc i :
  (i < MAX_CYLINDERS)%nat ->
  let c := cylinder_at d i in
  excluded d dc i <->
  (cylinder.start c = 0 \/ cylinder.end_ c = 0 \/ cylinder.start c = cylinder.end_ c) \/
  (~ used_here d dc i /\ used_somewhere d i).
Proof.
  intros Hi c. unfold excluded. rewrite interest_mark by exact Hi.
  destruct (seen_cylinder_windows d dc i Hi) as (Hpos & _ & Hused).
  unfold mark. fold c.
  set (v := at_ (seen (cylinder_windows MAX_CYLINDERS explicit_first_cylinder d dc)) i) in *.
  assert (Hex : existsb (fun secondary => has_gaschange_event d secondary i)
                  (dive.dc d :: dive.next d) = true <-> used_somewhere d i).
  { rewrite existsb_exists. unfold used_somewhere. split; intros (x & Hx & Hh); exists x.
    - split; [apply list_elem_of_In; exact Hx|exact Hh].
    - split; [apply list_elem_of_In; exact Hx|exact Hh]. }
  destruct (Z.eqb_spec (cylinder.start c) 0) as [H1|H1]; cbn [orb]; [split; [tauto|lia]|].
  destruct (Z.eqb_spec (cylinder.end_ c) 0) as [H2|H2]; cbn [orb]; [split; [tauto|lia]|].
  destruct (Z.eqb_spec (cylinder.start c) (cylinder.end_ c)) as [H3|H3]; [split; [tauto|lia]|].
  destruct (Z.eqb_spec v 0) as [Hv|Hv]; cbn [negb].
  - destruct (existsb _ _) eqn:E.
    + split; [|lia]. intros _. right. split; [|apply Hex; reflexivity]. rewrite <- Hused. lia.
    + split; [lia|]. intros [H|[_ H]]; [tauto|]. apply Hex in H. discriminate.
  - split; [lia|]. intros [H|[H _]]; [tauto|]. exfalso. apply H, Hused, Hv.
Qed.

Lemma target_index_selects time es :
  es <> [] -> selects time es (target_index time es).
Proof. intros Hne. apply target_index_spec; [exact Hne|reflexivity]. Qed.

(** C5, as the code has it.  Cylinder [i] is excluded exactly when its
    start or end pressure is missing or the two are equal, whether or not a
    gas change names it, or when the dive computer does not use it while
    some dive computer of the dive has a gas change to it.  For an excluded
    cylinder no pressure is written.  For any other cylinder the end
    pressure ends up at the first entry at or after its last-use time and
    the start pressure at the first entry at or after its first-use time,
    where the last entry of the series is taken when no entry is that late
    and the end pressure remains when both times select one entry; the
    sensor pressures of the cylinder at all other entries stay as they
    were. *)
Theorem setup_gas_sensor_pressure_spec (d : dive.t) (dc : divecomputer.t)
    (es : list plot_data) (i : nat) :
  es <> [] -> well_formed MAX_CYLINDERS es -> (i < MAX_CYLINDERS)%nat ->
  let c := cylinder_at d i in
  let es' := setup_gas_sensor_pressure MAX_CYLINDERS explicit_first_cylinder
               has_gaschange_event d dc es in
  let kf := target_index (first_use MAX_CYLINDERS explicit_first_cylinder d dc i) es in
  let kl := target_index (last_use MAX_CYLINDERS explicit_first_cylinder d dc i) es in
  (excluded d dc i <->
     (cylinder.start c = 0 \/ cylinder.end_ c = 0 \/ cylinder.start c = cylinder.end_ c) \/
     (~ used_here d dc i /\ used_somewhere d i)) /\
  (excluded d dc i -> forall k, sensor_at es' k i = sensor_at es k i) /\
  (~ excluded d dc i ->
     selects (first_use MAX_CYLINDERS explicit_first_cylinder d dc i) es kf /\
     selects (last_use MAX_CYLINDERS explicit_first_cylinder d dc i) es kl /\
     sensor_at es' kl i = cylinder.end_ c /\
     (kf <> kl -> sensor_at es' kf i = cylinder.start c) /\
     (forall k, k <> kf -> k <> kl -> sensor_at es' k i = sensor_at es k i)).
Proof.
  intros Hne Hwf Hi c es' kf kl.
  split; [apply excluded_iff, Hi|].
  assert (Heq : forall k, sensor_at es' k i =
    if decide (i ∈ seq 0 MAX_CYLINDERS /\
               0 <= interest MAX_CYLINDERS explicit_first_cylinder has_gaschange_event d dc i)
    then written d (first (cylinder_windows MAX_CYLINDERS explicit_first_cylinder d dc))
           (last_ (cylinder_windows MAX_CYLINDERS explicit_first_cylinder d dc))
           es k i (sensor_at es k i)
    else sensor_at es k i).
  { intros k. unfold es', setup_gas_sensor_pressure.
    apply (sensor_at_write_loop MAX_CYLINDERS); [exact Hne|exact Hwf|apply NoDup_seq|].
    apply Forall_forall. intros x Hx. apply elem_of_seq in Hx. lia. }
  assert (Hseq : i ∈ seq 0 MAX_CYLINDERS) by (apply elem_of_seq; lia).
  unfold excluded. split.
  - intros Hex k. rewrite Heq. case_decide as Hc; [lia|reflexivity].
  - intros Hin.
    split; [apply target_index_selects, Hne|]. split; [apply target_index_selects, Hne|].
    unfold written in Heq. fold (first_use MAX_CYLINDERS explicit_first_cylinder d dc i) in Heq.
    fold (last_use MAX_CYLINDERS explicit_first_cylinder d dc i) in Heq.
    fold kf kl c in Heq.
    split; [|split].
    + rewrite Heq. rewrite decide_True by (split; [exact Hseq|lia]).
      rewrite decide_True by reflexivity. reflexivity.
    + intros Hk. rewrite Heq. rewrite decide_True by (split; [exact Hseq|lia]).
      rewrite decide_False by exact Hk. rewrite decide_True by reflexivity. reflexivity.
    + intros k Hkf Hkl. rewrite Heq. rewrite decide_True by (split; [exact Hseq|lia]).
      rewrite !decide_False by assumption. reflexivity.
Qed.

End Facts.

(** *** Examples *)

(** A dive on three cylinders with gas changes at 20 s and 40 s; cylinder 1
    has equal start and end pressures, cylinder 3 is never used. *)
Definition gaschange (t cyl : Z) : event.t :=
  {| event.time := t; event.name := "gaschange"; event.value := 0; event.gas_index := cyl |}.

Definition three_gas_dc : divecomputer.t :=
  {| divecomputer.sample := [];
     divecomputer.events := [gaschange 20 1; gaschange 40 2];
     divecomputer.divemode := OC; divecomputer.no_o2sensors := 0 |}.

Definition three_gas_dive : dive.t :=
  {| dive.dc := three_gas_dc; dive.next := [];
     dive.cylinder := [ {| cylinder.start := 200000; cylinder.end_ := 100000 |};
                        {| cylinder.start := 150000; cylinder.end_ := 150000 |};
                        {| cylinder.start := 180000; cylinder.end_ := 90000 |};
                        {| cylinder.start := 170000; cylinder.end_ := 60000 |} ];
     dive.maxdepth := 3000; dive.mintemp := 0; dive.maxtemp := 0 |}.

Definition flat_series : list plot_data :=
  map (fun t => set_sec t (zero_entry 4)) [0; 0; 0; 10; 20; 30; 40; 50; 60; 61; 62].

Definition starts_on_first (d : dive.t) (dc : divecomputer.t) : nat := 0%nat.
Definition no_gaschange (d : dive.t) (dc : divecomputer.t) (i : nat) : bool := false.

Example three_gas_pressures :
  map (fun e => (sec e, map fst (pressure e)))
    (setup_gas_sensor_pressure 4 starts_on_first no_gaschange three_gas_dive three_gas_dc
       flat_series)
  = [(0, [200000; 0; 0; 170000]); (0, [0; 0; 0; 0]); (0, [0; 0; 0; 0]); (10, [0; 0; 0; 0]);
     (20, [100000; 0; 0; 0]); (30, [0; 0; 0; 0]); (40, [0; 0; 180000; 0]);
     (50, [0; 0; 0; 0]); (60, [0; 0; 0; 0]); (61, [0; 0; 0; 0]); (62, [0; 0; 90000; 60000])].
Proof. vm_compute. reflexivity. Qed.

Lemma setup_gas_sensor_pressure_spec_witness :
  ~ excluded 4 starts_on_first no_gaschange three_gas_dive three_gas_dc 0 /\
  sensor_at (setup_gas_sensor_pressure 4 starts_on_first no_gaschange three_gas_dive
               three_gas_dc flat_series) 4 0 = 100000 /\
  sensor_at (setup_gas_sensor_pressure 4 starts_on_first no_gaschange three_gas_dive
               three_gas_dc flat_series) 0 0 = 200000.
Proof.
  assert (Hne : flat_series <> []) by discriminate.
  assert (Hwf : well_formed 4 flat_series) by (repeat constructor).
  assert (Hi : (0 < 4)%nat) by lia.
  pose proof (setup_gas_sensor_pressure_spec 4 starts_on_first no_gaschange three_gas_dive
                three_gas_dc flat_series 0 Hne Hwf Hi) as (Hiff & _ & Hin).
  assert (Hnot : ~ excluded 4 starts_on_first no_gaschange three_gas_dive three_gas_dc 0).
  { intros Hex. apply Hiff in Hex as [[H|[H|H]]|[H _]]; try discriminate.
    apply H. left. reflexivity. }
  split; [exact Hnot|].
  destruct (Hin Hnot) as (_ & _ & Hend & Hstart & _).
  split; [exact Hend|]. apply Hstart. discriminate.
Defined.

(** C5 as stated fails: cylinder 1 is named by the gas change at 20 s, yet it
    is excluded because its start and end pressures are equal, and no
    pressure is written for it. *)
Lemma excluded_despite_gaschange :
  let c := cylinder_at three_gas_dive 1 in
  excluded 4 starts_on_first no_gaschange three_gas_dive three_gas_dc 1 /\
  ~ (~ names_cylinder (divecomputer.events three_gas_dc) 1 /\
     (cylinder.start c = 0 \/ cylinder.end_ c = 0 \/ cylinder.start c = cylinder.end_ c)) /\
  forall k, sensor_at (setup_gas_sensor_pressure 4 starts_on_first no_gaschange three_gas_dive
                         three_gas_dc flat_series) k 1 = 0.
Proof.
  split; [|split].
  - unfold excluded. vm_compute. reflexivity.
  - intros [Hno _]. apply Hno. exists (gaschange 20 1).
    split; [|split; reflexivity]. apply list_elem_of_In. simpl. tauto.
  - intros k. do 11 (destruct k as [|k]; [vm_compute; reflexivity|]).
    unfold sensor_at. rewrite lookup_ge_None_2; [reflexivity|]. vm_compute. lia.
Qed.

End GasPressure.

(** ** The consumption estimator ([have_pressures], [sac_between], [fill_sac]) *)

Module Sac.
Import CInt.

(** [lrint] of a rational. *)
Definition lrint (q : Q) : Z := round_div (Qnum q) (Zpos (Qden q)).

Section Sac.

(** Constants and helpers of the dive data structures: the number of
    cylinders, the surface threshold, [gas_volume(dive->cylinder + i, p)]
    for a pressure [p] in mbar, and [depth_to_atm]. *)
Variable MAX_CYLINDERS : nat.
Variable SURFACE_THRESHOLD : Z.
Variable gas_volume : nat -> Z -> Z.
Variable depth_to_atm : Z -> Q.

(** What [lrint] returns for the infinite quotient [airuse / 0.0]; C leaves
    that value unspecified. *)
Variable lrint_of_infinity : Z.

(** [pi->entry + k]. *)
Definition entry_at (es : list plot_data) (k : nat) : plot_data :=
  default (zero_entry MAX_CYLINDERS) (es !! k).

(** [gases & (1u << i)]. *)
Definition has_gas (gases : Z) (i : nat) : bool :=
  negb (Z.land gases (Z.shiftl 1 (Z.of_nat i)) =? 0).

(** One turn of the loop of [have_pressures]: [gases &= ~mask] when the
    cylinder is in the set and the entry has no pressure for it. *)
Definition drop_unread (entry : plot_data) (gases : Z) (i : nat) : Z :=
  let mask := Z.shiftl 1 (Z.of_nat i) in
  if negb (Z.land gases mask =? 0) then
    if GET_PRESSURE entry i =? 0 then Z.land gases (Z.lnot mask) else gases
  else gases.

(** [have_pressures]: which of the set of gases have pressure data. *)
Definition have_pressures (entry : plot_data) (gases : Z) : Z :=
  fold_left (drop_unread entry) (seq 0 MAX_CYLINDERS) gases.

(** One turn of the loop of [sac_between] that sums the gas used. *)
Definition add_cyluse (first last : plot_data) (gases : Z) (airuse : Z) (i : nat) : Z :=
  if has_gas gases i then
    let cyluse := gas_volume i (GET_PRESSURE first i) - gas_volume i (GET_PRESSURE last i) in
    if cyluse >? 0 then airuse + cyluse else airuse
  else airuse.

Definition airuse_between (first last : plot_data) (gases : Z) : Z :=
  fold_left (add_cyluse first last gases) (seq 0 MAX_CYLINDERS) 0.

(** The [do ... while (++first < last)] loop: [n] turns from entry
    [first] on, adding the mean pressure times the duration of each step. *)
Fixpoint integrate (es : list plot_data) (first n : nat) (pressuretime : Q) : Q :=
  match n with
  | O => pressuretime
  | S n' =>
    let depth_ := Z.quot (depth (entry_at es first) + depth (entry_at es (S first))) 2 in
    let time := sec (entry_at es (S first)) - sec (entry_at es first) in
    let atm := depth_to_atm depth_ in
    integrate es (S first) n' (pressuretime + atm * inject_Z time)%Q
  end.

(** The integral of [sac_between], in "atmminutes".  The body of a
    [do ... while] runs at least once. *)
Definition pressuretime_between (es : list plot_data) (first last : nat) : Q :=
  (integrate es first (Nat.max 1 (last - first)) 0 / 60)%Q.

(** [sac_between], for the entries at the indices [first] and [last]. *)
Definition sac_between (es : list plot_data) (first last : nat) (gases : Z) : Z :=
  if Nat.eqb first last then 0
  else
    let airuse := airuse_between (entry_at es first) (entry_at es last) gases in
    if airuse =? 0 then 0
    else
      let pressuretime := pressuretime_between es first last in
      if Qeq_bool pressuretime 0 then lrint_of_infinity
      else lrint (inject_Z airuse / pressuretime)%Q.

(** The first loop of [fill_sac]: go back while the entries are under
    water, not before [time], and have the same pressure data. *)
Fixpoint go_back (es : list plot_data) (time gases : Z) (idx : nat) : nat :=
  match idx with
  | O => O
  | S idx' =>
    let prev := entry_at es idx' in
    let first := entry_at es idx in
    if (depth prev <? SURFACE_THRESHOLD) && (depth first <? SURFACE_THRESHOLD) then idx
    else if sec prev <? time then idx
    else if negb (have_pressures prev gases =? gases) then idx
    else go_back es time gases idx'
  end.

(** The second loop, [while (++idx < pi->nr)], with [last] at [idx - 1]. *)
Fixpoint go_forward (fuel : nat) (es : list plot_data) (time gases : Z) (last : nat) : nat :=
  match fuel with
  | O => last
  | S fuel' =>
    if (S last <? List.length es)%nat then
      let next := entry_at es (S last) in
      let last_ := entry_at es last in
      if (depth next <? SURFACE_THRESHOLD) && (depth last_ <? SURFACE_THRESHOLD) then last
      else if sec next >? time then last
      else if negb (have_pressures next gases =? gases) then last
      else go_forward fuel' es time gases (S last)
    else last
  end.

(** The window [(first, last)] of [fill_sac] around entry [idx]. *)
Definition window (es : list plot_data) (idx : nat) (gases : Z) : nat * nat :=
  let entry := entry_at es idx in
  let first := go_back es (sec entry - 30) gases idx in
  let last := go_forward (List.length es) es (sec (entry_at es first) + 60) gases first in
  (first, last).

(** [fill_sac]: the entries after the call. *)
Definition fill_sac (es : list plot_data) (idx : nat) (gases : Z) : list plot_data :=
  let entry := entry_at es idx in
  if negb (sac entry =? 0) then es
  else
    let gases' := have_pressures entry gases in
    if gases' =? 0 then es
    else
      let '(first, last) := window es idx gases' in
      alter (set_sac (sac_between es first last gases')) idx es.

(** *** Which gases have pressure data *)

Lemma testbit_drop_unread entry gases i j :
  Z.testbit (drop_unread entry gases i) (Z.of_nat j) =
  Z.testbit gases (Z.of_nat j) && negb (Nat.eqb j i && (GET_PRESSURE entry i =? 0)).
Proof.
  unfold drop_unread.
  assert (Hmask : Z.testbit (Z.shiftl 1 (Z.of_nat i)) (Z.of_nat j) = Nat.eqb j i).
  { rewrite Z.shiftl_spec by lia. destruct (Nat.eqb_spec j i) as [->|Hne].
    - rewrite Z.sub_diag. reflexivity.
    - destruct (Z.lt_ge_cases (Z.of_nat j - Z.of_nat i) 0) as [Hlt|Hge].
      + apply Z.testbit_neg_r. exact Hlt.
      + apply Z.bits_above_log2; [lia|]. change (Z.log2 1) with 0. lia. }
  destruct (Z.eqb_spec (Z.land gases (Z.shiftl 1 (Z.of_nat i))) 0) as [Hz|Hnz]; cbn [negb].
  - destruct (Nat.eqb j i) eqn:Eji; [|rewrite andb_true_r; reflexivity].
    apply Nat.eqb_eq in Eji. subst j.
    assert (Hb : Z.testbit gases (Z.of_nat i) = false).
    { apply (f_equal (fun z => Z.testbit z (Z.of_nat i))) in Hz.
      rewrite Z.land_spec, Z.testbit_0_l in Hz.
      rewrite Z.shiftl_spec, Z.sub_diag in Hz by lia.
      change (Z.testbit 1 0) with true in Hz. rewrite andb_true_r in Hz. exact Hz. }
    rewrite Hb. reflexivity.
  - destruct (GET_PRESSURE entry i =? 0).
    + rewrite Z.land_spec, Z.lnot_spec, Hmask by lia. rewrite andb_true_r. reflexivity.
    + rewrite andb_false_r, andb_true_r. reflexivity.
Qed.

Lemma testbit_have_pressures_from entry gases (is_ : list nat) j :
  Z.testbit (fold_left (drop_unread entry) is_ gases) (Z.of_nat j) =
  Z.testbit gases (Z.of_nat j) &&
  negb (existsb (Nat.eqb j) is_ && (GET_PRESSURE entry j =? 0)).
Proof.
  revert gases. induction is_ as [|i is_ IH]; intros gases; cbn [fold_left existsb].
  - rewrite andb_true_r. reflexivity.
  - rewrite IH, testbit_drop_unread.
    destruct (Nat.eqb_spec j i) as [->|Hne]; cbn [orb andb].
    + destruct (GET_PRESSURE entry i =? 0); cbn [negb];
        rewrite ?andb_false_r, ?andb_true_r; reflexivity.
    + rewrite andb_true_r. reflexivity.
Qed.

Lemma testbit_have_pressures entry gases j :
  Z.testbit (have_pressures entry gases) (Z.of_nat j) =
  Z.testbit gases (Z.of_nat j) &&
  negb ((j <? MAX_CYLINDERS)%nat && (GET_PRESSURE entry j =? 0)).
Proof.
  unfold have_pressures. rewrite testbit_have_pressures_from. do 3 f_equal.
  destruct (Nat.ltb_spec j MAX_CYLINDERS) as [Hlt|Hge].
  - apply existsb_exists. exists j. split; [|apply Nat.eqb_refl].
    apply list_elem_of_In, elem_of_seq. lia.
  - destruct (existsb (Nat.eqb j) (seq 0 MAX_CYLINDERS)) eqn:E; [|reflexivity].
    apply existsb_exists in E as (x & Hx & Hjx). apply Nat.eqb_eq in Hjx. subst x.
    apply list_elem_of_In, elem_of_seq in Hx. lia.
Qed.

(** A set of gases that holds cylinders below [MAX_CYLINDERS] only. *)
Definition gas_set (gases : Z) : Prop :=
  forall j : Z, Z.testbit gases j = true -> 0 <= j < Z.of_nat MAX_CYLINDERS.

(** No cylinder of the set has a pressure reading at [entry]. *)
Definition no_pressure_data (entry : plot_data) (gases : Z) : Prop :=
  forall i : nat, Z.testbit gases (Z.of_nat i) = true -> GET_PRESSURE entry i = 0.

Lemma have_pressures_none entry gases :
  gas_set gases -> (have_pressures entry gases = 0 <-> no_pressure_data entry gases).
Proof.
  intros Hset. unfold no_pressure_data. split.
  - intros Hz i Hbit.
    pose proof (testbit_have_pressures entry gases i) as Ht.
    rewrite Hz, Z.testbit_0_l, Hbit in Ht. cbn [andb] in Ht.
    apply Hset in Hbit.
    destruct (Nat.ltb_spec i MAX_CYLINDERS); [|lia]. cbn [andb] in Ht.
    destruct (Z.eqb_spec (GET_PRESSURE entry i) 0); [assumption|discriminate].
  - intros Hnone. apply Z.bits_inj'. intros n Hn. rewrite Z.testbit_0_l.
    rewrite <- (Z2Nat.id n Hn), testbit_have_pressures.
    destruct (Z.testbit gases (Z.of_nat (Z.to_nat n))) eqn:Hbit; [|reflexivity].
    pose proof (Hset _ Hbit) as Hrange. rewrite (Hnone _ Hbit).
    destruct (Nat.ltb_spec (Z.to_nat n) MAX_CYLINDERS); [reflexivity|lia].
Qed.

(** *** The rate over a window *)

Lemma airuse_from_nonneg first last gases (is_ : list nat) (acc : Z) :
  0 <= acc -> 0 <= fold_left (add_cyluse first last gases) is_ acc.
Proof.
  revert acc. induction is_ as [|i is_ IH]; intros acc Hacc; cbn [fold_left]; [exact Hacc|].
  apply IH. unfold add_cyluse. destruct (has_gas gases i); [|exact Hacc].
  destruct (Z.gtb_spec (gas_volume i (GET_PRESSURE first i)
                        - gas_volume i (GET_PRESSURE last i)) 0); lia.
Qed.

Lemma airuse_between_nonneg first last gases : 0 <= airuse_between first last gases.
Proof. apply airuse_from_nonneg. lia. Qed.

Lemma lrint_nonneg (q : Q) : (0 <= q)%Q -> 0 <= lrint q.
Proof.
  intros Hq. unfold lrint. apply round_div_nonneg; [|lia].
  unfold Qle in Hq. simpl in Hq. lia.
Qed.

(** The rate is not negative when the integrated pressure-time of the
    window is positive. *)
Lemma sac_between_nonneg es first last gases :
  (0 < pressuretime_between es first last)%Q -> 0 <= sac_between es first last gases.
Proof.
  intros Hpt. unfold sac_between. destruct (Nat.eqb first last); [lia|].
  pose proof (airuse_between_nonneg (entry_at es first) (entry_at es last) gases) as Hair.
  destruct (Z.eqb_spec (airuse_between (entry_at es first) (entry_at es last) gases) 0); [lia|].
  destruct (Qeq_bool (pressuretime_between es first last) 0) eqn:E.
  - apply Qeq_bool_iff in E. rewrite E in Hpt. apply Qlt_irrefl in Hpt. contradiction.
  - apply lrint_nonneg. apply Qle_shift_div_l; [exact Hpt|].
    rewrite Qmult_0_l. change 0%Q with (inject_Z 0). rewrite <- Zle_Qle. exact Hair.
Qed.

(** It is zero for a window of one entry and when no cylinder of the set
    shows gas used. *)
Lemma sac_between_zero es first last gases :
  first = last \/ airuse_between (entry_at es first) (entry_at es last) gases = 0 ->
  sac_between es first last gases = 0.
Proof.
  unfold sac_between. intros [->|Hz].
  - rewrite Nat.eqb_refl. reflexivity.
  - destruct (Nat.eqb first last); [reflexivity|]. rewrite Hz. reflexivity.
Qed.

Lemma integrate_ge es first n (acc : Q) :
  (forall d, 0 < depth_to_atm d)%Q ->
  (forall k, (first <= k < first + n)%nat -> sec (entry_at es k) <= sec (entry_at es (S k))) ->
  (acc <= integrate es first n acc)%Q.
Proof.
  intros Hatm. revert first acc. induction n as [|n IH]; intros first acc Hmono; cbn [integrate].
  - apply Qle_refl.
  - eapply Qle_trans; [|apply IH; intros k Hk; apply Hmono; lia].
    assert (Ht : (0 <= inject_Z (sec (entry_at es (S first)) - sec (entry_at es first)))%Q).
    { change 0%Q with (inject_Z 0). rewrite <- Zle_Qle.
      specialize (Hmono first ltac:(lia)). lia. }
    set (a := depth_to_atm _). assert (Ha : (0 < a)%Q) by apply Hatm.
    assert (Hm : (0 <= a * inject_Z (sec (entry_at es (S first)) - sec (entry_at es first)))%Q).
    { apply Qmult_le_0_compat; [apply Qlt_le_weak, Ha|exact Ht]. }
    lra.
Qed.

Lemma integrate_gt es first n (acc : Q) (k : nat) :
  (forall d, 0 < depth_to_atm d)%Q ->
  (forall j, (first <= j < first + n)%nat -> sec (entry_at es j) <= sec (entry_at es (S j))) ->
  (first <= k < first + n)%nat -> sec (entry_at es k) < sec (entry_at es (S k)) ->
  (acc < integrate es first n acc)%Q.
Proof.
  intros Hatm. revert first acc. induction n as [|n IH]; intros first acc Hmono Hk Hstrict;
    cbn [integrate]; [lia|].
  set (a := depth_to_atm _). assert (Ha : (0 < a)%Q) by apply Hatm.
  destruct (decide (k = first)) as [->|Hne].
  - eapply Qlt_le_trans; [|apply integrate_ge; [exact Hatm|intros j Hj; apply Hmono; lia]].
    assert (Ht : (0 < inject_Z (sec (entry_at es (S first)) - sec (entry_at es first)))%Q).
    { change 0%Q with (inject_Z 0). rewrite <- Zlt_Qlt. lia. }
    assert (Hm : (0 < a * inject_Z (sec (entry_at es (S first)) - sec (entry_at es first)))%Q).
    { apply Qmult_lt_0_compat; assumption. }
    lra.
  - eapply Qle_lt_trans; [|apply IH; [intros j Hj; apply Hmono; lia|lia|exact Hstrict]].
    assert (Ht : (0 <= inject_Z (sec (entry_at es (S first)) - sec (entry_at es first)))%Q).
    { change 0%Q with (inject_Z 0). rewrite <- Zle_Qle.
      specialize (Hmono first ltac:(lia)). lia. }
    assert (Hm : (0 <= a * inject_Z (sec (entry_at es (S first)) - sec (entry_at es first)))%Q).
    { apply Qmult_le_0_compat; [apply Qlt_le_weak, Ha|exact Ht]. }
    lra.
Qed.

(** The integral is positive when the ambient pressure is, the times of
    the window do not decrease, and one step of it takes time. *)
Lemma pressuretime_between_pos es first last (k : nat) :
  (forall d, 0 < depth_to_atm d)%Q ->
  (first < last)%nat ->
  (forall j, (first <= j < last)%nat -> sec (entry_at es j) <= sec (entry_at es (S j))) ->
  (first <= k < last)%nat -> sec (entry_at es k) < sec (entry_at es (S k)) ->
  (0 < pressuretime_between es first last)%Q.
Proof.
  intros Hatm Hlt Hmono Hk Hstrict. unfold pressuretime_between.
  replace (Nat.max 1 (last - first)) with (last - first)%nat by lia.
  assert (H : (0 < integrate es first (last - first) 0)%Q).
  { apply (integrate_gt es first (last - first) 0 k Hatm); [|lia|exact Hstrict].
    intros j Hj. apply Hmono. lia. }
  apply Qlt_shift_div_l; [reflexivity|]. rewrite Qmult_0_l. exact H.
Qed.

(** *** What [fill_sac] leaves in the entry *)

Lemma sac_set_sac v e : sac (set_sac v e) = v.
Proof. destruct e; reflexivity. Qed.

Lemma entry_at_alter f es idx :
  (idx < List.length es)%nat -> entry_at (alter f idx es) idx = f (entry_at es idx).
Proof.
  intros Hlt. unfold entry_at. rewrite list_lookup_alter_eq.
  destruct (lookup_lt_is_Some_2 es idx Hlt) as [e ->]. reflexivity.
Qed.

(** What [fill_sac] does to entry [idx], for any set of gases: an entry that
    already carries a SAC value is skipped, one without pressure data for
    the set stays at 0, and any other gets the rate of [sac_between] over
    the window found. *)
Lemma fill_sac_spec (es : list plot_data) (idx : nat) (gases : Z) :
  (idx < List.length es)%nat -> gas_set gases ->
  let entry := entry_at es idx in
  let entry' := entry_at (fill_sac es idx gases) idx in
  let gases' := have_pressures entry gases in
  let first := fst (window es idx gases') in
  let last := snd (window es idx gases') in
  (sac entry <> 0 -> fill_sac es idx gases = es) /\
  (sac entry = 0 -> no_pressure_data entry gases -> sac entry' = 0) /\
  (sac entry = 0 -> ~ no_pressure_data entry gases ->
     sac entry' = sac_between es first last gases' /\
     (first = last \/ airuse_between (entry_at es first) (entry_at es last) gases' = 0 ->
      sac entry' = 0) /\
     ((0 < pressuretime_between es first last)%Q -> 0 <= sac entry')).
Proof.
  intros Hidx Hset entry entry' gases' first last.
  split; [|split].
  - intros Hsac. unfold fill_sac. fold entry.
    destruct (Z.eqb_spec (sac entry) 0); [contradiction|reflexivity].
  - intros Hsac Hnone. unfold entry', fill_sac. fold entry. rewrite Hsac. cbn [Z.eqb negb].
    apply have_pressures_none in Hnone; [|exact Hset]. rewrite Hnone. cbn [Z.eqb].
    exact Hsac.
  - intros Hsac Hsome.
    assert (Hg : gases' <> 0).
    { intros Hz. apply Hsome. apply have_pressures_none; assumption. }
    assert (Heq : sac entry' = sac_between es first last gases').
    { unfold entry', fill_sac. fold entry gases'. rewrite Hsac. cbn [Z.eqb negb].
      destruct (Z.eqb_spec gases' 0); [contradiction|].
      unfold first, last. destruct (window es idx gases') as [f l]. cbn [fst snd].
      rewrite entry_at_alter by exact Hidx. apply sac_set_sac. }
    split; [exact Heq|]. split.
    + intros Hz. rewrite Heq. apply sac_between_zero, Hz.
    + intros Hpt. rewrite Heq. apply sac_between_nonneg, Hpt.
Qed.

(** *** The loop of [calculate_sac] *)

(** The gas mix with its helpers [same_gasmix] and [get_gasmix] (which
    moves the event cursor [ev] along), and the mix of each cylinder. *)
Variable gasmix : Type.
Variable gasmix_invalid : gasmix.
Variable same_gasmix : gasmix -> gasmix -> bool.
Variable cylinder_gasmix : nat -> gasmix.
Variable get_gasmix : Z -> list event.t -> gasmix -> gasmix * list event.t.

(** One turn of the loop of [matching_gases]: [gases |= 1 << i]. *)
Definition add_matching (mix : gasmix) (gases : Z) (i : nat) : Z :=
  if same_gasmix mix (cylinder_gasmix i) then Z.lor gases (Z.shiftl 1 (Z.of_nat i)) else gases.

(** [matching_gases]: the bitmap of the cylinders that match the mix. *)
Definition matching_gases (mix : gasmix) : Z :=
  fold_left (add_matching mix) (seq 0 MAX_CYLINDERS) 0.

(** The variables [gasmix], [ev] and [gases] of [calculate_sac]. *)
Record gas_cursor : Type := mk_gas_cursor {
  current_mix : gasmix;
  current_ev : list event.t;
  current_gases : Z
}.

Definition first_cursor : gas_cursor :=
  {| current_mix := gasmix_invalid; current_ev := []; current_gases := 0 |}.

(** The first statements of the loop body, for an entry at time [sec_]. *)
Definition next_gases (c : gas_cursor) (sec_ : Z) : gas_cursor :=
  let '(newmix, ev') := get_gasmix sec_ (current_ev c) (current_mix c) in
  if negb (same_gasmix newmix (current_mix c))
  then {| current_mix := newmix; current_ev := ev'; current_gases := matching_gases newmix |}
  else {| current_mix := current_mix c; current_ev := ev'; current_gases := current_gases c |}.

(** One turn of [for (int i = 0; i < pi->nr; i++)]. *)
Definition sac_step (st : list plot_data * gas_cursor) (i : nat) : list plot_data * gas_cursor :=
  let c := next_gases (snd st) (sec (entry_at (fst st) i)) in
  (fill_sac (fst st) i (current_gases c), c).

(** [calculate_sac]: the entries after the call. *)
Definition calculate_sac (es : list plot_data) : list plot_data :=
  fst (fold_left sac_step (seq 0 (List.length es)) (es, first_cursor)).

(** The set of cylinders that match the gas mix in use at entry [idx]. *)
Definition active_gases (es : list plot_data) (idx : nat) : Z :=
  current_gases
    (fold_left (fun c i => next_gases c (sec (entry_at es i))) (seq 0 (S idx)) first_cursor).

(** An entry with its SAC value blanked: what the estimator reads of the
    entries other than the one it fills. *)
Definition blank (e : plot_data) : plot_data := set_sac 0 e.

Lemma blank_reads e :
  depth (blank e) = depth e /\ sec (blank e) = sec e /\ pressure (blank e) = pressure e.
Proof. destruct e; repeat split; reflexivity. Qed.

Lemma blank_set_sac v e : blank (set_sac v e) = blank e.
Proof. destruct e; reflexivity. Qed.

Lemma entry_at_blank es k : entry_at (map blank es) k = blank (entry_at es k).
Proof.
  unfold entry_at. rewrite list_lookup_fmap. destruct (es !! k); reflexivity.
Qed.

Lemma GET_PRESSURE_blank e i : GET_PRESSURE (blank e) i = GET_PRESSURE e i.
Proof.
  unfold GET_PRESSURE, SENSOR_PRESSURE, INTERPOLATED_PRESSURE.
  destruct (blank_reads e) as (_ & _ & ->). reflexivity.
Qed.

Lemma have_pressures_blank e gases : have_pressures (blank e) gases = have_pressures e gases.
Proof.
  unfold have_pressures. generalize (seq 0 MAX_CYLINDERS). intros l. revert gases.
  induction l as [|i l IH]; intros gases; [reflexivity|]. cbn [fold_left].
  unfold drop_unread at 2 4. rewrite GET_PRESSURE_blank. apply IH.
Qed.

Lemma go_back_blank es time gases idx :
  go_back (map blank es) time gases idx = go_back es time gases idx.
Proof.
  induction idx as [|idx IH]; [reflexivity|]. cbn [go_back].
  rewrite !entry_at_blank, have_pressures_blank.
  destruct (blank_reads (entry_at es idx)) as (-> & -> & _).
  destruct (blank_reads (entry_at es (S idx))) as (-> & _ & _).
  rewrite IH. reflexivity.
Qed.

Lemma go_forward_blank fuel es time gases last :
  go_forward fuel (map blank es) time gases last = go_forward fuel es time gases last.
Proof.
  revert last. induction fuel as [|fuel IH]; intros last; [reflexivity|]. cbn [go_forward].
  rewrite !entry_at_blank, have_pressures_blank, length_map.
  destruct (blank_reads (entry_at es last)) as (-> & _ & _).
  destruct (blank_reads (entry_at es (S last))) as (-> & -> & _).
  rewrite IH. reflexivity.
Qed.

Lemma window_blank es idx gases : window (map blank es) idx gases = window es idx gases.
Proof.
  unfold window. rewrite length_map, !entry_at_blank.
  destruct (blank_reads (entry_at es idx)) as (_ & -> & _).
  rewrite go_back_blank.
  destruct (blank_reads (entry_at es (go_back es (sec (entry_at es idx) - 30) gases idx)))
    as (_ & -> & _).
  rewrite go_forward_blank. reflexivity.
Qed.

Lemma airuse_between_blank a b gases :
  airuse_between (blank a) (blank b) gases = airuse_between a b gases.
Proof.
  unfold airuse_between. generalize (seq 0 MAX_CYLINDERS) 0. intros l.
  induction l as [|i l IH]; intros acc; [reflexivity|]. cbn [fold_left].
  unfold add_cyluse at 2 4. rewrite !GET_PRESSURE_blank. apply IH.
Qed.

Lemma integrate_blank es first n acc :
  integrate (map blank es) first n acc = integrate es first n acc.
Proof.
  revert first acc. induction n as [|n IH]; intros first acc; [reflexivity|]. cbn [integrate].
  rewrite !entry_at_blank.
  destruct (blank_reads (entry_at es first)) as (-> & -> & _).
  destruct (blank_reads (entry_at es (S first))) as (-> & -> & _).
  apply IH.
Qed.

Lemma sac_between_blank es first last gases :
  sac_between (map blank es) first last gases = sac_between es first last gases.
Proof.
  unfold sac_between, pressuretime_between.
  rewrite !entry_at_blank, airuse_between_blank, integrate_blank. reflexivity.
Qed.

(** The value [fill_sac] leaves in entry [idx] depends on the series only
    through the blanked entries and the SAC value of entry [idx]. *)
Lemma fill_sac_reads es1 es2 idx gases :
  map blank es1 = map blank es2 ->
  sac (entry_at es1 idx) = sac (entry_at es2 idx) ->
  sac (entry_at (fill_sac es1 idx gases) idx) = sac (entry_at (fill_sac es2 idx gases) idx).
Proof.
  intros Hb Hs.
  assert (Hlen : List.length es1 = List.length es2).
  { apply (f_equal (@List.length _)) in Hb. rewrite !length_map in Hb. exact Hb. }
  assert (He : blank (entry_at es1 idx) = blank (entry_at es2 idx)).
  { rewrite <- !entry_at_blank, Hb. reflexivity. }
  assert (Hh : have_pressures (entry_at es1 idx) gases = have_pressures (entry_at es2 idx) gases).
  { rewrite <- (have_pressures_blank (entry_at es1 idx)), He. apply have_pressures_blank. }
  unfold fill_sac. rewrite <- Hs, <- Hh.
  destruct (negb (sac (entry_at es1 idx) =? 0)); [exact Hs|].
  destruct (have_pressures (entry_at es1 idx) gases =? 0); [exact Hs|].
  rewrite <- (window_blank es1), <- (window_blank es2), Hb.
  destruct (window (map blank es2) idx _) as [f l].
  rewrite <- (sac_between_blank es1), <- (sac_between_blank es2), Hb.
  destruct (decide (idx < List.length es1)%nat) as [Hlt|Hge].
  - rewrite !entry_at_alter by lia. rewrite !sac_set_sac. reflexivity.
  - unfold entry_at. rewrite !lookup_ge_None_2 by (rewrite length_alter; lia). reflexivity.
Qed.

Lemma fill_sac_blank es idx gases : map blank (fill_sac es idx gases) = map blank es.
Proof.
  unfold fill_sac. destruct (negb _); [reflexivity|]. destruct (_ =? 0); [reflexivity|].
  destruct (window es idx _) as [f l]. generalize (sac_between es f l (have_pressures
    (entry_at es idx) gases)). intros v. revert idx.
  induction es as [|e es IH]; intros idx; [reflexivity|].
  destruct idx as [|idx]; simpl.
  - f_equal. apply blank_set_sac.
  - f_equal. apply IH.
Qed.

Lemma fill_sac_other es idx gases k :
  k <> idx -> entry_at (fill_sac es idx gases) k = entry_at es k.
Proof.
  intros Hk. unfold fill_sac. destruct (negb _); [reflexivity|].
  destruct (_ =? 0); [reflexivity|]. destruct (window es idx _) as [f l].
  unfold entry_at. rewrite list_lookup_alter_ne by congruence. reflexivity.
Qed.

Lemma testbit_matching_from mix (is_ : list nat) gases (j : Z) :
  Z.testbit (fold_left (add_matching mix) is_ gases) j = true ->
  Z.testbit gases j = true \/ exists i, i ∈ is_ /\ j = Z.of_nat i.
Proof.
  revert gases. induction is_ as [|i is_ IH]; intros gases Hbit; [left; exact Hbit|].
  cbn [fold_left] in Hbit. apply IH in Hbit as [Hbit|(i' & Hi' & ->)].
  - unfold add_matching in Hbit. destruct (same_gasmix mix (cylinder_gasmix i)); [|tauto].
    rewrite Z.lor_spec in Hbit. apply orb_prop in Hbit as [Hbit|Hbit]; [tauto|].
    right. exists i. split; [apply elem_of_cons; tauto|].
    destruct (Z.lt_ge_cases j 0) as [Hneg|Hpos];
      [rewrite Z.testbit_neg_r in Hbit by exact Hneg; discriminate|].
    rewrite Z.shiftl_spec in Hbit by exact Hpos.
    destruct (Z.lt_trichotomy (j - Z.of_nat i) 0) as [Hlt|[Heq|Hgt]]; [|lia|].
    + rewrite Z.testbit_neg_r in Hbit by exact Hlt. discriminate.
    + rewrite Z.bits_above_log2 in Hbit; [discriminate|lia|]. change (Z.log2 1) with 0. lia.
  - right. exists i'. split; [apply elem_of_cons; tauto|reflexivity].
Qed.

Lemma gas_set_matching_gases mix : gas_set (matching_gases mix).
Proof.
  intros j Hbit. apply testbit_matching_from in Hbit as [Hbit|(i & Hi & ->)].
  - rewrite Z.testbit_0_l in Hbit. discriminate.
  - apply elem_of_seq in Hi. lia.
Qed.

Lemma gas_set_empty : gas_set 0.
Proof. intros j Hbit. rewrite Z.testbit_0_l in Hbit. discriminate. Qed.

Lemma gas_set_next_gases c sec_ :
  gas_set (current_gases c) -> gas_set (current_gases (next_gases c sec_)).
Proof.
  intros Hc. unfold next_gases.
  destruct (get_gasmix sec_ (current_ev c) (current_mix c)) as [newmix ev'].
  destruct (negb _); cbn [current_gases]; [apply gas_set_matching_gases|exact Hc].
Qed.

Lemma gas_set_active_gases es idx : gas_set (active_gases es idx).
Proof.
  unfold active_gases. generalize (seq 0 (S idx)). intros l.
  assert (H : gas_set (current_gases first_cursor)) by apply gas_set_empty.
  revert H. generalize first_cursor. induction l as [|i l IH]; intros c Hc; [exact Hc|].
  cbn [fold_left]. apply IH, gas_set_next_gases, Hc.
Qed.

(** The loop from entry [m] on, [k] turns: entry [idx] ends with the value
    [fill_sac] gives it on the series as it was. *)
Lemma sac_loop_entry es (k m : nat) (st : list plot_data * gas_cursor) (idx : nat) :
  map blank (fst st) = map blank es ->
  (forall j, (m <= j)%nat -> entry_at (fst st) j = entry_at es j) ->
  snd st = fold_left (fun c i => next_gases c (sec (entry_at es i))) (seq 0 m) first_cursor ->
  (m <= idx < m + k)%nat ->
  sac (entry_at (fst (fold_left sac_step (seq m k) st)) idx) =
  sac (entry_at (fill_sac es idx (active_gases es idx)) idx).
Proof.
  revert m st. induction k as [|k IH]; intros m st Hb Hrest Hc Hidx; [lia|].
  cbn [seq fold_left].
  assert (Hsec : sec (entry_at (fst st) m) = sec (entry_at es m)).
  { rewrite Hrest by lia. reflexivity. }
  assert (Hc' : snd (sac_step st m) =
    fold_left (fun c i => next_gases c (sec (entry_at es i))) (seq 0 (S m)) first_cursor).
  { rewrite seq_S, fold_left_app. cbn [fold_left]. unfold sac_step. cbn [snd].
    rewrite Hsec, Hc. reflexivity. }
  destruct (decide (idx = m)) as [->|Hne].
  - assert (Hkeep : forall (l : list nat) st', Forall (fun i => i <> m) l ->
              entry_at (fst (fold_left sac_step l st')) m = entry_at (fst st') m).
    { intros l. induction l as [|i l IHl]; intros st' Hl; [reflexivity|].
      apply Forall_cons in Hl as [Hi Hl]. cbn [fold_left]. rewrite IHl by exact Hl.
      unfold sac_step. cbn [fst]. apply fill_sac_other. congruence. }
    rewrite Hkeep.
    2:{ apply Forall_forall. intros i Hi. apply elem_of_seq in Hi. lia. }
    unfold sac_step at 1. cbn [fst].
    replace (current_gases (next_gases (snd st) (sec (entry_at (fst st) m))))
      with (active_gases es m).
    2:{ unfold active_gases. rewrite <- Hc'. reflexivity. }
    apply fill_sac_reads; [exact Hb|]. rewrite Hrest by lia. reflexivity.
  - apply IH; [| |exact Hc'|lia].
    + unfold sac_step. cbn [fst]. rewrite fill_sac_blank. exact Hb.
    + intros j Hj. unfold sac_step. cbn [fst]. rewrite fill_sac_other by lia.
      apply Hrest. lia.
Qed.

(** After [calculate_sac] every entry holds what [fill_sac] gives it on
    the series as it was, for the set of cylinders that match the gas mix
    in use at the entry. *)
Lemma calculate_sac_entry es idx :
  (idx < List.length es)%nat ->
  sac (entry_at (calculate_sac es) idx) =
  sac (entry_at (fill_sac es idx (active_gases es idx)) idx).
Proof.
  intros Hidx. unfold calculate_sac.
  apply sac_loop_entry; [reflexivity|reflexivity|reflexivity|lia].
Qed.

(** What the estimator leaves.  After [calculate_sac], for every entry of the
    series and the set of cylinders that match the gas mix in use there: an
    entry that already carried a SAC value (the one of its sample) keeps
    it, whatever pressure data there is.  For an entry without one: when no
    cylinder of the set has a pressure reading at the entry its SAC is
    exactly 0; otherwise its SAC is the rate of [sac_between] over the
    window found, which is 0 when the window is a single entry or no
    cylinder shows gas used, and is not negative whenever the integrated
    pressure-time of the window is positive. *)
Theorem calculate_sac_spec (es : list plot_data) (idx : nat) :
  (idx < List.length es)%nat ->
  let entry := entry_at es idx in
  let entry' := entry_at (calculate_sac es) idx in
  let gases := active_gases es idx in
  let gases' := have_pressures entry gases in
  let first := fst (window es idx gases') in
  let last := snd (window es idx gases') in
  gas_set gases /\
  (sac entry <> 0 -> sac entry' = sac entry) /\
  (sac entry = 0 -> no_pressure_data entry gases -> sac entry' = 0) /\
  (sac entry = 0 -> ~ no_pressure_data entry gases ->
     sac entry' = sac_between es first last gases' /\
     (first = last \/ airuse_between (entry_at es first) (entry_at es last) gases' = 0 ->
      sac entry' = 0) /\
     ((0 < pressuretime_between es first last)%Q -> 0 <= sac entry')).
Proof.
  intros Hidx entry entry' gases gases' first last.
  pose proof (gas_set_active_gases es idx) as Hset. fold gases in Hset.
  destruct (fill_sac_spec es idx gases Hidx Hset) as (Hkeep & Hnone & Hsome).
  fold entry gases' first last in Hkeep, Hnone, Hsome.
  assert (Heq : sac entry' = sac (entry_at (fill_sac es idx gases) idx)).
  { unfold entry', gases. apply calculate_sac_entry, Hidx. }
  rewrite Heq. split; [exact Hset|]. split; [|split].
  - intros Hsac. rewrite (Hkeep Hsac). reflexivity.
  - exact Hnone.
  - exact Hsome.
Qed.

End Sac.

(** *** Examples *)

(** A 12 litre cylinder as an ideal gas, and salt water at sea level. *)
Definition tank_volume (i : nat) (mbar : Z) : Z := mbar * 12 / 1000.
Definition sea_level_atm (mm : Z) : Q := (inject_Z (mm + 10000) / 10000)%Q.

Definition reading_entry (t d p s : Z) : plot_data :=
  set_sac s (set_SENSOR_PRESSURE 0 p (set_depth d (set_sec t (zero_entry 2)))).

(** Ten metres for a minute, one bar used every ten seconds. *)
Definition steady_series : list plot_data :=
  [reading_entry 0 0 0 0; reading_entry 0 0 0 0;
   reading_entry 10 10000 200000 0; reading_entry 20 10000 199000 0;
   reading_entry 30 10000 198000 0; reading_entry 40 10000 197000 0;
   reading_entry 50 10000 0 0; reading_entry 60 10000 195000 0; reading_entry 61 0 0 0].

Example steady_series_sac :
  map (fun k => sac (entry_at 2 (fill_sac 2 750 tank_volume sea_level_atm 0 steady_series k 1) k))
      (seq 0 9)
  = [0; 0; 36; 36; 36; 36; 0; 0; 0].
Proof. vm_compute. reflexivity. Qed.

Lemma gas_set_first_cylinder : gas_set 2 1.
Proof.
  intros j Hj. destruct (Z.eq_dec j 0) as [->|Hne]; [lia|].
  destruct (Z.lt_ge_cases j 0) as [Hneg|Hpos].
  - rewrite Z.testbit_neg_r in Hj by exact Hneg. discriminate.
  - rewrite Z.bits_above_log2 in Hj; [discriminate|lia|]. change (Z.log2 1) with 0. lia.
Qed.

(** A toy gas model: the mix is air ([true]) from the start, cylinder 0
    holds air and no other cylinder does. *)
Definition toy_same_gasmix (a b : bool) : bool := Bool.eqb a b.
Definition toy_cylinder_gasmix (i : nat) : bool := Nat.eqb i 0.
Definition toy_get_gasmix (sec_ : Z) (ev : list event.t) (mix : bool) : bool * list event.t :=
  (true, ev).

Definition toy_calculate_sac (es : list plot_data) : list plot_data :=
  calculate_sac 2 750 tank_volume sea_level_atm 0 bool false toy_same_gasmix
    toy_cylinder_gasmix toy_get_gasmix es.

Example steady_series_calculate_sac :
  map sac (toy_calculate_sac steady_series) = [0; 0; 36; 36; 36; 36; 0; 0; 0].
Proof. vm_compute. reflexivity. Qed.

Lemma calculate_sac_spec_witness :
  sac (entry_at 2 (toy_calculate_sac steady_series) 2) = 36 /\
  0 <= sac (entry_at 2 (toy_calculate_sac steady_series) 2).
Proof.
  assert (Hidx : (2 < List.length steady_series)%nat) by (simpl; lia).
  pose proof (calculate_sac_spec 2 750 tank_volume sea_level_atm 0 bool false toy_same_gasmix
                toy_cylinder_gasmix toy_get_gasmix steady_series 2 Hidx)
    as (_ & _ & _ & Hsome).
  assert (Hsac : sac (entry_at 2 steady_series 2) = 0) by reflexivity.
  assert (Hdata : ~ no_pressure_data (entry_at 2 steady_series 2)
                      (active_gases 2 bool false toy_same_gasmix toy_cylinder_gasmix
                         toy_get_gasmix steady_series 2)).
  { intros Hnone. specialize (Hnone 0%nat eq_refl). discriminate. }
  destruct (Hsome Hsac Hdata) as (Heq & _ & Hpos).
  split.
  - unfold toy_calculate_sac. rewrite Heq. vm_compute. reflexivity.
  - apply Hpos. vm_compute. reflexivity.
Defined.

(** A dive computer that reports a SAC value with its samples and no
    cylinder pressure. *)
Definition sac_sample (t d : Z) : sample.t :=
  {| sample.time := t; sample.stoptime := 0; sample.ndl := 0; sample.tts := 0;
     sample.rbt := 0; sample.depth := d; sample.stopdepth := 0; sample.temperature := 0;
     sample.pressure := (0, 0); sample.setpoint := 0; sample.o2sensor := [0; 0; 0];
     sample.bearing := 0; sample.sensor := (0%nat, 0%nat); sample.cns := 0;
     sample.heartbeat := 0; sample.sac := 15000; sample.in_deco := false |}.

Definition sac_reporting_dc : divecomputer.t :=
  {| divecomputer.sample := [sac_sample 0 0; sac_sample 30 3000];
     divecomputer.events := [];
     divecomputer.divemode := OC; divecomputer.no_o2sensors := 0 |}.

Definition sac_reporting_series : list plot_data :=
  default [] (Densify.populate_plot_entries 2 Densify.interpolate true sac_reporting_dc 30).

(** An entry that carries a SAC value is skipped by [fill_sac]: the raster
    entry at 10 s of this dive has no pressure reading for any cylinder,
    and after [calculate_sac] its SAC is still 15000, the value copied from
    the sample. *)
Example sac_kept_without_pressure_data :
  sec (entry_at 2 sac_reporting_series 3) = 10 /\
  (forall i, GET_PRESSURE (entry_at 2 sac_reporting_series 3) i = 0) /\
  sac (entry_at 2 (toy_calculate_sac sac_reporting_series) 3) = 15000 /\
  forall gases,
    sac (entry_at 2 (fill_sac 2 750 tank_volume sea_level_atm 0 sac_reporting_series 3 gases) 3)
    = 15000.
Proof.
  split; [vm_compute; reflexivity|]. split; [|split].
  - intros i. do 2 (destruct i as [|i]; [vm_compute; reflexivity|]). reflexivity.
  - vm_compute. reflexivity.
  - intros gases.
    assert (Hs : sac (entry_at 2 sac_reporting_series 3) = 15000) by (vm_compute; reflexivity).
    unfold fill_sac. rewrite Hs. cbn [Z.eqb negb]. exact Hs.
Qed.





End Sac.

(** ** The decompression solver ([calculate_ndl_tts], [calculate_deco_information]) *)

Module Deco.
Import CInt.

(** [struct deco_state], the tissue state of the solver: per compartment (16
    of them) the inert-gas saturation, the two model coefficients and the
    tolerated pressure, then the running deco-time estimate, the
    first-ceiling pressure, the ICD warning flag and the gradient
    parameters of VPM-B. *)
Record deco_state : Type := mk_deco_state {
  tissue_inertgas_saturation : list Q;
  buehlmann_inertgas_a : list Q;
  buehlmann_inertgas_b : list Q;
  tolerated_by_tissue : list Q;
  deco_time : Z;
  first_ceiling_pressure : Z;      (* first_ceiling_pressure.mbar *)
  icd_warning : bool;
  vpmb_gradients : list Q
}.

Definition set_deco_time (v : Z) (ds : deco_state) : deco_state :=
  {| tissue_inertgas_saturation := tissue_inertgas_saturation ds;
     buehlmann_inertgas_a := buehlmann_inertgas_a ds;
     buehlmann_inertgas_b := buehlmann_inertgas_b ds;
     tolerated_by_tissue := tolerated_by_tissue ds;
     deco_time := v;
     first_ceiling_pressure := first_ceiling_pressure ds;
     icd_warning := icd_warning ds;
     vpmb_gradients := vpmb_gradients ds |}.

Definition set_first_ceiling_pressure (v : Z) (ds : deco_state) : deco_state :=
  {| tissue_inertgas_saturation := tissue_inertgas_saturation ds;
     buehlmann_inertgas_a := buehlmann_inertgas_a ds;
     buehlmann_inertgas_b := buehlmann_inertgas_b ds;
     tolerated_by_tissue := tolerated_by_tissue ds;
     deco_time := deco_time ds;
     first_ceiling_pressure := v;
     icd_warning := icd_warning ds;
     vpmb_gradients := vpmb_gradients ds |}.

(** Modelled from the spec: [cache_deco_state], the checkpoint helper of the
    deco model, which [profile.c] only calls.  The checkpoint is a full
    value copy of the tissue state (clone on checkpoint); [cached] is the
    snapshot held before, [None] for the null pointer. *)
Definition cache_deco_state (ds : deco_state) (cached : option deco_state)
    : option deco_state :=
  Some ds.

(** Modelled from the spec: [restore_deco_state], the restore helper of the
    deco model, which [profile.c] only calls.  The restore assigns the
    snapshot to the live state (assign on restore), a full value copy.  The
    callers pass a third argument, [decoMode() == VPMB] or [true]; the
    written specification gives it no effect. *)
Definition restore_deco_state (data : option deco_state) (target : deco_state)
    (keep_vpmb_state : bool) : deco_state :=
  match data with
  | Some snapshot => snapshot
  | None => target
  end.

Definition MAX_PROFILE_DECO : Z := 7200.

Section NdlTts.

(** The gas mix, and the helpers of the deco model and of the planner that
    [calculate_ndl_tts] calls.  [tissue_tolerance_calc] takes the state by
    a non-const pointer: it returns its result and the state it leaves. *)
Variable gasmix : Type.
Variable depth_to_bar : Z -> Q.
Variable tissue_tolerance_calc : deco_state -> Q -> Q * deco_state.
Variable deco_allowed_depth : Q -> Q -> bool -> Z.
Variable add_segment : deco_state -> Q -> gasmix -> Z -> Z -> divemode_t -> Z -> deco_state.
Variable ascent_velocity : Z -> Z -> Z -> Z.

(** [prefs.bottomsac] and [prefs.decosac]. *)
Variable bottomsac : Z.
Variable decosac : Z.

(** The arguments that stay fixed during one call. *)
Variable mix : gasmix.
Variable surface_pressure : Q.
Variable divemode : divemode_t.

Definition ascent_s_per_step : Z := 1.
Definition ascent_s_per_deco_step : Z := 1.
Definition time_stepsize : Z := 60.
Definition deco_stepsize : Z := 3000.

(** [deco_allowed_depth(tissue_tolerance_calc(ds, dive, depth_to_bar(depth,
    dive)), surface_pressure, dive, 1)], with the state it leaves. *)
Definition ceiling_at (ds : deco_state) (depth_ : Z) : Z * deco_state :=
  let '(tolerance, ds') := tissue_tolerance_calc ds (depth_to_bar depth_) in
  (deco_allowed_depth tolerance surface_pressure true, ds').

(** The no-deco-limit loop: a minute at a time at the depth of the entry
    until a ceiling appears or the limit is [MAX_PROFILE_DECO]. *)
Fixpoint ndl_loop (fuel : nat) (ds : deco_state) (entry : plot_data)
    : option (deco_state * plot_data) :=
  match fuel with
  | O => None
  | S fuel' =>
    if ndl_calc entry <? MAX_PROFILE_DECO then
      let '(c, ds1) := ceiling_at ds (depth entry) in
      if c <=? 0 then
        let entry' := set_ndl_calc (ndl_calc entry + time_stepsize) entry in
        let ds2 := add_segment ds1 (depth_to_bar (depth entry)) mix time_stepsize
                     (o2pressure entry) divemode bottomsac in
        ndl_loop fuel' ds2 entry'
      else Some (ds1, entry)
    else Some (ds, entry)
  end.

(** The step of an ascent: [ascent_velocity(ascent_depth, entry->running_sum
    / entry->sec, 0)] seconds-per-step times. *)
Definition ascent_step (entry : plot_data) (ascent_depth per_step : Z) : Z :=
  per_step * ascent_velocity ascent_depth (Z.quot (running_sum entry) (sec entry)) 0.

(** "Add segments for movement to stopdepth": the stop is computed anew
    after every second of ascent. *)
Fixpoint ascent_loop (fuel : nat) (ds : deco_state) (entry : plot_data)
    (ascent_depth next_stop : Z) : option (deco_state * plot_data * Z) :=
  match fuel with
  | O => None
  | S fuel' =>
    if ascent_depth >? next_stop then
      let ds1 := add_segment ds (depth_to_bar ascent_depth) mix ascent_s_per_step
                   (o2pressure entry) divemode decosac in
      let '(c, ds2) := ceiling_at ds1 ascent_depth in
      let next_stop' := ROUND_UP c deco_stepsize in
      ascent_loop fuel' ds2 (set_tts_calc (tts_calc entry + ascent_s_per_step) entry)
        (ascent_depth - ascent_step entry ascent_depth ascent_s_per_step) next_stop'
    else Some (ds, entry, next_stop)
  end.

(** "Move to the next stop and add the travel between stops". *)
Fixpoint travel_loop (fuel : nat) (ds : deco_state) (entry : plot_data)
    (ascent_depth next_stop : Z) : option (deco_state * plot_data) :=
  match fuel with
  | O => None
  | S fuel' =>
    if ascent_depth >? next_stop then
      let ds1 := add_segment ds (depth_to_bar ascent_depth) mix ascent_s_per_deco_step
                   (o2pressure entry) divemode decosac in
      travel_loop fuel' ds1 (set_tts_calc (tts_calc entry + ascent_s_per_deco_step) entry)
        (ascent_depth - ascent_step entry ascent_depth ascent_s_per_deco_step) next_stop
    else Some (ds, entry)
  end.

(** "And how long is the total TTS": [while (next_stop >= 0)]; [travel] is
    the fuel of the inner loop. *)
Fixpoint tts_loop (fuel travel : nat) (ds : deco_state) (entry : plot_data)
    (ascent_depth next_stop : Z) : option (deco_state * plot_data) :=
  match fuel with
  | O => None
  | S fuel' =>
    if next_stop >=? 0 then
      let entry1 := if ascent_depth =? stopdepth_calc entry
                    then set_stoptime_calc (stoptime_calc entry + time_stepsize) entry
                    else entry in
      let entry2 := set_tts_calc (tts_calc entry1 + time_stepsize) entry1 in
      if tts_calc entry2 >? MAX_PROFILE_DECO then Some (ds, entry2)
      else
        let ds1 := add_segment ds (depth_to_bar ascent_depth) mix time_stepsize
                     (o2pressure entry2) divemode decosac in
        let '(c, ds2) := ceiling_at ds1 ascent_depth in
        if c <=? next_stop then
          match travel_loop travel ds2 entry2 ascent_depth next_stop with
          | None => None
          | Some (ds3, entry3) =>
            tts_loop fuel' travel ds3 entry3 next_stop (next_stop - deco_stepsize)
          end
        else tts_loop fuel' travel ds2 entry2 ascent_depth next_stop
    else Some (ds, entry)
  end.

(** [calculate_ndl_tts]: the state and the entry it leaves, [None] when
    [fuel] turns of a loop were not enough. *)
Definition calculate_ndl_tts (fuel : nat) (ds : deco_state) (entry : plot_data)
    : option (deco_state * plot_data) :=
  let '(c, ds0) := ceiling_at ds (depth entry) in
  let next_stop := ROUND_UP c deco_stepsize in
  let ascent_depth := depth entry in
  let entry := set_tts_calc 0 entry in
  if next_stop =? 0 then
    if depth entry <? 3000 then Some (ds0, set_ndl MAX_PROFILE_DECO entry)
    else ndl_loop fuel ds0 entry
  else
    let entry := set_in_deco_calc true entry in
    match ascent_loop fuel ds0 entry ascent_depth next_stop with
    | None => None
    | Some (ds1, entry1, next_stop1) =>
      let entry2 := set_stopdepth_calc next_stop1 (set_stoptime_calc 0 entry1) in
      tts_loop fuel fuel ds1 entry2 next_stop1 (next_stop1 - deco_stepsize)
    end.

(** The block of [calculate_deco_information] around the nested
    simulation: checkpoint, simulate, restore.  The result is the state
    and the entry after the block. *)
Definition checkpointed_ndl_tts (fuel : nat) (vpmb : bool) (ds : deco_state)
    (entry : plot_data) : option (deco_state * plot_data) :=
  let cache_data := cache_deco_state ds None in
  match calculate_ndl_tts fuel ds entry with
  | None => None
  | Some (ds', entry') => Some (restore_deco_state cache_data ds' vpmb, entry')
  end.

(** The end of the turn of the entry loop: whether the nested simulation is
    run for this entry.  It is skipped, and the four computed fields are
    copied from the entry before, when the last run was less than 30 seconds
    ago and this is not the last entry ([is_last]: [i == pi->nr - 1]).  The
    result is the state, the entry, [last_ndl_tts_calc_time] and
    [final_tts]. *)
Definition ndl_tts_stage (fuel : nat)
    (calcndltts print_mode vpmb in_planner first_iteration is_last : bool)
    (last_ndl_tts_calc_time final_tts : Z) (ds : deco_state)
    (prev_entry entry : plot_data) : option (deco_state * plot_data * Z * Z) :=
  if (calcndltts && negb print_mode && (negb vpmb || in_planner || negb first_iteration))
     || (vpmb && negb in_planner && is_last)
  then
    if (sec entry - last_ndl_tts_calc_time <? 30) && negb is_last then
      let entry := set_stoptime_calc (stoptime_calc prev_entry) entry in
      let entry := set_stopdepth_calc (stopdepth_calc prev_entry) entry in
      let entry := set_tts_calc (tts_calc prev_entry) entry in
      let entry := set_ndl_calc (ndl_calc prev_entry) entry in
      Some (ds, entry, last_ndl_tts_calc_time, final_tts)
    else
      match checkpointed_ndl_tts fuel vpmb ds entry with
      | None => None
      | Some (ds', entry') =>
        Some (ds', entry', sec entry,
              if vpmb && negb in_planner && is_last then tts_calc entry' else final_tts)
      end
  else Some (ds, entry, last_ndl_tts_calc_time, final_tts).

(** *** The nested simulation returns *)

Lemma ROUND_UP_nonneg (x : Z) : 0 <= x -> 0 <= ROUND_UP x deco_stepsize.
Proof.
  intros Hx. unfold ROUND_UP, deco_stepsize.
  assert (0 <= Z.quot (x + 3000 - 1) 3000) by (apply Z.quot_pos; lia). lia.
Qed.

Lemma tts_calc_set_tts_calc v e : tts_calc (set_tts_calc v e) = v.
Proof. destruct e; reflexivity. Qed.

Lemma tts_calc_set_stoptime_calc v e : tts_calc (set_stoptime_calc v e) = tts_calc e.
Proof. destruct e; reflexivity. Qed.

Lemma tts_calc_set_stopdepth_calc v e : tts_calc (set_stopdepth_calc v e) = tts_calc e.
Proof. destruct e; reflexivity. Qed.

Lemma ndl_calc_set_ndl_calc v e : ndl_calc (set_ndl_calc v e) = v.
Proof. destruct e; reflexivity. Qed.

Section Termination.

(** The diver moves up on an ascent, and a ceiling is never above the
    surface. *)
Hypothesis ascent_velocity_pos : forall depth_ avg_depth bottom_time,
  1 <= ascent_velocity depth_ avg_depth bottom_time.
Hypothesis deco_allowed_depth_nonneg : forall tolerance surface smooth,
  0 <= deco_allowed_depth tolerance surface smooth.

Lemma ceiling_at_nonneg ds depth_ : 0 <= fst (ceiling_at ds depth_).
Proof.
  unfold ceiling_at. destruct (tissue_tolerance_calc ds (depth_to_bar depth_)) as [t ds'].
  apply deco_allowed_depth_nonneg.
Qed.

Lemma ndl_loop_total fuel ds entry :
  (Z.to_nat (MAX_PROFILE_DECO - ndl_calc entry) < fuel)%nat ->
  exists r, ndl_loop fuel ds entry = Some r.
Proof.
  revert ds entry. induction fuel as [|fuel IH]; intros ds entry Hf; [lia|]. cbn [ndl_loop].
  destruct (Z.ltb_spec (ndl_calc entry) MAX_PROFILE_DECO) as [Hlt|Hge]; [|eexists; reflexivity].
  destruct (ceiling_at ds (depth entry)) as [c ds1].
  destruct (c <=? 0); [|eexists; reflexivity].
  apply IH. rewrite ndl_calc_set_ndl_calc. unfold time_stepsize. lia.
Qed.

Lemma ascent_loop_total fuel ds entry ascent_depth next_stop :
  (Z.to_nat ascent_depth < fuel)%nat -> 0 <= next_stop -> 0 <= tts_calc entry ->
  exists ds' entry' next_stop',
    ascent_loop fuel ds entry ascent_depth next_stop = Some (ds', entry', next_stop') /\
    0 <= tts_calc entry'.
Proof.
  revert ds entry ascent_depth next_stop.
  induction fuel as [|fuel IH]; intros ds entry ascent_depth next_stop Hf Hns Htts; [lia|].
  cbn [ascent_loop].
  destruct (Z.gtb_spec ascent_depth next_stop) as [Hgt|Hle];
    [|eexists _, _, _; split; [reflexivity|exact Htts]].
  pose proof (ceiling_at_nonneg
    (add_segment ds (depth_to_bar ascent_depth) mix ascent_s_per_step
       (o2pressure entry) divemode decosac) ascent_depth) as Hc.
  destruct (ceiling_at _ ascent_depth) as [c ds2]. cbn [fst] in Hc.
  apply IH.
  - unfold ascent_step, ascent_s_per_step.
    pose proof (ascent_velocity_pos ascent_depth (Z.quot (running_sum entry) (sec entry)) 0).
    lia.
  - apply ROUND_UP_nonneg, Hc.
  - rewrite tts_calc_set_tts_calc. unfold ascent_s_per_step. lia.
Qed.

Lemma travel_loop_total fuel ds entry ascent_depth next_stop :
  (Z.to_nat (ascent_depth - next_stop) < fuel)%nat ->
  exists ds' entry',
    travel_loop fuel ds entry ascent_depth next_stop = Some (ds', entry') /\
    tts_calc entry <= tts_calc entry'.
Proof.
  revert ds entry ascent_depth.
  induction fuel as [|fuel IH]; intros ds entry ascent_depth Hf; [lia|].
  cbn [travel_loop].
  destruct (Z.gtb_spec ascent_depth next_stop) as [Hgt|Hle];
    [|eexists _, _; split; [reflexivity|lia]].
  edestruct IH as (ds' & entry' & Heq & Htts); [|rewrite Heq; eexists _, _; split; [reflexivity|]].
  - unfold ascent_step, ascent_s_per_deco_step.
    pose proof (ascent_velocity_pos ascent_depth (Z.quot (running_sum entry) (sec entry)) 0).
    lia.
  - rewrite tts_calc_set_tts_calc in Htts. unfold ascent_s_per_deco_step in Htts. lia.
Qed.

Lemma tts_loop_total fuel travel ds entry ascent_depth next_stop :
  (Z.to_nat (MAX_PROFILE_DECO + 60 - tts_calc entry) < fuel)%nat ->
  (Z.to_nat deco_stepsize < travel)%nat ->
  ascent_depth - next_stop <= deco_stepsize ->
  exists r, tts_loop fuel travel ds entry ascent_depth next_stop = Some r.
Proof.
  revert ds entry ascent_depth next_stop.
  induction fuel as [|fuel IH]; intros ds entry ascent_depth next_stop Hf Ht Hd; [lia|].
  cbn [tts_loop].
  destruct (next_stop >=? 0); [|eexists; reflexivity].
  set (entry1 := if ascent_depth =? stopdepth_calc entry then _ else entry).
  assert (H1 : tts_calc entry1 = tts_calc entry).
  { unfold entry1. destruct (ascent_depth =? stopdepth_calc entry); [|reflexivity].
    apply tts_calc_set_stoptime_calc. }
  rewrite tts_calc_set_tts_calc, H1.
  destruct (Z.gtb_spec (tts_calc entry + time_stepsize) MAX_PROFILE_DECO) as [Hgt|Hle];
    [eexists; reflexivity|].
  destruct (ceiling_at _ ascent_depth) as [c ds2].
  unfold time_stepsize, MAX_PROFILE_DECO in *.
  destruct (c <=? next_stop).
  - destruct (travel_loop_total travel ds2
               (set_tts_calc (tts_calc entry + 60) entry1) ascent_depth next_stop)
      as (ds3 & entry3 & Heq & Htts); [lia|].
    rewrite Heq. rewrite tts_calc_set_tts_calc in Htts.
    apply IH; [lia|exact Ht|unfold deco_stepsize; lia].
  - apply IH; [rewrite tts_calc_set_tts_calc; lia|exact Ht|exact Hd].
Qed.

(** With enough fuel [calculate_ndl_tts] returns. *)
Lemma calculate_ndl_tts_total ds entry :
  exists fuel r, calculate_ndl_tts fuel ds entry = Some r.
Proof.
  exists (S (Z.to_nat (MAX_PROFILE_DECO - ndl_calc entry) + Z.to_nat (depth entry)
             + Z.to_nat 7260)).
  set (fuel := S _). unfold calculate_ndl_tts.
  pose proof (ceiling_at_nonneg ds (depth entry)) as Hc.
  destruct (ceiling_at ds (depth entry)) as [c ds0]. cbn [fst] in Hc.
  destruct (ROUND_UP c deco_stepsize =? 0).
  - destruct (depth (set_tts_calc 0 entry) <? 3000); [eexists; reflexivity|].
    apply ndl_loop_total.
    replace (ndl_calc (set_tts_calc 0 entry)) with (ndl_calc entry) by (destruct entry; reflexivity).
    unfold fuel. lia.
  - destruct (ascent_loop_total fuel ds0 (set_in_deco_calc true (set_tts_calc 0 entry))
                (depth entry) (ROUND_UP c deco_stepsize))
      as (ds1 & entry1 & ns1 & Heq & Htts).
    + unfold fuel. lia.
    + apply ROUND_UP_nonneg, Hc.
    + destruct entry; simpl; lia.
    + rewrite Heq. apply tts_loop_total.
      * rewrite tts_calc_set_stopdepth_calc, tts_calc_set_stoptime_calc.
        unfold fuel, MAX_PROFILE_DECO. lia.
      * unfold fuel, deco_stepsize. lia.
      * lia.
Qed.

End Termination.

(** C2. Whatever the nested simulation does to the tissue state, the
    state after the block (checkpoint with [cache_deco_state], run
    [calculate_ndl_tts], restore with [restore_deco_state]) is the state
    before it, field for field; the entry keeps what the simulation
    recorded.  The block does return when the diver moves up on every
    ascent step and no ceiling is above the surface.  And so the end of the
    turn of the entry loop, whether it runs the simulation, skips it or
    copies the fields of the entry before, leaves the state as it was. *)
Theorem checkpointed_ndl_tts_restores (vpmb : bool) (ds : deco_state) (entry : plot_data) :
  (forall fuel ds' entry',
     checkpointed_ndl_tts fuel vpmb ds entry = Some (ds', entry') ->
     ds' = ds /\ exists simulated, calculate_ndl_tts fuel ds entry = Some (simulated, entry')) /\
  ((forall depth_ avg_depth bottom_time, 1 <= ascent_velocity depth_ avg_depth bottom_time) ->
   (forall tolerance surface smooth, 0 <= deco_allowed_depth tolerance surface smooth) ->
   exists fuel entry', checkpointed_ndl_tts fuel vpmb ds entry = Some (ds, entry')) /\
  (forall fuel calcndltts print_mode in_planner first_iteration is_last last_time final_tts
          prev_entry ds' entry' last_time' final_tts',
     ndl_tts_stage fuel calcndltts print_mode vpmb in_planner first_iteration is_last
       last_time final_tts ds prev_entry entry = Some (ds', entry', last_time', final_tts') ->
     ds' = ds).
Proof.
  assert (Hblock : forall fuel ds' entry',
            checkpointed_ndl_tts fuel vpmb ds entry = Some (ds', entry') -> ds' = ds).
  { intros fuel ds' entry' Heq. unfold checkpointed_ndl_tts in Heq.
    destruct (calculate_ndl_tts fuel ds entry) as [[simulated e]|]; [|discriminate].
    injection Heq as <- <-. reflexivity. }
  split; [|split].
  - intros fuel ds' entry' Heq. split; [eapply Hblock, Heq|].
    unfold checkpointed_ndl_tts in Heq.
    destruct (calculate_ndl_tts fuel ds entry) as [[simulated e]|]; [|discriminate].
    injection Heq as <- <-. eexists. reflexivity.
  - intros Hvel Hdad.
    destruct (calculate_ndl_tts_total Hvel Hdad ds entry) as (fuel & [simulated e] & Heq).
    exists fuel, e. unfold checkpointed_ndl_tts. rewrite Heq. reflexivity.
  - intros fuel calcndltts print_mode in_planner first_iteration is_last last_time final_tts
           prev_entry ds' entry' last_time' final_tts' Heq.
    unfold ndl_tts_stage in Heq.
    destruct (_ || _); [|injection Heq as <- <- <- <-; reflexivity].
    destruct (_ && negb is_last); [injection Heq as <- <- <- <-; reflexivity|].
    destruct (checkpointed_ndl_tts fuel vpmb ds entry) as [[ds1 entry1]|] eqn:E; [|discriminate].
    injection Heq as <- <- <- <-. eapply Hblock, E.
Qed.

End NdlTts.

(** *** Examples *)

(** A toy deco model: a segment adds its duration to [deco_time], the
    tolerance is that time, reading it bumps the first-ceiling pressure,
    and the ceiling starts at 6 m and rises by 1 cm per second. *)
Definition toy_depth_to_bar (mm : Z) : Q := (inject_Z (mm + 10000) / 10000)%Q.

Definition toy_tolerance (ds : deco_state) (ambient : Q) : Q * deco_state :=
  (inject_Z (deco_time ds), set_first_ceiling_pressure (first_ceiling_pressure ds + 1) ds).

Definition toy_ceiling (tolerance surface : Q) (smooth : bool) : Z :=
  Z.max 0 (6000 - 10 * Qfloor tolerance).

Definition toy_segment (ds : deco_state) (ambient : Q) (mix : unit) (period setpoint : Z)
    (mode : divemode_t) (sac_ : Z) : deco_state :=
  set_deco_time (deco_time ds + period) ds.

Definition toy_velocity (depth_ avg_depth bottom_time : Z) : Z := 150.

Definition fresh_state : deco_state :=
  {| tissue_inertgas_saturation := []; buehlmann_inertgas_a := []; buehlmann_inertgas_b := [];
     tolerated_by_tissue := []; deco_time := 0; first_ceiling_pressure := 0;
     icd_warning := false; vpmb_gradients := [] |}.

Definition at_twenty_metres : plot_data :=
  set_running_sum 100 (set_sec 600 (set_depth 20000 (zero_entry 2))).

(** From 20 m: 94 s up to the stop at 6 m, four minutes there, 20 s up to
    3 m, five minutes there and 20 s to the surface. *)
Example toy_simulation :
  option_map (fun r => (deco_time (fst r), first_ceiling_pressure (fst r),
                        (tts_calc (snd r), stoptime_calc (snd r), stopdepth_calc (snd r),
                         in_deco_calc (snd r))))
    (calculate_ndl_tts unit toy_depth_to_bar toy_tolerance toy_ceiling toy_segment toy_velocity
       0 0 tt 1 OC (Z.to_nat 8000) fresh_state at_twenty_metres)
  = Some (674, 104, (674, 240, 6000, true)).
Proof. vm_compute. reflexivity. Qed.

Lemma checkpointed_ndl_tts_restores_witness :
  (exists ds' entry',
     checkpointed_ndl_tts unit toy_depth_to_bar toy_tolerance toy_ceiling toy_segment
       toy_velocity 0 0 tt 1 OC (Z.to_nat 8000) true fresh_state at_twenty_metres
     = Some (ds', entry') /\ ds' = fresh_state /\ tts_calc entry' = 674) /\
  (exists fuel entry',
     checkpointed_ndl_tts unit toy_depth_to_bar toy_tolerance toy_ceiling toy_segment
       toy_velocity 0 0 tt 1 OC fuel true fresh_state at_twenty_metres
     = Some (fresh_state, entry')).
Proof.
  pose proof (checkpointed_ndl_tts_restores unit toy_depth_to_bar toy_tolerance toy_ceiling
                toy_segment toy_velocity 0 0 tt 1 OC true fresh_state at_twenty_metres)
    as (Hrestore & Htotal & _).
  split.
  - set (r := checkpointed_ndl_tts unit toy_depth_to_bar toy_tolerance toy_ceiling toy_segment
                toy_velocity 0 0 tt 1 OC (Z.to_nat 8000) true fresh_state at_twenty_metres).
    assert (Hr : r = Some (fst (default (fresh_state, at_twenty_metres) r),
                           snd (default (fresh_state, at_twenty_metres) r)))
      by (vm_compute; reflexivity).
    eexists _, _. split; [exact Hr|]. split.
    + eapply Hrestore. exact Hr.
    + vm_compute. reflexivity.
  - apply Htotal.
    + intros. unfold toy_velocity. lia.
    + intros. unfold toy_ceiling. lia.
Defined.

(** *** The outer loop of [calculate_deco_information] *)

(** What one walk over the series hands to the end of the loop body. *)
Record walk_result : Type := mk_walk_result {
  walk_ds : deco_state;
  walk_entries : list plot_data;
  last_ndl_tts_calc_time : Z;
  final_tts : Z;
  walk_time_deep_ceiling : Z;
  time_clear_ceiling : Z
}.

(** The variables that live across the turns of the [while] loop. *)
Record solver : Type := mk_solver {
  ds : deco_state;
  series : list plot_data;
  prev_deco_time : Z;
  count_iteration : Z;
  first_iteration : bool;
  time_deep_ceiling : Z
}.

Section Solver.

(** [in_planner()] and [decoMode() == VPMB]. *)
Variable in_planner : bool.
Variable vpmb : bool.

(** Helpers of the dive data structures and of the deco model. *)
Variable depth_to_mbar : Z -> Z.
Variable vpmb_next_gradient : deco_state -> Z -> Q -> deco_state.
Variable surface_pressure : Q.

(** The walk [for (i = 1; i < pi->nr; i++)] over the series, from
    [first_iteration], [time_deep_ceiling], the state and the entries. *)
Variable inner_walk : bool -> Z -> deco_state -> list plot_data -> walk_result.

(** The condition of the [while] loop. *)
Definition continue (s : solver) : bool :=
  (Z.abs (prev_deco_time s - deco_time (ds s)) >=? 30) && (count_iteration s <? 10).

(** The body of the [while] loop. *)
Definition iterate (cache_data_initial : option deco_state) (s : solver) : solver :=
  let first_ceiling := 0 in
  let ds1 := if vpmb then set_first_ceiling_pressure (depth_to_mbar first_ceiling) (ds s)
             else ds s in
  let w := inner_walk (first_iteration s) (time_deep_ceiling s) ds1 (series s) in
  if vpmb && negb in_planner then
    let prev := deco_time (walk_ds w) in
    let ds2 :=
      if final_tts w >? 0
      then set_deco_time (last_ndl_tts_calc_time w + final_tts w - walk_time_deep_ceiling w)
             (walk_ds w)
      else if time_clear_ceiling w >? 0
      then set_deco_time
             (ROUND_UP (time_clear_ceiling w - walk_time_deep_ceiling w + 20) 60 + 20)
             (walk_ds w)
      else walk_ds w in
    let ds3 := vpmb_next_gradient ds2 (deco_time ds2) (surface_pressure / 1000)%Q in
    let this_deco_time := deco_time ds3 in
    let ds4 := restore_deco_state cache_data_initial ds3 true in
    {| ds := set_deco_time this_deco_time ds4;
       series := walk_entries w;
       prev_deco_time := prev;
       count_iteration := count_iteration s + 1;
       first_iteration := false;
       time_deep_ceiling := walk_time_deep_ceiling w |}
  else
    {| ds := set_deco_time 0 (walk_ds w);
       series := walk_entries w;
       prev_deco_time := 0;
       count_iteration := count_iteration s;
       first_iteration := first_iteration s;
       time_deep_ceiling := walk_time_deep_ceiling w |}.

(** The [while] loop: the final variables and the number of turns taken,
    [None] when [fuel] tests of the condition were not enough. *)
Fixpoint converge (fuel : nat) (cache_data_initial : option deco_state) (s : solver)
    : option (solver * nat) :=
  match fuel with
  | O => None
  | S fuel' =>
    if continue s then
      match converge fuel' cache_data_initial (iterate cache_data_initial s) with
      | Some (s', n) => Some (s', S n)
      | None => None
      end
    else Some (s, O)
  end.

(** The statements before the loop. *)
Definition initial_state (ds0 planner_ds : deco_state) : deco_state :=
  if in_planner
  then set_first_ceiling_pressure (first_ceiling_pressure planner_ds)
         (set_deco_time (deco_time planner_ds) ds0)
  else set_deco_time 0 ds0.

Definition initial_solver (ds0 planner_ds : deco_state) (es : list plot_data) : solver :=
  {| ds := initial_state ds0 planner_ds; series := es; prev_deco_time := 10000000;
     count_iteration := 0; first_iteration := true; time_deep_ceiling := 0 |}.

Definition initial_cache (ds0 planner_ds : deco_state) : option deco_state :=
  if vpmb then cache_deco_state (initial_state ds0 planner_ds) None else None.

(** [calculate_deco_information]: the solver variables at the end and the
    number of turns of the outer loop. *)
Definition calculate_deco_information (fuel : nat) (ds0 planner_ds : deco_state)
    (es : list plot_data) : option (solver * nat) :=
  converge fuel (initial_cache ds0 planner_ds) (initial_solver ds0 planner_ds es).

Lemma deco_time_set_deco_time v d : deco_time (set_deco_time v d) = v.
Proof. reflexivity. Qed.

Lemma continue_after_single_pass cache s :
  vpmb && negb in_planner = false -> continue (iterate cache s) = false.
Proof.
  intros Hmode. unfold iterate. rewrite Hmode. unfold continue.
  cbn [prev_deco_time ds]. rewrite deco_time_set_deco_time. reflexivity.
Qed.

Lemma count_iteration_iterate cache s :
  count_iteration s <= count_iteration (iterate cache s) /\
  (vpmb && negb in_planner = true -> count_iteration (iterate cache s) = count_iteration s + 1).
Proof.
  unfold iterate. destruct (vpmb && negb in_planner); cbn [count_iteration]; split; intros; lia.
Qed.

(** The loop ends within the turns that [count_iteration] leaves, it ends
    at the first state in which the condition fails, and the condition held
    before every turn taken. *)
Lemma converge_total fuel cache s :
  (Z.to_nat (10 - count_iteration s) < fuel)%nat ->
  exists s' n,
    converge fuel cache s = Some (s', n) /\
    (Z.of_nat n <= Z.max 0 (10 - count_iteration s)) /\
    s' = Nat.iter n (iterate cache) s /\
    continue s' = false /\
    (forall k, (k < n)%nat -> continue (Nat.iter k (iterate cache) s) = true) /\
    (vpmb && negb in_planner = false -> n = if continue s then 1%nat else 0%nat).
Proof.
  revert s. induction fuel as [|fuel IH]; intros s Hf; [lia|]. cbn [converge].
  destruct (continue s) eqn:Hc.
  - assert (Hcount : count_iteration s < 10).
    { unfold continue in Hc. apply andb_prop in Hc as [_ Hc]. lia. }
    destruct (count_iteration_iterate cache s) as (Hmono & Hinc).
    destruct (vpmb && negb in_planner) eqn:Hmode.
    + specialize (Hinc eq_refl).
      destruct (IH (iterate cache s) ltac:(lia)) as (s' & n & Heq & Hn & Hiter & Hstop & Htrue & _).
      rewrite Heq. exists s', (S n). split; [reflexivity|]. split; [lia|]. split.
      * rewrite Nat.iter_succ_r. exact Hiter.
      * split; [exact Hstop|]. split; [|discriminate].
        intros k Hk. destruct k as [|k]; [exact Hc|].
        rewrite Nat.iter_succ_r. apply Htrue. lia.
    + pose proof (continue_after_single_pass cache s Hmode) as Hstop.
      destruct fuel as [|fuel]; [lia|]. cbn [converge]. rewrite Hstop.
      exists (iterate cache s), 1%nat. split; [reflexivity|]. split; [lia|].
      split; [reflexivity|]. split; [exact Hstop|]. split; [|reflexivity].
      intros k Hk. destruct k as [|k]; [exact Hc|lia].
  - exists s, 0%nat. split; [reflexivity|]. split; [lia|]. split; [reflexivity|].
    split; [exact Hc|]. split; [intros k Hk; lia|reflexivity].
Qed.

(** C1.  With fuel for 11 tests of its condition the outer loop of
    [calculate_deco_information] ends, for every tissue state, planner
    state and series: it takes at most 10 turns, it takes a turn only when
    the deco-time estimate changed by at least 30 s and fewer than 10 turns
    were counted, and it ends at the first state where that fails.  For
    the Buehlmann model the body runs exactly once: [prev_deco_time] starts
    from 10000000 so that the loop is entered, and the turn sets both deco
    times to 0.  (Inside the planner the loop is entered with the deco time
    the planner hands over, which is taken to be a deco time, not within
    30 s of that start value; outside the planner it is 0.) *)
Theorem calculate_deco_information_terminates (ds0 planner_ds : deco_state)
    (es : list plot_data) :
  let cache := initial_cache ds0 planner_ds in
  let s0 := initial_solver ds0 planner_ds es in
  exists s' n,
    calculate_deco_information 11 ds0 planner_ds es = Some (s', n) /\
    (n <= 10)%nat /\
    s' = Nat.iter n (iterate cache) s0 /\
    (Z.abs (prev_deco_time s' - deco_time (ds s')) < 30 \/ 10 <= count_iteration s') /\
    (forall k, (k < n)%nat ->
       let s := Nat.iter k (iterate cache) s0 in
       30 <= Z.abs (prev_deco_time s - deco_time (ds s)) /\ count_iteration s < 10) /\
    (vpmb = false ->
     (in_planner = true -> 30 <= Z.abs (10000000 - deco_time planner_ds)) ->
     n = 1%nat).
Proof.
  intros cache s0.
  destruct (converge_total 11 cache s0 ltac:(simpl; lia))
    as (s' & n & Heq & Hn & Hiter & Hstop & Htrue & Honce).
  exists s', n. split; [exact Heq|]. split; [simpl in Hn; lia|]. split; [exact Hiter|].
  split; [|split].
  - unfold continue in Hstop. apply andb_false_iff in Hstop as [H|H]; [left|right]; lia.
  - intros k Hk s. specialize (Htrue k Hk). fold s in Htrue.
    unfold continue in Htrue. apply andb_prop in Htrue as [H1 H2]. lia.
  - intros Hmodel Hplanner. rewrite Honce by (rewrite Hmodel; reflexivity).
    assert (Hc : continue s0 = true).
    { unfold s0, continue, initial_solver, initial_state.
      cbn [prev_deco_time ds count_iteration].
      destruct in_planner.
      - specialize (Hplanner eq_refl). cbn [deco_time set_first_ceiling_pressure].
        rewrite deco_time_set_deco_time.
        apply andb_true_intro. split; [lia|reflexivity].
      - rewrite deco_time_set_deco_time. reflexivity. }
    rewrite Hc. reflexivity.
Qed.

End Solver.

(** *** Examples of the outer loop *)

(** A walk that leaves state and entries alone and reports a time to
    surface that swings between 200 s and 100 s. *)
Definition swinging_walk (first : bool) (deep : Z) (d : deco_state) (es : list plot_data)
    : walk_result :=
  {| walk_ds := d; walk_entries := es; last_ndl_tts_calc_time := 0;
     final_tts := if deco_time d <? 150 then 200 else 100;
     walk_time_deep_ceiling := 0; time_clear_ceiling := 0 |}.

(** A walk whose time to surface is 300 s whatever the state. *)
Definition settled_walk (first : bool) (deep : Z) (d : deco_state) (es : list plot_data)
    : walk_result :=
  {| walk_ds := d; walk_entries := es; last_ndl_tts_calc_time := 0;
     final_tts := 300; walk_time_deep_ceiling := 0; time_clear_ceiling := 0 |}.

Definition same_gradient (d : deco_state) (t : Z) (p : Q) : deco_state := d.

Definition turns (r : option (solver * nat)) : option (nat * Z * Z) :=
  option_map (fun x => (snd x, prev_deco_time (fst x), deco_time (ds (fst x)))) r.

(** VPM-B outside the planner: an estimate that keeps swinging by 100 s is
    cut off after 10 turns, a settled one takes two turns. *)
Example swinging_estimate_hits_the_cap :
  turns (calculate_deco_information false true (fun d => d) same_gradient 1 swinging_walk
           11 fresh_state fresh_state [])
  = Some (10%nat, 200, 100).
Proof. vm_compute. reflexivity. Qed.

Example settled_estimate_converges :
  turns (calculate_deco_information false true (fun d => d) same_gradient 1 settled_walk
           11 fresh_state fresh_state [])
  = Some (2%nat, 300, 300).
Proof. vm_compute. reflexivity. Qed.

(** The Buehlmann model outside the planner: one turn. *)
Example buehlmann_single_pass :
  turns (calculate_deco_information false false (fun d => d) same_gradient 1 swinging_walk
           11 fresh_state fresh_state [])
  = Some (1%nat, 0, 0).
Proof. vm_compute. reflexivity. Qed.

(** The start value of [prev_deco_time] lies far outside the deco times
    (10000000 s are 115 days): only a planner that handed over that very
    value would find the condition of the loop false at once. *)
Example start_value_is_no_deco_time :
  calculate_deco_information true false (fun d => d) same_gradient 1 swinging_walk
    11 fresh_state (set_deco_time 10000000 fresh_state) []
  = Some (initial_solver true fresh_state (set_deco_time 10000000 fresh_state) [], 0%nat).
Proof. vm_compute. reflexivity. Qed.

End Deco.

(** ** Series in time order *)

Module SeriesOrder.
Import Densify.

Lemma sorted_lookup (l : list Z) (a b : nat) (x y : Z) :
  nondecreasing l -> (a <= b)%nat -> l !! a = Some x -> l !! b = Some y -> x <= y.
Proof.
  revert a b. induction l as [|z l IH]; intros a b Hs Hab Ha Hb; [discriminate|].
  unfold nondecreasing in Hs. apply StronglySorted_inv in Hs as [Hs Hall].
  destruct a as [|a].
  - injection Ha as <-. destruct b as [|b]; [injection Hb as <-; lia|].
    rewrite Forall_forall in Hall. apply Hall.
    eapply list_elem_of_lookup_2. exact Hb.
  - destruct b as [|b]; [lia|]. apply (IH a b Hs); [lia|exact Ha|exact Hb].
Qed.

(** In a series in time order an entry at a later index is not earlier. *)
Lemma sorted_entries (es : list plot_data) (a b : nat) (x y : plot_data) :
  nondecreasing (secs es) -> (a <= b)%nat -> es !! a = Some x -> es !! b = Some y ->
  sec x <= sec y.
Proof.
  intros Hs Hab Ha Hb. apply (sorted_lookup (secs es) a b); [exact Hs|exact Hab| |].
  - unfold secs. change (map sec es) with (sec <$> es). rewrite list_lookup_fmap, Ha. reflexivity.
  - unfold secs. change (map sec es) with (sec <$> es). rewrite list_lookup_fmap, Hb. reflexivity.
Qed.

End SeriesOrder.

(** ** Laws of the event-name registry ([remember_event], [clear_events]) *)

Module RegistryLaws.
Import EventNames.

(** Two strings that are a prefix of each other are the same string. *)
Lemma prefix_antisym (a b : string) :
  String.prefix a b = true -> String.prefix b a = true -> a = b.
Proof.
  revert b. induction a as [|c a IH]; intros b Hab Hba.
  - destruct b; [reflexivity|discriminate].
  - destruct b as [|c' b]; [discriminate|]. simpl in Hab, Hba.
    destruct (ascii_dec c c') as [->|]; [|discriminate].
    destruct (ascii_dec c' c'); [|discriminate].
    f_equal. apply IH; assumption.
Qed.

Lemma remember_event_cases (realloc_ok : bool) (eventname : option string) (r r' : registry) :
  remember_event realloc_ok eventname r = Some r' ->
  r' = r \/
  exists name, eventname = Some name /\ name <> EmptyString /\
    already_known name (strlen name) (ev_namelist r) = false /\
    ev_namelist r' = ev_namelist r ++ [ {| ev_name := name; plot_ev := true |} ] /\
    evn_allocated r' =
      (if Nat.eqb (evn_used r) (evn_allocated r) then evn_allocated r + 10
       else evn_allocated r)%nat.
Proof.
  unfold remember_event. destruct eventname as [name|]; [|intros H; injection H as <-; tauto].
  destruct (Nat.eqb (strlen name) 0) eqn:El; [intros H; injection H as <-; tauto|].
  destruct (already_known name (strlen name) (ev_namelist r)) eqn:Ek;
    [intros H; injection H as <-; tauto|].
  intros H. right. exists name.
  assert (Hne : name <> EmptyString) by (intros ->; discriminate).
  destruct (Nat.eqb (evn_used r) (evn_allocated r)).
  - destruct realloc_ok; [|discriminate]. injection H as <-. simpl. tauto.
  - injection H as <-. simpl. tauto.
Qed.

(** X1. Whenever [remember_event] returns, the names registered before
    are still there, in the same order and with their flags, at the front of
    the list; a registry whose used slots fit the allocation ([evn_used <=
    evn_allocated]) still does so afterwards, so the slot
    [ev_namelist[evn_used]] that is written lies inside the array, and the
    allocation never shrinks. *)
Theorem remember_event_keeps_capacity (realloc_ok : bool) (eventname : option string)
    (r r' : registry) :
  (evn_used r <= evn_allocated r)%nat ->
  remember_event realloc_ok eventname r = Some r' ->
  (evn_used r' <= evn_allocated r')%nat /\
  (evn_allocated r <= evn_allocated r')%nat /\
  (exists added, ev_namelist r' = ev_namelist r ++ added /\ (List.length added <= 1)%nat) /\
  (evn_used r' <> evn_used r -> (evn_used r < evn_allocated r')%nat).
Proof.
  intros Hfit Heq.
  apply remember_event_cases in Heq as [->|(name & _ & _ & _ & Hlist & Halloc)].
  - repeat split; try lia. exists []. rewrite app_nil_r. split; [reflexivity|simpl; lia].
  - assert (Hused : evn_used r' = S (evn_used r)).
    { unfold evn_used. rewrite Hlist, List.length_app. simpl. lia. }
    destruct (Nat.eqb_spec (evn_used r) (evn_allocated r)) as [He|He];
      rewrite Halloc, ?Hused; repeat split; try lia;
      (eexists; split; [exact Hlist|simpl; lia]).
Qed.

(** X2. Remembering a name a second time changes nothing: once
    [remember_event] has returned for a name, a further call with the same
    name returns the registry as it is, whatever [realloc] would do. *)
Theorem remember_event_twice (ok1 ok2 : bool) (name : string) (r r1 : registry) :
  nul_free name = true ->
  remember_event ok1 (Some name) r = Some r1 ->
  remember_event ok2 (Some name) r1 = Some r1.
Proof.
  intros Hnf Heq.
  destruct (string_dec name EmptyString) as [->|Hne]; [reflexivity|].
  assert (Hp : prefix_of_registered name (ev_namelist r1)).
  { pose proof Heq as Hc.
    apply remember_event_cases in Hc as [->|(n & Hn & _ & _ & Hlist & _)].
    - unfold remember_event in Heq.
      destruct (Nat.eqb (strlen name) 0) eqn:El.
      { destruct name; [contradiction|discriminate]. }
      destruct (already_known name (strlen name) (ev_namelist r)) eqn:Ek.
      + apply already_known_iff; assumption.
      + exfalso.
        destruct (Nat.eqb (evn_used r) (evn_allocated r)); [destruct ok1|];
          try discriminate; injection Heq as Heq;
          apply (f_equal ev_namelist) in Heq; simpl in Heq;
          apply (f_equal (@List.length _)) in Heq; rewrite List.length_app in Heq;
          simpl in Heq; lia.
    - injection Hn as <-. rewrite Hlist. unfold prefix_of_registered.
      apply Exists_app. right. apply Exists_cons_hd. simpl. apply prefix_refl. }
  unfold remember_event.
  destruct (Nat.eqb (strlen name) 0); [reflexivity|].
  apply already_known_iff in Hp; [|exact Hnf]. rewrite Hp. reflexivity.
Qed.

Lemma remember_event_first (realloc_ok : bool) (name : string) (r : registry) :
  name <> EmptyString ->
  (0 < evn_allocated r)%nat ->
  remember_event realloc_ok (Some name) (clear_events r)
  = Some {| ev_namelist := [ {| ev_name := name; plot_ev := true |} ];
            evn_allocated := evn_allocated r |}.
Proof.
  intros Hne Hpos.
  unfold remember_event, clear_events. cbn [ev_namelist evn_allocated already_known].
  destruct name as [|c name]; [contradiction|]. cbn [strlen String.length Nat.eqb].
  unfold evn_used. cbn [ev_namelist List.length].
  destruct (Nat.eqb_spec 0 (evn_allocated r)) as [He|He]; [lia|]. reflexivity.
Qed.

(** X3. [clear_events] forgets every name and keeps the allocation: after
    it, any name that is not empty is registered again, as the only entry,
    and no call of [realloc] is needed when the array had been allocated
    before. *)
Theorem clear_events_then_remember (realloc_ok : bool) (name : string) (r : registry) :
  name <> EmptyString ->
  (0 < evn_allocated r)%nat ->
  evn_used (clear_events r) = 0%nat /\
  evn_allocated (clear_events r) = evn_allocated r /\
  remember_event realloc_ok (Some name) (clear_events r)
  = Some {| ev_namelist := [ {| ev_name := name; plot_ev := true |} ];
            evn_allocated := evn_allocated r |}.
Proof.
  intros Hne Hpos. split; [reflexivity|]. split; [reflexivity|].
  apply remember_event_first; assumption.
Qed.

(** X4. The registry depends on the order of the calls: when [a] is a
    proper prefix of [b], remembering [b] and then [a] keeps only [b],
    while remembering [a] and then [b] keeps both. *)
Theorem remember_event_order_matters (ok : bool) (a b : string) (r : registry) :
  nul_free a = true -> nul_free b = true ->
  a <> EmptyString -> String.prefix a b = true -> a <> b ->
  (2 <= evn_allocated r)%nat ->
  let start := clear_events r in
  (exists r1, remember_event ok (Some b) start = Some r1 /\
     remember_event ok (Some a) r1 = Some r1 /\
     map ev_name (ev_namelist r1) = [b]) /\
  (exists r1 r2, remember_event ok (Some a) start = Some r1 /\
     remember_event ok (Some b) r1 = Some r2 /\
     map ev_name (ev_namelist r2) = [a; b]).
Proof.
  intros Hna Hnb Hane Hpre Hneq Hcap start.
  assert (Hbne : b <> EmptyString).
  { intros ->. destruct a; [contradiction|discriminate]. }
  assert (Hpos : (0 < evn_allocated r)%nat) by lia.
  assert (Hlen : forall n, n <> EmptyString -> Nat.eqb (strlen n) 0 = false).
  { intros n Hn. destruct n; [contradiction|reflexivity]. }
  split.
  - eexists. split; [apply remember_event_first; assumption|]. split; [|reflexivity].
    unfold remember_event. rewrite (Hlen a Hane).
    assert (Hk : already_known a (strlen a) [ {| ev_name := b; plot_ev := true |} ] = true).
    { apply already_known_iff; [exact Hna|]. apply Exists_cons_hd. exact Hpre. }
    cbn [ev_namelist]. rewrite Hk. reflexivity.
  - eexists. eexists. split; [apply remember_event_first; assumption|].
    unfold remember_event. rewrite (Hlen b Hbne).
    assert (Hk : already_known b (strlen b) [ {| ev_name := a; plot_ev := true |} ] = false).
    { destruct (already_known b (strlen b) [ {| ev_name := a; plot_ev := true |} ]) eqn:E;
        [|reflexivity].
      exfalso. apply already_known_iff in E; [|exact Hnb].
      inversion E as [? ? Hp|? ? Hp]; subst; [|inversion Hp].
      simpl in Hp. apply Hneq. apply prefix_antisym; assumption. }
    cbn [ev_namelist evn_allocated]. rewrite Hk.
    unfold evn_used. cbn [ev_namelist List.length].
    destruct (Nat.eqb_spec 1 (evn_allocated r)) as [He|He]; [lia|].
    split; reflexivity.
Qed.

(** The laws at work on the names of two common events. *)
Lemma remember_event_keeps_capacity_witness :
  exists r',
    remember_event false (Some "bookmark"%string) one_name = Some r' /\
    (evn_used r' <= evn_allocated r')%nat /\ (evn_used one_name < evn_allocated r')%nat.
Proof.
  eexists. split; [reflexivity|].
  destruct (remember_event_keeps_capacity false (Some "bookmark"%string) one_name _
              ltac:(vm_compute; lia) eq_refl) as (H1 & _ & _ & H4).
  split; [exact H1|]. apply H4. vm_compute. lia.
Defined.

Lemma remember_event_twice_witness :
  exists r1,
    remember_event false (Some "bookmark"%string) one_name = Some r1 /\
    remember_event false (Some "bookmark"%string) r1 = Some r1.
Proof.
  eexists. split; [reflexivity|].
  apply (remember_event_twice false false "bookmark" one_name); reflexivity.
Defined.

Lemma clear_events_then_remember_witness :
  remember_event false (Some "ceiling"%string) (clear_events one_name)
  = Some {| ev_namelist := [ {| ev_name := "ceiling"; plot_ev := true |} ];
            evn_allocated := 10 |}.
Proof.
  apply (clear_events_then_remember false "ceiling" one_name); [discriminate|simpl; lia].
Defined.

Lemma remember_event_order_matters_witness :
  (exists r1, remember_event false (Some "gaschange"%string) (clear_events one_name) = Some r1 /\
     remember_event false (Some "gas"%string) r1 = Some r1 /\
     map ev_name (ev_namelist r1) = ["gaschange"%string]) /\
  (exists r1 r2, remember_event false (Some "gas"%string) (clear_events one_name) = Some r1 /\
     remember_event false (Some "gaschange"%string) r1 = Some r2 /\
     map ev_name (ev_namelist r2) = ["gas"%string; "gaschange"%string]).
Proof.
  apply (remember_event_order_matters false "gas" "gaschange" one_name);
    try reflexivity; try discriminate. simpl. lia.
Defined.

End RegistryLaws.

(** ** The plot scale ([get_maxtime], [get_maxdepth]) *)

Module Scale.
Import CInt.

(** [get_maxtime].  [zoomed_plot] is [prefs.zoomed_plot], [freediving] is
    [pi->dive_type == FREEDIVING], and [mobile] tells which branch of
    [#ifndef SUBSURFACE_MOBILE] was compiled. *)
Definition get_maxtime (mobile zoomed_plot freediving : bool) (maxtime : Z) : Z :=
  let seconds := maxtime in
  let DURATION_THR := if freediving then 60 else 600 in
  let CEILING := if freediving then 30 else 60 in
  if zoomed_plot then
    if seconds <? DURATION_THR then ROUND_UP (seconds + Z.quot seconds 4) CEILING
    else ROUND_UP (seconds + Z.quot DURATION_THR 4) CEILING
  else if mobile then seconds + Z.quot DURATION_THR 4
  else MAX (30 * 60) (ROUND_UP (seconds + Z.quot DURATION_THR 4) (CEILING * 5)).

(** Arithmetic on [unsigned]: values are taken modulo 2^32; the conversion
    back to [int] of a value above [INT_MAX] wraps. *)
Definition uint (z : Z) : Z := z mod 2 ^ 32.
Definition to_int (u : Z) : Z := if u <? 2 ^ 31 then u else u - 2 ^ 32.

(** [ROUND_UP(x, y)] on [unsigned] operands. *)
Definition ROUND_UP_unsigned (x y : Z) : Z :=
  uint (Z.quot (uint (uint (x + y) - 1)) y * y).

(** [get_maxdepth]: [maxdepth] is [pi->maxdepth], [maxpp] is [pi->maxpp]. *)
Definition get_maxdepth (zoomed_plot : bool) (maxdepth : Z) (maxpp : Q) : Z :=
  let mm := uint maxdepth in
  let md :=
    if zoomed_plot then to_int (ROUND_UP_unsigned (uint (mm + 3000)) 10000)
    else to_int (let a := 30000 in
                 let b := ROUND_UP_unsigned (uint (mm + 3000)) 10000 in
                 if a >? b then a else b) in
  md + Sac.lrint (maxpp * 9000)%Q.

Lemma ROUND_UP_bounds (x y : Z) :
  0 <= x -> 0 < y ->
  x <= ROUND_UP x y < x + y /\ (ROUND_UP x y) mod y = 0.
Proof.
  intros Hx Hy. unfold ROUND_UP.
  rewrite Z.quot_div_nonneg by lia.
  pose proof (Z.div_mod (x + y - 1) y ltac:(lia)) as Hdm.
  pose proof (Z.mod_pos_bound (x + y - 1) y Hy) as Hm.
  split; [nia|]. apply Z.mod_mul. lia.
Qed.

Lemma ROUND_UP_mono (x1 x2 y : Z) :
  0 <= x1 -> x1 <= x2 -> 0 < y -> ROUND_UP x1 y <= ROUND_UP x2 y.
Proof.
  intros H0 Hle Hy. unfold ROUND_UP.
  rewrite !Z.quot_div_nonneg by lia.
  apply Z.mul_le_mono_nonneg_r; [lia|]. apply Z.div_le_mono; lia.
Qed.

Lemma quot4_bounds (s : Z) : 0 <= s -> 0 <= Z.quot s 4 <= s.
Proof.
  intros Hs. rewrite Z.quot_div_nonneg by lia.
  pose proof (Z.div_mod s 4 ltac:(lia)). pose proof (Z.mod_pos_bound s 4 ltac:(lia)). lia.
Qed.

Lemma quot4_mono (s1 s2 : Z) : 0 <= s1 -> s1 <= s2 -> Z.quot s1 4 <= Z.quot s2 4.
Proof.
  intros H0 Hle. rewrite !Z.quot_div_nonneg by lia. apply Z.div_le_mono; lia.
Qed.

(** X5. The time axis always holds the dive: for a dive time that is not
    negative [get_maxtime] returns at least that time, in every
    configuration.  On the desktop without zoom the result is at least 30
    minutes, a whole number of 5-minute (freediving: 150 s) steps, and
    leaves at least 150 s (freediving: 15 s) to spare; with zoom it is the
    time plus the margin ([seconds / 4] below the threshold, a quarter of
    the threshold from there on) rounded up to the next minute (freediving:
    half minute). *)
Theorem get_maxtime_fits (mobile zoomed_plot freediving : bool) (seconds : Z) :
  0 <= seconds ->
  let thr := if freediving then 60 else 600 in
  let ceiling := if freediving then 30 else 60 in
  let r := get_maxtime mobile zoomed_plot freediving seconds in
  seconds <= r /\
  (zoomed_plot = false -> mobile = false ->
     1800 <= r /\ seconds + Z.quot thr 4 <= r /\ r mod (5 * ceiling) = 0 /\
     (r = 1800 \/ r < seconds + Z.quot thr 4 + 5 * ceiling)) /\
  (zoomed_plot = false -> mobile = true -> r = seconds + Z.quot thr 4) /\
  (zoomed_plot = true ->
     let margin := if seconds <? thr then Z.quot seconds 4 else Z.quot thr 4 in
     seconds + margin <= r < seconds + margin + ceiling /\ r mod ceiling = 0).
Proof.
  intros Hs thr ceiling r.
  pose proof (quot4_bounds seconds Hs) as Hq.
  assert (Hthr : Z.quot thr 4 = if freediving then 15 else 150)
    by (unfold thr; destruct freediving; reflexivity).
  assert (Hc : 0 < ceiling) by (unfold ceiling; destruct freediving; lia).
  unfold r, get_maxtime. fold thr. fold ceiling.
  destruct zoomed_plot.
  - destruct (Z.ltb_spec seconds thr) as [Hlt|Hge].
    + pose proof (ROUND_UP_bounds (seconds + Z.quot seconds 4) ceiling ltac:(lia) Hc)
        as (Hb & Hm).
      repeat split; try discriminate; try lia; exact Hm.
    + pose proof (ROUND_UP_bounds (seconds + Z.quot thr 4) ceiling
                    ltac:(destruct freediving; lia) Hc) as (Hb & Hm).
      repeat split; try discriminate; try (destruct freediving; lia); exact Hm.
  - destruct mobile.
    + repeat split; try discriminate; destruct freediving; lia.
    + pose proof (ROUND_UP_bounds (seconds + Z.quot thr 4) (ceiling * 5)
                    ltac:(destruct freediving; lia) ltac:(lia)) as (Hb & Hm).
      rewrite MAX_spec. replace (30 * 60) with 1800 by reflexivity.
      replace (5 * ceiling) with (ceiling * 5) by lia.
      repeat split; try discriminate; try (destruct freediving; lia).
      destruct (Z.max_spec 1800 (ROUND_UP (seconds + Z.quot thr 4) (ceiling * 5)))
        as [(Hlt & ->)|(Hle & ->)]; [exact Hm|].
      unfold ceiling. destruct freediving; reflexivity.
Qed.

(** X6. A longer dive never gets a shorter time axis: [get_maxtime] is
    monotone in the dive time (for times that are not negative), also across
    the threshold below which the zoomed margin is a quarter of the time. *)
Theorem get_maxtime_monotone (mobile zoomed_plot freediving : bool) (s1 s2 : Z) :
  0 <= s1 -> s1 <= s2 ->
  get_maxtime mobile zoomed_plot freediving s1 <= get_maxtime mobile zoomed_plot freediving s2.
Proof.
  intros H0 Hle. unfold get_maxtime.
  pose proof (quot4_bounds s1 H0) as Hq1.
  pose proof (quot4_mono s1 s2 H0 Hle) as Hq.
  assert (H60 : Z.quot 60 4 = 15) by reflexivity.
  assert (H600 : Z.quot 600 4 = 150) by reflexivity.
  assert (Hthr : forall thr, s1 < thr -> Z.quot s1 4 <= Z.quot thr 4).
  { intros thr Hlt. apply quot4_mono; lia. }
  destruct zoomed_plot; [|destruct mobile].
  - destruct freediving.
    + specialize (Hthr 60).
      destruct (Z.ltb_spec s1 60) as [H1|H1]; destruct (Z.ltb_spec s2 60) as [H2|H2];
        try lia; apply ROUND_UP_mono; lia.
    + specialize (Hthr 600).
      destruct (Z.ltb_spec s1 600) as [H1|H1]; destruct (Z.ltb_spec s2 600) as [H2|H2];
        try lia; apply ROUND_UP_mono; lia.
  - lia.
  - rewrite !MAX_spec. destruct freediving.
    + pose proof (ROUND_UP_mono (s1 + Z.quot 60 4) (s2 + Z.quot 60 4) (30 * 5)
                    ltac:(lia) ltac:(lia) ltac:(lia)). lia.
    + pose proof (ROUND_UP_mono (s1 + Z.quot 600 4) (s2 + Z.quot 600 4) (60 * 5)
                    ltac:(lia) ltac:(lia) ltac:(lia)). lia.
Qed.

(** X7. The depth axis always holds the dive: for a maximum depth
    between 0 and 2000000000 mm the part of [get_maxdepth] before the
    partial-pressure margin is a whole number of 10 m steps that leaves at
    least 3 m to spare, the least such step with zoom and at least 30 m
    without; the margin added for the partial-pressure graphs is
    [lrint(maxpp * 9000)], which is not negative when [maxpp] is not. *)
Theorem get_maxdepth_fits (zoomed_plot : bool) (maxdepth : Z) (maxpp : Q) :
  0 <= maxdepth <= 2000000000 ->
  let base := get_maxdepth zoomed_plot maxdepth maxpp - Sac.lrint (maxpp * 9000)%Q in
  base mod 10000 = 0 /\
  maxdepth + 3000 <= base /\
  (zoomed_plot = true -> base < maxdepth + 13000) /\
  (zoomed_plot = false -> 30000 <= base /\ (base = 30000 \/ base < maxdepth + 13000)) /\
  ((0 <= maxpp)%Q -> maxdepth + 3000 <= get_maxdepth zoomed_plot maxdepth maxpp).
Proof.
  intros Hd base.
  assert (Hu : forall z, 0 <= z < 2 ^ 32 -> uint z = z).
  { intros z Hz. unfold uint. apply Z.mod_small. exact Hz. }
  assert (H32 : 2 ^ 32 = 4294967296) by reflexivity.
  assert (H31 : 2 ^ 31 = 2147483648) by reflexivity.
  pose proof (ROUND_UP_bounds (maxdepth + 3000) 10000 ltac:(lia) ltac:(lia)) as (Hb & Hm).
  assert (Hr : ROUND_UP_unsigned (uint (uint maxdepth + 3000)) 10000
               = ROUND_UP (maxdepth + 3000) 10000).
  { unfold ROUND_UP_unsigned. rewrite (Hu maxdepth) by lia.
    rewrite (Hu (maxdepth + 3000)) by lia.
    rewrite (Hu (maxdepth + 3000 + 10000)) by lia.
    rewrite (Hu (maxdepth + 3000 + 10000 - 1)) by lia.
    apply Hu. lia. }
  assert (Hi : forall z, 0 <= z < 2 ^ 31 -> to_int z = z).
  { intros z Hz. unfold to_int. destruct (Z.ltb_spec z (2 ^ 31)); lia. }
  assert (Hbase : base = if zoomed_plot then ROUND_UP (maxdepth + 3000) 10000
                         else Z.max 30000 (ROUND_UP (maxdepth + 3000) 10000)).
  { unfold base, get_maxdepth. cbv zeta. rewrite Hr.
    destruct zoomed_plot.
    - rewrite Hi by lia. lia.
    - fold (MAX 30000 (ROUND_UP (maxdepth + 3000) 10000)). rewrite MAX_spec.
      rewrite Hi by lia. lia. }
  assert (Hpp : (0 <= maxpp)%Q -> 0 <= Sac.lrint (maxpp * 9000)%Q).
  { intros Hq. unfold Sac.lrint. apply round_div_nonneg; [|lia].
    destruct maxpp as [n d]. unfold Qle in Hq. simpl in Hq. simpl. lia. }
  split; [|split; [|split; [|split]]].
  - rewrite Hbase. destruct zoomed_plot; [exact Hm|].
    destruct (Z.max_spec 30000 (ROUND_UP (maxdepth + 3000) 10000)) as [(_ & ->)|(_ & ->)];
      [exact Hm|reflexivity].
  - rewrite Hbase. destruct zoomed_plot; lia.
  - intros ->. rewrite Hbase. lia.
  - intros ->. rewrite Hbase. lia.
  - intros Hq. specialize (Hpp Hq).
    assert (maxdepth + 3000 <= base) by (rewrite Hbase; destruct zoomed_plot; lia).
    unfold base in *. lia.
Qed.

Lemma get_maxtime_fits_witness :
  get_maxtime false false false 2000 = 2400 /\
  get_maxtime false true false 500 = 660 /\
  2000 <= get_maxtime false false false 2000.
Proof.
  split; [reflexivity|]. split; [reflexivity|].
  destruct (get_maxtime_fits false false false 2000 ltac:(lia)) as (H & _). exact H.
Defined.

Lemma get_maxtime_monotone_witness :
  get_maxtime false true false 599 <= get_maxtime false true false 600.
Proof. apply (get_maxtime_monotone false true false 599 600); lia. Defined.

Lemma get_maxdepth_fits_witness :
  get_maxdepth false 41500 (16 # 10) = 50000 + 14400 /\
  41500 + 3000 <= get_maxdepth false 41500 (16 # 10).
Proof.
  split; [vm_compute; reflexivity|].
  destruct (get_maxdepth_fits false 41500 (16 # 10) ltac:(lia)) as (_ & _ & _ & _ & H).
  apply H. unfold Qle. simpl. lia.
Defined.

End Scale.

(** ** Looking up events by name ([get_next_event]) *)

Module EventSearch.
Import GasPressure.

(** The events that a loop of the form
    [for (ev = get_next_event(evs, name); ev; ev = get_next_event(ev->next, name))]
    visits, [fuel] bounding the number of turns. *)
Fixpoint visited (fuel : nat) (evs : list event.t) (name : option string) : list event.t :=
  match fuel with
  | O => []
  | S fuel' =>
    match get_next_event evs name with
    | [] => []
    | e :: rest => e :: visited fuel' rest name
    end
  end.

Definition named (n : string) (e : event.t) : bool := String.eqb (event.name e) n.

Lemma get_next_event_some (evs : list event.t) (n : string) :
  n <> EmptyString ->
  get_next_event evs (Some n) =
  match evs with
  | [] => []
  | e :: evs' => if named n e then evs else get_next_event evs' (Some n)
  end.
Proof.
  intros Hn. destruct evs as [|e evs]; simpl.
  - destruct (String.eqb n EmptyString); reflexivity.
  - destruct (String.eqb_spec n EmptyString) as [->|_]; [contradiction|]. reflexivity.
Qed.

(** X8. [get_next_event] returns the part of the list that starts at the
    first event with the given name: the events before it have other
    names, and the result is empty (the null pointer) exactly when no event
    has the name.  For a null or empty name the result is the null pointer
    whatever the list. *)
Theorem get_next_event_first (evs : list event.t) (n : string) :
  get_next_event evs None = [] /\
  get_next_event evs (Some EmptyString) = [] /\
  (n <> EmptyString ->
   exists skipped,
     evs = skipped ++ get_next_event evs (Some n) /\
     Forall (fun e => event.name e <> n) skipped /\
     match get_next_event evs (Some n) with
     | [] => Forall (fun e => event.name e <> n) evs
     | e :: _ => event.name e = n
     end).
Proof.
  split; [destruct evs; reflexivity|]. split; [destruct evs; reflexivity|].
  intros Hn. induction evs as [|e evs IH].
  - exists []. rewrite get_next_event_some by exact Hn. repeat split; constructor.
  - rewrite get_next_event_some by exact Hn. unfold named.
    destruct (String.eqb_spec (event.name e) n) as [He|He].
    + exists []. repeat split; [constructor|exact He].
    + destruct IH as (skipped & Heq & Hsk & Hres).
      exists (e :: skipped). split; [simpl; f_equal; exact Heq|].
      split; [constructor; assumption|].
      destruct (get_next_event evs (Some n)); [constructor; assumption|exact Hres].
Qed.

Lemma visited_filter (fuel : nat) (evs : list event.t) (n : string) :
  n <> EmptyString -> (List.length evs < fuel)%nat ->
  visited fuel evs (Some n) = List.filter (named n) evs.
Proof.
  intros Hn. revert fuel. induction evs as [|e evs IH]; intros fuel Hf.
  - destruct fuel; [simpl in Hf; lia|]. simpl.
    destruct (String.eqb n EmptyString); reflexivity.
  - destruct fuel as [|fuel]; [simpl in Hf; lia|]. simpl in Hf.
    cbn [visited]. rewrite get_next_event_some by exact Hn. cbn [List.filter].
    destruct (named n e) eqn:E.
    + f_equal. apply IH. lia.
    + specialize (IH (S fuel) ltac:(lia)). cbn [visited] in IH. exact IH.
Qed.

(** X9. A loop that starts with [get_next_event(events, name)] and goes on
    with [get_next_event(ev->next, name)] visits exactly the events with
    that name, each once and in list order, and it ends: one turn more than
    there are events is always enough. *)
Theorem get_next_event_visits (evs : list event.t) (n : string) :
  n <> EmptyString ->
  forall fuel, (List.length evs < fuel)%nat ->
    visited fuel evs (Some n) = List.filter (named n) evs.
Proof. intros Hn fuel Hf. apply visited_filter; assumption. Qed.

Definition bookmark_then_gaschange : list event.t :=
  [ {| event.time := 5; event.name := "bookmark"; event.value := 0; event.gas_index := -1 |};
    {| event.time := 9; event.name := "gaschange"; event.value := 0; event.gas_index := 1 |};
    {| event.time := 12; event.name := "bookmark"; event.value := 0; event.gas_index := -1 |} ].

Lemma get_next_event_first_witness :
  exists skipped,
    bookmark_then_gaschange = skipped ++ get_next_event bookmark_then_gaschange (Some "gaschange"%string) /\
    List.length skipped = 1%nat.
Proof.
  destruct (get_next_event_first bookmark_then_gaschange "gaschange") as (_ & _ & H).
  destruct (H ltac:(discriminate)) as (skipped & Heq & _ & _).
  exists skipped. split; [exact Heq|].
  apply (f_equal (@List.length _)) in Heq. rewrite List.length_app in Heq.
  simpl in Heq. lia.
Defined.

Lemma get_next_event_visits_witness :
  map event.time (visited 4 bookmark_then_gaschange (Some "bookmark"%string)) = [5; 12].
Proof.
  rewrite (get_next_event_visits bookmark_then_gaschange "bookmark"); [reflexivity|discriminate|].
  simpl. lia.
Defined.

End EventSearch.

(** ** Setpoint changes ([set_setpoint], [check_setpoint_events]) *)

Module Setpoints.
Import CInt Densify GasPressure.

(** The body of the [while] loop of [set_setpoint], run over the entries
    from index [i] on: the entries rewritten and the number of turns. *)
Fixpoint set_setpoint_run (todo : list plot_data) (setpoint end_ : Z) : list plot_data * nat :=
  match todo with
  | [] => ([], O)
  | entry :: todo' =>
    if sec entry >? end_ then (todo, O)
    else
      let '(rest, n) := set_setpoint_run todo' setpoint end_ in
      (set_o2pressure setpoint entry :: rest, S n)
  end.

(** [set_setpoint]: the entries after the call and the index returned. *)
Definition set_setpoint (es : list plot_data) (i : nat) (setpoint end_ : Z)
    : list plot_data * nat :=
  let '(changed, n) := set_setpoint_run (drop i es) setpoint end_ in
  (take i es ++ changed, (i + n)%nat).

(** The variables of [check_setpoint_events] that change from one
    "SP change" event to the next, with [dc->divemode]. *)
Record sp_state : Type := mk_sp_state {
  sp_entries : list plot_data;
  sp_i : nat;
  sp_setpoint : Z;
  sp_divemode : divemode_t
}.

(** The body of the [do ... while (ev)] loop. *)
Definition setpoint_step (st : sp_state) (e : event.t) : sp_state :=
  let '(es, i) := set_setpoint (sp_entries st) (sp_i st) (sp_setpoint st) (event.time e) in
  {| sp_entries := es; sp_i := i; sp_setpoint := event.value e;
     sp_divemode := if event.value e =? 0 then sp_divemode st else CCR |}.

(** The loop over the "SP change" events. *)
Fixpoint setpoint_loop (evs : list event.t) (st : sp_state) : sp_state :=
  match evs with
  | [] => st
  | e :: evs' =>
    if String.eqb (event.name e) "SP change"
    then setpoint_loop evs' (setpoint_step st e)
    else setpoint_loop evs' st
  end.

Definition set_divemode (m : divemode_t) (dc : divecomputer.t) : divecomputer.t :=
  {| divecomputer.sample := divecomputer.sample dc;
     divecomputer.events := divecomputer.events dc;
     divecomputer.divemode := m;
     divecomputer.no_o2sensors := divecomputer.no_o2sensors dc |}.

(** [check_setpoint_events]: the dive computer and the entries after the
    call. *)
Definition check_setpoint_events (dc : divecomputer.t) (es : list plot_data)
    : divecomputer.t * list plot_data :=
  match get_next_event (divecomputer.events dc) (Some "SP change"%string) with
  | [] => (dc, es)
  | _ :: _ =>
    let st := setpoint_loop (divecomputer.events dc)
                {| sp_entries := es; sp_i := O; sp_setpoint := 0;
                   sp_divemode := divecomputer.divemode dc |} in
    (set_divemode (sp_divemode st) dc,
     fst (set_setpoint (sp_entries st) (sp_i st) (sp_setpoint st) INT_MAX))
  end.

(** The loop written with [get_next_event], as in the source. *)
Lemma setpoint_loop_next (evs : list event.t) (st : sp_state) :
  setpoint_loop evs st =
  match get_next_event evs (Some "SP change"%string) with
  | [] => st
  | e :: evs' => setpoint_loop evs' (setpoint_step st e)
  end.
Proof.
  induction evs as [|e evs IH]; [reflexivity|].
  cbn [setpoint_loop get_next_event]. cbn [String.eqb Ascii.eqb].
  destruct (String.eqb (event.name e) "SP change"); [reflexivity|]. exact IH.
Qed.

(** The "SP change" events of a dive computer. *)
Definition sp_changes (evs : list event.t) : list event.t :=
  List.filter (fun e => String.eqb (event.name e) "SP change") evs.

(** The setpoint in force at time [s]: the value of the last "SP change"
    event before [s], 0 when there is none. *)
Definition setpoint_before (sp : list event.t) (s : Z) : Z :=
  default 0 (event.value <$> last (List.filter (fun e => event.time e <? s) sp)).

(** Two entries that differ at most in [o2pressure]. *)
Definition same_but_o2pressure (e e' : plot_data) : Prop :=
  set_o2pressure 0 e = set_o2pressure 0 e'.

Lemma same_but_o2pressure_refl e : same_but_o2pressure e e.
Proof. reflexivity. Qed.

Lemma same_but_o2pressure_set v e : same_but_o2pressure e (set_o2pressure v e).
Proof. destruct e; reflexivity. Qed.

Lemma o2pressure_set v e : o2pressure (set_o2pressure v e) = v.
Proof. destruct e; reflexivity. Qed.

Lemma sec_set_o2pressure v e : sec (set_o2pressure v e) = sec e.
Proof. destruct e; reflexivity. Qed.

Lemma same_but_o2pressure_trans e1 e2 e3 :
  same_but_o2pressure e1 e2 -> same_but_o2pressure e2 e3 -> same_but_o2pressure e1 e3.
Proof. unfold same_but_o2pressure. congruence. Qed.

Lemma same_but_o2pressure_sec e e' : same_but_o2pressure e e' -> sec e = sec e'.
Proof.
  unfold same_but_o2pressure. intros H. apply (f_equal sec) in H.
  rewrite !sec_set_o2pressure in H. exact H.
Qed.

(** *** What [set_setpoint] does *)

Lemma set_setpoint_run_frame todo setpoint end_ :
  Forall2 same_but_o2pressure todo (fst (set_setpoint_run todo setpoint end_)).
Proof.
  induction todo as [|e todo IH]; simpl; [constructor|].
  destruct (sec e >? end_).
  - simpl. constructor; [reflexivity|]. apply Forall2_same_length_lookup.
    split; [reflexivity|]. intros i x y Hx Hy. rewrite Hx in Hy. injection Hy as <-.
    reflexivity.
  - destruct (set_setpoint_run todo setpoint end_) as [rest n]. simpl in *.
    constructor; [apply same_but_o2pressure_set|exact IH].
Qed.

Lemma Forall2_same_refl (es : list plot_data) : Forall2 same_but_o2pressure es es.
Proof. induction es; constructor; [reflexivity|assumption]. Qed.

Lemma Forall2_same_trans (l1 l2 l3 : list plot_data) :
  Forall2 same_but_o2pressure l1 l2 -> Forall2 same_but_o2pressure l2 l3 ->
  Forall2 same_but_o2pressure l1 l3.
Proof.
  intros H12. revert l3. induction H12 as [|a b l1 l2 Hab _ IH]; intros l3 H23.
  - inversion H23. constructor.
  - inversion H23 as [|? c ? l3' Hbc H23']; subst. constructor.
    + eapply same_but_o2pressure_trans; eassumption.
    + apply IH, H23'.
Qed.

Lemma Forall2_same_secs (l1 l2 : list plot_data) :
  Forall2 same_but_o2pressure l1 l2 -> secs l1 = secs l2.
Proof.
  induction 1 as [|a b l1 l2 Hab _ IH]; [reflexivity|].
  simpl. f_equal; [apply same_but_o2pressure_sec, Hab|exact IH].
Qed.

Lemma set_setpoint_frame es i setpoint end_ :
  Forall2 same_but_o2pressure es (fst (set_setpoint es i setpoint end_)).
Proof.
  unfold set_setpoint.
  pose proof (set_setpoint_run_frame (drop i es) setpoint end_) as H.
  destruct (set_setpoint_run (drop i es) setpoint end_) as [changed n]. simpl in *.
  rewrite <- (take_drop i es) at 1.
  apply Forall2_app; [apply Forall2_same_refl|exact H].
Qed.

Lemma setpoint_step_frame st e :
  Forall2 same_but_o2pressure (sp_entries st) (sp_entries (setpoint_step st e)).
Proof.
  unfold setpoint_step.
  pose proof (set_setpoint_frame (sp_entries st) (sp_i st) (sp_setpoint st) (event.time e)) as H.
  destruct (set_setpoint _ _ _ _) as [es i]. exact H.
Qed.

Lemma setpoint_loop_frame evs st :
  Forall2 same_but_o2pressure (sp_entries st) (sp_entries (setpoint_loop evs st)).
Proof.
  revert st. induction evs as [|e evs IH]; intros st; simpl; [apply Forall2_same_refl|].
  destruct (String.eqb (event.name e) "SP change"); [|apply IH].
  eapply Forall2_same_trans; [apply setpoint_step_frame|apply IH].
Qed.

Lemma setpoint_loop_divemode evs st :
  sp_divemode (setpoint_loop evs st) =
  if existsb (fun e => negb (event.value e =? 0)) (sp_changes evs) then CCR
  else sp_divemode st.
Proof.
  revert st. induction evs as [|e evs IH]; intros st; simpl; [reflexivity|].
  unfold sp_changes in *. cbn [List.filter].
  destruct (String.eqb (event.name e) "SP change"); [|apply IH].
  rewrite IH. cbn [existsb]. unfold setpoint_step.
  destruct (set_setpoint _ _ _ _) as [es i]. cbn [sp_divemode].
  destruct (event.value e =? 0); simpl; [reflexivity|].
  destruct (existsb _ _); reflexivity.
Qed.

Lemma sp_changes_none evs :
  get_next_event evs (Some "SP change"%string) = [] <-> sp_changes evs = [].
Proof.
  unfold sp_changes. induction evs as [|e evs IH]; [simpl; tauto|].
  cbn [get_next_event List.filter]. cbn [String.eqb Ascii.eqb].
  destruct (String.eqb (event.name e) "SP change"); [|exact IH].
  split; discriminate.
Qed.

Lemma check_setpoint_events_same (dc : divecomputer.t) (es : list plot_data) :
  Forall2 same_but_o2pressure es (snd (check_setpoint_events dc es)).
Proof.
  unfold check_setpoint_events.
  destruct (get_next_event (divecomputer.events dc) (Some "SP change"%string)) as [|e0 rest].
  - apply Forall2_same_refl.
  - cbn [snd]. eapply Forall2_same_trans; [|apply set_setpoint_frame].
    apply (setpoint_loop_frame (divecomputer.events dc)
             {| sp_entries := es; sp_i := O; sp_setpoint := 0;
                sp_divemode := divecomputer.divemode dc |}).
Qed.

(** X10. [check_setpoint_events] touches nothing but [o2pressure] and the
    dive mode: the series keeps its length, and every entry keeps its
    time, depth and all other fields.  Without an "SP change" event the
    series and the dive computer are returned as they are.  The dive mode
    becomes CCR exactly when some "SP change" event has a value that is not
    zero, and is kept otherwise. *)
Theorem check_setpoint_events_frame (dc : divecomputer.t) (es : list plot_data) :
  let '(dc', es') := check_setpoint_events dc es in
  Forall2 same_but_o2pressure es es' /\
  List.length es' = List.length es /\
  secs es' = secs es /\
  divecomputer.sample dc' = divecomputer.sample dc /\
  divecomputer.events dc' = divecomputer.events dc /\
  divecomputer.divemode dc' =
    (if existsb (fun e => negb (event.value e =? 0)) (sp_changes (divecomputer.events dc))
     then CCR else divecomputer.divemode dc) /\
  (sp_changes (divecomputer.events dc) = [] -> dc' = dc /\ es' = es).
Proof.
  destruct (check_setpoint_events dc es) as [dc' es'] eqn:E.
  unfold check_setpoint_events in E.
  destruct (get_next_event (divecomputer.events dc) (Some "SP change"%string)) as [|e0 rest] eqn:En.
  - injection E as <- <-. apply sp_changes_none in En. rewrite En. simpl.
    repeat split; try reflexivity. apply Forall2_same_refl.
  - injection E as <- <-.
    set (st := setpoint_loop _ _).
    assert (Hf : Forall2 same_but_o2pressure es
                   (fst (set_setpoint (sp_entries st) (sp_i st) (sp_setpoint st) INT_MAX))).
    { eapply Forall2_same_trans; [|apply set_setpoint_frame].
      apply (setpoint_loop_frame (divecomputer.events dc)
               {| sp_entries := es; sp_i := O; sp_setpoint := 0;
                  sp_divemode := divecomputer.divemode dc |}). }
    split; [exact Hf|]. split; [symmetry; eapply Forall2_length; exact Hf|].
    split.
    { symmetry. apply Forall2_same_secs, Hf. }
    split; [reflexivity|]. split; [reflexivity|]. split.
    + cbn [set_divemode divecomputer.divemode]. unfold st.
      rewrite setpoint_loop_divemode. reflexivity.
    + intros Hnone. apply sp_changes_none in Hnone. rewrite Hnone in En. discriminate.
Qed.

(** *** The setpoint each entry gets *)

(** The setpoint that the loop has in hand when it reaches time [s],
    starting from [cur]: events are taken while they are before [s]. *)
Fixpoint active (sp : list event.t) (cur : Z) (s : Z) : Z :=
  match sp with
  | [] => cur
  | e :: sp' => if event.time e <? s then active sp' (event.value e) s else cur
  end.

Lemma setpoint_loop_fold evs st :
  setpoint_loop evs st = fold_left setpoint_step (sp_changes evs) st.
Proof.
  revert st. unfold sp_changes. induction evs as [|e evs IH]; intros st; simpl; [reflexivity|].
  destruct (String.eqb (event.name e) "SP change"); simpl; apply IH.
Qed.

Lemma Forall_secs (P : Z -> Prop) (l : list plot_data) :
  Forall P (secs l) -> Forall (fun e => P (sec e)) l.
Proof.
  induction l as [|e l IH]; intros H; [constructor|].
  simpl in H. apply Forall_cons in H as [He H]. constructor; [exact He|apply IH, H].
Qed.

Lemma Forall_times (P : Z -> Prop) (l : list event.t) :
  Forall P (times l) -> Forall (fun e => P (event.time e)) l.
Proof.
  induction l as [|e l IH]; intros H; [constructor|].
  simpl in H. apply Forall_cons in H as [He H]. constructor; [exact He|apply IH, H].
Qed.

Lemma set_setpoint_run_sorted todo setpoint end_ :
  nondecreasing (secs todo) ->
  exists reached rest,
    todo = reached ++ rest /\
    set_setpoint_run todo setpoint end_
    = (map (set_o2pressure setpoint) reached ++ rest, List.length reached) /\
    Forall (fun e => sec e <= end_) reached /\
    Forall (fun e => end_ < sec e) rest.
Proof.
  induction todo as [|e todo IH]; intros Hs.
  - exists [], []. repeat split; constructor.
  - simpl. destruct (Z.gtb_spec (sec e) end_) as [Hgt|Hle].
    + exists [], (e :: todo). repeat split; [constructor|].
      unfold nondecreasing in Hs. simpl in Hs. apply StronglySorted_inv in Hs as [_ Hall].
      constructor; [lia|]. apply Forall_secs in Hall.
      eapply Forall_impl; [exact Hall|]. simpl. intros x Hx. lia.
    + destruct IH as (reached & rest & -> & Hrun & Hr & Hrest).
      { unfold nondecreasing in *. simpl in Hs. apply StronglySorted_inv in Hs as [Hs _].
        exact Hs. }
      rewrite Hrun. exists (e :: reached), rest.
      repeat split; [constructor; assumption|exact Hrest].
Qed.

Lemma nondecreasing_app_r (l1 l2 : list Z) : nondecreasing (l1 ++ l2) -> nondecreasing l2.
Proof. unfold nondecreasing. rewrite StronglySorted_app. tauto. Qed.

Lemma set_setpoint_done done todo setpoint end_ :
  set_setpoint (done ++ todo) (List.length done) setpoint end_ =
  (done ++ fst (set_setpoint_run todo setpoint end_),
   (List.length done + snd (set_setpoint_run todo setpoint end_))%nat).
Proof.
  unfold set_setpoint. rewrite drop_app_length, take_app_length.
  destruct (set_setpoint_run todo setpoint end_); reflexivity.
Qed.

Lemma setpoint_walk (sp : list event.t) (done todo : list plot_data) (cur : Z) (md : divemode_t) :
  nondecreasing (secs todo) ->
  Forall (fun e => sec e <= INT_MAX) todo ->
  let st := fold_left setpoint_step sp
              {| sp_entries := done ++ todo; sp_i := List.length done;
                 sp_setpoint := cur; sp_divemode := md |} in
  fst (set_setpoint (sp_entries st) (sp_i st) (sp_setpoint st) INT_MAX)
  = done ++ map (fun e => set_o2pressure (active sp cur (sec e)) e) todo.
Proof.
  revert done todo cur md. induction sp as [|e1 sp IH]; intros done todo cur md Hs Hmax.
  - cbn [fold_left sp_entries sp_i sp_setpoint active].
    rewrite set_setpoint_done. cbn [fst]. f_equal.
    destruct (set_setpoint_run_sorted todo cur INT_MAX Hs)
      as (reached & rest & -> & -> & _ & Hrest).
    cbn [fst]. rewrite map_app. f_equal.
    destruct rest as [|x rest]; [reflexivity|]. exfalso.
    apply Forall_app in Hmax as [_ Hmax].
    apply Forall_cons in Hmax as [Hx _]. apply Forall_cons in Hrest as [Hx' _]. lia.
  - destruct (set_setpoint_run_sorted todo cur (event.time e1) Hs)
      as (reached & rest & -> & Hrun & Hr & Hrest).
    assert (Hstep :
      setpoint_step {| sp_entries := done ++ reached ++ rest; sp_i := List.length done;
                       sp_setpoint := cur; sp_divemode := md |} e1
      = {| sp_entries := (done ++ map (set_o2pressure cur) reached) ++ rest;
           sp_i := List.length (done ++ map (set_o2pressure cur) reached);
           sp_setpoint := event.value e1;
           sp_divemode := if event.value e1 =? 0 then md else CCR |}).
    { unfold setpoint_step. cbn [sp_entries sp_i sp_setpoint sp_divemode].
      rewrite set_setpoint_done, Hrun. cbn [fst snd].
      rewrite List.length_app, List.length_map, <- app_assoc. reflexivity. }
    cbn [fold_left]. rewrite Hstep.
    rewrite (IH (done ++ map (set_o2pressure cur) reached) rest).
    + rewrite <- app_assoc. f_equal. rewrite map_app. f_equal.
      * apply map_ext_Forall. eapply Forall_impl; [exact Hr|]. simpl. intros x Hx.
        destruct (Z.ltb_spec (event.time e1) (sec x)); [lia|reflexivity].
      * apply map_ext_Forall. eapply Forall_impl; [exact Hrest|]. simpl. intros x Hx.
        destruct (Z.ltb_spec (event.time e1) (sec x)); [reflexivity|lia].
    + rewrite secs_app in Hs. apply nondecreasing_app_r in Hs. exact Hs.
    + apply Forall_app in Hmax as [_ Hmax]. exact Hmax.
Qed.

Lemma active_setpoint_before (sp : list event.t) (cur s : Z) :
  nondecreasing (times sp) ->
  active sp cur s
  = default cur (event.value <$> last (List.filter (fun e => event.time e <? s) sp)).
Proof.
  revert cur. induction sp as [|e sp IH]; intros cur Hs; [reflexivity|].
  unfold nondecreasing in Hs. simpl in Hs. apply StronglySorted_inv in Hs as [Hs Hall].
  cbn [active List.filter]. destruct (Z.ltb_spec (event.time e) s) as [Hlt|Hge].
  - rewrite (IH (event.value e) Hs).
    destruct (List.filter (fun e0 => event.time e0 <? s) sp) as [|x l] eqn:E; [reflexivity|].
    change (last (e :: x :: l)) with (last (x :: l)).
    destruct (last (x :: l)) eqn:El; [reflexivity|].
    apply last_None in El. discriminate.
  - replace (List.filter (fun e0 => event.time e0 <? s) sp) with (@nil event.t); [reflexivity|].
    symmetry. apply Forall_times in Hall. clear IH Hs.
    induction Hall as [|x l Hx _ IHl]; [reflexivity|].
    simpl. destruct (Z.ltb_spec (event.time x) s); [lia|]. exact IHl.
Qed.

Lemma check_setpoint_events_map (dc : divecomputer.t) (es : list plot_data) :
  nondecreasing (secs es) ->
  Forall (fun e => sec e <= INT_MAX) es ->
  nondecreasing (times (sp_changes (divecomputer.events dc))) ->
  sp_changes (divecomputer.events dc) <> [] ->
  snd (check_setpoint_events dc es)
  = map (fun e => set_o2pressure
                    (setpoint_before (sp_changes (divecomputer.events dc)) (sec e)) e) es.
Proof.
  intros Hs Hmax Hev Hsome. unfold check_setpoint_events.
  destruct (get_next_event (divecomputer.events dc) (Some "SP change"%string)) as [|e0 rest] eqn:En.
  { apply sp_changes_none in En. contradiction. }
  cbn [snd]. rewrite setpoint_loop_fold.
  pose proof (setpoint_walk (sp_changes (divecomputer.events dc)) [] es 0
                (divecomputer.divemode dc) Hs Hmax) as Hw.
  cbn [app List.length] in Hw. cbv zeta in Hw. rewrite Hw.
  apply map_ext. intros e. f_equal.
  apply active_setpoint_before, Hev.
Qed.

Lemma check_setpoint_events_divemode (dc : divecomputer.t) (es : list plot_data) :
  divecomputer.divemode (fst (check_setpoint_events dc es)) =
    (if existsb (fun e => negb (event.value e =? 0)) (sp_changes (divecomputer.events dc))
     then CCR else divecomputer.divemode dc) /\
  divecomputer.no_o2sensors (fst (check_setpoint_events dc es)) = divecomputer.no_o2sensors dc /\
  divecomputer.events (fst (check_setpoint_events dc es)) = divecomputer.events dc /\
  divecomputer.sample (fst (check_setpoint_events dc es)) = divecomputer.sample dc.
Proof.
  unfold check_setpoint_events.
  destruct (get_next_event (divecomputer.events dc) (Some "SP change"%string)) as [|e0 rest] eqn:En.
  - apply sp_changes_none in En. rewrite En. simpl. repeat split.
  - cbn [fst set_divemode divecomputer.divemode divecomputer.no_o2sensors
         divecomputer.events divecomputer.sample].
    rewrite setpoint_loop_divemode. repeat split.
Qed.

(** X11. In a series whose entry times are in order, after
    [check_setpoint_events] every entry holds in [o2pressure] the setpoint in
    force at its time: the value of the last "SP change" event strictly
    before the time of the entry, and 0 for the entries up to the first
    such event.  (The "SP change" events are taken to be in time order, and
    there is at least one; without any, the series is left as it is.) *)
Theorem check_setpoint_events_setpoints (dc : divecomputer.t) (es : list plot_data) :
  nondecreasing (secs es) ->
  Forall (fun e => sec e <= INT_MAX) es ->
  nondecreasing (times (sp_changes (divecomputer.events dc))) ->
  sp_changes (divecomputer.events dc) <> [] ->
  snd (check_setpoint_events dc es)
  = map (fun e => set_o2pressure
                    (setpoint_before (sp_changes (divecomputer.events dc)) (sec e)) e) es.
Proof. apply check_setpoint_events_map. Qed.

(** A dive with a setpoint of 700 mbar from 12 s and of 1300 mbar from
    22 s on. *)
Definition setpoint_change (t v : Z) : event.t :=
  {| event.time := t; event.name := "SP change"; event.value := v; event.gas_index := -1 |}.

Definition setpoint_dive : divecomputer.t :=
  {| divecomputer.sample := [plain_sample 0 0; plain_sample 30 3000];
     divecomputer.events := [setpoint_change 12 700; plain_event 15; setpoint_change 22 1300];
     divecomputer.divemode := OC; divecomputer.no_o2sensors := 0 |}.

Definition setpoint_series : list plot_data :=
  default [] (populate_plot_entries 2 interpolate true setpoint_dive 30).

Example setpoint_series_o2pressure :
  map (fun e => (sec e, o2pressure e)) (snd (check_setpoint_events setpoint_dive setpoint_series))
  = [(0, 0); (0, 0); (0, 0); (10, 0); (12, 0); (15, 700); (20, 700); (22, 700);
     (30, 1300); (31, 1300); (32, 1300)].
Proof. vm_compute. reflexivity. Qed.

Lemma check_setpoint_events_setpoints_witness :
  snd (check_setpoint_events setpoint_dive setpoint_series)
  = map (fun e => set_o2pressure
                    (setpoint_before [setpoint_change 12 700; setpoint_change 22 1300] (sec e)) e)
        setpoint_series.
Proof.
  apply (check_setpoint_events_setpoints setpoint_dive setpoint_series).
  - assert (H : secs setpoint_series = [0; 0; 0; 10; 12; 15; 20; 22; 30; 31; 32])
      by (vm_compute; reflexivity).
    rewrite H. unfold nondecreasing. repeat constructor; lia.
  - apply Forall_forall. intros e He. 
    assert (H : Forall (fun z => z <= INT_MAX) (secs setpoint_series)).
    { assert (Hsec : secs setpoint_series = [0; 0; 0; 10; 12; 15; 20; 22; 30; 31; 32])
        by (vm_compute; reflexivity).
      rewrite Hsec. unfold INT_MAX. repeat constructor; lia. }
    apply Forall_secs in H. rewrite Forall_forall in H. apply H, He.
  - unfold nondecreasing. simpl. repeat constructor; lia.
  - discriminate.
Defined.

End Setpoints.

(** ** Completing the oxygen readings ([fill_o2_values]) *)

Module O2Values.
Import CInt Densify CcrPo2.

Section Fill.

(** [depth_to_mbar(depth, dive)], a helper of the dive data structures. *)
Variable depth_to_mbar : Z -> Z.

(** [dc->divemode == CCR || (dc->divemode == PSCR && dc->no_o2sensors)]. *)
Definition has_o2_sensors (dc : divecomputer.t) : bool :=
  divemode_eqb (divecomputer.divemode dc) CCR
  || (divemode_eqb (divecomputer.divemode dc) PSCR
      && negb (Nat.eqb (divecomputer.no_o2sensors dc) 0)).

(** One turn of [for (j = 0; j < dc->no_o2sensors; j++)] in the first
    entry: [last_sensor[j].mbar = pi->entry->o2sensor[j].mbar]. *)
Definition init_sensor (sensors : list Z) (last_sensor : list Z) (j : nat) : list Z :=
  <[j := reading sensors j]> last_sensor.

(** One turn of the same loop in a later entry: a reading that is not zero
    is remembered, a zero reading is replaced by the one remembered.  The
    state is the pair of [entry->o2sensor] and [last_sensor]. *)
Definition fill_sensor (st : list Z * list Z) (j : nat) : list Z * list Z :=
  let '(sensors, last_sensor) := st in
  if negb (reading sensors j =? 0) then (sensors, <[j := reading sensors j]> last_sensor)
  else (<[j := reading last_sensor j]> sensors, last_sensor).

(** The body of the loop over the entries of a rebreather dive; [first] is
    [i == 0]. *)
Definition fill_entry (n : nat) (first : bool) (last_sensor : list Z) (entry : plot_data)
    : plot_data * list Z :=
  let '(entry, last_sensor) :=
    if first then (entry, fold_left (init_sensor (o2sensor entry)) (seq 0 n) last_sensor)
    else
      let '(sensors, last_sensor) :=
        fold_left fill_sensor (seq 0 n) (o2sensor entry, last_sensor) in
      (set_o2sensor sensors entry, last_sensor) in
  let amb_pressure := depth_to_mbar (depth entry) in
  let o2pressure_ := calculate_ccr_po2 entry n in
  (set_o2pressure (MIN o2pressure_ amb_pressure) entry, last_sensor).

Fixpoint fill_loop (n : nat) (first : bool) (last_sensor : list Z) (es : list plot_data)
    : list plot_data :=
  match es with
  | [] => []
  | entry :: es' =>
    let '(entry', last_sensor') := fill_entry n first last_sensor entry in
    entry' :: fill_loop n false last_sensor' es'
  end.

(** [fill_o2_values]: the entries after the call.  The array [last_sensor]
    is not initialised in the source; it is written before it is read, and
    starts here as zeros. *)
Definition fill_o2_values (dc : divecomputer.t) (es : list plot_data) : list plot_data :=
  if has_o2_sensors dc then fill_loop (divecomputer.no_o2sensors dc) true [0; 0; 0] es
  else map (set_o2pressure 0) es.

(** *** The sensor loops *)

Lemma reading_insert (l : list Z) (i j : nat) (v : Z) :
  (i < List.length l)%nat ->
  reading (<[i := v]> l) j = if Nat.eqb j i then v else reading l j.
Proof.
  intros Hi. unfold reading. destruct (Nat.eqb_spec j i) as [->|Hne].
  - rewrite list_lookup_insert_eq by exact Hi. reflexivity.
  - rewrite list_lookup_insert_ne by congruence. reflexivity.
Qed.

Definition merged (sensors last_sensor : list Z) (j : nat) : Z :=
  if reading sensors j =? 0 then reading last_sensor j else reading sensors j.

Lemma fill_sensors_from (js : list nat) (sensors last_sensor : list Z) :
  NoDup js ->
  Forall (fun i => (i < List.length sensors)%nat /\ (i < List.length last_sensor)%nat) js ->
  let st := fold_left fill_sensor js (sensors, last_sensor) in
  List.length (fst st) = List.length sensors /\
  List.length (snd st) = List.length last_sensor /\
  forall j,
    reading (fst st) j
    = (if bool_decide (j ∈ js) then merged sensors last_sensor j else reading sensors j) /\
    reading (snd st) j
    = (if bool_decide (j ∈ js) then merged sensors last_sensor j else reading last_sensor j).
Proof.
  revert sensors last_sensor.
  induction js as [|i js IH]; intros sensors last_sensor Hnd Hin; cbn [fold_left].
  - cbn [fst snd]. repeat split.
  - apply NoDup_cons in Hnd as [Hni Hnd]. apply Forall_cons in Hin as [[Hi1 Hi2] Hin].
    assert (Hstep : fill_sensor (sensors, last_sensor) i
                    = if reading sensors i =? 0
                      then (<[i := reading last_sensor i]> sensors, last_sensor)
                      else (sensors, <[i := reading sensors i]> last_sensor)).
    { unfold fill_sensor. destruct (reading sensors i =? 0); reflexivity. }
    rewrite Hstep. clear Hstep.
    destruct (Z.eqb_spec (reading sensors i) 0) as [Hz|Hnz].
    + specialize (IH (<[i := reading last_sensor i]> sensors) last_sensor Hnd).
      destruct IH as (Hl1 & Hl2 & Hr).
      { eapply Forall_impl; [exact Hin|]. simpl. intros x. rewrite length_insert. tauto. }
      rewrite length_insert in Hl1. split; [exact Hl1|]. split; [exact Hl2|].
      intros j. destruct (Hr j) as [Hr1 Hr2]. rewrite Hr1, Hr2.
      unfold merged. rewrite !reading_insert by exact Hi1.
      destruct (Nat.eqb_spec j i) as [->|Hne].
      * rewrite (bool_decide_eq_false_2 (i ∈ js)) by exact Hni.
        rewrite (bool_decide_eq_true_2 (i ∈ i :: js)) by (apply elem_of_cons; tauto).
        rewrite Hz. simpl. tauto.
      * destruct (bool_decide_reflect (j ∈ js)) as [Hj|Hj].
        -- rewrite (bool_decide_eq_true_2 (j ∈ i :: js)) by (apply elem_of_cons; tauto). tauto.
        -- rewrite (bool_decide_eq_false_2 (j ∈ i :: js))
             by (rewrite elem_of_cons; tauto). tauto.
    + specialize (IH sensors (<[i := reading sensors i]> last_sensor) Hnd).
      destruct IH as (Hl1 & Hl2 & Hr).
      { eapply Forall_impl; [exact Hin|]. simpl. intros x. rewrite length_insert. tauto. }
      rewrite length_insert in Hl2. split; [exact Hl1|]. split; [exact Hl2|].
      intros j. destruct (Hr j) as [Hr1 Hr2]. rewrite Hr1, Hr2.
      unfold merged. rewrite !reading_insert by exact Hi2.
      destruct (Nat.eqb_spec j i) as [->|Hne].
      * rewrite (bool_decide_eq_false_2 (i ∈ js)) by exact Hni.
        rewrite (bool_decide_eq_true_2 (i ∈ i :: js)) by (apply elem_of_cons; tauto).
        destruct (Z.eqb_spec (reading sensors i) 0); [contradiction|]. tauto.
      * destruct (bool_decide_reflect (j ∈ js)) as [Hj|Hj].
        -- rewrite (bool_decide_eq_true_2 (j ∈ i :: js)) by (apply elem_of_cons; tauto). tauto.
        -- rewrite (bool_decide_eq_false_2 (j ∈ i :: js))
             by (rewrite elem_of_cons; tauto). tauto.
Qed.

Lemma init_sensors_from (js : list nat) (sensors last_sensor : list Z) :
  Forall (fun i => (i < List.length last_sensor)%nat) js ->
  let l := fold_left (init_sensor sensors) js last_sensor in
  List.length l = List.length last_sensor /\
  forall j, reading l j = if bool_decide (j ∈ js) then reading sensors j else reading last_sensor j.
Proof.
  revert last_sensor. induction js as [|i js IH]; intros last_sensor Hin; cbn [fold_left].
  - split; [reflexivity|]. intros j. reflexivity.
  - apply Forall_cons in Hin as [Hi Hin].
    change (init_sensor sensors last_sensor i) with (<[i := reading sensors i]> last_sensor).
    specialize (IH (<[i := reading sensors i]> last_sensor)).
    destruct IH as (Hl & Hr).
    { eapply Forall_impl; [exact Hin|]. simpl. intros x. rewrite length_insert. tauto. }
    rewrite length_insert in Hl. split; [exact Hl|].
    intros j. rewrite Hr, reading_insert by exact Hi.
    destruct (Nat.eqb_spec j i) as [->|Hne].
    + rewrite (bool_decide_eq_true_2 (i ∈ i :: js)) by (apply elem_of_cons; tauto).
      destruct (bool_decide (i ∈ js)); reflexivity.
    + destruct (bool_decide_reflect (j ∈ js)) as [Hj|Hj].
      * rewrite (bool_decide_eq_true_2 (j ∈ i :: js)) by (apply elem_of_cons; tauto). reflexivity.
      * rewrite (bool_decide_eq_false_2 (j ∈ i :: js)) by (rewrite elem_of_cons; tauto).
        reflexivity.
Qed.

(** *** One entry *)

Lemma elem_of_seq0 (j n : nat) : bool_decide (j ∈ seq 0 n) = (j <? n)%nat.
Proof.
  destruct (Nat.ltb_spec j n) as [H|H].
  - apply bool_decide_eq_true_2. apply elem_of_seq. lia.
  - apply bool_decide_eq_false_2. rewrite elem_of_seq. lia.
Qed.

Lemma seq0_fits (n len : nat) : (n <= len)%nat -> Forall (fun i => (i < len)%nat) (seq 0 n).
Proof. intros H. apply Forall_forall. intros i Hi. apply elem_of_seq in Hi. lia. Qed.

Lemma o2sensor_set_o2pressure v e : o2sensor (set_o2pressure v e) = o2sensor e.
Proof. destruct e; reflexivity. Qed.

Lemma o2sensor_set_o2sensor v e : o2sensor (set_o2sensor v e) = v.
Proof. destruct e; reflexivity. Qed.

Lemma o2pressure_set_o2pressure v e : o2pressure (set_o2pressure v e) = v.
Proof. destruct e; reflexivity. Qed.

Lemma sec_after_set_o2pressure v e : sec (set_o2pressure v e) = sec e.
Proof. destruct e; reflexivity. Qed.

Lemma sec_set_o2sensor v e : sec (set_o2sensor v e) = sec e.
Proof. destruct e; reflexivity. Qed.

Lemma depth_set_o2pressure v e : depth (set_o2pressure v e) = depth e.
Proof. destruct e; reflexivity. Qed.

Lemma depth_set_o2sensor v e : depth (set_o2sensor v e) = depth e.
Proof. destruct e; reflexivity. Qed.

(** What one turn leaves untouched, and the clamp. *)
Lemma fill_entry_frame n first last_sensor entry :
  let '(entry', _) := fill_entry n first last_sensor entry in
  sec entry' = sec entry /\ depth entry' = depth entry /\
  o2pressure entry' <= depth_to_mbar (depth entry').
Proof.
  unfold fill_entry. destruct first.
  - rewrite sec_after_set_o2pressure, depth_set_o2pressure, o2pressure_set_o2pressure, MIN_spec.
    repeat split; lia.
  - destruct (fold_left fill_sensor (seq 0 n) (o2sensor entry, last_sensor)) as [sensors l].
    rewrite sec_after_set_o2pressure, depth_set_o2pressure, o2pressure_set_o2pressure, MIN_spec.
    rewrite sec_set_o2sensor, depth_set_o2sensor. repeat split; lia.
Qed.

Lemma fill_entry_first n last_sensor entry :
  (n <= List.length last_sensor)%nat ->
  let '(entry', last') := fill_entry n true last_sensor entry in
  o2sensor entry' = o2sensor entry /\
  List.length last' = List.length last_sensor /\
  forall j, reading last' j
            = if (j <? n)%nat then reading (o2sensor entry) j else reading last_sensor j.
Proof.
  intros Hn. unfold fill_entry.
  destruct (init_sensors_from (seq 0 n) (o2sensor entry) last_sensor (seq0_fits _ _ Hn))
    as (Hl & Hr).
  rewrite o2sensor_set_o2pressure. split; [reflexivity|]. split; [exact Hl|].
  intros j. rewrite Hr, elem_of_seq0. reflexivity.
Qed.

Lemma fill_entry_later n last_sensor entry :
  (n <= List.length last_sensor)%nat -> (n <= List.length (o2sensor entry))%nat ->
  let '(entry', last') := fill_entry n false last_sensor entry in
  List.length (o2sensor entry') = List.length (o2sensor entry) /\
  List.length last' = List.length last_sensor /\
  forall j,
    reading (o2sensor entry') j
    = (if (j <? n)%nat then merged (o2sensor entry) last_sensor j
       else reading (o2sensor entry) j) /\
    reading last' j
    = (if (j <? n)%nat then merged (o2sensor entry) last_sensor j else reading last_sensor j).
Proof.
  intros Hn1 Hn2. unfold fill_entry.
  pose proof (fill_sensors_from (seq 0 n) (o2sensor entry) last_sensor (NoDup_seq 0 n)) as H.
  destruct (fold_left fill_sensor (seq 0 n) (o2sensor entry, last_sensor)) as [sensors l].
  destruct H as (Hl1 & Hl2 & Hr).
  { apply Forall_forall. intros i Hi. apply elem_of_seq in Hi. lia. }
  cbn [fst snd] in *.
  rewrite o2sensor_set_o2pressure, o2sensor_set_o2sensor.
  split; [exact Hl1|]. split; [exact Hl2|].
  intros j. destruct (Hr j) as [H1 H2]. rewrite H1, H2, elem_of_seq0. tauto.
Qed.

(** *** The last known reading *)

(** The last reading that is not zero in [l], and [d] when there is
    none. *)
Definition last_known_from (d : Z) (l : list Z) : Z :=
  default d (last (filter (fun m => m <> 0) l)).

Definition last_known (l : list Z) : Z := last_known_from 0 l.

Lemma last_known_from_cons (d x : Z) (l : list Z) :
  last_known_from d (x :: l) = last_known_from (if x =? 0 then d else x) l.
Proof.
  unfold last_known_from. destruct (Z.eqb_spec x 0) as [->|Hx].
  - rewrite filter_cons_False by tauto. reflexivity.
  - rewrite filter_cons_True by exact Hx.
    destruct (filter (fun m => m <> 0) l) as [|y l'] eqn:E; [reflexivity|].
    change (last (x :: y :: l')) with (last (y :: l')).
    destruct (last (y :: l')) eqn:El; [reflexivity|]. apply last_None in El. discriminate.
Qed.

(** The readings of sensor [j] in a list of entries. *)
Definition readings (j : nat) (es : list plot_data) : list Z :=
  map (fun e => reading (o2sensor e) j) es.

Lemma fill_loop_later n (es : list plot_data) :
  forall last_sensor k e',
    (n <= List.length last_sensor)%nat ->
    Forall (fun e => (n <= List.length (o2sensor e))%nat) es ->
    fill_loop n false last_sensor es !! k = Some e' ->
    forall j,
      reading (o2sensor e') j
      = if (j <? n)%nat then last_known_from (reading last_sensor j) (readings j (take (S k) es))
        else reading (o2sensor (default e' (es !! k))) j.
Proof.
  induction es as [|e es IH]; intros last_sensor k e' Hn Hfit Hk j; [discriminate|].
  apply Forall_cons in Hfit as [He Hfit]. cbn [fill_loop] in Hk.
  pose proof (fill_entry_later n last_sensor e Hn He) as Hent.
  destruct (fill_entry n false last_sensor e) as [e1 last1].
  destruct Hent as (_ & Hl & Hr). destruct (Hr j) as [Hr1 Hr2].
  destruct k as [|k].
  - injection Hk as <-. rewrite Hr1. cbn [take readings map lookup list_lookup default].
    destruct (j <? n)%nat; [|reflexivity].
    rewrite last_known_from_cons. unfold merged, last_known_from. simpl.
    destruct (reading (o2sensor e) j =? 0); reflexivity.
  - cbn [lookup list_lookup] in Hk.
    rewrite (IH last1 k e' ltac:(lia) Hfit Hk j).
    cbn [take readings map lookup list_lookup].
    destruct (j <? n)%nat eqn:Ej; [|reflexivity].
    rewrite last_known_from_cons. rewrite Hr2. unfold merged. reflexivity.
Qed.

Lemma fill_loop_frame n first last_sensor es :
  List.length (fill_loop n first last_sensor es) = List.length es /\
  secs (fill_loop n first last_sensor es) = secs es /\
  map depth (fill_loop n first last_sensor es) = map depth es /\
  Forall (fun e' => o2pressure e' <= depth_to_mbar (depth e')) (fill_loop n first last_sensor es).
Proof.
  revert first last_sensor. induction es as [|e es IH]; intros first last_sensor.
  - repeat split. constructor.
  - cbn [fill_loop]. pose proof (fill_entry_frame n first last_sensor e) as Hf.
    destruct (fill_entry n first last_sensor e) as [e' last'].
    destruct Hf as (Hsec & Hdepth & Hclamp).
    destruct (IH false last') as (Hl & Hs & Hd & Hc).
    cbn [List.length secs map]. unfold secs in Hs. rewrite Hl, Hs, Hd, Hsec, Hdepth.
    repeat split. constructor; assumption.
Qed.

Lemma last_known_snoc (l : list Z) (x : Z) :
  x <> 0 -> last_known (l ++ [x]) = x.
Proof.
  intros Hx. unfold last_known, last_known_from.
  rewrite filter_app, filter_cons_True by exact Hx. rewrite filter_nil, last_snoc. reflexivity.
Qed.

(** X12. Zero oxygen readings are replaced by the last known reading.
    On a dive with oxygen sensors (at most the three of the entry), after
    [fill_o2_values] sensor [j] of entry [k] holds the last reading of that
    sensor that is not zero among the entries [0 .. k] of the series as it
    was, and zero when there is none; so a reading that was not zero is
    kept, and sensors beyond [dc->no_o2sensors] are left alone. *)
Theorem fill_o2_values_forward_fill (dc : divecomputer.t) (es : list plot_data)
    (k : nat) (e' : plot_data) :
  has_o2_sensors dc = true ->
  (divecomputer.no_o2sensors dc <= 3)%nat ->
  Forall (fun e => List.length (o2sensor e) = 3%nat) es ->
  fill_o2_values dc es !! k = Some e' ->
  exists e, es !! k = Some e /\
    forall j,
      reading (o2sensor e') j
      = (if (j <? divecomputer.no_o2sensors dc)%nat
         then last_known (readings j (take (S k) es))
         else reading (o2sensor e) j) /\
      (reading (o2sensor e) j <> 0 -> reading (o2sensor e') j = reading (o2sensor e) j).
Proof.
  intros Hmode Hn Hfit Hk. unfold fill_o2_values in Hk. rewrite Hmode in Hk.
  set (n := divecomputer.no_o2sensors dc) in *.
  assert (Hfit' : Forall (fun e => (n <= List.length (o2sensor e))%nat) es).
  { eapply Forall_impl; [exact Hfit|]. simpl. intros e He. lia. }
  assert (He : exists e, es !! k = Some e).
  { apply lookup_lt_is_Some. apply lookup_lt_Some in Hk.
    destruct (fill_loop_frame n true [0; 0; 0] es) as (Hl & _). lia. }
  destruct He as [e He]. exists e. split; [exact He|].
  assert (Hmain : forall j,
    reading (o2sensor e') j
    = if (j <? n)%nat then last_known (readings j (take (S k) es)) else reading (o2sensor e) j).
  { intros j. destruct es as [|e0 es]; [discriminate|].
    cbn [fill_loop] in Hk.
    pose proof (fill_entry_first n [0; 0; 0] e0 ltac:(simpl; lia)) as Hfirst.
    destruct (fill_entry n true [0; 0; 0] e0) as [e1 last1].
    destruct Hfirst as (Hsens & Hl & Hr).
    apply Forall_cons in Hfit' as [_ Hfit'].
    destruct k as [|k].
    - injection Hk as <-. injection He as <-. rewrite Hsens.
      cbn [take readings map]. unfold last_known. rewrite last_known_from_cons.
      unfold last_known_from. simpl.
      destruct (j <? n)%nat; [|reflexivity].
      destruct (Z.eqb_spec (reading (o2sensor e0) j) 0) as [Hz|Hz]; [rewrite Hz|]; reflexivity.
    - change ((e0 :: es) !! S k) with (es !! k) in He.
      change ((e1 :: fill_loop n false last1 es) !! S k)
        with (fill_loop n false last1 es !! k) in Hk.
      rewrite (fill_loop_later n es last1 k e' ltac:(simpl in Hl; lia) Hfit' Hk j).
      rewrite He. cbn [default].
      destruct (j <? n)%nat eqn:Ej; [|reflexivity].
      cbn [take readings map]. unfold last_known. rewrite last_known_from_cons.
      rewrite Hr, Ej.
      destruct (Z.eqb_spec (reading (o2sensor e0) j) 0) as [Hz|Hz]; [rewrite Hz|]; reflexivity. }
  intros j. split; [apply Hmain|].
  intros Hnz. rewrite Hmain. destruct (j <? n)%nat; [|reflexivity].
  rewrite (take_S_r es k e He). unfold readings. rewrite map_app. cbn [map].
  apply last_known_snoc. exact Hnz.
Qed.

Lemma fill_o2_values_frame (dc : divecomputer.t) (es : list plot_data) :
  List.length (fill_o2_values dc es) = List.length es /\
  secs (fill_o2_values dc es) = secs es /\
  map depth (fill_o2_values dc es) = map depth es.
Proof.
  unfold fill_o2_values. destruct (has_o2_sensors dc).
  - destruct (fill_loop_frame (divecomputer.no_o2sensors dc) true [0; 0; 0] es)
      as (Hl & Hs & Hd & _). tauto.
  - split; [apply List.length_map|]. split.
    + unfold secs. rewrite map_map. apply map_ext. intros e. apply sec_after_set_o2pressure.
    + rewrite map_map. apply map_ext. intros e. apply depth_set_o2pressure.
Qed.

(** With no reading at all the sensors stay as they are, and the oxygen
    pressure of each entry is the pressure it had, clamped to the ambient
    pressure. *)
Lemma fill_sensors_zero (n : nat) (js : list nat) (sensors last_sensor : list Z) :
  (forall j, reading sensors j = 0) -> (forall j, reading last_sensor j = 0) ->
  fold_left fill_sensor js (sensors, last_sensor) = (sensors, last_sensor).
Proof.
  intros Hs Hl. induction js as [|j js IH]; [reflexivity|].
  cbn [fold_left]. unfold fill_sensor at 2. rewrite Hs, Hl. cbn [Z.eqb negb].
  assert (Hid : <[j := 0]> sensors = sensors).
  { destruct (sensors !! j) as [x|] eqn:E.
    - apply list_insert_id. specialize (Hs j). unfold reading in Hs. rewrite E in Hs.
      simpl in Hs. rewrite E, Hs. reflexivity.
    - apply list_insert_ge. apply lookup_ge_None. exact E. }
  rewrite Hid. exact IH.
Qed.

Lemma init_sensors_zero (js : list nat) (sensors last_sensor : list Z) :
  (forall j, reading sensors j = 0) -> (forall j, reading last_sensor j = 0) ->
  fold_left (init_sensor sensors) js last_sensor = last_sensor.
Proof.
  intros Hs Hl. induction js as [|j js IH]; [reflexivity|].
  cbn [fold_left]. unfold init_sensor at 2. rewrite Hs.
  assert (Hid : <[j := 0]> last_sensor = last_sensor).
  { destruct (last_sensor !! j) as [x|] eqn:E.
    - apply list_insert_id. specialize (Hl j). unfold reading in Hl. rewrite E in Hl.
      simpl in Hl. rewrite E, Hl. reflexivity.
    - apply list_insert_ge. apply lookup_ge_None. exact E. }
  rewrite Hid. exact IH.
Qed.

Lemma set_o2sensor_same e : set_o2sensor (o2sensor e) e = e.
Proof. destruct e; reflexivity. Qed.

Lemma calculate_ccr_po2_no_reading (entry : plot_data) (n : nat) :
  o2sensor entry = [0; 0; 0] -> calculate_ccr_po2 entry n = o2pressure entry.
Proof.
  intros H. unfold calculate_ccr_po2, scan_sensors. rewrite H.
  assert (Ht : fold_left tally_step (take n [0; 0; 0]) tally_init = tally_init).
  { destruct n as [|[|[|n]]]; cbn [take]; try reflexivity.
    rewrite take_nil. reflexivity. }
  rewrite Ht. reflexivity.
Qed.

Lemma fill_loop_no_reading (n : nat) (first : bool) (es : list plot_data) :
  Forall (fun e => o2sensor e = [0; 0; 0]) es ->
  fill_loop n first [0; 0; 0] es
  = map (fun e => set_o2pressure (MIN (o2pressure e) (depth_to_mbar (depth e))) e) es.
Proof.
  assert (Hz : forall j, reading [0; 0; 0] j = 0).
  { intros [|[|[|j]]]; reflexivity. }
  revert first. induction es as [|e es IH]; intros first Hall; [reflexivity|].
  apply Forall_cons in Hall as [He Hall]. cbn [fill_loop map].
  assert (Hent : fill_entry n first [0; 0; 0] e
                 = (set_o2pressure (MIN (o2pressure e) (depth_to_mbar (depth e))) e, [0; 0; 0])).
  { unfold fill_entry. destruct first.
    - rewrite init_sensors_zero; [|rewrite He; exact Hz|exact Hz].
      rewrite calculate_ccr_po2_no_reading by exact He. reflexivity.
    - rewrite (fill_sensors_zero n); [|rewrite He; exact Hz|exact Hz].
      rewrite set_o2sensor_same.
      rewrite calculate_ccr_po2_no_reading by exact He. reflexivity. }
  rewrite Hent. f_equal. apply IH, Hall.
Qed.

(** X13. [fill_o2_values] changes no time, no depth and not the number of
    entries.  On a dive with oxygen sensors every entry ends with an oxygen
    pressure that is at most the ambient pressure [depth_to_mbar(depth)] at
    its depth; on any other dive every oxygen pressure is set to zero and
    nothing else is touched. *)
Theorem fill_o2_values_clamped (dc : divecomputer.t) (es : list plot_data) :
  List.length (fill_o2_values dc es) = List.length es /\
  secs (fill_o2_values dc es) = secs es /\
  map depth (fill_o2_values dc es) = map depth es /\
  (has_o2_sensors dc = true ->
   Forall (fun e' => o2pressure e' <= depth_to_mbar (depth e')) (fill_o2_values dc es)) /\
  (has_o2_sensors dc = false ->
   fill_o2_values dc es = map (set_o2pressure 0) es /\
   Forall (fun e' => o2pressure e' = 0) (fill_o2_values dc es)).
Proof.
  unfold fill_o2_values. destruct (has_o2_sensors dc).
  - destruct (fill_loop_frame (divecomputer.no_o2sensors dc) true [0; 0; 0] es)
      as (Hl & Hs & Hd & Hc).
    split; [exact Hl|]. split; [exact Hs|]. split; [exact Hd|].
    split; [intros _; exact Hc|discriminate].
  - split; [|split; [|split; [|split; [discriminate|intros _; split; [reflexivity|]]]]].
    + apply List.length_map.
    + unfold secs. rewrite map_map. apply map_ext. intros e. apply sec_after_set_o2pressure.
    + rewrite map_map. apply map_ext. intros e. apply depth_set_o2pressure.
    + apply Forall_forall. intros e' He'. apply list_elem_of_In, in_map_iff in He'.
      destruct He' as (e & <- & _). apply o2pressure_set_o2pressure.
Qed.

End Fill.

(** A closed-circuit dive with three sensors: the second sensor starts
    late and the third drops out. *)
Definition ccr_dc : divecomputer.t :=
  {| divecomputer.sample := []; divecomputer.events := [];
     divecomputer.divemode := CCR; divecomputer.no_o2sensors := 3 |}.

Definition ccr_series : list plot_data :=
  [with_sensors 1000 0 1100 0; with_sensors 0 0 0 0; with_sensors 1200 900 0 0].

Definition surface_mbar (mm : Z) : Z := 1013 + mm / 10.

Example ccr_series_filled :
  map (fun e => (o2sensor e, o2pressure e)) (fill_o2_values surface_mbar ccr_dc ccr_series)
  = [([1000; 0; 1100], 1013); ([1000; 0; 1100], 1013); ([1200; 900; 1100], 1000)].
Proof. vm_compute. reflexivity. Qed.

Lemma fill_o2_values_forward_fill_witness :
  exists e', fill_o2_values surface_mbar ccr_dc ccr_series !! 2%nat = Some e' /\
    reading (o2sensor e') 2 = last_known [1100; 0; 0] /\
    reading (o2sensor e') 0 = 1200.
Proof.
  eexists. split; [reflexivity|].
  destruct (fill_o2_values_forward_fill surface_mbar ccr_dc ccr_series 2 _
              eq_refl ltac:(simpl; lia) ltac:(repeat constructor) eq_refl)
    as (e & He & H).
  injection He as <-. split.
  - apply (H 2%nat).
  - destruct (H 0%nat) as [_ H0]. rewrite H0; [reflexivity|discriminate].
Defined.

End O2Values.

(** ** Smoothing, speed and the ranged extrema ([analyze_plot_info]) *)

Module Analyze.
Import CInt Densify.

(** [velocity_t]: the labels of the vertical speed. *)
Inductive velocity_t : Type := STABLE | SLOW | MODERATE | FAST | CRAZY.

(** [velocity]: the label of a vertical speed in mm/s (negative when going
    up). *)
Definition velocity (speed : Z) : velocity_t :=
  if speed <? -304 then CRAZY
  else if speed <? -152 then FAST
  else if speed <? -76 then MODERATE
  else if speed <? -25 then SLOW
  else if speed <? 25 then STABLE
  else if speed <? 152 then SLOW
  else if speed <? 304 then MODERATE
  else if speed <? 507 then FAST
  else CRAZY.

(** The fields of [struct plot_data] that [analyze_plot_info] writes; they
    are kept beside the entry, one record per entry. *)
Module analysis.
Record t : Type := mk {
  smoothed : Z;
  speed : Z;
  velocity : velocity_t;
  min : nat;
  max : nat
}.
End analysis.

(** [pi->entry[k]]; only [sec] and [depth] are read here. *)
Definition nth_entry (es : list plot_data) (k : nat) : plot_data :=
  default (zero_entry 0) (es !! k).

(** [HALF_INTERVAL]: [9 * 30], used as [p->sec - 9 * 30] and
    [p->sec + 9 * 30]. *)
Definition HALF_INTERVAL : Z := 9 * 30.

(** "Go back 'seconds' in time":
    [while (entry_index > 0) { if (p[-1].sec < start) break; entry_index--; p--; }]. *)
Fixpoint go_back_to (es : list plot_data) (start : Z) (entry_index : nat) : nat :=
  match entry_index with
  | O => O
  | S before =>
    if sec (nth_entry es before) <? start then entry_index
    else go_back_to es start before
  end.

(** "Then go forward until we hit an entry past the time": [todo] holds the
    entries from [entry_index] on. *)
Fixpoint go_forward_to (es todo : list plot_data) (end_ : Z) (entry_index min_ max_ : nat)
    : nat * nat :=
  match todo with
  | [] => (min_, max_)
  | p :: todo' =>
    if sec p >? end_ then (min_, max_)
    else
      let min' := if depth p <? depth (nth_entry es min_) then entry_index else min_ in
      let max' := if depth p >? depth (nth_entry es max_) then entry_index else max_ in
      go_forward_to es todo' end_ (S entry_index) min' max'
  end.

(** [analyze_plot_info_minmax]: the indices written to [plot_entry->min] and
    [plot_entry->max]. *)
Definition analyze_plot_info_minmax (es : list plot_data) (entry_index : nat) : nat * nat :=
  let p := nth_entry es entry_index in
  let start := sec p - HALF_INTERVAL in
  let end_ := sec p + HALF_INTERVAL in
  let first := go_back_to es start entry_index in
  go_forward_to es (drop first es) end_ first first first.

(** [while (i + past > 0 && entry[0].sec - entry[past].sec < 15) past--;]
    with [k = i + past]. *)
Fixpoint past_index (es : list plot_data) (sec_i : Z) (k : nat) : nat :=
  match k with
  | O => O
  | S k' => if sec_i - sec (nth_entry es k) <? 15 then past_index es sec_i k' else k
  end.

(** How severe a label is, from [STABLE] to [CRAZY]. *)
Definition severity (v : velocity_t) : Z :=
  match v with STABLE => 0 | SLOW => 1 | MODERATE => 2 | FAST => 3 | CRAZY => 4 end.

Ltac velocity_cases :=
  unfold velocity;
  repeat match goal with
         | |- context [?a <? ?b] => destruct (Z.ltb_spec a b)
         end;
  simpl; try lia.

(** X14. The speed labels are ordered as the speeds are: a faster descent
    never gets a milder label than a slower one, and likewise a faster
    ascent; [STABLE] is the label of exactly the speeds from -25 up to, but
    not including, 25 mm/s; and an ascent never gets a milder label than a
    descent at the same speed, except at exactly 25 mm/s, where the descent
    is [SLOW] and the ascent still [STABLE]. *)
Theorem velocity_ordered :
  (forall s1 s2, 0 <= s1 -> s1 <= s2 -> severity (velocity s1) <= severity (velocity s2)) /\
  (forall s1 s2, s1 <= s2 -> s2 <= 0 -> severity (velocity s2) <= severity (velocity s1)) /\
  (forall s, velocity s = STABLE <-> -25 <= s < 25) /\
  (forall s, 0 <= s -> s <> 25 -> severity (velocity s) <= severity (velocity (- s))) /\
  velocity 25 = SLOW /\ velocity (-25) = STABLE.
Proof.
  split; [|split; [|split; [|split; [|split; reflexivity]]]].
  - intros s1 s2 H0 Hle. velocity_cases.
  - intros s1 s2 Hle H0. velocity_cases.
  - intros s. split.
    + unfold velocity.
      repeat match goal with
             | |- context [?a <? ?b] => destruct (Z.ltb_spec a b)
             end; try discriminate; lia.
    + intros H. velocity_cases; reflexivity.
  - intros s H0 Hne. velocity_cases.
Qed.

(** *** The window of the extrema *)

Lemma sec_nth_entry (es : list plot_data) (k : nat) (e : plot_data) :
  es !! k = Some e -> nth_entry es k = e.
Proof. intros H. unfold nth_entry. rewrite H. reflexivity. Qed.

Lemma sorted_nth (es : list plot_data) (a b : nat) :
  nondecreasing (secs es) -> (a <= b)%nat -> (b < List.length es)%nat ->
  sec (nth_entry es a) <= sec (nth_entry es b).
Proof.
  intros Hs Hab Hb. unfold nth_entry.
  destruct (lookup_lt_is_Some_2 es a ltac:(lia)) as [x Hx].
  destruct (lookup_lt_is_Some_2 es b Hb) as [y Hy]. rewrite Hx, Hy. cbn [default].
  apply (SeriesOrder.sorted_entries es a b x y Hs Hab Hx Hy).
Qed.

Lemma go_back_to_spec (es : list plot_data) (start : Z) (i : nat) :
  let f := go_back_to es start i in
  (f <= i)%nat /\
  (forall j, (f <= j < i)%nat -> start <= sec (nth_entry es j)) /\
  ((0 < f)%nat -> sec (nth_entry es (f - 1)) < start).
Proof.
  induction i as [|i IH]; cbn [go_back_to].
  - split; [lia|]. split; intros; lia.
  - destruct (Z.ltb_spec (sec (nth_entry es i)) start) as [Hlt|Hge].
    + split; [lia|]. split; [intros; lia|].
      intros _. replace (S i - 1)%nat with i by lia. exact Hlt.
    + destruct IH as (Hle & Hin & Hout). split; [lia|]. split; [|exact Hout].
      intros j Hj. destruct (Nat.eq_dec j i) as [->|Hne]; [exact Hge|]. apply Hin. lia.
Qed.

(** The scan forward, from index [i] with the extrema [mn] and [mx] so
    far: it stops at some index [l], having looked at the entries
    [i .. l - 1], all not after [end_]. *)
Lemma go_forward_to_spec (es : list plot_data) (end_ : Z) :
  forall (todo : list plot_data) (i mn mx : nat),
    todo = drop i es -> (i <= List.length es)%nat ->
    (mn < List.length es)%nat -> (mx < List.length es)%nat ->
    exists l : nat,
      (i <= l <= List.length es)%nat /\
      (forall j, (i <= j < l)%nat -> sec (nth_entry es j) <= end_) /\
      ((l < List.length es)%nat -> end_ < sec (nth_entry es l)) /\
      let '(mn', mx') := go_forward_to es todo end_ i mn mx in
      (mn' = mn \/ (i <= mn' < l)%nat) /\ (mx' = mx \/ (i <= mx' < l)%nat) /\
      depth (nth_entry es mn') <= depth (nth_entry es mn) /\
      depth (nth_entry es mx) <= depth (nth_entry es mx') /\
      (forall j, (i <= j < l)%nat ->
         depth (nth_entry es mn') <= depth (nth_entry es j) <= depth (nth_entry es mx')).
Proof.
  intros todo. induction todo as [|p todo IH]; intros i mn mx Htodo Hile Hmn Hmx.
  - assert (Hi : (List.length es <= i)%nat).
    { apply (f_equal (@List.length _)) in Htodo. rewrite length_drop in Htodo.
      simpl in Htodo. lia. }
    exists i. cbn [go_forward_to]. split; [lia|]. split; [intros; lia|]. split; [intros; lia|].
    split; [left; reflexivity|]. split; [left; reflexivity|]. split; [lia|]. split; [lia|].
    intros; lia.
  - assert (Hp : es !! i = Some p).
    { pose proof (lookup_drop es i 0) as H. rewrite <- Htodo, Nat.add_0_r in H.
      symmetry. exact H. }
    assert (Hi : (i < List.length es)%nat) by (eapply lookup_lt_Some, Hp).
    assert (Hnp : nth_entry es i = p) by (apply sec_nth_entry, Hp).
    assert (Hrest : todo = drop (S i) es).
    { replace (S i) with (i + 1)%nat by lia. rewrite <- drop_drop, <- Htodo. reflexivity. }
    cbn [go_forward_to]. destruct (Z.gtb_spec (sec p) end_) as [Hgt|Hle].
    + exists i. split; [lia|]. split; [intros; lia|].
      split; [intros _; rewrite Hnp; exact Hgt|].
      split; [left; reflexivity|]. split; [left; reflexivity|]. split; [lia|]. split; [lia|].
      intros; lia.
    + set (mn1 := if depth p <? depth (nth_entry es mn) then i else mn).
      set (mx1 := if depth p >? depth (nth_entry es mx) then i else mx).
      assert (Hmn1 : (mn1 < List.length es)%nat) by (unfold mn1; destruct (_ <? _); lia).
      assert (Hmx1 : (mx1 < List.length es)%nat) by (unfold mx1; destruct (_ >? _); lia).
      destruct (IH (S i) mn1 mx1 Hrest ltac:(lia) Hmn1 Hmx1) as (l & Hl & Hin & Hout & Hres).
      exists l. split; [lia|]. split.
      { intros j Hj. destruct (Nat.eq_dec j i) as [->|Hne]; [rewrite Hnp; exact Hle|].
        apply Hin. lia. }
      split; [exact Hout|].
      destruct (go_forward_to es todo end_ (S i) mn1 mx1) as [mn' mx'].
      destruct Hres as (Hmn' & Hmx' & Hdmn & Hdmx & Hall).
      assert (Hd1 : depth (nth_entry es mn1) <= depth (nth_entry es mn) /\
                    depth (nth_entry es mn1) <= depth p).
      { unfold mn1. destruct (Z.ltb_spec (depth p) (depth (nth_entry es mn)));
          rewrite ?Hnp; lia. }
      assert (Hd2 : depth (nth_entry es mx) <= depth (nth_entry es mx1) /\
                    depth p <= depth (nth_entry es mx1)).
      { unfold mx1. destruct (Z.gtb_spec (depth p) (depth (nth_entry es mx)));
          rewrite ?Hnp; lia. }
      split; [|split; [|split; [|split]]].
      * destruct Hmn' as [->|H]; [|right; lia].
        unfold mn1. destruct (_ <? _); [right; lia|left; reflexivity].
      * destruct Hmx' as [->|H]; [|right; lia].
        unfold mx1. destruct (_ >? _); [right; lia|left; reflexivity].
      * lia.
      * lia.
      * intros j Hj. destruct (Nat.eq_dec j i) as [->|Hne]; [rewrite Hnp; lia|].
        apply Hall. lia.
Qed.

(** X15. In a series whose entry times are in order, the indices that
    [analyze_plot_info_minmax] stores for an entry are those of a shallowest
    and of a deepest entry among all entries within 270 seconds of it:
    both indices are inside the series and inside that window, and no
    entry of the window is shallower than the one at [min] or deeper than
    the one at [max]. *)
Theorem analyze_plot_info_minmax_spec (es : list plot_data) (i : nat) :
  nondecreasing (secs es) -> (i < List.length es)%nat ->
  let near j := sec (nth_entry es i) - 270 <= sec (nth_entry es j) <= sec (nth_entry es i) + 270 in
  let '(mn, mx) := analyze_plot_info_minmax es i in
  (mn < List.length es)%nat /\ (mx < List.length es)%nat /\ near mn /\ near mx /\
  forall j, (j < List.length es)%nat -> near j ->
    depth (nth_entry es mn) <= depth (nth_entry es j) <= depth (nth_entry es mx).
Proof.
  intros Hs Hi near. unfold analyze_plot_info_minmax.
  set (start := sec (nth_entry es i) - HALF_INTERVAL).
  set (end_ := sec (nth_entry es i) + HALF_INTERVAL).
  destruct (go_back_to_spec es start i) as (Hfi & Hback & Hbefore).
  set (f := go_back_to es start i) in *.
  destruct (go_forward_to_spec es end_ (drop f es) f f f eq_refl ltac:(lia) ltac:(lia) ltac:(lia))
    as (l & Hl & Hin & Hout & Hres).
  destruct (go_forward_to es (drop f es) end_ f f f) as [mn mx].
  destruct Hres as (Hmn & Hmx & _ & _ & Hall).
  assert (Hil : (i < l)%nat).
  { destruct (Nat.lt_ge_cases i l) as [H|H]; [exact H|]. exfalso.
    specialize (Hout ltac:(lia)).
    pose proof (sorted_nth es l i Hs H Hi). unfold end_, HALF_INTERVAL in Hout. lia. }
  assert (Hwin : forall m, (f <= m < l)%nat -> near m).
  { intros m Hm. unfold near. specialize (Hin m Hm). unfold end_, HALF_INTERVAL in Hin.
    split; [|lia].
    destruct (Nat.lt_ge_cases m i) as [Hlt|Hge].
    - specialize (Hback m ltac:(lia)). unfold start, HALF_INTERVAL in Hback. lia.
    - pose proof (sorted_nth es i m Hs Hge ltac:(lia)). lia. }
  assert (Hmn' : (f <= mn < l)%nat) by (destruct Hmn as [->|H]; lia).
  assert (Hmx' : (f <= mx < l)%nat) by (destruct Hmx as [->|H]; lia).
  split; [lia|]. split; [lia|]. split; [apply Hwin, Hmn'|]. split; [apply Hwin, Hmx'|].
  intros j Hj Hnear. apply Hall. unfold near in Hnear. split.
  - destruct (Nat.le_gt_cases f j) as [H|H]; [exact H|]. exfalso.
    specialize (Hbefore ltac:(lia)).
    pose proof (sorted_nth es j (f - 1) Hs ltac:(lia) ltac:(lia)).
    unfold start, HALF_INTERVAL in Hbefore. lia.
  - destruct (Nat.lt_ge_cases j l) as [H|H]; [exact H|]. exfalso.
    specialize (Hout ltac:(lia)).
    pose proof (sorted_nth es l j Hs H Hj). unfold end_, HALF_INTERVAL in Hout. lia.
Qed.

Section Analyze.

(** The integer values of the labels: [velocity_t] is an enumeration, and
    the code compares [entry->velocity < FAST]. *)
Variable rank : velocity_t -> Z.

(** Speed and label of entry [i >= 2]; [None] stands for a division by
    zero. *)
Definition speed_at (es : list plot_data) (i : nat) : option (Z * velocity_t) :=
  let e0 := nth_entry es i in
  let e1 := nth_entry es (i - 1) in
  if negb (sec e0 - sec e1 =? 0) then
    let speed_ := Z.quot (depth e0 - depth e1) (sec e0 - sec e1) in
    let v := velocity speed_ in
    if (sec e0 - sec e1 <? 15) && (rank v <? rank FAST) then
      let ep := nth_entry es (past_index es (sec e0) (i - 2)) in
      if sec e0 - sec ep =? 0 then None
      else Some (speed_, velocity (Z.quot (depth e0 - depth ep) (sec e0 - sec ep)))
    else Some (speed_, v)
  else Some (0, STABLE).

(** "5-point triangular smooth". *)
Definition smooth_at (es : list plot_data) (i : nat) : Z :=
  let d k := depth (nth_entry es k) in
  Z.quot (d (i - 2)%nat + 2 * d (i - 1)%nat + 3 * d i + 2 * d (i + 1)%nat + d (i + 2)%nat + 4) 9.

(** What the two loops of [analyze_plot_info] leave in entry [i]. *)
Definition analyze_at (es : list plot_data) (old : analysis.t) (i : nat) : option analysis.t :=
  let nr := List.length es in
  let '(min_, max_) := analyze_plot_info_minmax es i in
  if (i <? 2)%nat then
    Some {| analysis.smoothed := analysis.smoothed old; analysis.speed := analysis.speed old;
            analysis.velocity := analysis.velocity old;
            analysis.min := min_; analysis.max := max_ |}
  else
    match speed_at es i with
    | None => None
    | Some (speed_, v) =>
      Some {| analysis.smoothed :=
                if (i + 2 <? nr)%nat then smooth_at es i else analysis.smoothed old;
              analysis.speed := speed_; analysis.velocity := v;
              analysis.min := min_; analysis.max := max_ |}
    end.

(** [analyze_plot_info]: the analysis fields of all entries after the call,
    [olds] being their values before. *)
Definition analyze_plot_info (es : list plot_data) (olds : list analysis.t)
    : option (list analysis.t) :=
  mapM (fun i => analyze_at es (default (analysis.mk 0 0 STABLE 0 0) (olds !! i)) i)
       (seq 0 (List.length es)).

Lemma past_index_le (es : list plot_data) (sec_i : Z) (k : nat) :
  (past_index es sec_i k <= k)%nat.
Proof.
  induction k as [|k IH]; cbn [past_index]; [lia|].
  destruct (_ <? 15); lia.
Qed.

Lemma speed_at_sorted (es : list plot_data) (i : nat) :
  nondecreasing (secs es) -> (2 <= i)%nat -> (i < List.length es)%nat ->
  is_Some (speed_at es i).
Proof.
  intros Hs H2 Hi. unfold speed_at.
  destruct (Z.eqb_spec (sec (nth_entry es i) - sec (nth_entry es (i - 1))) 0) as [Hz|Hnz];
    cbn [negb]; [eexists; reflexivity|].
  destruct (_ && _); [|eexists; reflexivity].
  pose proof (past_index_le es (sec (nth_entry es i)) (i - 2)) as Hk.
  pose proof (sorted_nth es (i - 1) i Hs ltac:(lia) Hi) as H1.
  pose proof (sorted_nth es (past_index es (sec (nth_entry es i)) (i - 2)) (i - 1) Hs
                ltac:(lia) ltac:(lia)) as Hp.
  destruct (Z.eqb_spec (sec (nth_entry es i)
                        - sec (nth_entry es (past_index es (sec (nth_entry es i)) (i - 2)))) 0);
    [lia|eexists; reflexivity].
Qed.

(** X16. In a series whose entry times are in order [analyze_plot_info]
    never divides by zero: the speed is only computed when the entry is
    later than the one before it, and the earlier entry that the label of
    a short step is taken from is then earlier as well.  The call returns
    the analysis of every entry. *)
Theorem analyze_plot_info_total (es : list plot_data) (olds : list analysis.t) :
  nondecreasing (secs es) ->
  exists out, analyze_plot_info es olds = Some out /\ List.length out = List.length es.
Proof.
  intros Hs. unfold analyze_plot_info.
  destruct (mapM_is_Some_2
              (fun i => analyze_at es (default (analysis.mk 0 0 STABLE 0 0) (olds !! i)) i)
              (seq 0 (List.length es))) as [out Hout].
  - apply Forall_forall. intros i Hi. apply elem_of_seq in Hi. unfold compose, analyze_at.
    destruct (analyze_plot_info_minmax es i) as [mn mx].
    destruct (Nat.ltb_spec i 2) as [H2|H2]; [eexists; reflexivity|].
    destruct (speed_at_sorted es i Hs H2 ltac:(lia)) as [[sp v] ->]. eexists; reflexivity.
  - exists out. split; [exact Hout|].
    apply length_mapM in Hout. rewrite length_seq in Hout. lia.
Qed.

Lemma analyze_plot_info_lookup (es : list plot_data) (olds out : list analysis.t)
    (i : nat) (a : analysis.t) :
  analyze_plot_info es olds = Some out -> out !! i = Some a ->
  analyze_at es (default (analysis.mk 0 0 STABLE 0 0) (olds !! i)) i = Some a /\
  (i < List.length es)%nat.
Proof.
  intros Hout Ha. unfold analyze_plot_info in Hout. apply mapM_Some_1 in Hout.
  destruct (Forall2_lookup_r _ _ _ _ _ Hout Ha) as (x & Hx & Hfx).
  apply lookup_seq in Hx as [-> Hlt]. split; [exact Hfx|exact Hlt].
Qed.

(** X17. The smoothed depth stays within the depths it is made of: for an
    entry with two entries on either side, the 5-point triangular smooth
    lies between the least and the greatest of the five depths, when these
    are not negative. *)
Theorem analyze_plot_info_smoothed (es : list plot_data) (olds out : list analysis.t)
    (i : nat) (a : analysis.t) (lo hi : Z) :
  analyze_plot_info es olds = Some out ->
  out !! i = Some a ->
  (2 <= i)%nat -> (i + 2 < List.length es)%nat ->
  0 <= lo ->
  (forall k, (i - 2 <= k <= i + 2)%nat -> lo <= depth (nth_entry es k) <= hi) ->
  lo <= analysis.smoothed a <= hi.
Proof.
  intros Hout Ha H2 Hlen Hlo Hd.
  destruct (analyze_plot_info_lookup es olds out i a Hout Ha) as (Hat & _).
  unfold analyze_at in Hat. destruct (analyze_plot_info_minmax es i) as [mn mx].
  destruct (Nat.ltb_spec i 2) as [H|_]; [lia|].
  destruct (speed_at es i) as [[sp v]|]; [|discriminate].
  injection Hat as <-. cbn [analysis.smoothed].
  destruct (Nat.ltb_spec (i + 2) (List.length es)) as [_|H]; [|lia].
  unfold smooth_at.
  pose proof (Hd (i - 2)%nat ltac:(lia)). pose proof (Hd (i - 1)%nat ltac:(lia)).
  pose proof (Hd i ltac:(lia)). pose proof (Hd (i + 1)%nat ltac:(lia)).
  pose proof (Hd (i + 2)%nat ltac:(lia)).
  set (sum := _ + 4). assert (Hsum : 9 * lo + 4 <= sum <= 9 * hi + 4) by (unfold sum; lia).
  rewrite Z.quot_div_nonneg by lia.
  pose proof (Z.div_mod sum 9 ltac:(lia)). pose proof (Z.mod_pos_bound sum 9 ltac:(lia)).
  lia.
Qed.

End Analyze.

(** The series of [short_dive]: times 0 0 0 10 20 25 30 31 32, depths
    0 0 0 1000 2000 2500 3000 0 0. *)
Definition short_series : list plot_data :=
  default [] (populate_plot_entries 2 interpolate true short_dive 30).

Definition enum_rank (v : velocity_t) : Z := severity v.

Example short_series_analysis :
  option_map (map (fun a => (analysis.smoothed a, analysis.speed a, analysis.velocity a,
                             analysis.min a, analysis.max a)))
    (analyze_plot_info enum_rank short_series [])
  = Some [(0, 0, STABLE, 0%nat, 6%nat); (0, 0, STABLE, 0%nat, 6%nat);
          (444, 0, STABLE, 0%nat, 6%nat); (1056, 100, SLOW, 0%nat, 6%nat);
          (1778, 100, SLOW, 0%nat, 6%nat); (2056, 100, SLOW, 0%nat, 6%nat);
          (1778, 100, SLOW, 0%nat, 6%nat); (0, -3000, CRAZY, 0%nat, 6%nat);
          (0, 0, SLOW, 0%nat, 6%nat)].
Proof. vm_compute. reflexivity. Qed.

Lemma short_series_secs : secs short_series = [0; 0; 0; 10; 20; 25; 30; 31; 32].
Proof. vm_compute. reflexivity. Qed.

Lemma short_series_ordered : nondecreasing (secs short_series).
Proof. rewrite short_series_secs. unfold nondecreasing. repeat constructor; lia. Qed.

Lemma analyze_plot_info_minmax_spec_witness :
  analyze_plot_info_minmax short_series 4 = (0%nat, 6%nat) /\
  forall j, (j < 9)%nat ->
    depth (nth_entry short_series 0) <= depth (nth_entry short_series j)
    <= depth (nth_entry short_series 6).
Proof.
  split; [vm_compute; reflexivity|].
  pose proof (analyze_plot_info_minmax_spec short_series 4 short_series_ordered
                ltac:(vm_compute; lia)) as H.
  cbv zeta in H.
  replace (analyze_plot_info_minmax short_series 4) with (0%nat, 6%nat) in H
    by (vm_compute; reflexivity).
  destruct H as (_ & _ & _ & _ & H). intros j Hj. apply H.
  - vm_compute. vm_compute in Hj. exact Hj.
  - do 9 (destruct j as [|j]; [vm_compute; split; discriminate|]). lia.
Defined.

Lemma analyze_plot_info_total_witness :
  exists out, analyze_plot_info enum_rank short_series [] = Some out /\
    List.length out = List.length short_series.
Proof. apply (analyze_plot_info_total enum_rank short_series []), short_series_ordered. Defined.

Lemma analyze_plot_info_smoothed_witness :
  exists out a, analyze_plot_info enum_rank short_series [] = Some out /\
    out !! 4%nat = Some a /\ 0 <= analysis.smoothed a <= 3000.
Proof.
  eexists. eexists. split; [vm_compute; reflexivity|]. split; [reflexivity|].
  eapply (analyze_plot_info_smoothed enum_rank short_series [] _ 4 _ 0 3000).
  - vm_compute. reflexivity.
  - reflexivity.
  - lia.
  - vm_compute. lia.
  - lia.
  - intros k Hk.
    do 7 (destruct k as [|k]; [vm_compute; split; discriminate|]). lia.
Defined.

End Analyze.

(** ** Finding the entry under the cursor ([get_plot_details_new]) *)

Module Details.
Import Densify.

(** The loop [for (i = 2; i < pi->nr - 2; i++) { entry = pi->entry + i;
    if (entry->sec >= time) break; }]: [todo] holds the entries from [i] on,
    [entry] is the index of the entry looked at last, [None] for the null
    pointer. *)
Fixpoint details_loop (todo : list plot_data) (nr : nat) (time : Z) (i : nat)
    (entry : option nat) : option nat :=
  match todo with
  | [] => entry
  | e :: todo' =>
    if (i + 2 <? nr)%nat then
      if sec e >=? time then Some i else details_loop todo' nr time (S i) (Some i)
    else entry
  end.

(** [get_plot_details_new]: the index of the entry returned, [None] for
    the null pointer.  (The text written to the buffer by [plot_string] is
    not modelled.) *)
Definition get_plot_details_new (es : list plot_data) (time : Z) : option nat :=
  details_loop (drop 2 es) (List.length es) time 2 None.

Lemma details_loop_spec (es : list plot_data) (time : Z) :
  forall (todo : list plot_data) (i : nat) (entry : option nat),
    todo = drop i es -> (2 <= i)%nat ->
    (entry = None -> i = 2%nat) ->
    (forall k, entry = Some k -> S k = i /\ (2 <= k)%nat /\ (k + 2 < List.length es)%nat) ->
    match details_loop todo (List.length es) time i entry with
    | None => (List.length es <= 4)%nat /\ entry = None
    | Some k =>
      (2 <= k)%nat /\ (k + 2 < List.length es)%nat /\
      (forall j e, (i <= j < k)%nat -> es !! j = Some e -> sec e < time) /\
      ((exists e, es !! k = Some e /\ time <= sec e /\ (i <= k)%nat) \/
       (k + 3 = List.length es)%nat)
    end.
Proof.
  intros todo. induction todo as [|e todo IH]; intros i entry Htodo Hi Hnone Hsome.
  - cbn [details_loop].
    assert (Hlen : (List.length es <= i)%nat).
    { apply (f_equal (@List.length _)) in Htodo. rewrite length_drop in Htodo.
      simpl in Htodo. lia. }
    destruct entry as [k|].
    + destruct (Hsome k eq_refl) as (Hk & H2 & Hk2). lia.
    + specialize (Hnone eq_refl). split; [lia|reflexivity].
  - assert (He : es !! i = Some e).
    { pose proof (lookup_drop es i 0) as H. rewrite <- Htodo, Nat.add_0_r in H.
      symmetry. exact H. }
    assert (Hrest : todo = drop (S i) es).
    { replace (S i) with (i + 1)%nat by lia. rewrite <- drop_drop, <- Htodo. reflexivity. }
    assert (Hlt : (i < List.length es)%nat) by (eapply lookup_lt_Some, He).
    cbn [details_loop]. destruct (Nat.ltb_spec (i + 2) (List.length es)) as [Hin|Hout].
    + destruct (Z.geb_spec (sec e) time) as [Hge|Hlt'].
      * split; [exact Hi|]. split; [exact Hin|]. split; [intros; lia|].
        left. exists e. split; [exact He|]. split; lia.
      * assert (Hprev : forall k, Some i = Some k ->
                  S k = S i /\ (2 <= k)%nat /\ (k + 2 < List.length es)%nat).
        { intros k Hk. injection Hk as <-. lia. }
        specialize (IH (S i) (Some i) Hrest ltac:(lia) ltac:(discriminate) Hprev).
        destruct (details_loop todo (List.length es) time (S i) (Some i)) as [k|].
        -- destruct IH as (H2 & Hk2 & Hbefore & Hfound).
           split; [exact H2|]. split; [exact Hk2|]. split.
           ++ intros j e' Hj Hj'. destruct (Nat.eq_dec j i) as [->|Hne].
              ** rewrite He in Hj'. injection Hj' as <-. exact Hlt'.
              ** apply (Hbefore j e' ltac:(lia) Hj').
           ++ destruct Hfound as [(e' & He' & Hsec & Hle)|Hlast]; [left|right; exact Hlast].
              exists e'. split; [exact He'|]. split; lia.
        -- destruct IH as (_ & Habs). discriminate.
    + destruct entry as [k|].
      * destruct (Hsome k eq_refl) as (Hk & H2 & Hk2).
        split; [exact H2|]. split; [exact Hk2|]. split; [intros; lia|]. right. lia.
      * specialize (Hnone eq_refl). split; [lia|reflexivity].
Qed.

(** X18. [get_plot_details_new] never returns one of the two padding
    entries at either end: the result is the null pointer exactly when the
    series has no more than these four entries, and otherwise it is the
    first entry from index 2 on whose time is at least the time asked for,
    or the last entry before the final padding (index [nr - 3]) when every
    entry of that range is earlier. *)
Theorem get_plot_details_new_spec (es : list plot_data) (time : Z) :
  match get_plot_details_new es time with
  | None => (List.length es <= 4)%nat
  | Some k =>
    (4 < List.length es)%nat /\ (2 <= k)%nat /\ (k + 2 < List.length es)%nat /\
    (forall j e, (2 <= j < k)%nat -> es !! j = Some e -> sec e < time) /\
    ((exists e, es !! k = Some e /\ time <= sec e) \/ (k + 3 = List.length es)%nat)
  end.
Proof.
  unfold get_plot_details_new.
  pose proof (details_loop_spec es time (drop 2 es) 2 None eq_refl ltac:(lia)
                ltac:(reflexivity) ltac:(discriminate)) as H.
  destruct (details_loop (drop 2 es) (List.length es) time 2 None) as [k|].
  - destruct H as (H2 & Hk2 & Hbefore & Hfound).
    split; [lia|]. split; [exact H2|]. split; [exact Hk2|]. split; [exact Hbefore|].
    destruct Hfound as [(e & He & Hsec & _)|Hlast]; [left; exists e; tauto|right; exact Hlast].
  - tauto.
Qed.

End Details.

(** ** More on the entry densifier *)

Module DensifyFacts.
Import CInt Densify.

Section Facts.

Variable MAX_CYLINDERS : nat.
Variable interp : Z -> Z -> Z -> Z -> Z.

(** *** Every event has an entry *)

(** Each of the events [evs] has an entry at its time in [es]. *)
Definition covered (es : list plot_data) (evs : list event.t) : Prop :=
  Forall (fun e => event.time e ∈ secs es) evs.

Lemma covered_grow es added evs : covered es evs -> covered (es ++ added) evs.
Proof.
  intros H. eapply Forall_impl; [exact H|]. simpl. intros e He.
  rewrite secs_app. apply elem_of_app. left. exact He.
Qed.

Lemma covered_app es evs1 evs2 : covered es evs1 -> covered es evs2 -> covered es (evs1 ++ evs2).
Proof. intros H1 H2. apply Forall_app. split; assumption. Qed.

Lemma elem_of_secs_INSERT_ENTRY es t d sc : t ∈ secs (INSERT_ENTRY MAX_CYLINDERS es t d sc).
Proof. rewrite secs_INSERT_ENTRY. apply elem_of_app. right. apply list_elem_of_singleton. reflexivity. Qed.

Lemma add_events_before_cover limit lt ld depth_ delta sc evs es evs' es' :
  add_events_before MAX_CYLINDERS interp limit lt ld depth_ delta sc evs es = (evs', es') ->
  exists consumed, evs = consumed ++ evs' /\ covered es' consumed.
Proof.
  revert es. induction evs as [|e evs IH]; intros es Heq; simpl in Heq.
  - injection Heq as <- <-. exists []. split; [reflexivity|constructor].
  - destruct (event.time e <? limit).
    + pose proof Heq as Hadd. apply add_events_before_added in Hadd as (added & -> & _).
      apply IH in Heq as (consumed & -> & Hcov).
      exists (e :: consumed). split; [reflexivity|]. constructor; [|exact Hcov].
      rewrite secs_app. apply elem_of_app. left. apply elem_of_secs_INSERT_ENTRY.
    + injection Heq as <- <-. exists []. split; [reflexivity|constructor].
Qed.

Lemma skip_events_at_cover t evs :
  exists consumed, evs = consumed ++ skip_events_at t evs /\
    Forall (fun e => event.time e = t) consumed.
Proof.
  induction evs as [|e evs IH]; simpl.
  - exists []. split; [reflexivity|constructor].
  - destruct (Z.eqb_spec (event.time e) t) as [He|He].
    + destruct IH as (consumed & Heq & Hall). exists (e :: consumed).
      split; [simpl; f_equal; exact Heq|constructor; assumption].
    + exists []. split; [reflexivity|constructor].
Qed.

Lemma skipped_covered t es consumed :
  t ∈ secs es -> Forall (fun e => event.time e = t) consumed -> covered es consumed.
Proof.
  intros Ht H. eapply Forall_impl; [exact H|]. simpl. intros e ->. exact Ht.
Qed.

Lemma raster_loop_cover fuel offset maxtime lt ld depth_ delta sc evs es evs' es' :
  raster_loop MAX_CYLINDERS interp fuel offset maxtime lt ld depth_ delta sc evs es
  = (evs', es') ->
  exists consumed, evs = consumed ++ evs' /\ covered es' consumed.
Proof.
  revert offset evs es.
  induction fuel as [|fuel IH]; intros offset evs es Heq; simpl in Heq.
  - injection Heq as <- <-. exists []. split; [reflexivity|constructor].
  - destruct (offset <? delta);
      [|injection Heq as <- <-; exists []; split; [reflexivity|constructor]].
    destruct (lt + offset >? maxtime);
      [injection Heq as <- <-; exists []; split; [reflexivity|constructor]|].
    destruct (add_events_before MAX_CYLINDERS interp (lt + offset) lt ld depth_ delta sc evs es)
      as [evs1 es1] eqn:E1.
    apply add_events_before_cover in E1 as (c1 & -> & Hc1).
    destruct (skip_events_at_cover (lt + offset) evs1) as (c2 & Hc2 & Hall2).
    pose proof Heq as Hadd. apply raster_loop_added in Hadd as (added & -> & _).
    apply IH in Heq as (c3 & Hc3 & Hcov3).
    exists (c1 ++ c2 ++ c3). split.
    + rewrite Hc2, Hc3 at 1. rewrite <- !app_assoc. reflexivity.
    + apply covered_app; [|apply covered_app; [|exact Hcov3]].
      * apply covered_grow. unfold INSERT_ENTRY. apply covered_grow. exact Hc1.
      * apply covered_grow. eapply skipped_covered; [|exact Hall2].
        apply elem_of_secs_INSERT_ENTRY.
Qed.

(** The invariant of the sample loop: the events already passed have
    their entries. *)
Definition passed (dc : divecomputer.t) (w : walk) : Prop :=
  exists consumed, divecomputer.events dc = consumed ++ ev w /\ covered (entries w) consumed.

Lemma process_sample_passed maxtime dc w s :
  passed dc w -> passed dc (process_sample MAX_CYLINDERS interp maxtime dc w s).
Proof.
  intros (c0 & Hev & Hcov). unfold passed, process_sample.
  destruct (clamp_time (lasttime w) (sample.time s)) as [time delta].
  destruct (raster_loop _ _ _ _ _ _ _ _ _ _ _ _) as [evs1 es1] eqn:E1.
  pose proof E1 as Hadd1. apply raster_loop_added in Hadd1 as (a1 & -> & _).
  apply raster_loop_cover in E1 as (c1 & Hc1 & Hcov1).
  destruct (add_events_before _ _ _ _ _ _ _ _ _ _) as [evs2 es2] eqn:E2.
  pose proof E2 as Hadd2. apply add_events_before_added in Hadd2 as (a2 & -> & _).
  apply add_events_before_cover in E2 as (c2 & -> & Hcov2).
  destruct (skip_events_at_cover time evs2) as (c3 & Hc3 & Hall3).
  cbn [entries ev].
  exists (c0 ++ c1 ++ c2 ++ c3). split.
  - rewrite Hev, Hc1. rewrite Hc3 at 1. rewrite <- !app_assoc. reflexivity.
  - repeat apply covered_app.
    + rewrite <- !app_assoc. apply covered_grow. exact Hcov.
    + rewrite <- app_assoc. apply covered_grow. exact Hcov1.
    + apply covered_grow. exact Hcov2.
    + eapply skipped_covered; [|exact Hall3].
      rewrite secs_app. apply elem_of_app. right. simpl.
      rewrite sec_sample_entry. apply list_elem_of_singleton. reflexivity.
Qed.

Lemma sample_loop_passed maxtime dc ss w :
  passed dc w -> passed dc (sample_loop MAX_CYLINDERS interp maxtime dc ss w).
Proof.
  revert w. induction ss as [|s ss IH]; intros w Hw; simpl; [exact Hw|].
  pose proof (process_sample_passed maxtime dc w s Hw) as Hw'.
  destruct (_ >? maxtime); [exact Hw'|]. apply IH, Hw'.
Qed.

Lemma initial_walk_passed dc : passed dc (initial_walk MAX_CYLINDERS dc).
Proof.
  unfold passed, initial_walk. cbn [ev entries].
  destruct (skip_events_at_cover 0 (divecomputer.events dc)) as (c & Hc & Hall).
  exists c. split; [exact Hc|]. eapply skipped_covered; [|exact Hall].
  simpl. apply elem_of_cons. left. reflexivity.
Qed.

Lemma remaining_events_cover evs lt es lt' es' :
  remaining_events MAX_CYLINDERS evs lt es = (lt', es') ->
  nondecreasing (secs es ++ times evs) -> last (secs es) = Some lt ->
  covered es' evs.
Proof.
  revert lt es. induction evs as [|e evs IH]; intros lt es Heq Hs Hl; simpl in Heq.
  - constructor.
  - destruct (Z.gtb_spec (event.time e) lt) as [Hgt|Hle].
    + pose proof Heq as Hadd. apply remaining_events_added in Hadd as (added & ->).
      constructor.
      * rewrite secs_app. apply elem_of_app. left. apply elem_of_secs_INSERT_ENTRY.
      * apply IH in Heq; [exact Heq| |].
        -- rewrite secs_INSERT_ENTRY, <- app_assoc. exact Hs.
        -- rewrite secs_INSERT_ENTRY. apply last_snoc.
    + pose proof Heq as Hadd. apply remaining_events_added in Hadd as (added & ->).
      constructor.
      * rewrite secs_app. apply elem_of_app. left.
        assert (Hlt : lt <= event.time e).
        { apply last_Some in Hl as (l' & Hl'). rewrite Hl', <- app_assoc in Hs.
          simpl in Hs. unfold nondecreasing in Hs.
          apply StronglySorted_app in Hs as (_ & _ & Hs).
          apply StronglySorted_inv in Hs as [_ Hall].
          apply Forall_cons in Hall as [H _]. exact H. }
        replace (event.time e) with lt by lia.
        apply last_Some in Hl as (l' & ->). apply elem_of_app. right.
        apply list_elem_of_singleton. reflexivity.
      * apply IH in Heq; [exact Heq| |exact Hl].
        simpl in Hs. eapply nondecreasing_drop. exact Hs.
Qed.

(** X19. Every event has an entry at its time.  When the events of the
    dive computer are in time order and none is before time 0, the series
    that [populate_plot_entries] produces holds, for each event, an entry
    whose time is the time of the event: the entry inserted for it, or the
    sample, raster or padding entry that the event coincides with. *)
Theorem populate_plot_entries_covers_events (calloc_ok : bool) (dc : divecomputer.t)
    (maxtime : Z) (es : list plot_data) :
  nondecreasing (times (divecomputer.events dc)) ->
  Forall (fun z => 0 <= z) (times (divecomputer.events dc)) ->
  populate_plot_entries MAX_CYLINDERS interp calloc_ok dc maxtime = Some es ->
  forall e, e ∈ divecomputer.events dc -> exists entry, entry ∈ es /\ sec entry = event.time e.
Proof.
  intros Hs Hb Heq e He. destruct calloc_ok; [|discriminate].
  rewrite populate_plot_entries_body in Heq. injection Heq as <-.
  pose proof (sample_loop_order MAX_CYLINDERS interp maxtime dc (divecomputer.sample dc)
                (initial_walk MAX_CYLINDERS dc)
                (initial_walk_order MAX_CYLINDERS interp dc Hs Hb)) as (Hs1 & _ & Hl1).
  pose proof (sample_loop_passed maxtime dc (divecomputer.sample dc)
                (initial_walk MAX_CYLINDERS dc) (initial_walk_passed dc))
    as (consumed & Hev & Hcov).
  unfold body in *.
  set (w := sample_loop MAX_CYLINDERS interp maxtime dc (divecomputer.sample dc)
              (initial_walk MAX_CYLINDERS dc)) in *.
  destruct (remaining_events MAX_CYLINDERS (ev w) (lasttime w) (entries w)) as [lt real] eqn:E.
  cbn [fst snd].
  pose proof E as Hadd. apply remaining_events_added in Hadd as (added & Hreal).
  apply remaining_events_cover in E; [|exact Hs1|exact Hl1].
  assert (Hall : covered (real ++ final_entries MAX_CYLINDERS lt) (divecomputer.events dc)).
  { rewrite Hev. apply covered_app; apply covered_grow; [|exact E].
    rewrite Hreal. apply covered_grow. exact Hcov. }
  unfold covered in Hall. rewrite Forall_forall in Hall. specialize (Hall e He).
  unfold secs in Hall. apply list_elem_of_In, in_map_iff in Hall as (entry & Hsec & Hin).
  exists entry. split; [apply list_elem_of_In, Hin|exact Hsec].
Qed.

(** *** The running sum of the depth *)

(** [running_sum] of [e2] is that of [e1] plus the area of the trapezium
    between the two entries. *)
Definition trapezium (e1 e2 : plot_data) : Prop :=
  running_sum e2 = running_sum e1 + Z.quot ((sec e2 - sec e1) * (depth e2 + depth e1)) 2.

Definition chained (es : list plot_data) : Prop :=
  forall k e1 e2, es !! k = Some e1 -> es !! S k = Some e2 -> trapezium e1 e2.

Lemma chained_snoc es e :
  es <> [] -> chained es -> trapezium (previous MAX_CYLINDERS es) e -> chained (es ++ [e]).
Proof.
  intros Hne Hch Hlast k e1 e2 H1 H2.
  destruct (Nat.lt_ge_cases (S k) (List.length es)) as [Hlt|Hge].
  - rewrite lookup_app_l in H1 by lia. rewrite lookup_app_l in H2 by lia.
    eapply Hch; eassumption.
  - assert (Hk : S k = List.length es).
    { apply lookup_lt_Some in H2. rewrite List.length_app in H2. simpl in H2. lia. }
    rewrite lookup_app_l in H1 by lia.
    rewrite lookup_app_r in H2 by lia. rewrite Hk, Nat.sub_diag in H2. injection H2 as <-.
    unfold previous in Hlast. rewrite last_lookup in Hlast.
    replace (Nat.pred (List.length es)) with k in Hlast by lia.
    rewrite H1 in Hlast. exact Hlast.
Qed.

Lemma running_sum_inserted_entry prev t d sc :
  running_sum (inserted_entry MAX_CYLINDERS prev t d sc)
  = running_sum prev + Z.quot ((t - sec prev) * (d + depth prev)) 2.
Proof. destruct prev; reflexivity. Qed.

Lemma running_sum_sample_entry dc s time prev lt :
  running_sum (sample_entry MAX_CYLINDERS dc s time prev lt)
  = running_sum prev + Z.quot ((time - sec prev) * (sample.depth s + depth prev)) 2.
Proof.
  unfold sample_entry.
  repeat match goal with |- context [if ?b then _ else _] => destruct b end; reflexivity.
Qed.

Lemma chained_INSERT_ENTRY es t d sc :
  es <> [] -> chained es ->
  chained (INSERT_ENTRY MAX_CYLINDERS es t d sc) /\ INSERT_ENTRY MAX_CYLINDERS es t d sc <> [].
Proof.
  intros Hne Hch. split; [|unfold INSERT_ENTRY; destruct es; discriminate].
  apply chained_snoc; [exact Hne|exact Hch|].
  unfold trapezium. rewrite running_sum_inserted_entry, sec_inserted_entry, depth_inserted_entry.
  reflexivity.
Qed.

Lemma add_events_before_chained limit lt ld depth_ delta sc evs es evs' es' :
  add_events_before MAX_CYLINDERS interp limit lt ld depth_ delta sc evs es = (evs', es') ->
  es <> [] -> chained es -> chained es' /\ es' <> [].
Proof.
  revert es. induction evs as [|e evs IH]; intros es Heq Hne Hch; simpl in Heq.
  - injection Heq as <- <-. tauto.
  - destruct (event.time e <? limit); [|injection Heq as <- <-; tauto].
    destruct (chained_INSERT_ENTRY es (event.time e)
                (interp ld depth_ (event.time e - lt) delta) sc Hne Hch) as [Hch' Hne'].
    eapply IH; eassumption.
Qed.

Lemma raster_loop_chained fuel offset maxtime lt ld depth_ delta sc evs es evs' es' :
  raster_loop MAX_CYLINDERS interp fuel offset maxtime lt ld depth_ delta sc evs es
  = (evs', es') ->
  es <> [] -> chained es -> chained es' /\ es' <> [].
Proof.
  revert offset evs es.
  induction fuel as [|fuel IH]; intros offset evs es Heq Hne Hch; simpl in Heq.
  - injection Heq as <- <-. tauto.
  - destruct (offset <? delta); [|injection Heq as <- <-; tauto].
    destruct (lt + offset >? maxtime); [injection Heq as <- <-; tauto|].
    destruct (add_events_before MAX_CYLINDERS interp (lt + offset) lt ld depth_ delta sc evs es)
      as [evs1 es1] eqn:E1.
    apply add_events_before_chained in E1 as [Hch1 Hne1]; [|exact Hne|exact Hch].
    destruct (chained_INSERT_ENTRY es1 (lt + offset) (interp ld depth_ offset delta) sc
                Hne1 Hch1) as [Hch2 Hne2].
    eapply IH; eassumption.
Qed.

Lemma process_sample_chained maxtime dc w s :
  entries w <> [] -> chained (entries w) ->
  chained (entries (process_sample MAX_CYLINDERS interp maxtime dc w s)) /\
  entries (process_sample MAX_CYLINDERS interp maxtime dc w s) <> [].
Proof.
  intros Hne Hch. unfold process_sample.
  destruct (clamp_time (lasttime w) (sample.time s)) as [time delta].
  destruct (raster_loop _ _ _ _ _ _ _ _ _ _ _ _) as [evs1 es1] eqn:E1.
  apply raster_loop_chained in E1 as [Hch1 Hne1]; [|exact Hne|exact Hch].
  destruct (add_events_before _ _ _ _ _ _ _ _ _ _) as [evs2 es2] eqn:E2.
  apply add_events_before_chained in E2 as [Hch2 Hne2]; [|exact Hne1|exact Hch1].
  cbn [entries]. split; [|destruct es2; discriminate].
  apply chained_snoc; [exact Hne2|exact Hch2|].
  unfold trapezium. rewrite running_sum_sample_entry, sec_sample_entry, depth_sample_entry.
  reflexivity.
Qed.

Lemma sample_loop_chained maxtime dc ss w :
  entries w <> [] -> chained (entries w) ->
  chained (entries (sample_loop MAX_CYLINDERS interp maxtime dc ss w)) /\
  entries (sample_loop MAX_CYLINDERS interp maxtime dc ss w) <> [].
Proof.
  revert w. induction ss as [|s ss IH]; intros w Hne Hch; simpl; [tauto|].
  destruct (process_sample_chained maxtime dc w s Hne Hch) as [Hch' Hne'].
  destruct (_ >? maxtime); [tauto|]. apply IH; assumption.
Qed.

Lemma remaining_events_chained evs lt es lt' es' :
  remaining_events MAX_CYLINDERS evs lt es = (lt', es') ->
  es <> [] -> chained es -> chained es'.
Proof.
  revert lt es. induction evs as [|e evs IH]; intros lt es Heq Hne Hch; simpl in Heq.
  - injection Heq as <- <-. exact Hch.
  - destruct (event.time e >? lt).
    + destruct (chained_INSERT_ENTRY es (event.time e) 0 0 Hne Hch) as [Hch' Hne'].
      eapply IH; eassumption.
    + eapply IH; eassumption.
Qed.

(** X20. The running sum of the depth is the sum of the trapezia between
    neighbouring entries.  In every series that [populate_plot_entries]
    produces the first entry has running sum 0 and, up to the last entry
    before the final padding, each entry has the running sum of the entry
    before it plus [(sec - sec_before) * (depth + depth_before) / 2]; this
    holds for sample entries and for the entries made for raster points
    and for events alike.  The two padding entries at the end have
    running sum 0. *)
Theorem populate_plot_entries_running_sum (calloc_ok : bool) (dc : divecomputer.t)
    (maxtime : Z) (es : list plot_data) :
  populate_plot_entries MAX_CYLINDERS interp calloc_ok dc maxtime = Some es ->
  (exists e0, es !! 0%nat = Some e0 /\ running_sum e0 = 0) /\
  (forall k e1 e2, (k + 3 < List.length es)%nat ->
     es !! k = Some e1 -> es !! S k = Some e2 -> trapezium e1 e2) /\
  (forall k e, (List.length es <= k + 2)%nat -> es !! k = Some e -> running_sum e = 0).
Proof.
  intros Heq. destruct calloc_ok; [|discriminate].
  rewrite populate_plot_entries_body in Heq. injection Heq as <-.
  destruct (sample_loop_chained maxtime dc (divecomputer.sample dc)
              (initial_walk MAX_CYLINDERS dc)) as [Hch Hne].
  { discriminate. }
  { intros k e1 e2 H1 H2. destruct k as [|[|k]]; [|discriminate|discriminate].
    injection H1 as <-. injection H2 as <-. reflexivity. }
  destruct (sample_loop_added MAX_CYLINDERS interp maxtime dc (divecomputer.sample dc)
              (initial_walk MAX_CYLINDERS dc)) as (a1 & Ha1).
  unfold body in *.
  set (w := sample_loop MAX_CYLINDERS interp maxtime dc (divecomputer.sample dc)
              (initial_walk MAX_CYLINDERS dc)) in *.
  destruct (remaining_events MAX_CYLINDERS (ev w) (lasttime w) (entries w)) as [lt real] eqn:E.
  cbn [fst snd].
  pose proof E as Hadd. apply remaining_events_added in Hadd as (a2 & Hreal).
  apply remaining_events_chained in E; [|exact Hne|exact Hch].
  assert (Hlen : List.length (real ++ final_entries MAX_CYLINDERS lt) = (List.length real + 2)%nat).
  { rewrite List.length_app. reflexivity. }
  split; [|split].
  - rewrite Hreal, Ha1. cbn [initial_walk entries]. eexists. split; [reflexivity|reflexivity].
  - intros k e1 e2 Hk H1 H2. rewrite Hlen in Hk.
    rewrite lookup_app_l in H1 by lia. rewrite lookup_app_l in H2 by lia.
    eapply E; eassumption.
  - intros k e Hk He. rewrite Hlen in Hk.
    rewrite lookup_app_r in He by lia.
    unfold final_entries in He.
    destruct (k - List.length real)%nat as [|[|n]]; [| |discriminate];
      injection He as <-; reflexivity.
Qed.

End Facts.

Lemma populate_plot_entries_covers_events_witness :
  exists es, populate_plot_entries 2 interpolate true short_dive 30 = Some es /\
    exists entry, entry ∈ es /\ sec entry = 25.
Proof.
  eexists. split; [reflexivity|].
  apply (populate_plot_entries_covers_events 2 interpolate true short_dive 30 _
           ltac:(unfold nondecreasing; simpl; repeat constructor)
           ltac:(simpl; repeat constructor; lia) eq_refl (plain_event 25)).
  simpl. apply elem_of_cons. left. reflexivity.
Defined.

Lemma populate_plot_entries_running_sum_witness :
  exists es, populate_plot_entries 2 interpolate true short_dive 30 = Some es /\
    map running_sum es = [0; 0; 0; 5000; 20000; 31250; 45000; 0; 0] /\
    forall k e1 e2, (k + 3 < List.length es)%nat ->
      es !! k = Some e1 -> es !! S k = Some e2 -> trapezium e1 e2.
Proof.
  eexists. split; [reflexivity|]. split; [vm_compute; reflexivity|].
  apply (populate_plot_entries_running_sum 2 interpolate true short_dive 30 _ eq_refl).
Defined.

End DensifyFacts.

(** ** What the scanner of the extrema guarantees ([calculate_max_limits_new]) *)

Module LimitsFacts.
Import CInt Densify Limits.

Section Facts.

Variable SURFACE_THRESHOLD : Z.

(** The maxima of [q] are at least those of [p]. *)
Definition below (p q : plot_info) : Prop :=
  maxdepth p <= maxdepth q /\ maxtime p <= maxtime q /\ maxpressure p <= maxpressure q /\
  maxhr p <= maxhr q /\ maxtemp p <= maxtemp q.

Lemma below_refl p : below p p.
Proof. unfold below. lia. Qed.

Lemma below_trans p q r : below p q -> below q r -> below p r.
Proof. unfold below. lia. Qed.

Lemma scan_cylinder_below pi c : below pi (scan_cylinder pi c).
Proof.
  unfold below, scan_cylinder. cbn [maxdepth maxtime maxpressure maxhr maxtemp].
  destruct (Z.gtb_spec (cylinder.start c) (maxpressure pi)); lia.
Qed.

Lemma scan_cylinder_holds pi c : cylinder.start c <= maxpressure (scan_cylinder pi c).
Proof.
  unfold scan_cylinder. cbn [maxpressure].
  destruct (Z.gtb_spec (cylinder.start c) (maxpressure pi)); lia.
Qed.

(** What a sample contributes to the maxima. *)
Definition holds_sample (s : sample.t) (pi : plot_info) : Prop :=
  sample.depth s <= maxdepth pi /\ fst (sample.pressure s) <= maxpressure pi /\
  sample.heartbeat s <= maxhr pi /\ sample.temperature s <= maxtemp pi /\
  (SURFACE_THRESHOLD < sample.depth s -> sample.time s <= maxtime pi).

Lemma scan_sample_below st s : below (fst st) (fst (scan_sample SURFACE_THRESHOLD st s)).
Proof.
  destruct st as [pi ld]. unfold below, scan_sample.
  cbn [fst maxdepth maxtime maxpressure maxhr maxtemp].
  repeat match goal with
         | |- context [?a >? ?b] => destruct (Z.gtb_spec a b)
         end; cbn [orb andb]; lia.
Qed.

Lemma scan_sample_holds st s : holds_sample s (fst (scan_sample SURFACE_THRESHOLD st s)).
Proof.
  destruct st as [pi ld]. unfold holds_sample, scan_sample.
  cbn [fst maxdepth maxtime maxpressure maxhr maxtemp].
  repeat match goal with
         | |- context [?a >? ?b] => destruct (Z.gtb_spec a b)
         end; cbn [orb andb]; lia.
Qed.

Lemma holds_sample_below s p q : holds_sample s p -> below p q -> holds_sample s q.
Proof. unfold holds_sample, below. intros H1 H2. repeat split; lia. Qed.

Lemma scan_samples_below ss st :
  below (fst st) (fst (fold_left (scan_sample SURFACE_THRESHOLD) ss st)).
Proof.
  revert st. induction ss as [|s ss IH]; intros st; simpl; [apply below_refl|].
  eapply below_trans; [apply scan_sample_below|apply IH].
Qed.

Lemma scan_samples_hold ss st s :
  s ∈ ss -> holds_sample s (fst (fold_left (scan_sample SURFACE_THRESHOLD) ss st)).
Proof.
  revert st. induction ss as [|x ss IH]; intros st Hin; [inversion Hin|].
  simpl. apply elem_of_cons in Hin as [->|Hin]; [|apply IH, Hin].
  eapply holds_sample_below; [apply scan_sample_holds|apply scan_samples_below].
Qed.

Lemma scan_event_below pi e : below pi (scan_event pi e).
Proof.
  unfold below, scan_event. cbn [maxdepth maxtime maxpressure maxhr maxtemp].
  destruct (Z.gtb_spec (event.time e) (maxtime pi)); lia.
Qed.

Lemma scan_events_below evs pi : below pi (fold_left scan_event evs pi).
Proof.
  revert pi. induction evs as [|e evs IH]; intros pi; simpl; [apply below_refl|].
  eapply below_trans; [apply scan_event_below|apply IH].
Qed.

Lemma scan_events_hold evs pi e :
  e ∈ evs -> event.time e <= maxtime (fold_left scan_event evs pi).
Proof.
  revert pi. induction evs as [|x evs IH]; intros pi Hin; [inversion Hin|].
  simpl. apply elem_of_cons in Hin as [->|Hin]; [|apply IH, Hin].
  pose proof (scan_events_below evs (scan_event pi x)) as (_ & H & _).
  assert (event.time x <= maxtime (scan_event pi x)); [|lia].
  unfold scan_event. cbn [maxtime]. destruct (Z.gtb_spec (event.time x) (maxtime pi)); lia.
Qed.

(** What a dive computer contributes. *)
Definition holds_dc (dc : divecomputer.t) (pi : plot_info) : Prop :=
  (forall e, e ∈ divecomputer.events dc -> event.time e <= maxtime pi) /\
  (forall s, s ∈ divecomputer.sample dc -> holds_sample s pi).

Lemma scan_dc_below pi dc : below pi (scan_dc SURFACE_THRESHOLD pi dc).
Proof.
  unfold scan_dc. eapply below_trans; [|apply scan_events_below].
  apply (scan_samples_below (divecomputer.sample dc) (pi, 0)).
Qed.

Lemma scan_dc_holds pi dc : holds_dc dc (scan_dc SURFACE_THRESHOLD pi dc).
Proof.
  unfold holds_dc, scan_dc. split.
  - intros e He. apply scan_events_hold, He.
  - intros s Hs. eapply holds_sample_below; [apply scan_samples_hold, Hs|].
    apply scan_events_below.
Qed.

Lemma holds_dc_below dc p q : holds_dc dc p -> below p q -> holds_dc dc q.
Proof.
  intros [He Hs] Hb. split.
  - intros e Hin. specialize (He e Hin). destruct Hb as (_ & H & _). lia.
  - intros s Hin. eapply holds_sample_below; [apply Hs, Hin|exact Hb].
Qed.

Lemma scan_dcs_below dcs pi : below pi (fold_left (scan_dc SURFACE_THRESHOLD) dcs pi).
Proof.
  revert pi. induction dcs as [|dc dcs IH]; intros pi; simpl; [apply below_refl|].
  eapply below_trans; [apply scan_dc_below|apply IH].
Qed.

Lemma scan_dcs_hold dcs pi dc :
  dc ∈ dcs -> holds_dc dc (fold_left (scan_dc SURFACE_THRESHOLD) dcs pi).
Proof.
  revert pi. induction dcs as [|x dcs IH]; intros pi Hin; [inversion Hin|].
  simpl. apply elem_of_cons in Hin as [->|Hin]; [|apply IH, Hin].
  eapply holds_dc_below; [apply scan_dc_holds|apply scan_dcs_below].
Qed.

Lemma scan_cylinders_below cs pi : below pi (fold_left scan_cylinder cs pi).
Proof.
  revert pi. induction cs as [|c cs IH]; intros pi; simpl; [apply below_refl|].
  eapply below_trans; [apply scan_cylinder_below|apply IH].
Qed.

Lemma scan_cylinders_hold cs pi c :
  c ∈ cs -> cylinder.start c <= maxpressure (fold_left scan_cylinder cs pi).
Proof.
  revert pi. induction cs as [|x cs IH]; intros pi Hin; [inversion Hin|].
  simpl. apply elem_of_cons in Hin as [->|Hin]; [|apply IH, Hin].
  pose proof (scan_cylinders_below cs (scan_cylinder pi x)) as (_ & _ & H & _).
  pose proof (scan_cylinder_holds pi x). lia.
Qed.

(** X21. The extrema that [calculate_max_limits_new] returns bound what
    they are meant to bound: [maxtime] is at least the time of every event
    of every dive computer scanned and of every sample deeper than the
    surface threshold; [maxdepth] is at least the maximum depth of the dive
    and the depth of every sample; [maxpressure], [maxhr] and [maxtemp] are
    at least the start pressure of every cylinder and the first pressure,
    heart rate and temperature of every sample; and the result is
    consistent: no maximum of time, pressure or heart rate is negative,
    [minpressure <= maxpressure] and [minhr <= maxhr]. *)
Theorem calculate_max_limits_new_bounds (d : dive.t) (given_dc : dc_ref) :
  let pi := calculate_max_limits_new SURFACE_THRESHOLD d given_dc in
  dive.maxdepth d <= maxdepth pi /\ dive.maxtemp d <= maxtemp pi /\
  0 <= maxtime pi /\ 0 <= maxpressure pi /\ 0 <= maxhr pi /\
  minpressure pi <= maxpressure pi /\ minhr pi <= maxhr pi /\
  (forall c, c ∈ dive.cylinder d -> cylinder.start c <= maxpressure pi) /\
  (forall dc, dc ∈ scanned d given_dc ->
     (forall e, e ∈ divecomputer.events dc -> event.time e <= maxtime pi) /\
     (forall s, s ∈ divecomputer.sample dc ->
        sample.depth s <= maxdepth pi /\ fst (sample.pressure s) <= maxpressure pi /\
        sample.heartbeat s <= maxhr pi /\ sample.temperature s <= maxtemp pi /\
        (SURFACE_THRESHOLD < sample.depth s -> sample.time s <= maxtime pi))).
Proof.
  intros pi. unfold pi, calculate_max_limits_new.
  set (start := {| maxdepth := dive.maxdepth d; maxtime := 0; maxpressure := 0;
                   minpressure := INT_MAX; minhr := INT_MAX; maxhr := 0;
                   mintemp := dive.mintemp d; maxtemp := dive.maxtemp d |}).
  set (p1 := fold_left scan_cylinder (dive.cylinder d) start).
  set (p2 := fold_left (scan_dc SURFACE_THRESHOLD) (scanned d given_dc) p1).
  pose proof (scan_cylinders_below (dive.cylinder d) start) as H1. fold p1 in H1.
  pose proof (scan_dcs_below (scanned d given_dc) p1) as H2. fold p2 in H2.
  pose proof (below_trans _ _ _ H1 H2) as H12.
  destruct H12 as (Hd & Ht & Hp & Hh & Htemp).
  change (maxdepth start) with (dive.maxdepth d) in Hd.
  change (maxtime start) with 0 in Ht.
  change (maxpressure start) with 0 in Hp.
  change (maxhr start) with 0 in Hh.
  change (maxtemp start) with (dive.maxtemp d) in Htemp.
  cbn [maxdepth maxtime maxpressure maxhr maxtemp minpressure minhr].
  split; [exact Hd|]. split; [exact Htemp|]. split; [exact Ht|]. split; [exact Hp|].
  split; [exact Hh|].
  split; [destruct (Z.gtb_spec (minpressure p2) (maxpressure p2)); lia|].
  split; [destruct (Z.gtb_spec (minhr p2) (maxhr p2)); lia|].
  split.
  - intros c Hc. pose proof (scan_cylinders_hold (dive.cylinder d) start c Hc) as Hcs.
    fold p1 in Hcs. destruct H2 as (_ & _ & H & _). lia.
  - intros dc Hdc. exact (scan_dcs_hold (scanned d given_dc) p1 dc Hdc).
Qed.

Lemma scan_samples_mintemp (m0 : Z) ss st :
  (m0 <> 0 \/ Forall (fun s => 0 <= sample.temperature s) ss) ->
  mintemp (fst st) = m0 ->
  mintemp (fst (fold_left (scan_sample SURFACE_THRESHOLD) ss st)) = m0.
Proof.
  revert st. induction ss as [|s ss IH]; intros st Hcase Hm; simpl; [exact Hm|].
  apply IH.
  - destruct Hcase as [H|H]; [left; exact H|right].
    apply Forall_cons in H as [_ H]. exact H.
  - destruct st as [pi ld]. unfold scan_sample. cbn [fst mintemp]. cbn [fst] in Hm.
    destruct (Z.eqb_spec (mintemp pi) 0) as [Hz|Hnz]; cbn [andb]; [|exact Hm].
    destruct (Z.ltb_spec (sample.temperature s) (mintemp pi)) as [Hlt|Hge]; [|exact Hm].
    exfalso. destruct Hcase as [H|H]; [congruence|].
    apply Forall_cons in H as [H _]. lia.
Qed.

Lemma scan_events_mintemp evs pi : mintemp (fold_left scan_event evs pi) = mintemp pi.
Proof. revert pi. induction evs as [|e evs IH]; intros pi; simpl; [reflexivity|]. rewrite IH. reflexivity. Qed.

Lemma scan_cylinders_mintemp cs pi : mintemp (fold_left scan_cylinder cs pi) = mintemp pi.
Proof. revert pi. induction cs as [|c cs IH]; intros pi; simpl; [reflexivity|]. rewrite IH. reflexivity. Qed.

Lemma scan_dcs_mintemp (m0 : Z) dcs pi :
  (m0 <> 0 \/ Forall (fun dc => Forall (fun s => 0 <= sample.temperature s)
                                       (divecomputer.sample dc)) dcs) ->
  mintemp pi = m0 ->
  mintemp (fold_left (scan_dc SURFACE_THRESHOLD) dcs pi) = m0.
Proof.
  revert pi. induction dcs as [|dc dcs IH]; intros pi Hcase Hm; simpl; [exact Hm|].
  apply IH.
  - destruct Hcase as [H|H]; [left; exact H|right].
    apply Forall_cons in H as [_ H]. exact H.
  - unfold scan_dc. rewrite scan_events_mintemp.
    apply (scan_samples_mintemp m0 (divecomputer.sample dc) (pi, 0)); [|exact Hm].
    destruct Hcase as [H|H]; [left; exact H|right].
    apply Forall_cons in H as [H _]. exact H.
Qed.

(** X22. The minimum temperature is taken from the dive, not from the
    samples: whenever the minimum temperature of the dive is set (not
    zero), or no sample has a temperature below zero, [mintemp] of the
    result is the minimum temperature of the dive as it was; a sample that
    is colder than that minimum does not lower it.  (The test in the
    source is [!mintemp && temperature < mintemp].) *)
Theorem calculate_max_limits_new_mintemp (d : dive.t) (given_dc : dc_ref) :
  (dive.mintemp d <> 0 \/
   Forall (fun dc => Forall (fun s => 0 <= sample.temperature s) (divecomputer.sample dc))
          (scanned d given_dc)) ->
  mintemp (calculate_max_limits_new SURFACE_THRESHOLD d given_dc) = dive.mintemp d.
Proof.
  intros Hcase. unfold calculate_max_limits_new. cbn [mintemp].
  apply scan_dcs_mintemp; [exact Hcase|]. apply scan_cylinders_mintemp.
Qed.

End Facts.

(** A dive whose minimum temperature is 290 K, with a sample at 280 K. *)
Definition cold_sample : sample.t :=
  {| sample.time := 10; sample.stoptime := 0; sample.ndl := 0; sample.tts := 0;
     sample.rbt := 0; sample.depth := 5000; sample.stopdepth := 0;
     sample.temperature := 280000;
     sample.pressure := (180000, 0); sample.setpoint := 0; sample.o2sensor := [0; 0; 0];
     sample.bearing := 0; sample.sensor := (0%nat, 0%nat); sample.cns := 0;
     sample.heartbeat := 0; sample.sac := 0; sample.in_deco := false |}.

Definition cold_dive : dive.t :=
  {| dive.dc := {| divecomputer.sample := [cold_sample]; divecomputer.events := [];
                   divecomputer.divemode := OC; divecomputer.no_o2sensors := 0 |};
     dive.next := [];
     dive.cylinder := [ {| cylinder.start := 200000; cylinder.end_ := 50000 |} ];
     dive.maxdepth := 5000; dive.mintemp := 290000; dive.maxtemp := 295000 |}.

Lemma calculate_max_limits_new_mintemp_witness :
  mintemp (calculate_max_limits_new 750 cold_dive (in_dive 0)) = 290000.
Proof.
  apply (calculate_max_limits_new_mintemp 750 cold_dive (in_dive 0)).
  left. discriminate.
Defined.

End LimitsFacts.

(** ** The time window of each cylinder *)

Module GasWindows.
Import CInt Densify GasPressure.

(** The "gaschange" events of a dive computer. *)
Definition gaschanges (evs : list event.t) : list event.t :=
  List.filter (fun e => String.eqb (event.name e) "gaschange") evs.

Lemma gaschange_loop_fold evs u :
  gaschange_loop evs u = fold_left gaschange_step (gaschanges evs) u.
Proof.
  revert u. unfold gaschanges. induction evs as [|e evs IH]; intros u; simpl; [reflexivity|].
  destruct (String.eqb (event.name e) "gaschange"); simpl; apply IH.
Qed.

(** The invariant of the event loop: no cylinder is first used after the
    time [now] of the event handled last, nor after its own last use. *)
Definition in_window (now : Z) (u : usage) : Prop :=
  List.length (first u) = List.length (last_ u) /\
  forall i, at_ (first u) i <= now /\ at_ (first u) i <= at_ (last_ u) i.

Lemma gaschange_step_window now u e :
  in_window now u -> now <= event.time e ->
  in_window (event.time e) (gaschange_step u e).
Proof.
  intros [Hlen Hinv] Hnow. unfold gaschange_step.
  destruct (Z.ltb_spec (event.gas_index e) 0) as [Hneg|Hpos].
  { split; [exact Hlen|]. intros i. destruct (Hinv i). lia. }
  set (c := Z.to_nat (event.gas_index e)).
  destruct (at_ (seen u) c =? 0); unfold in_window; simpl;
    (split; [rewrite ?length_insert; exact Hlen|]);
    intros i; destruct (Hinv i) as [H1 H2];
    rewrite !at_insert, ?length_insert;
    repeat match goal with
           | |- context [decide ?P] => destruct (decide P)
           end; lia.
Qed.

Lemma gaschange_steps_window evs now u :
  in_window now u ->
  nondecreasing (now :: times evs) ->
  exists now', in_window now' (fold_left gaschange_step evs u) /\
    now <= now' /\ (now' = now \/ now' ∈ times evs).
Proof.
  revert now u. induction evs as [|e evs IH]; intros now u Hinv Hs; simpl.
  - exists now. split; [exact Hinv|]. split; [lia|left; reflexivity].
  - unfold nondecreasing in Hs. simpl in Hs. apply StronglySorted_inv in Hs as [Hs Hall].
    apply Forall_cons in Hall as [He _].
    destruct (IH (event.time e) (gaschange_step u e)) as (now' & Hinv' & Hle & Hin).
    + apply (gaschange_step_window now); assumption.
    + exact Hs.
    + exists now'. split; [exact Hinv'|]. split; [lia|]. right.
      destruct Hin as [->|Hin]; [apply elem_of_cons; left; reflexivity|].
      apply elem_of_cons. right. exact Hin.
Qed.

Lemma target_index_mono (t1 t2 : Z) (es : list plot_data) :
  t1 <= t2 -> (target_index t1 es <= target_index t2 es)%nat.
Proof.
  intros Hle. induction es as [|e es IH]; [reflexivity|]. cbn [target_index].
  destruct (Z.geb_spec (sec e) t1) as [H1|H1]; [lia|].
  destruct (Z.geb_spec (sec e) t2) as [H2|H2]; [lia|].
  destruct es; [lia|]. lia.
Qed.

Section Windows.

Variable MAX_CYLINDERS : nat.
Variable explicit_first_cylinder : dive.t -> divecomputer.t -> nat.

Lemma at_replicate (n : nat) (v : Z) (i : nat) :
  at_ (replicate n v) i = if decide (i < n)%nat then v else 0.
Proof.
  unfold at_. destruct (decide (i < n)%nat) as [H|H].
  - rewrite lookup_replicate_2 by exact H. reflexivity.
  - destruct (replicate n v !! i) eqn:E; [|reflexivity].
    apply lookup_replicate in E as [_ E]. lia.
Qed.

(** X23. No cylinder is first used after it is last used.  When the
    "gaschange" events of the dive computer are in time order, with times
    from 0 to [INT_MAX], the window that [setup_gas_sensor_pressure] works
    out for each cylinder has its first-use time at or before its last-use
    time; so, in any series, the entry that gets the start pressure is not
    after the entry that gets the end pressure. *)
Theorem cylinder_windows_ordered (d : dive.t) (dc : divecomputer.t) (es : list plot_data)
    (i : nat) :
  nondecreasing (times (gaschanges (divecomputer.events dc))) ->
  Forall (fun t => 0 <= t <= INT_MAX) (times (gaschanges (divecomputer.events dc))) ->
  first_use MAX_CYLINDERS explicit_first_cylinder d dc i
  <= last_use MAX_CYLINDERS explicit_first_cylinder d dc i /\
  (target_index (first_use MAX_CYLINDERS explicit_first_cylinder d dc i) es
   <= target_index (last_use MAX_CYLINDERS explicit_first_cylinder d dc i) es)%nat.
Proof.
  intros Hs Hb.
  assert (Hwin : first_use MAX_CYLINDERS explicit_first_cylinder d dc i
                 <= last_use MAX_CYLINDERS explicit_first_cylinder d dc i).
  { unfold first_use, last_use, cylinder_windows. cbn [first last_].
    rewrite gaschange_loop_fold.
    set (u0 := {| prev := explicit_first_cylinder d dc;
                  seen := <[explicit_first_cylinder d dc := 1]> (replicate MAX_CYLINDERS 0);
                  first := replicate MAX_CYLINDERS 0;
                  last_ := replicate MAX_CYLINDERS INT_MAX |}).
    destruct (gaschange_steps_window (gaschanges (divecomputer.events dc)) 0 u0)
      as (now & [Hlen Hinv] & H0 & Hnow).
    - split; [simpl; rewrite !length_replicate; reflexivity|].
      intros j. simpl. rewrite !at_replicate. unfold INT_MAX.
      destruct (decide (j < MAX_CYLINDERS)%nat); lia.
    - unfold nondecreasing. constructor; [exact Hs|].
      eapply Forall_impl; [exact Hb|]. simpl. intros t Ht. lia.
    - assert (Hmax : now <= INT_MAX).
      { destruct Hnow as [->|Hin]; [unfold INT_MAX; lia|].
        rewrite Forall_forall in Hb. apply Hb in Hin. lia. }
      destruct (Hinv i) as [H1 H2]. rewrite at_insert.
      destruct (decide _); lia. }
  split; [exact Hwin|]. apply target_index_mono, Hwin.
Qed.

End Windows.

Lemma cylinder_windows_ordered_witness :
  first_use 3 starts_on_first three_gas_dive three_gas_dc 1
  <= last_use 3 starts_on_first three_gas_dive three_gas_dc 1.
Proof.
  assert (E : times (gaschanges (divecomputer.events three_gas_dc)) = [20; 40])
    by (vm_compute; reflexivity).
  apply (cylinder_windows_ordered 3 starts_on_first three_gas_dive three_gas_dc [] 1).
  - rewrite E. unfold nondecreasing. repeat constructor; lia.
  - rewrite E. repeat constructor; unfold INT_MAX; lia.
Defined.

End GasWindows.

(** ** The window of the consumption estimate ([have_pressures], [fill_sac]) *)

Module SacFacts.
Import CInt Densify Sac.

Section Facts.

Variable MAX_CYLINDERS : nat.
Variable SURFACE_THRESHOLD : Z.

Lemma bits_of_nat_inj (g1 g2 : Z) :
  (forall j : nat, Z.testbit g1 (Z.of_nat j) = Z.testbit g2 (Z.of_nat j)) -> g1 = g2.
Proof.
  intros H. apply Z.bits_inj'. intros n Hn.
  rewrite <- (Z2Nat.id n Hn). apply H.
Qed.

Lemma have_pressures_again (entry : plot_data) (gases : Z) :
  have_pressures MAX_CYLINDERS entry (have_pressures MAX_CYLINDERS entry gases)
  = have_pressures MAX_CYLINDERS entry gases.
Proof.
  apply bits_of_nat_inj. intros j. rewrite !testbit_have_pressures.
  destruct (Z.testbit gases (Z.of_nat j)), (j <? MAX_CYLINDERS)%nat,
    (GET_PRESSURE entry j =? 0); reflexivity.
Qed.

(** X24. [have_pressures] only ever clears bits: its result is a subset of
    the set of gases given, it keeps exactly the cylinders of the set that
    have a pressure in the entry, and applying it again to its own result
    changes nothing. *)
Theorem have_pressures_subset (entry : plot_data) (gases : Z) :
  Z.land (have_pressures MAX_CYLINDERS entry gases) gases
  = have_pressures MAX_CYLINDERS entry gases /\
  have_pressures MAX_CYLINDERS entry (have_pressures MAX_CYLINDERS entry gases)
  = have_pressures MAX_CYLINDERS entry gases /\
  (forall j : nat, (j < MAX_CYLINDERS)%nat ->
     Z.testbit (have_pressures MAX_CYLINDERS entry gases) (Z.of_nat j)
     = Z.testbit gases (Z.of_nat j) && negb (GET_PRESSURE entry j =? 0)).
Proof.
  split; [|split].
  - apply bits_of_nat_inj. intros j.
    rewrite Z.land_spec, !testbit_have_pressures.
    destruct (Z.testbit gases (Z.of_nat j)), (j <? MAX_CYLINDERS)%nat,
      (GET_PRESSURE entry j =? 0); reflexivity.
  - apply have_pressures_again.
  - intros j Hj. rewrite testbit_have_pressures.
    destruct (Nat.ltb_spec j MAX_CYLINDERS); [reflexivity|lia].
Qed.

(** *** The window around an entry *)

(** The tests that both loops of [fill_sac] make before they step from
    entry [j] to entry [j + 1] or back, apart from the test of the time. *)
Definition linked (es : list plot_data) (gases : Z) (j : nat) : Prop :=
  (depth (entry_at MAX_CYLINDERS es j) <? SURFACE_THRESHOLD)
  && (depth (entry_at MAX_CYLINDERS es (S j)) <? SURFACE_THRESHOLD) = false.

Lemma go_back_spec es time gases idx :
  let f := go_back MAX_CYLINDERS SURFACE_THRESHOLD es time gases idx in
  (f <= idx)%nat /\
  forall j, (f <= j < idx)%nat ->
    linked es gases j /\ time <= sec (entry_at MAX_CYLINDERS es j) /\
    have_pressures MAX_CYLINDERS (entry_at MAX_CYLINDERS es j) gases = gases.
Proof.
  induction idx as [|idx IH]; cbn [go_back]; [split; [lia|intros; lia]|].
  destruct ((depth (entry_at MAX_CYLINDERS es idx) <? SURFACE_THRESHOLD)
            && (depth (entry_at MAX_CYLINDERS es (S idx)) <? SURFACE_THRESHOLD)) eqn:Es;
    [split; [lia|intros; lia]|].
  destruct (Z.ltb_spec (sec (entry_at MAX_CYLINDERS es idx)) time) as [Ht|Ht];
    [split; [lia|intros; lia]|].
  destruct (Z.eqb_spec (have_pressures MAX_CYLINDERS (entry_at MAX_CYLINDERS es idx) gases) gases)
    as [Hp|Hp]; cbn [negb]; [|split; [lia|intros; lia]].
  destruct IH as [Hle Hall]. split; [lia|].
  intros j Hj. destruct (Nat.eq_dec j idx) as [->|Hne]; [|apply Hall; lia].
  split; [exact Es|]. split; [lia|exact Hp].
Qed.

Lemma go_forward_bounds fuel es time gases last :
  (last < List.length es)%nat ->
  (last <= go_forward MAX_CYLINDERS SURFACE_THRESHOLD fuel es time gases last
   < List.length es)%nat.
Proof.
  revert last. induction fuel as [|fuel IH]; intros last Hl; cbn [go_forward]; [lia|].
  destruct (Nat.ltb_spec (S last) (List.length es)) as [Hn|Hn]; [|lia].
  repeat match goal with |- context [if ?b then _ else _] => destruct b end; try lia.
  specialize (IH (S last) Hn). lia.
Qed.

Lemma go_forward_reaches fuel es time gases last target :
  (last <= target)%nat -> (target < List.length es)%nat -> (target - last <= fuel)%nat ->
  (forall j, (last <= j < target)%nat ->
     linked es gases j /\ sec (entry_at MAX_CYLINDERS es (S j)) <= time /\
     have_pressures MAX_CYLINDERS (entry_at MAX_CYLINDERS es (S j)) gases = gases) ->
  (target <= go_forward MAX_CYLINDERS SURFACE_THRESHOLD fuel es time gases last)%nat.
Proof.
  revert last. induction fuel as [|fuel IH]; intros last Hle Ht Hf Hok; cbn [go_forward]; [lia|].
  destruct (Nat.eq_dec last target) as [->|Hne].
  { pose proof (go_forward_bounds (S fuel) es time gases target Ht) as H.
    cbn [go_forward] in H. lia. }
  destruct (Hok last ltac:(lia)) as (Hlink & Hsec & Hhp).
  destruct (Nat.ltb_spec (S last) (List.length es)) as [Hn|Hn]; [|lia].
  unfold linked in Hlink. rewrite andb_comm in Hlink. rewrite Hlink.
  destruct (Z.gtb_spec (sec (entry_at MAX_CYLINDERS es (S last))) time); [lia|].
  rewrite Hhp, Z.eqb_refl. cbn [negb].
  apply IH; try lia. intros j Hj. apply Hok. lia.
Qed.

Lemma sorted_entry_at (es : list plot_data) (a b : nat) :
  nondecreasing (secs es) -> (a <= b)%nat -> (b < List.length es)%nat ->
  sec (entry_at MAX_CYLINDERS es a) <= sec (entry_at MAX_CYLINDERS es b).
Proof.
  intros Hs Hab Hb. unfold entry_at.
  destruct (lookup_lt_is_Some_2 es a ltac:(lia)) as [x Hx].
  destruct (lookup_lt_is_Some_2 es b Hb) as [y Hy]. rewrite Hx, Hy. cbn [default].
  apply (SeriesOrder.sorted_entries es a b x y Hs Hab Hx Hy).
Qed.

(** X25. The window that [fill_sac] averages over stays inside the
    series: for an entry [idx] of the series its two ends satisfy
    [first <= idx], [first <= last] and [last < nr], so [sac_between] reads
    no entry outside the series.  In a series whose entry times are in
    order, and for the set of gases that [fill_sac] uses (those with a
    pressure in the entry), the entry itself lies in the window:
    [first <= idx <= last]. *)
Theorem fill_sac_window_bounds (es : list plot_data) (idx : nat) (gases : Z) :
  (idx < List.length es)%nat ->
  let '(first, last) := window MAX_CYLINDERS SURFACE_THRESHOLD es idx gases in
  (first <= idx)%nat /\ (first <= last)%nat /\ (last < List.length es)%nat /\
  (nondecreasing (secs es) ->
   have_pressures MAX_CYLINDERS (entry_at MAX_CYLINDERS es idx) gases = gases ->
   (idx <= last)%nat).
Proof.
  intros Hidx. unfold window.
  set (time := sec (entry_at MAX_CYLINDERS es idx) - 30).
  destruct (go_back_spec es time gases idx) as [Hle Hback].
  set (f := go_back MAX_CYLINDERS SURFACE_THRESHOLD es time gases idx) in *.
  pose proof (go_forward_bounds (List.length es) es
                (sec (entry_at MAX_CYLINDERS es f) + 60) gases f ltac:(lia)) as Hfw.
  split; [exact Hle|]. split; [lia|]. split; [lia|].
  intros Hs Hhp. apply go_forward_reaches; try lia.
  intros j Hj. destruct (Hback j Hj) as (Hlink & Hsec & Hp).
  split; [exact Hlink|]. split.
  - pose proof (sorted_entry_at es (S j) idx Hs ltac:(lia) Hidx).
    destruct (Hback f ltac:(lia)) as (_ & Hf & _). unfold time in Hf. lia.
  - destruct (Nat.eq_dec (S j) idx) as [->|Hne]; [exact Hhp|].
    apply (Hback (S j)). lia.
Qed.

End Facts.

Lemma fill_sac_window_bounds_witness :
  window 2 750 steady_series 4 1 = (2%nat, 5%nat) /\
  (2 <= 4)%nat /\ (5 < List.length steady_series)%nat /\ (4 <= 5)%nat.
Proof.
  split; [vm_compute; reflexivity|].
  pose proof (fill_sac_window_bounds 2 750 steady_series 4 1 ltac:(simpl; lia)) as H.
  replace (window 2 750 steady_series 4 1) with (2%nat, 5%nat) in H by (vm_compute; reflexivity).
  destruct H as (H1 & _ & H3 & H4). split; [exact H1|]. split; [exact H3|].
  apply H4.
  - unfold nondecreasing. vm_compute. repeat constructor; discriminate.
  - vm_compute. reflexivity.
Defined.

End SacFacts.

(** ** The stages of [create_plot_info_new] together *)

Module Pipeline.
Import CInt Densify GasPressure Setpoints O2Values.

Section Stages.

(** The constants and helpers of the stages, as in the sections above. *)
Variable MAX_CYLINDERS : nat.
Variable explicit_first_cylinder : dive.t -> divecomputer.t -> nat.
Variable has_gaschange_event : dive.t -> divecomputer.t -> nat -> bool.
Variable depth_to_mbar : Z -> Z.
Variable SURFACE_THRESHOLD : Z.
Variable gas_volume : nat -> Z -> Z.
Variable depth_to_atm : Z -> Q.
Variable lrint_of_infinity : Z.
Variable gasmix : Type.
Variable gasmix_invalid : gasmix.
Variable same_gasmix : gasmix -> gasmix -> bool.
Variable cylinder_gasmix : nat -> gasmix.
Variable get_gasmix : Z -> list event.t -> gasmix -> gasmix * list event.t.

(** The calls that [create_plot_info_new] makes on the series that
    [populate_plot_entries] has built, up to [calculate_sac], when [fast] is
    set (so that [populate_pressure_information] is left out):
    [check_setpoint_events], [setup_gas_sensor_pressure], [fill_o2_values]
    and [calculate_sac].  The dive computer is threaded through, since the
    first call may change its dive mode. *)
Definition fast_stages (d : dive.t) (dc : divecomputer.t) (es : list plot_data)
    : divecomputer.t * list plot_data :=
  let '(dc, es) := check_setpoint_events dc es in
  let es := setup_gas_sensor_pressure MAX_CYLINDERS explicit_first_cylinder
              has_gaschange_event d dc es in
  let es := fill_o2_values depth_to_mbar dc es in
  (dc, Sac.calculate_sac MAX_CYLINDERS SURFACE_THRESHOLD gas_volume depth_to_atm
         lrint_of_infinity gasmix gasmix_invalid same_gasmix cylinder_gasmix get_gasmix es).

(** *** What the gas-pressure stage keeps *)

Section Keeps.

Variable B : Type.
Variable f : plot_data -> B.
Hypothesis f_pressure : forall cyl mbar e, f (set_SENSOR_PRESSURE cyl mbar e) = f e.

Lemma alter_keeps (g : plot_data -> plot_data) (i : nat) (es : list plot_data) :
  (forall e, f (g e) = f e) -> map f (alter g i es) = map f es.
Proof.
  intros Hg. revert i. induction es as [|e es IH]; intros i; [reflexivity|].
  destruct i as [|i]; simpl; [rewrite Hg; reflexivity|]. f_equal. apply IH.
Qed.

Lemma add_plot_pressure_keeps es time cyl p :
  map f (add_plot_pressure es time cyl p) = map f es.
Proof.
  unfold add_plot_pressure. destruct (_ <=? 0); [reflexivity|].
  apply alter_keeps. intros e. apply f_pressure.
Qed.

Lemma setup_gas_sensor_pressure_keeps d dc es :
  map f (setup_gas_sensor_pressure MAX_CYLINDERS explicit_first_cylinder
           has_gaschange_event d dc es)
  = map f es.
Proof.
  unfold setup_gas_sensor_pressure.
  generalize (seq 0 MAX_CYLINDERS). intros is_. revert es.
  induction is_ as [|i is_ IH]; intros es; [reflexivity|].
  cbn [fold_left]. rewrite IH. unfold write_cylinder.
  destruct (_ >=? 0); [|reflexivity]. rewrite !add_plot_pressure_keeps. reflexivity.
Qed.

End Keeps.

(** *** What the consumption stage keeps *)

Lemma calculate_sac_blank es :
  map Sac.blank
    (Sac.calculate_sac MAX_CYLINDERS SURFACE_THRESHOLD gas_volume depth_to_atm
       lrint_of_infinity gasmix gasmix_invalid same_gasmix cylinder_gasmix get_gasmix es)
  = map Sac.blank es.
Proof.
  unfold Sac.calculate_sac.
  generalize (seq 0 (List.length es)). intros is_.
  generalize (Sac.first_cursor gasmix gasmix_invalid). intros c.
  assert (H : forall st, map Sac.blank (fst st) = map Sac.blank es ->
            map Sac.blank
              (fst (fold_left
                      (Sac.sac_step MAX_CYLINDERS SURFACE_THRESHOLD gas_volume depth_to_atm
                         lrint_of_infinity gasmix same_gasmix cylinder_gasmix get_gasmix)
                      is_ st))
            = map Sac.blank es).
  { induction is_ as [|i is_ IH]; intros st Hst; [exact Hst|].
    cbn [fold_left]. apply IH. unfold Sac.sac_step. cbn [fst].
    rewrite Sac.fill_sac_blank. exact Hst. }
  apply (H (es, c)). reflexivity.
Qed.

Lemma blank_keeps (B : Type) (f : plot_data -> B) (es es' : list plot_data) :
  (forall e, f (Sac.blank e) = f e) ->
  map Sac.blank es' = map Sac.blank es -> map f es' = map f es.
Proof.
  intros Hf H. apply (f_equal (map f)) in H. rewrite !map_map in H.
  rewrite (map_ext _ f Hf es'), (map_ext _ f Hf es) in H. exact H.
Qed.

Lemma Forall_by_map (B : Type) (f : plot_data -> B) (P : B -> Prop) (es es' : list plot_data) :
  map f es' = map f es -> Forall (fun e => P (f e)) es -> Forall (fun e => P (f e)) es'.
Proof.
  revert es. induction es' as [|e' es' IH]; intros es Hmap Hall; [constructor|].
  destruct es as [|e es]; [discriminate|]. simpl in Hmap. injection Hmap as He Hmap.
  apply Forall_cons in Hall as [Hp Hall]. constructor; [rewrite He; exact Hp|].
  eapply IH; eassumption.
Qed.

(** X26. The stages that follow [populate_plot_entries] work in place:
    [check_setpoint_events], [setup_gas_sensor_pressure], [fill_o2_values]
    and [calculate_sac], run one after the other as [create_plot_info_new]
    does, add or drop no entry and change neither the time nor the depth of
    any entry; so a series in time order stays in time order.  Of the dive
    computer only the dive mode may change. *)
Theorem fast_stages_frame (d : dive.t) (dc : divecomputer.t) (es : list plot_data) :
  List.length (snd (fast_stages d dc es)) = List.length es /\
  secs (snd (fast_stages d dc es)) = secs es /\
  map depth (snd (fast_stages d dc es)) = map depth es /\
  (nondecreasing (secs es) -> nondecreasing (secs (snd (fast_stages d dc es)))) /\
  divecomputer.events (fst (fast_stages d dc es)) = divecomputer.events dc /\
  divecomputer.sample (fst (fast_stages d dc es)) = divecomputer.sample dc /\
  divecomputer.no_o2sensors (fst (fast_stages d dc es)) = divecomputer.no_o2sensors dc.
Proof.
  unfold fast_stages.
  pose proof (check_setpoint_events_same dc es) as H1.
  pose proof (check_setpoint_events_divemode dc es) as (_ & Hn & Hev & Hsa).
  destruct (check_setpoint_events dc es) as [dc1 es1]. cbn [fst snd] in *.
  set (es2 := setup_gas_sensor_pressure _ _ _ d dc1 es1).
  set (es3 := fill_o2_values depth_to_mbar dc1 es2).
  set (es4 := Sac.calculate_sac _ _ _ _ _ _ _ _ _ _ es3).
  assert (Hsec : secs es4 = secs es).
  { unfold secs, es4. rewrite (blank_keeps _ sec es3); [| |apply calculate_sac_blank].
    2:{ intros e. apply Sac.blank_reads. }
    destruct (fill_o2_values_frame depth_to_mbar dc1 es2) as (_ & Hs & _).
    unfold secs in Hs. fold es3 in Hs. rewrite Hs. unfold es2.
    rewrite setup_gas_sensor_pressure_keeps by (intros; destruct e; reflexivity).
    symmetry. apply Forall2_same_secs, H1. }
  assert (Hdepth : map depth es4 = map depth es).
  { unfold es4. rewrite (blank_keeps _ depth es3); [| |apply calculate_sac_blank].
    2:{ intros e. apply Sac.blank_reads. }
    destruct (fill_o2_values_frame depth_to_mbar dc1 es2) as (_ & _ & Hd).
    fold es3 in Hd. rewrite Hd. unfold es2.
    rewrite setup_gas_sensor_pressure_keeps by (intros; destruct e; reflexivity).
    clear -H1. induction H1 as [|a b l1 l2 Hab _ IH]; [reflexivity|].
    simpl. f_equal; [|exact IH]. unfold same_but_o2pressure in Hab.
    apply (f_equal depth) in Hab. destruct a, b. simpl in Hab. simpl. congruence. }
  split; [|split; [exact Hsec|split; [exact Hdepth|split; [|tauto]]]].
  - apply (f_equal (@List.length _)) in Hsec. unfold secs in Hsec.
    rewrite !List.length_map in Hsec. exact Hsec.
  - intros Hs. rewrite Hsec. exact Hs.
Qed.

(** X27. A dive that was recorded without oxygen sensors but has
    setpoint changes is plotted as a closed-circuit dive at the setpoint.
    For a series in time order in which no entry has a sensor reading, and
    "SP change" events in time order of which one at least has a value
    that is not zero, [check_setpoint_events] switches the dive mode to CCR
    and, once [fill_o2_values] has run, the oxygen pressure of every entry
    is the setpoint in force at its time (the value of the last "SP change"
    event before it, 0 before the first), cut down to the ambient pressure
    [depth_to_mbar(depth)] where that is lower. *)
Theorem fast_stages_setpoint (d : dive.t) (dc : divecomputer.t) (es : list plot_data) :
  nondecreasing (secs es) ->
  Forall (fun e => sec e <= INT_MAX) es ->
  Forall (fun e => o2sensor e = [0; 0; 0]) es ->
  nondecreasing (times (sp_changes (divecomputer.events dc))) ->
  existsb (fun e => negb (event.value e =? 0)) (sp_changes (divecomputer.events dc)) = true ->
  divecomputer.divemode (fst (fast_stages d dc es)) = CCR /\
  map o2pressure (snd (fast_stages d dc es))
  = map (fun e => MIN (setpoint_before (sp_changes (divecomputer.events dc)) (sec e))
                      (depth_to_mbar (depth e))) es.
Proof.
  intros Hs Hmax Hzero Hsp Hnz. unfold fast_stages.
  assert (Hsome : sp_changes (divecomputer.events dc) <> []).
  { intros H. rewrite H in Hnz. discriminate. }
  pose proof (check_setpoint_events_map dc es Hs Hmax Hsp Hsome) as H1.
  pose proof (check_setpoint_events_divemode dc es) as (Hmode & _).
  rewrite Hnz in Hmode.
  destruct (check_setpoint_events dc es) as [dc1 es1]. cbn [fst snd] in *.
  split; [exact Hmode|].
  set (spb := setpoint_before (sp_changes (divecomputer.events dc))) in *.
  set (es2 := setup_gas_sensor_pressure _ _ _ d dc1 es1).
  assert (Hsens : Forall (fun e => o2sensor e = [0; 0; 0]) es2).
  { apply (Forall_by_map _ o2sensor (fun l => l = [0; 0; 0]) es es2); [|exact Hzero].
    unfold es2. rewrite setup_gas_sensor_pressure_keeps by (intros; destruct e; reflexivity).
    rewrite H1, map_map. apply map_ext. intros e. apply o2sensor_set_o2pressure. }
  rewrite (blank_keeps _ o2pressure _ _ ltac:(intros e; destruct e; reflexivity)
             (calculate_sac_blank _)).
  unfold fill_o2_values, has_o2_sensors. rewrite Hmode. cbn [divemode_eqb orb].
  rewrite (fill_loop_no_reading depth_to_mbar _ true es2 Hsens), map_map.
  cbn beta.
  transitivity (map (fun e => MIN (o2pressure e) (depth_to_mbar (depth e))) es2).
  { apply map_ext. intros e.
    rewrite O2Values.o2pressure_set_o2pressure. reflexivity. }
  unfold es2.
  rewrite (setup_gas_sensor_pressure_keeps _
             (fun e => MIN (o2pressure e) (depth_to_mbar (depth e))))
    by (intros; destruct e; reflexivity).
  rewrite H1, map_map. apply map_ext. intros e.
  rewrite Setpoints.o2pressure_set, O2Values.depth_set_o2pressure. reflexivity.
Qed.

End Stages.

(** The dive of [setpoint_dive], recorded as open circuit with setpoints of
    700 and 1300 mbar: at the surface the setpoint is cut down to the
    ambient pressure. *)
Definition setpoint_stages : divecomputer.t * list plot_data :=
  fast_stages 2 starts_on_first no_gaschange surface_mbar 750 Sac.tank_volume
    Sac.sea_level_atm 0 bool false Sac.toy_same_gasmix Sac.toy_cylinder_gasmix
    Sac.toy_get_gasmix Limits.short_dive_record setpoint_dive setpoint_series.

Example setpoint_stages_o2pressure :
  map (fun e => (sec e, depth e, o2pressure e)) (snd setpoint_stages)
  = [(0, 0, 0); (0, 0, 0); (0, 0, 0); (10, 1000, 0); (12, 1200, 0); (15, 1500, 700);
     (20, 2000, 700); (22, 2200, 700); (30, 3000, 1300); (31, 0, 1013); (32, 0, 1013)].
Proof. vm_compute. reflexivity. Qed.

Lemma fast_stages_setpoint_witness :
  divecomputer.divemode (fst setpoint_stages) = CCR /\
  map o2pressure (snd setpoint_stages)
  = map (fun e => MIN (setpoint_before [setpoint_change 12 700; setpoint_change 22 1300] (sec e))
                      (surface_mbar (depth e))) setpoint_series.
Proof.
  assert (Hsec : secs setpoint_series = [0; 0; 0; 10; 12; 15; 20; 22; 30; 31; 32])
    by (vm_compute; reflexivity).
  apply (fast_stages_setpoint 2 starts_on_first no_gaschange surface_mbar 750 Sac.tank_volume
           Sac.sea_level_atm 0 bool false Sac.toy_same_gasmix Sac.toy_cylinder_gasmix
           Sac.toy_get_gasmix Limits.short_dive_record setpoint_dive setpoint_series).
  - rewrite Hsec. unfold nondecreasing. repeat constructor; lia.
  - apply Setpoints.Forall_secs with (P := fun z => z <= INT_MAX).
    rewrite Hsec. unfold INT_MAX. repeat constructor; lia.
  - vm_compute. repeat constructor.
  - unfold nondecreasing. simpl. repeat constructor; lia.
  - reflexivity.
Defined.

End Pipeline.

(** ** What the nested simulation leaves in the entry ([calculate_ndl_tts]) *)

Module NdlTtsFacts.
Import CInt Densify Deco.

(** The entry without the six fields that [calculate_ndl_tts] assigns. *)
Definition without_deco (e : plot_data) : plot_data :=
  set_ndl 0 (set_in_deco_calc false (set_ndl_calc 0 (set_tts_calc 0
    (set_stoptime_calc 0 (set_stopdepth_calc 0 e))))).

(** What the loops of the simulation keep of an entry: everything but the
    time to surface and the time of the first stop, which only grow, the
    stop time by whole minutes and never by more than the time to surface
    does. *)
Definition keeps_stop (e e' : plot_data) : Prop :=
  without_deco e' = without_deco e /\
  ndl e' = ndl e /\ ndl_calc e' = ndl_calc e /\
  in_deco_calc e' = in_deco_calc e /\
  stopdepth_calc e' = stopdepth_calc e /\
  (exists m, 0 <= m /\ stoptime_calc e' = stoptime_calc e + m * 60 /\
             tts_calc e + m * 60 <= tts_calc e').

Lemma keeps_stop_refl e : keeps_stop e e.
Proof.
  repeat split. exists 0. lia.
Qed.

Lemma keeps_stop_trans e1 e2 e3 : keeps_stop e1 e2 -> keeps_stop e2 e3 -> keeps_stop e1 e3.
Proof.
  intros (Hw & Hn & Hc & Hd & Hs & m & Hm & Ht & Hl) (Hw' & Hn' & Hc' & Hd' & Hs' & m' & Hm' & Ht' & Hl').
  repeat split; try congruence.
  exists (m + m'). lia.
Qed.

Lemma keeps_stop_tts_calc v e : tts_calc e <= v -> keeps_stop e (set_tts_calc v e).
Proof.
  intros Hv. destruct e. repeat split. exists 0. simpl in *. lia.
Qed.

Lemma keeps_stop_minute e :
  keeps_stop e (set_tts_calc (tts_calc e + 60) (set_stoptime_calc (stoptime_calc e + 60) e)).
Proof.
  destruct e. repeat split. exists 1. simpl. lia.
Qed.

Section Facts.

Variable gasmix : Type.
Variable depth_to_bar : Z -> Q.
Variable tissue_tolerance_calc : deco_state -> Q -> Q * deco_state.
Variable deco_allowed_depth : Q -> Q -> bool -> Z.
Variable add_segment : deco_state -> Q -> gasmix -> Z -> Z -> divemode_t -> Z -> deco_state.
Variable ascent_velocity : Z -> Z -> Z -> Z.
Variable bottomsac : Z.
Variable decosac : Z.
Variable mix : gasmix.
Variable surface_pressure : Q.
Variable divemode : divemode_t.

(** The no-deco-limit loop only adds whole minutes to [ndl_calc], and stops
    adding below a minute past [MAX_PROFILE_DECO]. *)
Lemma ndl_loop_spec fuel ds entry ds' entry' :
  ndl_loop gasmix depth_to_bar tissue_tolerance_calc deco_allowed_depth add_segment
    bottomsac mix surface_pressure divemode fuel ds entry = Some (ds', entry') ->
  entry' = set_ndl_calc (ndl_calc entry') entry /\
  exists k, 0 <= k /\ ndl_calc entry' = ndl_calc entry + k * 60 /\
            (0 < k -> ndl_calc entry' < MAX_PROFILE_DECO + 60).
Proof.
  revert ds entry. induction fuel as [|fuel IH]; intros ds entry Heq; [discriminate|].
  cbn [ndl_loop] in Heq.
  destruct (Z.ltb_spec (ndl_calc entry) MAX_PROFILE_DECO) as [Hlt|Hge].
  - destruct (ceiling_at _ _ _ _ ds (depth entry)) as [c ds1].
    destruct (c <=? 0).
    + apply IH in Heq. destruct Heq as (He & k & Hk & Hn & Hb).
      rewrite ndl_calc_set_ndl_calc in Hn. unfold time_stepsize in *. split.
      * rewrite He. destruct entry; reflexivity.
      * exists (k + 1). split; [lia|]. split; [lia|].
        intros _. destruct (Z.eq_dec k 0) as [->|Hk0]; [lia|apply Hb; lia].
    + injection Heq as <- <-. split; [destruct entry; reflexivity|]. exists 0. lia.
  - injection Heq as <- <-. split; [destruct entry; reflexivity|]. exists 0. lia.
Qed.

Lemma ascent_loop_keeps fuel ds entry ascent_depth next_stop ds' entry' next_stop' :
  ascent_loop gasmix depth_to_bar tissue_tolerance_calc deco_allowed_depth add_segment
    ascent_velocity decosac mix surface_pressure divemode fuel ds entry ascent_depth next_stop
  = Some (ds', entry', next_stop') ->
  keeps_stop entry entry' /\ stoptime_calc entry' = stoptime_calc entry /\
  (next_stop' = next_stop \/ exists c, next_stop' = ROUND_UP c deco_stepsize).
Proof.
  revert ds entry ascent_depth next_stop.
  induction fuel as [|fuel IH]; intros ds entry ascent_depth next_stop Heq; [discriminate|].
  cbn [ascent_loop] in Heq.
  destruct (ascent_depth >? next_stop).
  - destruct (ceiling_at _ _ _ _ _ ascent_depth) as [c ds2].
    apply IH in Heq. destruct Heq as (Hk & Hs & Hn). split; [|split].
    + eapply keeps_stop_trans; [|exact Hk]. apply keeps_stop_tts_calc.
      unfold ascent_s_per_step. lia.
    + rewrite Hs. destruct entry; reflexivity.
    + right. destruct Hn as [->|Hn]; [eexists; reflexivity|exact Hn].
  - injection Heq as <- <- <-. split; [apply keeps_stop_refl|]. split; [reflexivity|].
    left. reflexivity.
Qed.

Lemma travel_loop_keeps fuel ds entry ascent_depth next_stop ds' entry' :
  travel_loop gasmix depth_to_bar add_segment ascent_velocity decosac mix divemode
    fuel ds entry ascent_depth next_stop = Some (ds', entry') ->
  keeps_stop entry entry'.
Proof.
  revert ds entry ascent_depth.
  induction fuel as [|fuel IH]; intros ds entry ascent_depth Heq; [discriminate|].
  cbn [travel_loop] in Heq.
  destruct (ascent_depth >? next_stop).
  - apply IH in Heq. eapply keeps_stop_trans; [|exact Heq].
    apply keeps_stop_tts_calc. unfold ascent_s_per_deco_step. lia.
  - injection Heq as <- <-. apply keeps_stop_refl.
Qed.

Lemma tts_loop_keeps fuel travel ds entry ascent_depth next_stop ds' entry' :
  tts_loop gasmix depth_to_bar tissue_tolerance_calc deco_allowed_depth add_segment
    ascent_velocity decosac mix surface_pressure divemode fuel travel ds entry
    ascent_depth next_stop = Some (ds', entry') ->
  keeps_stop entry entry'.
Proof.
  revert ds entry ascent_depth next_stop.
  induction fuel as [|fuel IH]; intros ds entry ascent_depth next_stop Heq; [discriminate|].
  cbn [tts_loop] in Heq.
  destruct (next_stop >=? 0); [|injection Heq as <- <-; apply keeps_stop_refl].
  set (entry1 := if ascent_depth =? stopdepth_calc entry then _ else entry) in Heq.
  assert (H2 : keeps_stop entry (set_tts_calc (tts_calc entry1 + time_stepsize) entry1)).
  { unfold entry1, time_stepsize. destruct (ascent_depth =? stopdepth_calc entry).
    - rewrite tts_calc_set_stoptime_calc. apply keeps_stop_minute.
    - apply keeps_stop_tts_calc. lia. }
  destruct (tts_calc _ >? MAX_PROFILE_DECO); [injection Heq as <- <-; exact H2|].
  destruct (ceiling_at _ _ _ _ _ ascent_depth) as [c ds2].
  destruct (c <=? next_stop).
  - destruct (travel_loop _ _ _ _ _ _ _ travel ds2 _ ascent_depth next_stop)
      as [[ds3 entry3]|] eqn:Htravel; [|discriminate].
    apply travel_loop_keeps in Htravel. apply IH in Heq.
    eapply keeps_stop_trans; [exact H2|]. eapply keeps_stop_trans; [exact Htravel|exact Heq].
  - apply IH in Heq. eapply keeps_stop_trans; [exact H2|exact Heq].
Qed.

(** X28. An entry without a ceiling gets no time to surface and keeps its
    stop and its deco flag.  Shallower than 3 m the limit [MAX_PROFILE_DECO]
    goes to [ndl], the field of the dive computer, and the computed
    [ndl_calc] stays as it was; from 3 m on [ndl] stays and [ndl_calc]
    grows by whole minutes, and once it has grown it is less than a minute
    past [MAX_PROFILE_DECO]. *)
Theorem calculate_ndl_tts_no_ceiling fuel ds entry ds' entry' :
  ROUND_UP (fst (ceiling_at depth_to_bar tissue_tolerance_calc deco_allowed_depth
                   surface_pressure ds (depth entry))) deco_stepsize = 0 ->
  calculate_ndl_tts gasmix depth_to_bar tissue_tolerance_calc deco_allowed_depth add_segment
    ascent_velocity bottomsac decosac mix surface_pressure divemode fuel ds entry
  = Some (ds', entry') ->
  tts_calc entry' = 0 /\
  in_deco_calc entry' = in_deco_calc entry /\
  stoptime_calc entry' = stoptime_calc entry /\
  stopdepth_calc entry' = stopdepth_calc entry /\
  (depth entry < 3000 ->
   ndl entry' = MAX_PROFILE_DECO /\ ndl_calc entry' = ndl_calc entry) /\
  (3000 <= depth entry ->
   ndl entry' = ndl entry /\
   exists k, 0 <= k /\ ndl_calc entry' = ndl_calc entry + k * 60 /\
             (0 < k -> ndl_calc entry' < MAX_PROFILE_DECO + 60)).
Proof.
  intros Hstop Heq. unfold calculate_ndl_tts in Heq.
  destruct (ceiling_at _ _ _ _ ds (depth entry)) as [c ds0]. cbn [fst] in Hstop.
  rewrite Hstop in Heq. cbn [Z.eqb] in Heq.
  replace (depth (set_tts_calc 0 entry)) with (depth entry) in Heq
    by (destruct entry; reflexivity).
  destruct (Z.ltb_spec (depth entry) 3000) as [Hlt|Hge].
  - injection Heq as <- <-. destruct entry. simpl in *. repeat split; lia.
  - apply ndl_loop_spec in Heq. destruct Heq as (He & k & Hk & Hn & Hb).
    rewrite He. destruct entry. simpl in *. repeat split; try lia.
    exists k. repeat split; lia.
Qed.

(** X29. An entry with a ceiling is flagged as in deco and keeps both of
    its no-deco limits.  Its stop depth is a whole number of 3 m steps, its
    stop time a whole number of minutes, and the stop time is part of the
    time to surface. *)
Theorem calculate_ndl_tts_in_deco fuel ds entry ds' entry' :
  ROUND_UP (fst (ceiling_at depth_to_bar tissue_tolerance_calc deco_allowed_depth
                   surface_pressure ds (depth entry))) deco_stepsize <> 0 ->
  calculate_ndl_tts gasmix depth_to_bar tissue_tolerance_calc deco_allowed_depth add_segment
    ascent_velocity bottomsac decosac mix surface_pressure divemode fuel ds entry
  = Some (ds', entry') ->
  in_deco_calc entry' = true /\
  ndl entry' = ndl entry /\ ndl_calc entry' = ndl_calc entry /\
  (exists k, stopdepth_calc entry' = k * deco_stepsize) /\
  (exists m, 0 <= m /\ stoptime_calc entry' = m * 60) /\
  0 <= stoptime_calc entry' <= tts_calc entry'.
Proof.
  intros Hstop Heq. unfold calculate_ndl_tts in Heq.
  destruct (ceiling_at _ _ _ _ ds (depth entry)) as [c ds0]. cbn [fst] in Hstop.
  destruct (Z.eqb_spec (ROUND_UP c deco_stepsize) 0) as [H0|_]; [contradiction|].
  destruct (ascent_loop _ _ _ _ _ _ _ _ _ _ fuel ds0 _ _ _) as [[[ds1 entry1] next_stop1]|]
    eqn:Hascent; [|discriminate].
  apply ascent_loop_keeps in Hascent. destruct Hascent as (Hk1 & _ & Hn).
  apply tts_loop_keeps in Heq.
  destruct Hk1 as (_ & Hn1 & Hc1 & Hd1 & _ & m1 & Hm1 & _ & Ht1).
  destruct Heq as (_ & Hn2 & Hc2 & Hd2 & Hs2 & m2 & Hm2 & Hst2 & Ht2).
  assert (Hround : exists k, next_stop1 = k * deco_stepsize).
  { destruct Hn as [->|[c' ->]]; eexists; unfold ROUND_UP; reflexivity. }
  destruct entry, entry1. simpl in *.
  split; [congruence|]. split; [congruence|]. split; [congruence|].
  split; [rewrite Hs2; exact Hround|]. split; [exists m2; lia|lia].
Qed.

(** X30. [calculate_ndl_tts] assigns six fields of the entry ([ndl],
    [in_deco_calc], [ndl_calc], [tts_calc], [stoptime_calc] and
    [stopdepth_calc]) and no other: not the time, the depth, the pressures
    or what the dive computer reported of its own stops. *)
Theorem calculate_ndl_tts_frame fuel ds entry ds' entry' :
  calculate_ndl_tts gasmix depth_to_bar tissue_tolerance_calc deco_allowed_depth add_segment
    ascent_velocity bottomsac decosac mix surface_pressure divemode fuel ds entry
  = Some (ds', entry') ->
  entry' = set_ndl (ndl entry') (set_in_deco_calc (in_deco_calc entry')
             (set_ndl_calc (ndl_calc entry') (set_tts_calc (tts_calc entry')
               (set_stoptime_calc (stoptime_calc entry')
                 (set_stopdepth_calc (stopdepth_calc entry') entry))))).
Proof.
  intros Heq.
  assert (Hw : without_deco entry' = without_deco entry).
  { unfold calculate_ndl_tts in Heq.
    destruct (ceiling_at _ _ _ _ ds (depth entry)) as [c ds0].
    destruct (ROUND_UP c deco_stepsize =? 0).
    - destruct (depth _ <? 3000).
      + injection Heq as <- <-. destruct entry; reflexivity.
      + apply ndl_loop_spec in Heq. destruct Heq as (-> & _). destruct entry; reflexivity.
    - destruct (ascent_loop _ _ _ _ _ _ _ _ _ _ fuel ds0 _ _ _)
        as [[[ds1 entry1] next_stop1]|] eqn:Hascent; [|discriminate].
      apply ascent_loop_keeps in Hascent. destruct Hascent as ((Hw1 & _) & _).
      apply tts_loop_keeps in Heq. destruct Heq as (Hw2 & _).
      rewrite Hw2. destruct entry1, entry. unfold without_deco in *. simpl in *.
      inversion Hw1. reflexivity. }
  destruct entry', entry. unfold without_deco in Hw. simpl in *.
  inversion Hw. reflexivity.
Qed.

End Facts.

(** A diver at 20 m whose ceiling has gone: the limit of two hours is
    reached a minute at a time. *)
Definition cleared_state : deco_state := set_deco_time 600 fresh_state.

Example cleared_simulation :
  option_map (fun r => (ndl_calc (snd r), ndl (snd r), tts_calc (snd r)))
    (calculate_ndl_tts unit toy_depth_to_bar toy_tolerance toy_ceiling toy_segment toy_velocity
       0 0 tt 1 OC (Z.to_nat 8000) cleared_state at_twenty_metres)
  = Some (7200, 0, 0).
Proof. vm_compute. reflexivity. Qed.

Lemma calculate_ndl_tts_no_ceiling_witness :
  exists ds' entry',
    calculate_ndl_tts unit toy_depth_to_bar toy_tolerance toy_ceiling toy_segment toy_velocity
      0 0 tt 1 OC (Z.to_nat 8000) cleared_state at_twenty_metres = Some (ds', entry') /\
    tts_calc entry' = 0 /\ ndl entry' = 0 /\ ndl_calc entry' = 7200.
Proof.
  set (r := calculate_ndl_tts unit toy_depth_to_bar toy_tolerance toy_ceiling toy_segment
              toy_velocity 0 0 tt 1 OC (Z.to_nat 8000) cleared_state at_twenty_metres).
  assert (Hr : r = Some (fst (default (fresh_state, at_twenty_metres) r),
                         snd (default (fresh_state, at_twenty_metres) r)))
    by (vm_compute; reflexivity).
  destruct (calculate_ndl_tts_no_ceiling unit toy_depth_to_bar toy_tolerance toy_ceiling
              toy_segment toy_velocity 0 0 tt 1 OC (Z.to_nat 8000) cleared_state
              at_twenty_metres _ _ ltac:(vm_compute; reflexivity) Hr)
    as (Htts & _ & _ & _ & _ & Hdeep).
  destruct (Hdeep ltac:(vm_compute; discriminate)) as (Hndl & _).
  eexists _, _. split; [exact Hr|]. split; [exact Htts|]. split; [exact Hndl|].
  vm_compute. reflexivity.
Defined.

Lemma calculate_ndl_tts_in_deco_witness :
  exists ds' entry',
    calculate_ndl_tts unit toy_depth_to_bar toy_tolerance toy_ceiling toy_segment toy_velocity
      0 0 tt 1 OC (Z.to_nat 8000) fresh_state at_twenty_metres = Some (ds', entry') /\
    in_deco_calc entry' = true /\ 0 <= stoptime_calc entry' <= tts_calc entry'.
Proof.
  set (r := calculate_ndl_tts unit toy_depth_to_bar toy_tolerance toy_ceiling toy_segment
              toy_velocity 0 0 tt 1 OC (Z.to_nat 8000) fresh_state at_twenty_metres).
  assert (Hr : r = Some (fst (default (fresh_state, at_twenty_metres) r),
                         snd (default (fresh_state, at_twenty_metres) r)))
    by (vm_compute; reflexivity).
  destruct (calculate_ndl_tts_in_deco unit toy_depth_to_bar toy_tolerance toy_ceiling
              toy_segment toy_velocity 0 0 tt 1 OC (Z.to_nat 8000) fresh_state
              at_twenty_metres _ _ ltac:(vm_compute; discriminate) Hr)
    as (Hdeco & _ & _ & _ & _ & Hstop).
  eexists _, _. split; [exact Hr|]. split; [exact Hdeco|exact Hstop].
Defined.

Lemma calculate_ndl_tts_frame_witness :
  exists ds' entry',
    calculate_ndl_tts unit toy_depth_to_bar toy_tolerance toy_ceiling toy_segment toy_velocity
      0 0 tt 1 OC (Z.to_nat 8000) fresh_state at_twenty_metres = Some (ds', entry') /\
    entry' = set_ndl (ndl entry') (set_in_deco_calc (in_deco_calc entry')
               (set_ndl_calc (ndl_calc entry') (set_tts_calc (tts_calc entry')
                 (set_stoptime_calc (stoptime_calc entry')
                   (set_stopdepth_calc (stopdepth_calc entry') at_twenty_metres))))).
Proof.
  set (r := calculate_ndl_tts unit toy_depth_to_bar toy_tolerance toy_ceiling toy_segment
              toy_velocity 0 0 tt 1 OC (Z.to_nat 8000) fresh_state at_twenty_metres).
  assert (Hr : r = Some (fst (default (fresh_state, at_twenty_metres) r),
                         snd (default (fresh_state, at_twenty_metres) r)))
    by (vm_compute; reflexivity).
  eexists _, _. split; [exact Hr|].
  exact (calculate_ndl_tts_frame unit toy_depth_to_bar toy_tolerance toy_ceiling
           toy_segment toy_velocity 0 0 tt 1 OC (Z.to_nat 8000) fresh_state
           at_twenty_metres _ _ Hr).
Defined.

End NdlTtsFacts.
